(* ===== verification/_CoqProject ===== *)
-Q . S2P
Prelude.v
GoStd.v
Utf8.v
Json.v
JsonText.v
JsonFuel.v
Strconv.v
Sql.v
Principal.v
Jwt.v
Http.v
Chi.v
Auth.v
Gen.v
Table.v
Satellite.v
SatelliteSpec.v
SatelliteProps.v
User.v
UserSpec.v
UserProps.v
GenServer.v
Server.v
ServerProps.v
Fleet.v
Drain.v
Operator.v
Flags.v
OperatorMain.v
DeepCopy.v
Proc.v
Script.v
Cobra.v
Client.v
CliConfig.v
Cli.v
CliProps.v
Root.v
Wire.v
EndToEnd.v
Deploy.v
Alone.v
AloneCreate.v
Witnesses.v
CliWitnesses.v
DeployWitnesses.v
