(* ===== verification/Prelude.v ===== *)
(** * FleetControl: a verification development

    FleetControl manages a fleet of satellites. A REST server ([api/]) keeps the
    satellites and the user accounts in PostgreSQL; [fleetctl] is its command
    line client; an operator ([operator/]) reconciles [Satellite] resources of a
    Kubernetes cluster. This library models the Go code of the three programs and
    proves what makes them correct. Paths below are relative to the repository.

    * How the parts interact

    A request enters the server through a chi router, which runs the request log,
    then for every route but login, health, version and documentation the bearer
    middleware (which stores a [Principal]), for the user routes a role check, and
    then the generated wrapper, which binds the path id and calls the handler. A
    handler decodes its body, calls its service, which calls a repository, which
    sends SQL statements. [fleetctl] loads its configuration, makes a generated
    client from it, sends one or two requests and prints the answer. The operator
    does not talk to the server: the record of who manages a satellite is the
    column [managed_by], and the request header [X-FleetControl-Operator] is how
    a request claims to be the operator's.

    * The files

    Language and libraries:
    - [Prelude]: notations, tactics, the hint databases [fleet] and [fleet_rw],
      errors ([error], [res]) and generic lemmas;
    - [GoStd], [Utf8], [Strconv], [Json], [JsonText], [JsonFuel], [Flags]: the
      parts of the Go standard library the code uses ([strings], [unicode/utf8], [net/http]'s
      header maps, [strconv], [encoding/json], [flag]), written out and proved
      correct where a claim depends on them;
    - [Sql], [Table]: the tables of [api/internal/db/migrations], SQL statements
      as data with a nondeterministic meaning ([sql_sem]), database programs
      ([prog]), their sequential logic ([wp]) and their rely-guarantee logic
      ([rg]) for requests that run at the same time;
    - [Http], [Chi]: handlers as database programs over a response writer, with
      panics; the router library;
    - [Proc]: programs of a client process over files, terminal and network.

    The server ([api/]):
    - [Principal], [Jwt], [Auth]: [internal/auth] (principals, tokens,
      middleware, login);
    - [Gen], [GenServer]: [gen/models.gen.go], [gen/server.gen.go];
    - [Satellite], [SatelliteSpec], [SatelliteProps]: [internal/satellite]: the
      code; the contract of its repository, on finite maps, with the proof that
      the PostgreSQL repository keeps it; the service and the handlers, proved
      from the contract alone;
    - [User], [UserSpec], [UserProps]: [internal/user], in the same way;
    - [Server], [ServerProps]: [internal/health], [internal/docs],
      [internal/config], [internal/db], [internal/httpserver], [pkg/logger] and
      [cmd/server]: routes, access control, request log, start-up;
    - [Fleet]: any number of requests whose statements interleave;
    - [Drain]: how many statements a request sends, and so a server that takes no
      more of them;
    - [Script]: [scripts/hash.go].

    fleetctl ([fleetctl/] and [api/gen/client.gen.go]):
    - [Client]: the generated client; [CliConfig]: [internal/runtime]; [Cli]:
      the commands of [cmd], [internal/output], [internal/secret]; [CliProps]:
      what the commands send and when;
    - [Cobra], [Root]: the command library, and the tree of commands with the
      command line that runs each.

    The operator ([operator/]):
    - [Operator]: the custom resource and [Reconcile], against an API server
      other clients write to; [DeepCopy]: the generated deep copies, on a heap
      where the metadata has references of its own;
      [OperatorMain]: [api/v1alpha1/groupversion_info.go] and [cmd/main.go].

    Programs together:
    - [Wire]: what one side encodes the other decodes; [EndToEnd]: the client and
      the server speak the same contract; [Deploy]: fleetctl runs against a server
      other people use, over a network that loses what it likes; [Alone],
      [AloneCreate]: the same when nobody else uses the server.
    - [Witnesses], [CliWitnesses], [DeployWitnesses]: theorems with hypotheses
      applied to concrete fleets, machines, deployments and clusters.

    * Correspondence

    Go structs are records with the same fields, interfaces are classes
    ([Repository], [UserRepository], [ClientInterface]) or records of operations
    ([ServerInterface]), and methods are
    definitions of the same name in a Module named after the type where names
    clash ([Service.Update], [UserService.Create], [SatHandler], [UserHandler],
    [Wrapper], [SatelliteCmd], [UserCmd]). Strings are byte sequences. An [error]
    is a sentinel of the code, possibly wrapped, or a foreign error with a text; a
    call that can fail gives [res]. The database is state: a program is a tree of
    statements, and another request may run between any two of them. The clock
    and the entropy of a request, and the time the log measures for it, are readings
    stored in its [Request]. A handler
    ends normally or in a panic. Client programs are trees of calls an environment
    answers in any way, and an [event] list is what a run did. Times are seconds,
    or what the columns keep of them; integers of the code never reach their
    bounds except the sizes the code itself limits, which are written out.

    * What the theorems show

    - Ownership: [Fleet.concurrent_requests_safe] (any interleaving, the tables
      stay well formed, and without the operator header an operator-managed
      satellite keeps everything but its status and when it was last seen), [Deploy.fleetctl_keeps_operator_records] (the same for
      every fleetctl command line), [SatelliteProps.update_handler_spec],
      [delete_handler_spec] (the check on every branch).
    - Access: [ServerProps.api_needs_token], [users_need_admin],
      [Auth.authentication_gate], [login_sound], [Jwt.accepted_token_sound],
      [human_token_lifetime], [tokens_bound_to_configuration],
      [Principal.principal_validation_exact],
      [UserProps.created_account_can_log_in].
    - Behaviour of each operation on every branch: the [_handler_spec] theorems;
      refinement: [SatelliteProps.postgres_refines_contract].
    - Routing: [ServerProps.router_serves_table], [router_serves_contract],
      [unbindable_id_panics]; start-up: [startup_checked],
      [OperatorMain.operator_startup_checked]; bounds on the statements of a
      request: [Drain.requests_finish].
    - The client: [CliProps.requests_obey_configuration],
      [delete_command_asks_first], [login_takes_effect],
      [Root.command_line_runs_command], [CliConfig.config_round_trip],
      [EndToEnd.client_speaks_contract],
      [Wire.answers_understood], [request_bodies_understood],
      [server_errors_shown], [Alone.delete_takes_effect], [get_shows_record],
      [AloneCreate.create_takes_effect].
    - The operator: [Operator.reconcile_safe], [reconcile_settles],
      [DeepCopy.list_deep_copy_independent].

    * Parameters

    Code that is not in the repository is a class with the operations the code
    calls, and a second class ([...Ok]) with the documented behaviour that is
    relied on: golang-jwt ([JWTLib]), bcrypt ([BcryptLib]), google/uuid
    ([UuidLib]), pgx and PostgreSQL ([Postgres], whose statements follow
    [sql_sem] or fail), go-chi ([ChiLib]), oapi-codegen's parameter binding and
    styling with [net/url] ([BindLib], [ClientLib]), the Unicode tables
    ([UnicodeTables]), the text form of times ([TimeText]), controller-runtime,
    apimachinery and their scheme ([K8sLib], [SchemeLib]), the deep copies of the
    metadata ([MetaLib]: they succeed, mean the same and reach only new cells), cobra ([CobraLib]). Each has a concrete
    instance ([RefJWT], [RefLib], [RefChi], ..., [Sql.Mem]) that satisfies its
    laws; the witnesses use them.

    * Bounds and fuel

    - [GoStd.runes_fuel] runs on the length of the string: every rune takes a byte
      ([Utf8.runes_fuel_enough]). [Strconv.unquote_loop] and [Json.parse_string]
      run on the length of their text, every step consumes a byte of it.
    - [Json.parse_value] runs on [parse_fuel], twice the length of the text, and
      [JsonFuel.parse_fuel_enough] proves that more changes no answer, on any
      text. The nesting limit of [encoding/json], 10000, is the library's own and
      is modelled.
    - The line limit of the configuration scanner, 64 KiB, is the code's own; a
      longer line is the failure [config_round_trip] describes.
    - Statements per request, calls per command and writes per reconciliation are
      bounded by structure: programs are finite trees.

    * Not modelled

    The connections of the database pool: waiting for one, and giving it back by
    closing the rows (a statement is answered or fails);
    the help texts and completions of cobra; zap's encoding of the log; closing
    the pool and syncing the log when the server exits; the JSON of times outside
    the years RFC 3339 allows; retries and redirects of [net/http]'s client (a request is
    sent at most once); panics of [flag] on a flag defined twice; contexts (a
    cancelled one is a failing call); [agent/], which has no code; Helm, Argo CD,
    Prometheus and Grafana files; tests. *)

From stdpp Require Export base tactics option list strings numbers decidable sorting gmap pretty.
From Stdlib Require Export Ascii ZArith Lia.

#[global] Set Default Proof Using "Type".
#[global] Open Scope string_scope.
#[global] Open Scope list_scope.

Declare Scope fleet_scope.
Delimit Scope fleet_scope with fleet.
#[global] Open Scope fleet_scope.

Create HintDb fleet.
Create Rewrite HintDb fleet_rw.

(** Concatenation computes on a literal head. *)
#[global] Arguments String.append !s1 s2 : simpl nomatch.

(** ** Errors and results *)

(** The package-level error variables of the repository ([errors.New] values,
    compared by identity), pgx's [ErrNoRows], which the repositories test, and
    [io.EOF], which fleetctl tests. *)
Inductive sentinel :=
| ErrInvalidPrincipal
| ErrInvalidJWTConfig
| ErrInvalidToken
| ErrManagedByOperator
| ErrInvalidRole
| ErrNoRows
| EOF.

#[global] Instance sentinel_eq_dec : EqDecision sentinel.
Proof. solve_decision. Defined.

Definition sentinel_text (s : sentinel) : string :=
  match s with
  | ErrInvalidPrincipal => "invalid principal"
  | ErrInvalidJWTConfig => "invalid JWT configuration"
  | ErrInvalidToken => "invalid human token"
  | ErrManagedByOperator => "satellite is managed by operator and cannot be edited manually"
  | ErrInvalidRole => "role must be one of: admin, viewer"
  | ErrNoRows => "no rows in result set"
  | EOF => "EOF"
  end.

(** A Go error value: a sentinel, an opaque error known only by its text
    ([errors.New] at a use site, [fmt.Errorf] without [%w], an error of another
    library), or [fmt.Errorf] with one [%w] verb, which wraps [inner] between
    the literal text around the verb. *)
Inductive error :=
| Sentinel (s : sentinel)
| Foreign (text : string)
| Wrapped (before : string) (inner : error) (after : string).

#[global] Instance error_eq_dec : EqDecision error.
Proof. solve_decision. Defined.

(** [err.Error()]. *)
Fixpoint Error (e : error) : string :=
  match e with
  | Sentinel s => sentinel_text s
  | Foreign text => text
  | Wrapped before inner after => before +:+ Error inner +:+ after
  end.

(** [errors.Is(err, target)] for a sentinel target: walk the [Unwrap] chain. *)
Fixpoint errors_Is (e : error) (target : sentinel) : bool :=
  match e with
  | Sentinel s => bool_decide (s = target)
  | Foreign _ => false
  | Wrapped _ inner _ => errors_Is inner target
  end.

(** A Go [(T, error)] pair: the value is meaningful when the error is nil. *)
Inductive res (A : Type) :=
| Ok (a : A)
| Err (e : error).
Arguments Ok {_} _.
Arguments Err {_} _.

#[global] Instance res_eq_dec `{EqDecision A} : EqDecision (res A).
Proof. solve_decision. Defined.

#[global] Instance res_ret : MRet res := fun _ a => Ok a.
#[global] Instance res_bind : MBind res := fun _ _ f r =>
  match r with Ok a => f a | Err e => Err e end.
#[global] Instance res_fmap : FMap res := fun _ _ f r =>
  match r with Ok a => Ok (f a) | Err e => Err e end.

Definition is_ok {A} (r : res A) : bool :=
  match r with Ok _ => true | Err _ => false end.

Definition res_of_option {A} (e : error) (o : option A) : res A :=
  match o with Some a => Ok a | None => Err e end.

(** ** Tactics *)

(** Case analysis on the [match]es of a goal or of the hypotheses, closing the
    branches a contradiction rules out. *)
Ltac split_matches :=
  repeat first [ progress simplify_eq/= | case_match; simplify_eq/=; try done ].

(** Turn boolean tests of the model into propositions. *)
Ltac to_prop :=
  repeat match goal with
  | H : bool_decide _ = true |- _ => apply bool_decide_eq_true in H
  | H : bool_decide _ = false |- _ => apply bool_decide_eq_false in H
  | H : andb _ _ = true |- _ => apply andb_true_iff in H as [? ?]
  | H : orb _ _ = false |- _ => apply orb_false_iff in H as [? ?]
  | H : negb _ = true |- _ => apply negb_true_iff in H
  | H : negb _ = false |- _ => apply negb_false_iff in H
  | H : String.eqb _ _ = true |- _ => apply String.eqb_eq in H
  | H : String.eqb _ _ = false |- _ => apply String.eqb_neq in H
  end.

(** ** Generic lemmas *)

Lemma res_bind_Ok {A B} (f : A -> res B) (r : res A) b :
  r ≫= f = Ok b <-> exists a, r = Ok a /\ f a = Ok b.
Proof. destruct r; cbn; split; [eauto|intros (?&[= ->]&?); done|done|by intros (?&?&?)]. Qed.

Lemma alter_present `{Countable K} {A} (f : A -> A) (k : K) (m : gmap K A) a :
  m !! k = Some a -> alter f k m = <[k := f a]> m.
Proof.
  intros Hk. apply map_eq. intros j. rewrite lookup_alter, lookup_insert.
  case_decide; [|done]. subst. by rewrite Hk.
Qed.

Lemma elem_of_map {A B} (g : A -> B) (l : list A) b :
  b ∈ map g l <-> exists a, g a = b /\ a ∈ l.
Proof. rewrite list_elem_of_In, in_map_iff. by setoid_rewrite <- list_elem_of_In. Qed.

Lemma elem_of_filter_bool {A} (f : A -> bool) (l : list A) a :
  a ∈ List.filter f l <-> a ∈ l /\ f a = true.
Proof. by rewrite !list_elem_of_In, filter_In. Qed.

Lemma NoDup_map_filter {A B} (g : A -> B) (f : A -> bool) (l : list A) :
  NoDup (map g l) -> NoDup (map g (List.filter f l)).
Proof.
  induction l as [|a l IH]; cbn; [done|]. intros [Hni Hnd]%NoDup_cons.
  destruct (f a); [|by apply IH]. cbn. apply NoDup_cons. split; [|by apply IH].
  rewrite elem_of_map in Hni |- *. intros (b & ? & [? _]%elem_of_filter_bool). eauto.
Qed.

Lemma append_nil_r (s : string) : s +:+ "" = s.
Proof. induction s as [|c s IH]; [done|]; cbn. by f_equal. Qed.

Lemma append_assoc (s t u : string) : s +:+ (t +:+ u) = (s +:+ t) +:+ u.
Proof. induction s as [|c s IH]; [done|]; cbn. by f_equal. Qed.

Lemma length_append (s t : string) :
  String.length (s +:+ t) = String.length s + String.length t.
Proof. induction s as [|c s IH]; [done|]; cbn. by f_equal. Qed.

Lemma append_inj_r (s t u : string) : s +:+ t = s +:+ u -> t = u.
Proof. induction s as [|c s IH]; [done|]. intros H. apply IH. by injection H. Qed.

#[export] Hint Rewrite append_nil_r length_append : fleet_rw.
