(* ===== verification/GoStd.v ===== *)
(** * GoStd: the parts of the Go language and standard library the repository uses

    Go strings are byte sequences ([String.string], one [ascii] per byte).
    Modelled here: UTF-8 decoding ([unicode/utf8]), the functions of [strings],
    and the canonical header keys and header maps of [net/http]. *)

From S2P Require Import Prelude.
Local Open Scope N_scope.

(** ** Bytes *)

Definition byte (c : ascii) : N := N_of_ascii c.

Definition in_range (lo hi b : N) : bool := (lo <=? b) && (b <=? hi).

Definition chr (b : N) : string := String (ascii_of_N b) "".

(** The double quote, and text written with single quotes for it. *)
Definition dquote : ascii := ascii_of_N 34.

Fixpoint dq (s : string) : string :=
  match s with
  | "" => ""
  | String c s => String (if Ascii.eqb c "'"%char then dquote else c) (dq s)
  end.

Fixpoint str_take (n : nat) (s : string) : string :=
  match n, s with
  | S n, String c s => String c (str_take n s)
  | _, _ => ""
  end.

Fixpoint str_drop (n : nat) (s : string) : string :=
  match n, s with
  | O, _ => s
  | S n, String _ s => str_drop n s
  | S _, "" => ""
  end.

Fixpoint str_concat (l : list string) : string :=
  match l with [] => "" | s :: l => s +:+ str_concat l end.

(** ** unicode/utf8 *)

Definition RuneError : N := 65533.

(** [utf8.DecodeRuneInString]: the rune at the head of the string and its width
    in bytes; [(RuneError, 0)] on the empty string and [(RuneError, 1)] on an
    invalid encoding (overlong forms, surrogates and values above U+10FFFF
    included: they are excluded by the range of the second byte). *)
Definition DecodeRune (s : string) : N * nat :=
  match s with
  | "" => (RuneError, O)
  | String c0 s0 =>
    let b0 := byte c0 in
    if b0 <? 128 then (b0, 1%nat)
    else if (b0 <? 194) || (244 <? b0) then (RuneError, 1%nat)
    else match s0 with
    | "" => (RuneError, 1%nat)
    | String c1 s1 =>
      let b1 := byte c1 in
      if b0 <? 224 then
        if in_range 128 191 b1 then ((b0 - 192) * 64 + (b1 - 128), 2%nat)
        else (RuneError, 1%nat)
      else
        let lo := if b0 =? 224 then 160 else if b0 =? 240 then 144 else 128 in
        let hi := if b0 =? 237 then 159 else if b0 =? 244 then 143 else 191 in
        if negb (in_range lo hi b1) then (RuneError, 1%nat)
        else match s1 with
        | "" => (RuneError, 1%nat)
        | String c2 s2 =>
          let b2 := byte c2 in
          if negb (in_range 128 191 b2) then (RuneError, 1%nat)
          else if b0 <? 240 then
            ((b0 - 224) * 4096 + (b1 - 128) * 64 + (b2 - 128), 3%nat)
          else match s2 with
          | "" => (RuneError, 1%nat)
          | String c3 _ =>
            let b3 := byte c3 in
            if negb (in_range 128 191 b3) then (RuneError, 1%nat)
            else ((b0 - 240) * 262144 + (b1 - 128) * 4096 + (b2 - 128) * 64
                  + (b3 - 128), 4%nat)
          end
        end
    end
  end.

(** [utf8.AppendRune] on the empty slice: the encoding of a rune, the encoding
    of U+FFFD for a surrogate or a value out of range. *)
Definition EncodeRune (r : N) : string :=
  if r <? 128 then chr r
  else if r <? 2048 then chr (192 + r / 64) +:+ chr (128 + r mod 64)
  else if (1114111 <? r) || in_range 55296 57343 r then
    chr 239 +:+ chr 191 +:+ chr 189
  else if r <? 65536 then
    chr (224 + r / 4096) +:+ chr (128 + (r / 64) mod 64) +:+ chr (128 + r mod 64)
  else
    chr (240 + r / 262144) +:+ chr (128 + (r / 4096) mod 64)
      +:+ chr (128 + (r / 64) mod 64) +:+ chr (128 + r mod 64).

(** [for i, r := range s]: the runes of a string, each with the bytes it was
    decoded from. Every round consumes at least one byte, so a fuel of
    [String.length s] is enough ([string_runes_concat]). *)
Fixpoint runes_fuel (fuel : nat) (s : string) : list (N * string) :=
  match fuel, s with
  | S fuel, String _ _ =>
      let (r, w) := DecodeRune s in
      (r, str_take w s) :: runes_fuel fuel (str_drop w s)
  | _, _ => []
  end.

Definition string_runes (s : string) : list (N * string) :=
  runes_fuel (String.length s) s.

(** [utf8.ValidString]. *)
Definition ValidString (s : string) : bool :=
  forallb (fun rw => negb ((rw.1 =? RuneError) && Nat.eqb (String.length rw.2) 1))
          (string_runes s).

(** [unicode.IsSpace]. *)
Definition IsSpace (r : N) : bool :=
  in_range 9 13 r || (r =? 32) || (r =? 133) || (r =? 160) || (r =? 5760)
  || in_range 8192 8202 r || (r =? 8232) || (r =? 8233) || (r =? 8239)
  || (r =? 8287) || (r =? 12288).

(** ** strings *)

Fixpoint drop_while {A} (f : A -> bool) (l : list A) : list A :=
  match l with
  | [] => []
  | x :: l' => if f x then drop_while f l' else l
  end.

(** [strings.TrimSpace]: drop the leading, then the trailing white-space runes.
    The trailing end is trimmed on the runes decoded from the front, which are
    the ones [DecodeLastRune] finds from the back: every byte that can start a
    rune starts one in both readings. *)
Definition TrimSpace (s : string) : string :=
  let space (rw : N * string) := IsSpace rw.1 in
  str_concat (map snd (rev (drop_while space (rev (drop_while space (string_runes s)))))).

Definition HasPrefix (s prefix : string) : bool := String.prefix prefix s.

(** [strings.TrimPrefix]. *)
Definition TrimPrefix (s prefix : string) : string :=
  if HasPrefix s prefix then str_drop (String.length prefix) s else s.

Fixpoint has_char (c : ascii) (s : string) : bool :=
  match s with "" => false | String d s => Ascii.eqb c d || has_char c s end.

(** [strings.TrimRight] with a cutset of ASCII bytes. *)
Fixpoint TrimRight (s cutset : string) : string :=
  match s with
  | "" => ""
  | String c s' =>
      let t := TrimRight s' cutset in
      if String.eqb t "" && has_char c cutset then "" else String c t
  end.

(** [strings.SplitN(s, sep, 2)] for a one-byte separator: the text before and
    after the first separator, or [None] when it does not occur (Go then returns
    a slice of one element). *)
Fixpoint SplitN2 (s : string) (sep : ascii) : option (string * string) :=
  match s with
  | "" => None
  | String c s' =>
      if Ascii.eqb c sep then Some ("", s')
      else match SplitN2 s' sep with
           | Some (a, b) => Some (String c a, b)
           | None => None
           end
  end.

(** [strings.Contains]. *)
Fixpoint Contains (s sub : string) : bool :=
  HasPrefix s sub
  || match s with "" => false | String _ s' => Contains s' sub end.

(** ** net/http headers *)

Definition is_upper (c : ascii) : bool := in_range 65 90 (byte c).
Definition is_lower (c : ascii) : bool := in_range 97 122 (byte c).
Definition to_upper (c : ascii) : ascii := if is_lower c then ascii_of_N (byte c - 32) else c.
Definition to_lower (c : ascii) : ascii := if is_upper c then ascii_of_N (byte c + 32) else c.

(** The bytes [textproto] accepts in a header field name (RFC 7230 tokens). *)
Definition is_token (c : ascii) : bool :=
  is_upper c || is_lower c || in_range 48 57 (byte c)
  || has_char c "!#$%&'*+-.^_`|~".

Fixpoint canonical_from (upper : bool) (s : string) : string :=
  match s with
  | "" => ""
  | String c s' =>
      String (if upper then to_upper c else to_lower c)
             (canonical_from (Ascii.eqb c "-"%char) s')
  end.

Fixpoint str_forall (f : ascii -> bool) (s : string) : bool :=
  match s with "" => true | String c s => f c && str_forall f s end.

(** [textproto.CanonicalMIMEHeaderKey]: the first letter and every letter after
    a hyphen in upper case, the others in lower case; a key with a byte that is
    not allowed in a field name is returned unchanged. *)
Definition CanonicalMIMEHeaderKey (s : string) : string :=
  if str_forall is_token s then canonical_from true s else s.

(** [http.Header]: a map from canonical keys to their values. *)
Abbreviation Header := (gmap string (list string)).

(** [Header.Get]: the first value of the key, or the empty string. *)
Definition Header_Get (h : Header) (key : string) : string :=
  match h !! CanonicalMIMEHeaderKey key with
  | Some (v :: _) => v
  | _ => ""
  end.

(** [Header.Set]. *)
Definition Header_Set (h : Header) (key value : string) : Header :=
  <[CanonicalMIMEHeaderKey key := [value]]> h.

(** [Header.Add]. *)
Definition Header_Add (h : Header) (key value : string) : Header :=
  let k := CanonicalMIMEHeaderKey key in
  <[k := default [] (h !! k) ++ [value]]> h.

(** [Header.Del]. *)
Definition Header_Del (h : Header) (key : string) : Header :=
  delete (CanonicalMIMEHeaderKey key) h.

(** ** Lemmas *)

Local Close Scope N_scope.

Lemma str_take_drop n s : str_take n s +:+ str_drop n s = s.
Proof.
  revert s. induction n as [|n IH]; intros [|c s]; cbn; [done..|]. by rewrite IH.
Qed.

Lemma length_str_drop n s : String.length (str_drop n s) = String.length s - n.
Proof.
  revert s. induction n as [|n IH]; intros [|c s]; cbn; [done..|]. by rewrite IH.
Qed.

Lemma str_concat_app l1 l2 : str_concat (l1 ++ l2) = str_concat l1 +:+ str_concat l2.
Proof. induction l1 as [|s l1 IH]; cbn; [done|]. by rewrite IH, append_assoc. Qed.

Lemma DecodeRune_width c s : 1 <= (DecodeRune (String c s)).2.
Proof. cbn. repeat case_match; cbn; lia. Qed.

Lemma runes_fuel_concat n s :
  String.length s <= n -> str_concat (map snd (runes_fuel n s)) = s.
Proof.
  revert s. induction n as [|n IH]; intros [|c s]; try done; [cbn; lia|].
  intros Hn. cbn [runes_fuel].
  pose proof (DecodeRune_width c s) as Hw.
  destruct (DecodeRune (String c s)) as [r w]; cbn [snd] in Hw.
  cbn [map snd str_concat]. rewrite IH; [by rewrite str_take_drop|].
  rewrite length_str_drop. cbn [String.length] in *. lia.
Qed.

(** The runes of a string cover all of its bytes: the fuel is enough. *)
Lemma string_runes_concat s : str_concat (map snd (string_runes s)) = s.
Proof. by apply runes_fuel_concat. Qed.

Definition is_ascii (c : ascii) : bool := (byte c <? 128)%N.

Lemma DecodeRune_ascii c s : is_ascii c = true -> DecodeRune (String c s) = (byte c, 1).
Proof. unfold is_ascii. cbn. by intros ->. Qed.

(** In ASCII text every byte is a rune. *)
Lemma runes_fuel_ascii n s :
  str_forall is_ascii s = true -> String.length s <= n ->
  runes_fuel n s = map (fun c => (byte c, String c "")) (String.list_ascii_of_string s).
Proof.
  revert s. induction n as [|n IH]; intros [|c s]; try done; [cbn; lia|].
  intros [Hc Hs]%andb_true_iff Hn. cbn [runes_fuel].
  rewrite DecodeRune_ascii by done. cbn. rewrite IH; [done|done|].
  cbn in Hn. lia.
Qed.

Lemma ValidString_ascii s : str_forall is_ascii s = true -> ValidString s = true.
Proof.
  intros Hs. unfold ValidString, string_runes. rewrite runes_fuel_ascii by done.
  apply forallb_forall. intros [r w] (c & [= <- <-] & Hc)%in_map_iff.
  assert (is_ascii c = true) as Hb.
  { revert Hc Hs. clear. induction s as [|d s IH]; cbn; [done|].
    intros [->|Hin] [Hd Hs]%andb_true_iff; auto. }
  unfold is_ascii in Hb. cbn. apply N.ltb_lt in Hb.
  destruct (N.eqb_spec (byte c) RuneError) as [Heq|]; [|done].
  rewrite Heq in Hb. unfold RuneError in Hb. lia.
Qed.

Lemma drop_while_last {A} (f : A -> bool) l x :
  f x = false -> exists l', drop_while f (l ++ [x]) = l' ++ [x].
Proof.
  intros Hx. induction l as [|y l IH]; cbn; [rewrite Hx; by exists []|].
  destruct (f y); [done|]. by exists (y :: l).
Qed.

(** Text that starts with an ASCII byte other than white space is not blank. *)
Lemma TrimSpace_head c s :
  is_ascii c = true -> IsSpace (byte c) = false -> TrimSpace (String c s) <> "".
Proof.
  intros Hc Hsp. unfold TrimSpace, string_runes. cbn [String.length runes_fuel].
  rewrite DecodeRune_ascii by done. cbn [drop_while fst snd str_take]. rewrite Hsp.
  cbn [rev]. edestruct (drop_while_last (fun rw : N * string => IsSpace rw.1)) as [l' ->]; [exact Hsp|].
  rewrite rev_app_distr. done.
Qed.

Lemma drop_while_suffix {A} (f : A -> bool) l :
  exists p, l = p ++ drop_while f l /\ Forall (fun x => f x = true) p.
Proof.
  induction l as [|x l (p & Hp & Hf)]; cbn; [by exists []|].
  destruct (f x) eqn:Hx; [|by exists []].
  exists (x :: p). cbn. split; [by f_equal|by constructor].
Qed.

Lemma HasPrefix_app p s : HasPrefix (p +:+ s) p = true.
Proof.
  unfold HasPrefix. induction p as [|c p IH]; [by destruct s|]. cbn.
  by destruct (ascii_dec c c).
Qed.

Lemma HasPrefix_iff s p : HasPrefix s p = true <-> exists u, s = p +:+ u.
Proof.
  split; [|intros [u ->]; apply HasPrefix_app]. unfold HasPrefix.
  revert s. induction p as [|c p IH]; intros s; [by exists s|].
  destruct s as [|d s]; [done|]. cbn. destruct (ascii_dec c d) as [->|]; [|done].
  intros [u ->]%IH. by exists u.
Qed.

Lemma TrimPrefix_app p s : TrimPrefix (p +:+ s) p = s.
Proof.
  unfold TrimPrefix. rewrite HasPrefix_app.
  induction p as [|c p IH]; cbn; auto.
Qed.

Lemma SplitN2_Some s c a b :
  SplitN2 s c = Some (a, b) -> s = a +:+ String c b /\ has_char c a = false.
Proof.
  revert a b. induction s as [|d s IH]; intros a b; cbn; [done|].
  destruct (Ascii.eqb_spec d c) as [->|Hne]; [by intros [= <- <-]|].
  destruct (SplitN2 s c) as [[a' b']|]; [|done]. intros [= <- <-].
  destruct (IH a' b' eq_refl) as [-> ?]. cbn. split; [done|].
  destruct (Ascii.eqb_spec c d); naive_solver.
Qed.

Lemma Header_Get_Set h k v : Header_Get (Header_Set h k v) k = v.
Proof. unfold Header_Get, Header_Set. by rewrite lookup_insert_eq. Qed.

Lemma Header_Get_Set_ne h k k' v :
  CanonicalMIMEHeaderKey k <> CanonicalMIMEHeaderKey k' ->
  Header_Get (Header_Set h k v) k' = Header_Get h k'.
Proof. intros ?. unfold Header_Get, Header_Set. by rewrite lookup_insert_ne. Qed.

#[export] Hint Rewrite TrimPrefix_app Header_Get_Set str_concat_app : fleet_rw.
