(* ===== verification/Utf8.v ===== *)
(** * Utf8: facts about decoding and encoding runes

    A rune that decodes without error is encoded by the bytes it was decoded
    from, and decodes again whatever follows them; this is what makes the
    quoting of strings (in JSON and in Go syntax) reversible. *)

From S2P Require Import Prelude.
From S2P Require Import GoStd.
Local Open Scope N_scope.

Lemma byte_lt c : byte c < 256.
Proof. apply N_ascii_bounded. Qed.

Lemma chr_byte c : chr (byte c) = String c "".
Proof. unfold chr, byte. by rewrite ascii_N_embedding. Qed.

Lemma chr_eq c n : n = byte c -> chr n = String c "".
Proof. intros ->. apply chr_byte. Qed.

Lemma in_range_iff lo hi b : in_range lo hi b = true <-> lo <= b <= hi.
Proof. unfold in_range. rewrite andb_true_iff, !N.leb_le. lia. Qed.

Lemma in_range_false lo hi b : in_range lo hi b = false <-> b < lo \/ hi < b.
Proof. unfold in_range. rewrite andb_false_iff, !N.leb_gt. lia. Qed.

(** The result of decoding is an error of width one. *)
Definition bad_rune (rw : N * nat) : bool := (rw.1 =? RuneError) && Nat.eqb rw.2 1.

(** Turn the tests of the decoder into inequalities. *)
Ltac byte_tests :=
  repeat match goal with
  | H : (_ <? _) = true |- _ => apply N.ltb_lt in H
  | H : (_ <? _) = false |- _ => apply N.ltb_ge in H
  | H : (_ =? _) = true |- _ => apply N.eqb_eq in H
  | H : (_ =? _) = false |- _ => apply N.eqb_neq in H
  | H : _ || _ = false |- _ => apply orb_false_iff in H as [? ?]
  | H : negb _ = false |- _ => apply negb_false_iff in H
  | H : in_range _ _ _ = true |- _ => apply in_range_iff in H
  end.

(** The four shapes of a decoded rune. *)
Inductive decoded : string -> N -> nat -> Prop :=
| decoded1 c0 s : byte c0 < 128 -> decoded (String c0 s) (byte c0) 1
| decoded2 c0 c1 s :
    194 <= byte c0 < 224 -> 128 <= byte c1 <= 191 ->
    decoded (String c0 (String c1 s)) ((byte c0 - 192) * 64 + (byte c1 - 128)) 2
| decoded3 c0 c1 c2 s :
    224 <= byte c0 < 240 ->
    (if byte c0 =? 224 then 160 else 128) <= byte c1 <= (if byte c0 =? 237 then 159 else 191) ->
    128 <= byte c2 <= 191 ->
    decoded (String c0 (String c1 (String c2 s)))
      ((byte c0 - 224) * 4096 + (byte c1 - 128) * 64 + (byte c2 - 128)) 3
| decoded4 c0 c1 c2 c3 s :
    240 <= byte c0 <= 244 ->
    (if byte c0 =? 240 then 144 else 128) <= byte c1 <= (if byte c0 =? 244 then 143 else 191) ->
    128 <= byte c2 <= 191 -> 128 <= byte c3 <= 191 ->
    decoded (String c0 (String c1 (String c2 (String c3 s))))
      ((byte c0 - 240) * 262144 + (byte c1 - 128) * 4096 + (byte c2 - 128) * 64
       + (byte c3 - 128)) 4.

Lemma DecodeRune_decoded s r w :
  DecodeRune s = (r, w) -> s <> "" -> bad_rune (r, w) = false -> decoded s r w.
Proof.
  intros Hd Hs Hbad. destruct s as [|c0 s0]; [done|]. unfold DecodeRune in Hd.
  destruct (byte c0 <? 128) eqn:H0; [injection Hd as <- <-; byte_tests; by constructor|].
  destruct ((byte c0 <? 194) || (244 <? byte c0)) eqn:H1; [by injection Hd as <- <-|].
  destruct s0 as [|c1 s1]; [by injection Hd as <- <-|].
  destruct (byte c0 <? 224) eqn:H2.
  { destruct (in_range 128 191 (byte c1)) eqn:H3; [|by injection Hd as <- <-].
    injection Hd as <- <-. byte_tests. constructor; lia. }
  match type of Hd with context [negb ?x] => destruct x eqn:H3 end; cbn [negb] in Hd;
    [|by injection Hd as <- <-].
  destruct s1 as [|c2 s2]; [by injection Hd as <- <-|].
  destruct (in_range 128 191 (byte c2)) eqn:H4; cbn [negb] in Hd; [|by injection Hd as <- <-].
  destruct (byte c0 <? 240) eqn:H5.
  { injection Hd as <- <-. byte_tests. constructor; [lia| |lia].
    destruct (N.eqb_spec (byte c0) 224), (N.eqb_spec (byte c0) 237), (N.eqb_spec (byte c0) 240),
      (N.eqb_spec (byte c0) 244); lia. }
  destruct s2 as [|c3 s3]; [by injection Hd as <- <-|].
  destruct (in_range 128 191 (byte c3)) eqn:H6; cbn [negb] in Hd; [|by injection Hd as <- <-].
  injection Hd as <- <-. byte_tests. constructor; [lia| |lia|lia].
  destruct (N.eqb_spec (byte c0) 224), (N.eqb_spec (byte c0) 237), (N.eqb_spec (byte c0) 240),
    (N.eqb_spec (byte c0) 244); lia.
Qed.

Lemma ltb_true a b : a < b -> (a <? b) = true.
Proof. apply N.ltb_lt. Qed.
Lemma ltb_false a b : b <= a -> (a <? b) = false.
Proof. apply N.ltb_ge. Qed.
Lemma eqb_false a b : a <> b -> (a =? b) = false.
Proof. apply N.eqb_neq. Qed.
Lemma in_range_true lo hi b : lo <= b <= hi -> in_range lo hi b = true.
Proof. apply in_range_iff. Qed.

(** Evaluate the decoder on bytes whose ranges are known. *)
Ltac byte_eval :=
  repeat first
    [ rewrite ltb_true by lia | rewrite ltb_false by lia
    | rewrite in_range_true by lia | progress cbn [negb orb andb] ].

Lemma decoded_DecodeRune s r w : decoded s r w -> DecodeRune s = (r, w).
Proof.
  intros [c0 t H0|c0 c1 t H0 H1|c0 c1 c2 t H0 H1 H2|c0 c1 c2 c3 t H0 H1 H2 H3];
    unfold DecodeRune; byte_eval; try done.
  - destruct (N.eqb_spec (byte c0) 224), (N.eqb_spec (byte c0) 237); try lia;
      rewrite ?(eqb_false (byte c0) 240), ?(eqb_false (byte c0) 244) by lia; by byte_eval.
  - rewrite (eqb_false (byte c0) 224), (eqb_false (byte c0) 237) by lia.
    destruct (N.eqb_spec (byte c0) 240), (N.eqb_spec (byte c0) 244); try lia; by byte_eval.
Qed.

(** Decoding looks at the bytes of the rune only. *)
Lemma decoded_prefix s r w t : decoded s r w -> decoded (str_take w s +:+ t) r w.
Proof. intros []; cbn; by constructor. Qed.

Lemma decoded_not_surrogate s r w : decoded s r w -> in_range 55296 57343 r = false.
Proof.
  intros []; apply in_range_false; try lia.
  - destruct (N.eqb_spec (byte c0) 224), (N.eqb_spec (byte c0) 237); lia.
  - destruct (N.eqb_spec (byte c0) 240), (N.eqb_spec (byte c0) 244); lia.
Qed.

Lemma decoded_range s r w :
  decoded s r w -> r <= 1114111 /\ match w with
    | 1%nat => r < 128
    | 2%nat => 128 <= r < 2048
    | 3%nat => 2048 <= r < 65536
    | _ => 65536 <= r
    end.
Proof.
  intros []; split; try lia.
  all: repeat match goal with |- context [?a =? ?b] => destruct (N.eqb_spec a b) end;
    repeat match goal with H : context [?a =? ?b] |- _ => destruct (N.eqb_spec a b) end; lia.
Qed.

(** Quotients and remainders of a number given by its digits. *)
Lemma digits_div a b n : b < n -> (a * n + b) / n = a.
Proof. intros Hb. rewrite N.div_add_l, N.div_small by lia. lia. Qed.
Lemma digits_mod a b n : b < n -> (a * n + b) mod n = b.
Proof. intros Hb. rewrite N.add_comm, N.Div0.mod_add, N.mod_small by lia. done. Qed.

Lemma chr_append c n s : n = byte c -> chr n +:+ s = String c s.
Proof. intros Hn. by rewrite (chr_eq c n Hn). Qed.

(** A rune is encoded by the bytes it was decoded from. *)
Lemma decoded_EncodeRune s r w : decoded s r w -> EncodeRune r = str_take w s.
Proof.
  intros Hd. pose proof (decoded_range _ _ _ Hd) as [Hmax Hr].
  pose proof (decoded_not_surrogate _ _ _ Hd) as Hsur. unfold EncodeRune.
  destruct Hd as [c0 t H0|c0 c1 t H0 H1|c0 c1 c2 t H0 H1 H2|c0 c1 c2 c3 t H0 H1 H2 H3];
    cbn [str_take].
  - rewrite ltb_true by lia. apply chr_byte.
  - rewrite ltb_false, ltb_true by lia. rewrite digits_div, digits_mod by lia.
    rewrite (chr_append c0), (chr_eq c1); [done|lia..].
  - rewrite ltb_false, ltb_false, Hsur, ltb_false, ltb_true by lia. cbn [orb].
    set (a := byte c0 - 224). set (b := byte c1 - 128). set (d := byte c2 - 128).
    assert (Ha : a < 16) by lia. assert (Hb : b < 64) by (unfold b; repeat case_match; lia).
    assert (Hb' : 128 <= byte c1) by (repeat case_match; lia).
    assert (Hc : d < 64) by lia.
    replace (a * 4096 + b * 64 + d) with ((a * 64 + b) * 64 + d) by lia.
    rewrite digits_div, !digits_mod by lia.
    replace (((a * 64 + b) * 64 + d) / 4096) with a.
    2: { replace ((a * 64 + b) * 64 + d) with (a * 4096 + (b * 64 + d)) by lia.
         by rewrite digits_div by lia. }
    rewrite (chr_append c0), (chr_append c1), (chr_eq c2); [done|unfold a, b, d in *..]; lia.
  - rewrite ltb_false, ltb_false, Hsur, ltb_false, ltb_false by lia. cbn [orb].
    set (a := byte c0 - 240). set (b := byte c1 - 128). set (d := byte c2 - 128).
    set (e := byte c3 - 128).
    assert (Ha : a < 8) by lia. assert (Hb : b < 64) by (unfold b; repeat case_match; lia).
    assert (Hb' : 128 <= byte c1) by (repeat case_match; lia).
    assert (Hc : d < 64) by lia. assert (He : e < 64) by lia.
    replace (a * 262144 + b * 4096 + d * 64 + e) with (((a * 64 + b) * 64 + d) * 64 + e) by lia.
    rewrite digits_div, !digits_mod by lia.
    replace ((((a * 64 + b) * 64 + d) * 64 + e) / 262144) with a.
    2: { replace (((a * 64 + b) * 64 + d) * 64 + e)
           with (a * 262144 + (b * 4096 + d * 64 + e)) by lia.
         by rewrite digits_div by lia. }
    replace ((((a * 64 + b) * 64 + d) * 64 + e) / 4096) with (a * 64 + b).
    2: { replace (((a * 64 + b) * 64 + d) * 64 + e)
           with ((a * 64 + b) * 4096 + (d * 64 + e)) by lia.
         by rewrite digits_div by lia. }
    rewrite digits_mod by lia.
    rewrite (chr_append c0), (chr_append c1), (chr_append c2), (chr_eq c3);
      [done|unfold a, b, d, e in *..]; lia.
Qed.

(** ** Runes of a string *)

(** What string iteration yields: an undecodable byte, or a rune with its bytes. *)
Inductive rune_of : N * string -> Prop :=
| rune_bad c : 128 <= byte c -> rune_of (RuneError, String c "")
| rune_good r w k : decoded w r k -> k = String.length w -> w = EncodeRune r -> rune_of (r, w).

Lemma str_take_length k s r : decoded s r k -> String.length (str_take k s) = k.
Proof. by intros []. Qed.

Lemma bad_rune_byte c s : bad_rune (DecodeRune (String c s)) = true -> 128 <= byte c.
Proof.
  intros Hbad. destruct (N.lt_ge_cases (byte c) 128) as [Hlt|]; [|done].
  unfold DecodeRune in Hbad. rewrite ltb_true in Hbad by done.
  unfold bad_rune in Hbad. cbn in Hbad. apply andb_true_iff in Hbad as [Heq _].
  apply N.eqb_eq in Heq. unfold RuneError in Heq. lia.
Qed.

Lemma decode_rune_of c s r w :
  DecodeRune (String c s) = (r, w) -> rune_of (r, str_take w (String c s)).
Proof.
  intros Hd. destruct (bad_rune (r, w)) eqn:Hbad.
  - assert (Hb := bad_rune_byte c s). rewrite Hd in Hb. specialize (Hb Hbad).
    unfold bad_rune in Hbad. apply andb_true_iff in Hbad as [Hr Hw]. cbn in Hr, Hw.
    apply N.eqb_eq in Hr. apply Nat.eqb_eq in Hw. subst. cbn. by apply rune_bad.
  - apply DecodeRune_decoded in Hd; [|done|done].
    pose proof (decoded_prefix _ _ _ "" Hd) as Hp. rewrite append_nil_r in Hp.
    apply rune_good with w; [done|symmetry; by eapply str_take_length|].
    symmetry. by apply decoded_EncodeRune.
Qed.

Lemma runes_fuel_rune_of n s : Forall rune_of (runes_fuel n s).
Proof.
  revert s. induction n as [|n IH]; intros [|c s]; cbn [runes_fuel]; try constructor.
  destruct (DecodeRune (String c s)) as [r w] eqn:Hd.
  constructor; [by apply decode_rune_of|apply IH].
Qed.

Lemma string_runes_rune_of s : Forall rune_of (string_runes s).
Proof. apply runes_fuel_rune_of. Qed.

Lemma decoded_head s r k : decoded s r k -> 128 <= r ->
  exists c s', s = String c s' /\ 128 <= byte c.
Proof.
  intros Hd Hr. destruct Hd; eexists _, _; (split; [done|]); lia.
Qed.

Lemma decoded_one s r : decoded s r 1 -> exists c s', s = String c s' /\ r = byte c /\ r < 128.
Proof. inversion 1; eauto. Qed.

Lemma decoded_ascii s r k : decoded s r k -> r < 128 -> k = 1%nat.
Proof. intros Hd Hr. pose proof (decoded_range _ _ _ Hd) as [_ Hk]. destruct Hd; lia || done. Qed.

Lemma EncodeRune_ascii r : r < 128 -> EncodeRune r = chr r.
Proof. intros Hr. unfold EncodeRune. by rewrite ltb_true. Qed.

Lemma str_drop_app k s t : String.length s = k -> str_drop k (s +:+ t) = t.
Proof. revert k. induction s as [|c s IH]; intros [|k]; try done. cbn. intros [= Hk]. by apply IH. Qed.

Lemma str_take_app k s t : String.length s = k -> str_take k (s +:+ t) = s.
Proof.
  revert k. induction s as [|c s IH]; intros [|k]; try done. cbn. intros [= Hk]. by rewrite IH.
Qed.

Lemma decoded_append w r t : decoded w r (String.length w) -> DecodeRune (w +:+ t) = (r, String.length w).
Proof.
  intros Hd. apply decoded_DecodeRune. pose proof (decoded_prefix _ _ _ t Hd) as Hp.
  pose proof (str_take_app _ w "" eq_refl) as Ht. rewrite append_nil_r in Ht. by rewrite Ht in Hp.
Qed.

(** Put a piece of text before what a reader has read. *)
Definition prepend (w : string) (o : option (string * string)) : option (string * string) :=
  tr ← o; Some (w +:+ tr.1, tr.2).

(** ** White space *)

Lemma runes_fuel_enough n m s :
  (String.length s <= n)%nat -> (String.length s <= m)%nat -> runes_fuel n s = runes_fuel m s.
Proof.
  revert m s. induction n as [|n IH]; intros [|m] [|c s]; try done; try (cbn; lia).
  intros Hn Hm. cbn [runes_fuel]. pose proof (DecodeRune_width c s) as Hw.
  destruct (DecodeRune (String c s)) as [r w]; cbn [snd] in Hw. f_equal.
  apply IH; rewrite length_str_drop; cbn [String.length] in *; lia.
Qed.

(** The runes after the first. *)
Lemma string_runes_cons c s :
  string_runes (String c s)
  = let (r, w) := DecodeRune (String c s) in
    (r, str_take w (String c s)) :: string_runes (str_drop w (String c s)).
Proof.
  unfold string_runes. cbn [String.length runes_fuel].
  pose proof (DecodeRune_width c s) as Hw.
  destruct (DecodeRune (String c s)) as [r w]; cbn [snd] in Hw. f_equal.
  apply runes_fuel_enough; rewrite length_str_drop; cbn [String.length] in *; lia.
Qed.

Lemma string_runes_ascii c s :
  is_ascii c = true -> string_runes (String c s) = (byte c, String c "") :: string_runes s.
Proof. intros Hc. rewrite string_runes_cons, DecodeRune_ascii by done. done. Qed.

(** A rune of several bytes does not reach an ASCII byte. *)
Lemma DecodeRune_before c s d t :
  byte d < 128 -> ((DecodeRune (String c (s +:+ String d t))).2 <= S (String.length s))%nat.
Proof.
  intros Hd. destruct (DecodeRune _) as [r w] eqn:Hdec. cbn [snd].
  destruct (bad_rune (r, w)) eqn:Hbad.
  { unfold bad_rune in Hbad. apply andb_true_iff in Hbad as [_ Hw%Nat.eqb_eq]. cbn in Hw. lia. }
  apply DecodeRune_decoded in Hdec; [|done|done].
  destruct s as [|c1 [|c2 [|c3 s]]]; cbn in Hdec |- *;
    inversion Hdec; subst; cbn; try lia; exfalso; repeat case_match; lia.
Qed.

Lemma str_take_le k s t : (k <= String.length s)%nat -> str_take k (s +:+ t) = str_take k s.
Proof.
  revert k. induction s as [|c s IH]; intros [|k]; cbn; [done..|lia|done|].
  intros Hk. rewrite IH by lia. done.
Qed.

Lemma str_drop_le k s t : (k <= String.length s)%nat -> str_drop k (s +:+ t) = str_drop k s +:+ t.
Proof.
  revert k. induction s as [|c s IH]; intros [|k]; cbn; [done..|lia|done|].
  intros Hk. by rewrite IH by lia.
Qed.

Lemma string_runes_snoc s d :
  is_ascii d = true ->
  exists l, string_runes (s +:+ String d "") = l ++ [(byte d, String d "")].
Proof.
  intros Hd. assert (byte d < 128) as Hd' by (by apply N.ltb_lt).
  remember (String.length s) as n eqn:Hn. revert s Hn.
  induction n as [n IH] using lt_wf_ind. intros [|c s] Hn.
  - exists []. cbn [String.append]. by rewrite string_runes_ascii.
  - cbn [String.append]. rewrite string_runes_cons.
    pose proof (DecodeRune_before c s d "" Hd') as Hle.
    pose proof (DecodeRune_width c (s +:+ String d "")) as Hw.
    destruct (DecodeRune _) as [r w]; cbn [snd] in Hle, Hw.
    change (String c (s +:+ String d "")) with (String c s +:+ String d "").
    rewrite (str_drop_le w (String c s)) by (cbn; lia).
    destruct (IH (String.length (str_drop w (String c s)))) with (s := str_drop w (String c s))
      as [l Hl]; [rewrite length_str_drop; cbn in *; lia|done|].
    rewrite Hl. eexists (_ :: l). done.
Qed.

Lemma drop_while_keep {A} (f : A -> bool) x l : f x = false -> drop_while f (x :: l) = x :: l.
Proof. cbn. by intros ->. Qed.

(** White space around text that starts and ends with other ASCII bytes. *)
Lemma TrimSpace_between c s d :
  is_ascii c = true -> IsSpace (byte c) = false -> is_ascii d = true -> IsSpace (byte d) = false ->
  TrimSpace (String " " (String c (s +:+ String d ""))) = String c (s +:+ String d "").
Proof.
  intros Hc Hcs Hd Hds. unfold TrimSpace. rewrite string_runes_ascii by done.
  cbn [drop_while fst]. change (IsSpace (byte " ")) with true. cbn match.
  rewrite string_runes_ascii by done. rewrite drop_while_keep by done.
  destruct (string_runes_snoc s d Hd) as [l Hl]. rewrite Hl. cbn [rev].
  rewrite rev_app_distr. cbn [rev app]. rewrite drop_while_keep by done.
  rewrite <- (string_runes_concat (s +:+ String d "")), Hl.
  cbn [rev]. rewrite rev_app_distr, rev_involutive. done.
Qed.
