(* ===== verification/Json.v ===== *)
(** * Json: the parts of encoding/json the repository uses

    The grammar the decoder accepts, decoding into the structs of the
    repository, and the encoder. Values are trees; a number keeps its literal. *)

From S2P Require Import Prelude.
From S2P Require Import GoStd.
Local Open Scope N_scope.

#[warnings="-register-all"]
Inductive json :=
| JNull
| JBool (b : bool)
| JNum (lit : string)
| JStr (s : string)
| JArr (l : list json)
| JObj (l : list (string * json)).

(** ** Decoding *)

Definition is_json_space (c : ascii) : bool := has_char c (" " +:+ chr 9 +:+ chr 10 +:+ chr 13).

Fixpoint skip_space (s : string) : string :=
  match s with
  | String c s' => if is_json_space c then skip_space s' else s
  | "" => ""
  end.

Definition hex_digit (c : ascii) : option N :=
  let b := byte c in
  if in_range 48 57 b then Some (b - 48)
  else if in_range 97 102 b then Some (b - 87)
  else if in_range 65 70 b then Some (b - 55)
  else None.

(** [getu4]: the value of [\uXXXX] at the head of the string. *)
Definition getu4 (s : string) : option N :=
  match s with
  | String b (String u (String c1 (String c2 (String c3 (String c4 _))))) =>
      if Ascii.eqb b "\"%char && Ascii.eqb u "u"%char then
        h1 ← hex_digit c1; h2 ← hex_digit c2; h3 ← hex_digit c3; h4 ← hex_digit c4;
        Some (((h1 * 16 + h2) * 16 + h3) * 16 + h4)
      else None
  | _ => None
  end.

(** The byte a one-letter escape stands for. *)
Definition simple_escape (e : ascii) : option ascii :=
  match e with
  | "034"%char => Some dquote
  | "\"%char => Some "\"%char
  | "/"%char => Some "/"%char
  | "b"%char => Some (ascii_of_N 8)
  | "f"%char => Some (ascii_of_N 12)
  | "n"%char => Some (ascii_of_N 10)
  | "r"%char => Some (ascii_of_N 13)
  | "t"%char => Some (ascii_of_N 9)
  | _ => None
  end.

Definition is_surrogate (r : N) : bool := in_range 55296 57343 r.

(** [utf16.DecodeRune]. *)
Definition utf16_decode (r1 r2 : N) : N :=
  if in_range 55296 56319 r1 && in_range 56320 57343 r2 then
    (r1 - 55296) * 1024 + (r2 - 56320) + 65536
  else RuneError.

(** The rune of a [\u] escape at the head of the string and the bytes it takes:
    a surrogate pair is one rune, a lone surrogate is U+FFFD. *)
Definition unicode_escape (s : string) : option (N * nat) :=
  r ← getu4 s;
  if is_surrogate r then
    match getu4 (str_drop 6 s) with
    | Some r2 =>
        let d := utf16_decode r r2 in
        if d =? RuneError then Some (RuneError, 6%nat) else Some (d, 12%nat)
    | None => Some (RuneError, 6%nat)
    end
  else Some (r, 6%nat).

(** A string literal after its opening quote: the decoded text and the input
    after the closing quote. Control bytes must be escaped; invalid UTF-8
    becomes U+FFFD. Every round consumes a byte. *)
Fixpoint parse_string (fuel : nat) (s : string) : option (string * string) :=
  match fuel with
  | O => None
  | S fuel =>
    match s with
    | "" => None
    | String c s' =>
      if Ascii.eqb c dquote then Some ("", s')
      else if Ascii.eqb c "\"%char then
        match s' with
        | "" => None
        | String e s'' =>
          if Ascii.eqb e "u"%char then
            rw ← unicode_escape s;
            tr ← parse_string fuel (str_drop rw.2 s);
            Some (EncodeRune rw.1 +:+ tr.1, tr.2)
          else
            b ← simple_escape e;
            tr ← parse_string fuel s'';
            Some (String b tr.1, tr.2)
        end
      else if byte c <? 32 then None
      else
        let (r, w) := DecodeRune s in
        tr ← parse_string fuel (str_drop w s);
        Some (EncodeRune r +:+ tr.1, tr.2)
    end
  end.

Definition is_digit (c : ascii) : bool := in_range 48 57 (byte c).

Fixpoint span_digits (s : string) : string * string :=
  match s with
  | String c s' =>
      if is_digit c then let (d, r) := span_digits s' in (String c d, r) else ("", s)
  | "" => ("", "")
  end.

(** A non-empty run of digits. *)
Definition digits1 (s : string) : option (string * string) :=
  match span_digits s with ("", _) => None | dr => Some dr end.

Definition opt_sign (signs s : string) : string * string :=
  match s with
  | String c s' => if has_char c signs then (String c "", s') else ("", s)
  | "" => ("", "")
  end.

(** An integer part has no leading zeros. *)
Definition int_part (s : string) : option (string * string) :=
  match s with
  | String c s' => if Ascii.eqb c "0"%char then Some ("0", s') else digits1 s
  | "" => None
  end.

Definition frac_part (s : string) : option (string * string) :=
  match s with
  | String c s' =>
      if Ascii.eqb c "."%char then dr ← digits1 s'; Some (String c dr.1, dr.2)
      else Some ("", s)
  | "" => Some ("", "")
  end.

Definition exp_part (s : string) : option (string * string) :=
  match s with
  | String c s' =>
      if has_char c "eE" then
        let (sign, s'') := opt_sign "+-" s' in
        dr ← digits1 s''; Some (String c (sign +:+ dr.1), dr.2)
      else Some ("", s)
  | "" => Some ("", "")
  end.

(** A number literal: optional minus, an integer part, an optional fraction, an
    optional exponent. *)
Definition parse_number (s : string) : option (string * string) :=
  let (sign, s1) := opt_sign "-" s in
  ir ← int_part s1;
  fr ← frac_part ir.2;
  er ← exp_part fr.2;
  Some (sign +:+ ir.1 +:+ fr.1 +:+ er.1, er.2).

Definition maxNestingDepth : N := 10000.

(** One JSON value at the head of the input and the input after it. [depth] is
    the number of arrays and objects open around the value; [fuel] bounds the
    recursion and every call consumes at least one byte or closes a level. *)
Fixpoint parse_value (fuel : nat) (depth : N) (s0 : string) : option (json * string) :=
  match fuel with
  | O => None
  | S fuel =>
    let s := skip_space s0 in
    match s with
    | "" => None
    | String c s' =>
      if Ascii.eqb c dquote then
        tr ← parse_string (S (String.length s')) s'; Some (JStr tr.1, tr.2)
      else if Ascii.eqb c "{"%char then
        if maxNestingDepth <=? depth then None
        else match skip_space s' with
        | String d r =>
            if Ascii.eqb d "}"%char then Some (JObj [], r)
            else mr ← parse_members fuel (depth + 1) (String d r); Some (JObj mr.1, mr.2)
        | "" => None
        end
      else if Ascii.eqb c "["%char then
        if maxNestingDepth <=? depth then None
        else match skip_space s' with
        | String d r =>
            if Ascii.eqb d "]"%char then Some (JArr [], r)
            else er ← parse_elems fuel (depth + 1) (String d r); Some (JArr er.1, er.2)
        | "" => None
        end
      else if HasPrefix s "null" then Some (JNull, str_drop 4 s)
      else if HasPrefix s "true" then Some (JBool true, str_drop 4 s)
      else if HasPrefix s "false" then Some (JBool false, str_drop 5 s)
      else nr ← parse_number s; Some (JNum nr.1, nr.2)
    end
  end
with parse_members (fuel : nat) (depth : N) (s : string)
    : option (list (string * json) * string) :=
  match fuel with
  | O => None
  | S fuel =>
    match skip_space s with
    | String c s' =>
      if Ascii.eqb c dquote then
        kr ← parse_string (S (String.length s')) s';
        match skip_space kr.2 with
        | String ":" s2 =>
          vr ← parse_value fuel depth s2;
          match skip_space vr.2 with
          | String "," s3 =>
              mr ← parse_members fuel depth s3; Some ((kr.1, vr.1) :: mr.1, mr.2)
          | String "}" s3 => Some ([(kr.1, vr.1)], s3)
          | _ => None
          end
        | _ => None
        end
      else None
    | "" => None
    end
  end
with parse_elems (fuel : nat) (depth : N) (s : string) : option (list json * string) :=
  match fuel with
  | O => None
  | S fuel =>
    vr ← parse_value fuel depth s;
    match skip_space vr.2 with
    | String "," s3 => er ← parse_elems fuel depth s3; Some (vr.1 :: er.1, er.2)
    | String "]" s3 => Some ([vr.1], s3)
    | _ => None
    end
  end.

Definition parse_fuel (s : string) : nat := S (S (2 * String.length s)).

(** [json.NewDecoder(r).Decode]: the first value of the stream; what follows it
    is left unread. *)
Definition Decode (s : string) : option json :=
  fst <$> parse_value (parse_fuel s) 0 s.

(** [json.Unmarshal]: one value and nothing but white space after it. *)
Definition Unmarshal (s : string) : option json :=
  vr ← parse_value (parse_fuel s) 0 s;
  if String.eqb (skip_space vr.2) "" then Some vr.1 else None.

(** *** Decoding into a struct *)

(** [foldName]: upper-case the ASCII letters and map the two other runes that
    fold to one (U+017F to S, U+212A to K). The folds of the remaining runes
    never meet an ASCII field name, so they are left alone. *)
Definition fold_rune (rw : N * string) : string :=
  let (r, w) := rw in
  if in_range 97 122 r then chr (r - 32)
  else if r =? 383 then "S"
  else if r =? 8490 then "K"
  else w.

Definition fold_name (s : string) : string := str_concat (map fold_rune (string_runes s)).

(** What one field of a struct does with the value of its key; [None] is an
    [UnmarshalTypeError]. *)
Definition setter (A : Type) : Type := json -> A -> option A.

(** The field a key selects: the exact name first, then a case-insensitive one. *)
Definition find_field {A} (fields : list (string * setter A)) (k : string)
    : option (setter A) :=
  match find (fun f => String.eqb f.1 k) fields with
  | Some f => Some f.2
  | None => snd <$> find (fun f => String.eqb (fold_name f.1) (fold_name k)) fields
  end.

Fixpoint set_members {A} (fields : list (string * setter A)) (ms : list (string * json))
    (a : A) : option A :=
  match ms with
  | [] => Some a
  | (k, v) :: ms =>
      match find_field fields k with
      | Some set => a' ← set v a; set_members fields ms a'
      | None => set_members fields ms a
      end
  end.

(** Decoding into a struct: [null] leaves it unchanged, unknown keys are
    skipped, a repeated key is applied again, any other kind is an error. *)
Definition decode_struct {A} (fields : list (string * setter A)) : setter A := fun j a =>
  match j with
  | JNull => Some a
  | JObj ms => set_members fields ms a
  | _ => None
  end.

(** A field of type [string]: [null] has no effect. *)
Definition set_string {A} (upd : string -> A -> A) : setter A := fun j a =>
  match j with
  | JStr s => Some (upd s a)
  | JNull => Some a
  | _ => None
  end.

(** A field of type [*string] (or a named string): [null] stores nil. *)
Definition set_ptr_string {A} (upd : option string -> A -> A) : setter A := fun j a =>
  match j with
  | JStr s => Some (upd (Some s) a)
  | JNull => Some (upd None a)
  | _ => None
  end.

(** ** Encoding *)

Definition hex_char (n : N) : string :=
  if n <? 10 then chr (48 + n) else chr (87 + n).

(** The bytes [encoding/json] writes unescaped with HTML escaping on. *)
Definition html_safe (b : N) : bool :=
  in_range 32 127 b
  && negb ((b =? 34) || (b =? 38) || (b =? 60) || (b =? 62) || (b =? 92)).

Definition encode_rune (rw : N * string) : string :=
  let (r, w) := rw in
  if r <? 128 then
    if html_safe r then w
    else if (r =? 34) || (r =? 92) then "\" +:+ w
    else if r =? 8 then "\b"
    else if r =? 12 then "\f"
    else if r =? 10 then "\n"
    else if r =? 13 then "\r"
    else if r =? 9 then "\t"
    else "\u00" +:+ hex_char (r / 16) +:+ hex_char (r mod 16)
  else if (r =? RuneError) && Nat.eqb (String.length w) 1 then "\ufffd"
  else if (r =? 8232) || (r =? 8233) then "\u202" +:+ hex_char (r mod 16)
  else w.

Definition encode_string (s : string) : string :=
  chr 34 +:+ str_concat (map encode_rune (string_runes s)) +:+ chr 34.

Fixpoint sep_concat (sep : string) (l : list string) : string :=
  match l with
  | [] => ""
  | [s] => s
  | s :: l => s +:+ sep +:+ sep_concat sep l
  end.

Fixpoint encode (j : json) : string :=
  match j with
  | JNull => "null"
  | JBool true => "true"
  | JBool false => "false"
  | JNum lit => lit
  | JStr s => encode_string s
  | JArr l => "[" +:+ sep_concat "," (map encode l) +:+ "]"
  | JObj l =>
      "{" +:+ sep_concat "," (map (fun kv => encode_string kv.1 +:+ ":" +:+ encode kv.2) l)
      +:+ "}"
  end.

(** [json.NewEncoder(w).Encode]: the value and a newline. *)
Definition Encode (j : json) : string := encode j +:+ chr 10.

(** A member with an [omitempty] pointer value. *)
Definition opt_member {A} (k : string) (f : A -> json) (o : option A) : list (string * json) :=
  match o with Some a => [(k, f a)] | None => [] end.

Example decode_ex :
  Decode (dq "{'name': 'a\u00e9\ud83d\ude00', 'x':[1,-2.5e3,{},[]], 'r': null } tail")
  = Some (JObj [("name", JStr ("a" +:+ EncodeRune 233 +:+ EncodeRune 128512));
                ("x", JArr [JNum "1"; JNum "-2.5e3"; JObj []; JArr []]); ("r", JNull)]).
Proof. vm_compute. reflexivity. Qed.
