(* ===== verification/JsonText.v ===== *)
(** * JsonText: what the encoder writes, the decoder reads

    Every value the encoder of [Json.v] can write is read back by the decoder:
    the same tree, with invalid UTF-8 in its strings replaced by U+FFFD. *)

From S2P Require Import Prelude.
From S2P Require Import GoStd.
From S2P Require Import Utf8.
From S2P Require Import Json.
Local Open Scope N_scope.

(** ** What comes back *)

(** [strings.ToValidUTF8] with U+FFFD for every invalid byte. *)
Definition clean_rune (rw : N * string) : string :=
  if bad_rune (rw.1, String.length rw.2) then EncodeRune RuneError else rw.2.

Definition clean_string (s : string) : string := str_concat (map clean_rune (string_runes s)).

Fixpoint clean (j : json) : json :=
  match j with
  | JStr s => JStr (clean_string s)
  | JArr l => JArr (map clean l)
  | JObj l => JObj (map (fun kv => (clean_string kv.1, clean kv.2)) l)
  | j => j
  end.

(** Numbers are literals of the grammar. *)
Definition number_ok (lit : string) : bool :=
  match parse_number lit with
  | Some (l, r) => String.eqb l lit && String.eqb r ""
  | None => false
  end.

Fixpoint json_ok (j : json) : bool :=
  match j with
  | JNum lit => number_ok lit
  | JArr l => forallb json_ok l
  | JObj l => forallb (fun kv => json_ok kv.2) l
  | _ => true
  end.

(** How many arrays and objects are open at once. *)
Fixpoint nesting (j : json) : N :=
  match j with
  | JArr l => 1 + fold_right N.max 0 (map nesting l)
  | JObj l => 1 + fold_right N.max 0 (map (fun kv => nesting kv.2) l)
  | _ => 0
  end.

Lemma clean_string_valid s : ValidString s = true -> clean_string s = s.
Proof.
  unfold ValidString, clean_string. intros Hv. rewrite <- (string_runes_concat s) at 2.
  f_equal. apply map_ext_in. intros rw Hin. rewrite forallb_forall in Hv.
  apply Hv, negb_true_iff in Hin. unfold clean_rune, bad_rune. cbn. by rewrite Hin.
Qed.

Lemma json_induction (P : json -> Prop) :
  P JNull -> (forall b, P (JBool b)) -> (forall lit, P (JNum lit)) -> (forall s, P (JStr s)) ->
  (forall l, Forall P l -> P (JArr l)) -> (forall l, Forall (fun kv => P kv.2) l -> P (JObj l)) ->
  forall j, P j.
Proof.
  intros Hnull Hbool Hnum Hstr Harr Hobj. fix IH 1. intros [|b|lit|s|l|l].
  - exact Hnull.
  - exact (Hbool b).
  - exact (Hnum lit).
  - exact (Hstr s).
  - apply Harr. induction l as [|j l IHl]; constructor; [apply IH|exact IHl].
  - apply Hobj. induction l as [|[k v] l IHl]; constructor; [apply IH|exact IHl].
Qed.

(** ** Strings *)

Lemma parse_ascii_rune r n t :
  r < 128 ->
  parse_string (S n) (encode_rune (r, chr r) +:+ t) = prepend (chr r) (parse_string n t).
Proof.
  intros Hr. destruct r as [|p]; [reflexivity|].
  do 7 (try destruct p as [p|p|]; try reflexivity); lia.
Qed.

Lemma parse_wide_rune r w n t :
  decoded w r (String.length w) -> 128 <= r ->
  parse_string (S n) (w +:+ t) = prepend (EncodeRune r) (parse_string n t).
Proof.
  intros Hd Hr. destruct (decoded_head _ _ _ Hd Hr) as (c & w' & -> & Hc).
  pose proof (decoded_append (String c w') r t Hd) as Hdec.
  cbn -[byte DecodeRune dquote str_drop] in Hdec |- *.
  assert (forall d, byte d < 128 -> Ascii.eqb c d = false) as Hne.
  { intros d Hlt. apply Ascii.eqb_neq. intros ->. lia. }
  rewrite !Hne by done. destruct (N.ltb_spec (byte c) 32); [lia|].
  rewrite Hdec. change (String c (w' +:+ t)) with (String c w' +:+ t).
  by rewrite str_drop_app by done.
Qed.

Lemma parse_rune rw n t :
  rune_of rw ->
  parse_string (S n) (encode_rune rw +:+ t) = prepend (clean_rune rw) (parse_string n t).
Proof.
  intros [c Hc|r w k Hd -> Hw]; [reflexivity|].
  unfold clean_rune, bad_rune; cbn [fst snd].
  assert ((r =? RuneError) && Nat.eqb (String.length w) 1 = false) as Hgood.
  { apply andb_false_iff. destruct (Nat.eqb_spec (String.length w) 1) as [Hl|]; [|by right].
    left. rewrite Hl in Hd. apply decoded_one in Hd as (_ & _ & _ & _ & Hr).
    apply N.eqb_neq. unfold RuneError. lia. }
  rewrite Hgood. destruct (N.lt_ge_cases r 128) as [Hr|Hr].
  { rewrite EncodeRune_ascii in Hw by done. subst w. by apply parse_ascii_rune. }
  unfold encode_rune. rewrite ltb_false by done. rewrite Hgood.
  destruct (N.eqb_spec r 8232) as [->|_]; [rewrite Hw; reflexivity|].
  destruct (N.eqb_spec r 8233) as [->|_]; [rewrite Hw; reflexivity|].
  cbn [orb]. rewrite Hw at 2. by apply parse_wide_rune.
Qed.

Lemma parse_runes l n t :
  Forall rune_of l -> (length l < n)%nat ->
  parse_string n (str_concat (map encode_rune l) +:+ String dquote t)
  = Some (str_concat (map clean_rune l), t).
Proof.
  intros Hl. revert n. induction Hl as [|rw l Hrw Hl IH]; intros [|n] Hn; cbn in Hn; try lia;
    [done|].
  cbn [map str_concat]. rewrite <- append_assoc, parse_rune by done. by rewrite IH by lia.
Qed.

Lemma encode_rune_length rw : rune_of rw -> (1 <= String.length (encode_rune rw))%nat.
Proof.
  intros Hrw. pose proof (parse_rune rw 0 (String dquote "") Hrw) as Hp.
  destruct (encode_rune rw) as [|c q]; [|cbn; lia].
  cbn in Hp. discriminate.
Qed.

Lemma encoded_length l :
  Forall rune_of l -> (length l <= String.length (str_concat (map encode_rune l)))%nat.
Proof.
  induction 1 as [|rw l Hrw Hl IH]; cbn; [lia|]. rewrite length_append.
  pose proof (encode_rune_length rw Hrw). lia.
Qed.

(** A string literal is the quote, a text the reader reads back, whatever
    follows, and the length of that text is fuel enough. *)
Lemma encode_string_parses s t :
  exists q, encode_string s +:+ t = String dquote (q +:+ t)
    /\ String.length (encode_string s) = S (String.length q)
    /\ parse_string (S (String.length (q +:+ t))) (q +:+ t) = Some (clean_string s, t).
Proof.
  pose proof (string_runes_rune_of s) as Hl.
  exists (str_concat (map encode_rune (string_runes s)) +:+ String dquote "").
  split_and!; [done|done|]. rewrite <- append_assoc. cbn [String.append].
  rewrite parse_runes; [done|done|]. rewrite length_append.
  pose proof (encoded_length _ Hl). lia.
Qed.

(** ** Numbers *)

(** What may follow a number: nothing that would extend it. *)
Definition delimited (t : string) : bool :=
  match t with "" => true | String c _ => negb (is_digit c) && negb (has_char c ".eE") end.

Lemma span_digits_app s t :
  delimited t = true ->
  span_digits (s +:+ t) = ((span_digits s).1, (span_digits s).2 +:+ t).
Proof.
  intros Ht. induction s as [|c s IH].
  - cbn. destruct t as [|d t]; [done|]. cbn in Ht |- *. apply andb_true_iff in Ht as [Hd _].
    apply negb_true_iff in Hd. by rewrite Hd.
  - cbn. destruct (is_digit c); [|done]. rewrite IH. by destruct (span_digits s).
Qed.

Lemma digits1_app s t d r :
  delimited t = true -> digits1 s = Some (d, r) -> digits1 (s +:+ t) = Some (d, r +:+ t).
Proof.
  intros Ht. unfold digits1. rewrite span_digits_app by done.
  destruct (span_digits s) as [[|c d'] r']; cbn; [done|]. by intros [= <- <-].
Qed.

Lemma opt_sign_app g s t :
  s <> "" -> opt_sign g (s +:+ t) = ((opt_sign g s).1, (opt_sign g s).2 +:+ t).
Proof. destruct s as [|c s]; [done|]. intros _. cbn. by destruct (has_char c g). Qed.

Lemma int_part_app s t d r :
  delimited t = true -> int_part s = Some (d, r) -> int_part (s +:+ t) = Some (d, r +:+ t).
Proof.
  intros Ht. destruct s as [|c s]; [done|].
  cbn -[digits1]. destruct (Ascii.eqb c "0"%char); [by intros [= <- <-]|].
  intros Hd. by apply (digits1_app (String c s) t) in Hd.
Qed.

Lemma delimited_head c t :
  delimited (String c t) = true ->
  Ascii.eqb c "."%char = false /\ has_char c "eE" = false.
Proof.
  cbn. rewrite !andb_true_iff, !negb_true_iff, !orb_false_iff. naive_solver.
Qed.

Lemma frac_part_app s t d r :
  delimited t = true -> frac_part s = Some (d, r) -> frac_part (s +:+ t) = Some (d, r +:+ t).
Proof.
  intros Ht. destruct s as [|c s]; cbn -[digits1].
  - intros [= <- <-]. destruct t as [|c t]; [done|].
    apply delimited_head in Ht as [Hdot _]. cbn. by rewrite Hdot.
  - destruct (Ascii.eqb c "."%char); [|by intros [= <- <-]].
    destruct (digits1 s) as [[d' r']|] eqn:Hd; [|done]. cbn. intros [= <- <-].
    by rewrite (digits1_app _ _ _ _ Ht Hd).
Qed.

Lemma exp_part_app s t d r :
  delimited t = true -> exp_part s = Some (d, r) -> exp_part (s +:+ t) = Some (d, r +:+ t).
Proof.
  intros Ht. destruct s as [|c s].
  - intros [= <- <-]. destruct t as [|c t]; [done|].
    apply delimited_head in Ht as [_ He]. unfold exp_part; cbn [String.append]. by rewrite He.
  - unfold exp_part; cbn [String.append]. destruct (has_char c "eE"); [|by intros [= <- <-]].
    destruct s as [|c' s]; [done|]. rewrite opt_sign_app by done.
    destruct (opt_sign "+-" (String c' s)) as [sg s'']; cbn [fst snd].
    destruct (digits1 s'') as [[d' r']|] eqn:Hd; [|done]. cbn. intros [= <- <-].
    by rewrite (digits1_app _ _ _ _ Ht Hd).
Qed.

Lemma parse_number_app s t lit r :
  delimited t = true -> parse_number s = Some (lit, r) ->
  parse_number (s +:+ t) = Some (lit, r +:+ t).
Proof.
  intros Ht. unfold parse_number. destruct s as [|c s]; [done|].
  rewrite opt_sign_app by done. destruct (opt_sign "-" (String c s)) as [sg s1]; cbn [fst snd].
  destruct (int_part s1) as [[i r1]|] eqn:Hi; [|done].
  rewrite (int_part_app _ _ _ _ Ht Hi). cbn.
  destruct (frac_part r1) as [[f r2]|] eqn:Hf; [|done].
  rewrite (frac_part_app _ _ _ _ Ht Hf). cbn.
  destruct (exp_part r2) as [[e r3]|] eqn:He; [|done].
  rewrite (exp_part_app _ _ _ _ Ht He). cbn. by intros [= <- <-].
Qed.

Lemma number_parses lit t :
  number_ok lit = true -> delimited t = true -> parse_number (lit +:+ t) = Some (lit, t).
Proof.
  unfold number_ok. intros Hok Ht. destruct (parse_number lit) as [[l r]|] eqn:Hp; [|done].
  to_prop. subst. by rewrite (parse_number_app _ _ _ _ Ht Hp).
Qed.

(** A number starts with a minus or a digit. *)
Lemma number_head lit :
  number_ok lit = true ->
  exists c s, lit = String c s /\ (c = "-"%char \/ is_digit c = true).
Proof.
  unfold number_ok. destruct lit as [|c s]; [done|]. intros Hok. exists c, s. split; [done|].
  destruct (parse_number (String c s)) as [[l r]|] eqn:Hp; [|done]. clear Hok.
  unfold parse_number in Hp. cbn [opt_sign has_char] in Hp.
  destruct (Ascii.eqb_spec c "-"%char) as [->|]; [by left|]. right. cbn [orb] in Hp.
  unfold int_part in Hp. destruct (Ascii.eqb_spec c "0"%char) as [->|]; [done|].
  unfold digits1 in Hp. cbn [span_digits] in Hp. by destruct (is_digit c).
Qed.

(** ** Values *)

Lemma skip_space_head c s : is_json_space c = false -> skip_space (String c s) = String c s.
Proof. cbn -[is_json_space]. by intros ->. Qed.

Lemma digit_not d c : is_digit c = true -> is_digit d = false -> Ascii.eqb c d = false.
Proof. intros Hc Hd. apply Ascii.eqb_neq. congruence. Qed.

Lemma digit_not_space c : is_digit c = true -> is_json_space c = false.
Proof. intros Hc. unfold is_json_space. cbn. by rewrite !digit_not. Qed.

Lemma prefix_head c s d p : Ascii.eqb c d = false -> HasPrefix (String c s) (String d p) = false.
Proof.
  intros Hne%Ascii.eqb_neq. unfold HasPrefix. cbn.
  destruct (ascii_dec d c); [by subst|done].
Qed.

(** Every encoding starts with a byte that is neither white space nor closes. *)
Lemma encode_head j :
  json_ok j = true ->
  exists c s, encode j = String c s /\ is_json_space c = false
    /\ Ascii.eqb c "]"%char = false /\ Ascii.eqb c "}"%char = false.
Proof.
  destruct j as [|[]|lit|s|l|l]; intros Hok; [by eexists _, _| by eexists _, _| by eexists _, _| |by eexists _, _|by eexists _, _|by eexists _, _].
  destruct (number_head lit Hok) as (c & s & -> & [->|Hc]); [by eexists _, _|].
  exists c, s. split; [done|]. rewrite digit_not_space, !digit_not by done. done.
Qed.

Lemma encode_length j : json_ok j = true -> (1 <= String.length (encode j))%nat.
Proof. intros (c & s & -> & _)%encode_head. cbn. lia. Qed.

Definition parses_back (j : json) : Prop :=
  json_ok j = true -> forall fuel depth t,
  delimited t = true -> depth + nesting j <= maxNestingDepth ->
  (2 * String.length (encode j) <= fuel)%nat ->
  parse_value fuel depth (encode j +:+ t) = Some (clean j, t).

Lemma sep_concat_cons s l :
  l <> [] -> sep_concat "," (s :: l) = s +:+ "," +:+ sep_concat "," l.
Proof. by destruct l. Qed.

Lemma map_nonempty {A B} (f : A -> B) l : l <> [] -> map f l <> [].
Proof. by destruct l. Qed.

Lemma parse_elems_encoded l fuel depth t :
  Forall parses_back l -> l <> [] -> forallb json_ok l = true ->
  Forall (fun j => depth + nesting j <= maxNestingDepth) l ->
  (2 * String.length (sep_concat "," (map encode l)) < fuel)%nat ->
  parse_elems fuel depth (sep_concat "," (map encode l) +:+ String "]" t)
  = Some (map clean l, t).
Proof.
  intros Hl. revert fuel. induction Hl as [|j l Hj Hl IH]; intros fuel Hne Hok Hdep Hfuel; [done|].
  cbn in Hok. apply andb_true_iff in Hok as [Hokj Hokl]. apply Forall_cons in Hdep as [Hdj Hdl].
  destruct fuel as [|fuel]; [lia|]. destruct (decide (l = [])) as [->|Hcons].
  - cbn [map sep_concat] in Hfuel |- *. cbn [parse_elems].
    by rewrite (Hj Hokj) by (done || lia).
  - cbn [map] in Hfuel |- *. rewrite (sep_concat_cons _ _ (map_nonempty _ _ Hcons)) in Hfuel |- *.
    rewrite !length_append in Hfuel. cbn [String.length] in Hfuel.
    rewrite <- !append_assoc. cbn [String.append parse_elems].
    rewrite (Hj Hokj) by (done || lia). cbn -[parse_elems].
    rewrite IH; [done..|lia].
Qed.

Definition member_text (kv : string * json) : string :=
  encode_string kv.1 +:+ ":" +:+ encode kv.2.

Lemma parse_members_encoded l fuel depth t :
  Forall (fun kv => parses_back kv.2) l -> l <> [] -> forallb (fun kv => json_ok kv.2) l = true ->
  Forall (fun kv => depth + nesting kv.2 <= maxNestingDepth) l ->
  (2 * String.length (sep_concat "," (map member_text l)) < fuel)%nat ->
  parse_members fuel depth (sep_concat "," (map member_text l) +:+ String "}" t)
  = Some (map (fun kv => (clean_string kv.1, clean kv.2)) l, t).
Proof.
  intros Hl. revert fuel.
  induction Hl as [|[k v] l Hj Hl IH]; intros fuel Hne Hok Hdep Hfuel; [done|].
  cbn in Hok, Hj. apply andb_true_iff in Hok as [Hokj Hokl].
  apply Forall_cons in Hdep as [Hdj Hdl]. cbn [snd] in Hdj.
  assert (forall u, exists q, member_text (k, v) +:+ u = String dquote (q +:+ String ":" (encode v +:+ u))
    /\ parse_string (S (String.length (q +:+ String ":" (encode v +:+ u))))
         (q +:+ String ":" (encode v +:+ u)) = Some (clean_string k, String ":" (encode v +:+ u)))
    as Hkey.
  { intros u. destruct (encode_string_parses k (String ":" (encode v +:+ u))) as (q & Hq & _ & Hp).
    exists q. split; [|done]. rewrite <- Hq. unfold member_text. cbn [fst snd].
    by rewrite <- !append_assoc. }
  assert (2 * String.length (encode v) < fuel)%nat as Hv.
  { destruct (decide (l = [])) as [->|Hcons]; cbn [map] in Hfuel;
      [|rewrite (sep_concat_cons _ _ (map_nonempty _ _ Hcons)) in Hfuel];
      cbn [sep_concat] in Hfuel; unfold member_text in Hfuel; rewrite !length_append in Hfuel;
      cbn [snd] in Hfuel; lia. }
  destruct fuel as [|fuel]; [lia|]. destruct (decide (l = [])) as [->|Hcons].
  - cbn [map sep_concat] in Hfuel |- *. destruct (Hkey (String "}" t)) as (q & -> & Hp).
    cbn [parse_members]. rewrite skip_space_head by done. rewrite Ascii.eqb_refl, Hp. cbn -[parse_value].
    by rewrite (Hj Hokj) by (done || lia).
  - cbn [map] in Hfuel |- *. rewrite (sep_concat_cons _ _ (map_nonempty _ _ Hcons)) in Hfuel |- *.
    rewrite !length_append in Hfuel. cbn [String.length] in Hfuel.
    rewrite <- !append_assoc. cbn [String.append].
    match goal with |- context [member_text (k, v) +:+ ?u] => destruct (Hkey u) as (q & -> & Hp) end.
    cbn [parse_members]. rewrite skip_space_head by done. rewrite Ascii.eqb_refl, Hp. cbn -[parse_value parse_members].
    rewrite (Hj Hokj) by (done || lia). cbn -[parse_members].
    rewrite IH; [done..|lia].
Qed.

(** The levels below an array or object. *)
Lemma nesting_members {A} (f : A -> N) l depth n :
  depth + (1 + fold_right N.max 0 (map f l)) <= n ->
  Forall (fun a => depth + 1 + f a <= n) l.
Proof.
  intros Hd. apply Forall_forall. intros a Hin.
  assert (f a <= fold_right N.max 0 (map f l)) as Ha; [|lia].
  clear Hd. induction l as [|b l IH]; [by apply not_elem_of_nil in Hin|].
  cbn. apply elem_of_cons in Hin as [->|Hin]; [lia|]. specialize (IH Hin). lia.
Qed.

Lemma encode_parses j : parses_back j.
Proof.
  induction j as [|b|lit|s|l IH|l IH] using json_induction;
    intros Hok fuel depth t Ht Hd Hfuel;
    (destruct fuel as [|fuel]; [pose proof (encode_length _ Hok); lia|]).
  - by destruct t.
  - by destruct b, t.
  - destruct (number_head lit Hok) as (c & s & -> & Hc). cbn [encode String.append].
    assert (Hn := number_parses _ t Hok Ht). cbn [String.append] in Hn.
    assert (forall d, is_digit d = false -> d <> "-"%char -> Ascii.eqb c d = false) as Hne.
    { intros d Hnd Hm. apply Ascii.eqb_neq. destruct Hc as [->|Hc]; congruence. }
    assert (is_json_space c = false) as Hsp by (destruct Hc as [->|Hc]; [done|by apply digit_not_space]).
    cbn [parse_value]. rewrite skip_space_head by done.
    rewrite !Hne by done. rewrite !prefix_head by (by apply Hne). by rewrite Hn.
  - destruct (encode_string_parses s t) as (q & Hq & _ & Hp). cbn [encode]. rewrite Hq.
    cbn [parse_value]. rewrite skip_space_head by done. rewrite Ascii.eqb_refl, Hp. done.
  - cbn [encode json_ok nesting] in *. rewrite <- append_assoc. cbn [String.append].
    rewrite !length_append in Hfuel. cbn [String.length] in Hfuel.
    cbn [parse_value]. rewrite skip_space_head by done. cbn -[parse_elems maxNestingDepth N.add].
    rewrite (proj2 (N.leb_gt _ _)) by lia.
    destruct (decide (l = [])) as [->|Hne]; [done|].
    destruct l as [|j l]; [done|].
    destruct (encode_head j) as (c & s & Hs & Hsp & Hc & _); [by apply andb_true_iff in Hok as [? _]|].
    assert (exists s', sep_concat "," (map encode (j :: l)) = String c s') as [s' Hs'].
    { destruct l as [|j' l]; cbn [map sep_concat]; rewrite Hs; by eexists. }
    pose proof (parse_elems_encoded (j :: l) fuel (depth + 1) t IH Hne Hok
      (nesting_members _ _ _ _ Hd) ltac:(lia)) as Hel.
    rewrite <- append_assoc. rewrite Hs' in Hel |- *. cbn [String.append] in Hel |- *.
    rewrite skip_space_head, Hc by done. by rewrite Hel.
  - change (encode (JObj l)) with ("{" +:+ sep_concat "," (map member_text l) +:+ "}") in *.
    cbn [json_ok nesting] in *. rewrite <- append_assoc. cbn [String.append].
    rewrite !length_append in Hfuel. cbn [String.length] in Hfuel.
    cbn [parse_value]. rewrite skip_space_head by done. cbn -[parse_members maxNestingDepth N.add].
    rewrite (proj2 (N.leb_gt _ _)) by lia.
    destruct (decide (l = [])) as [->|Hne]; [done|].
    destruct l as [|kv l]; [done|].
    assert (exists s', sep_concat "," (map member_text (kv :: l)) = String dquote s') as [s' Hs'].
    { destruct l as [|kv' l]; by eexists. }
    pose proof (parse_members_encoded (kv :: l) fuel (depth + 1) t IH Hne Hok
      (nesting_members _ _ _ _ Hd) ltac:(lia)) as Hel.
    rewrite <- append_assoc. rewrite Hs' in Hel |- *. cbn [String.append] in Hel |- *.
    rewrite skip_space_head by done. cbn -[parse_members N.add dquote].
    by rewrite Hel.
Qed.

(** ** The library calls *)

(** Values the encoder writes in a form the decoder accepts. *)
Definition json_writable (j : json) : bool :=
  json_ok j && (nesting j <=? maxNestingDepth).

Lemma writable_iff j : json_writable j = true <-> json_ok j = true /\ nesting j <= maxNestingDepth.
Proof. unfold json_writable. by rewrite andb_true_iff, N.leb_le. Qed.

Lemma parse_encoded j t :
  json_writable j = true -> delimited t = true ->
  parse_value (parse_fuel (encode j +:+ t)) 0 (encode j +:+ t) = Some (clean j, t).
Proof.
  intros [Hok Hn]%writable_iff Ht. apply encode_parses; [done|done|lia|].
  unfold parse_fuel. rewrite length_append. lia.
Qed.

Lemma Unmarshal_encode j : json_writable j = true -> Unmarshal (encode j) = Some (clean j).
Proof.
  intros Hj. unfold Unmarshal. pose proof (parse_encoded j "" Hj eq_refl) as Hp.
  rewrite append_nil_r in Hp. by rewrite Hp.
Qed.

Lemma Unmarshal_Encode j : json_writable j = true -> Unmarshal (Encode j) = Some (clean j).
Proof. intros Hj. unfold Unmarshal, Encode. by rewrite (parse_encoded j (chr 10) Hj eq_refl). Qed.

Lemma Decode_encode j t :
  json_writable j = true -> delimited t = true -> Decode (encode j +:+ t) = Some (clean j).
Proof. intros Hj Ht. unfold Decode. by rewrite parse_encoded. Qed.

#[export] Hint Rewrite clean_string_valid using assumption : fleet_rw.
