(* ===== verification/JsonFuel.v ===== *)
(** * JsonFuel: the decoder's fuel is enough

    The parsers of [Json.v] recurse on fuel. Here they are shown to give the same
    answer on any larger fuel, for every input, so a text is never refused for
    lack of it. *)

From S2P Require Import Prelude.
From S2P Require Import GoStd.
From S2P Require Import Json.
Local Open Scope nat_scope.

(** [t] is what is left of [s] after at least [k] bytes. *)
Definition left_of {A} (k : nat) (s : string) (o : option (A * string)) : Prop :=
  forall x t, o = Some (x, t) -> String.length t + k <= String.length s.

Lemma left_of_ret {A} k s (x : A) t :
  String.length t + k <= String.length s -> left_of k s (Some (x, t)).
Proof. by intros ? ? ? [= <- <-]. Qed.

Lemma left_of_none {A} k s : left_of (A := A) k s None.
Proof. by intros ? ?. Qed.

Lemma left_of_bind {A B} i k s s' (o : option (A * string)) (f : A * string -> option (B * string)) :
  left_of i s' o ->
  (forall x t, String.length t + i <= String.length s' -> left_of k s (f (x, t))) ->
  left_of k s (r ← o; f r).
Proof.
  intros Ho Hf. destruct o as [[x t]|]; cbn; [|apply left_of_none].
  apply Hf. by eapply Ho.
Qed.

Lemma left_of_map {A B} i k s s' (o : option (A * string)) (f : A * string -> B) :
  left_of i s' o -> String.length s' + k <= String.length s + i ->
  left_of k s (r ← o; Some (f r, r.2)).
Proof. intros Ho Hs. eapply left_of_bind; [exact Ho|]. intros x t Ht. apply left_of_ret. cbn. lia. Qed.

Lemma skip_space_length s : String.length (skip_space s) <= String.length s.
Proof. induction s as [|c s IH]; cbn -[is_json_space]; [lia|]. destruct (is_json_space c); cbn; lia. Qed.

Lemma skip_space_cons s c t : skip_space s = String c t -> S (String.length t) <= String.length s.
Proof. intros H. pose proof (skip_space_length s). rewrite H in *. cbn in *. lia. Qed.

(** ** Strings *)

Lemma getu4_length s r : getu4 s = Some r -> 6 <= String.length s.
Proof. destruct s as [|c1 [|c2 [|c3 [|c4 [|c5 [|c6 s]]]]]]; try done. cbn. lia. Qed.

Lemma unicode_escape_width s r w : unicode_escape s = Some (r, w) -> 1 <= w <= String.length s.
Proof.
  unfold unicode_escape. destruct (getu4 s) as [u|] eqn:Hu; [|done]. cbn -[str_drop].
  pose proof (getu4_length _ _ Hu) as Hl.
  destruct (is_surrogate u); [|intros; simplify_eq; lia].
  destruct (getu4 (str_drop 6 s)) as [u'|] eqn:Hu'; [|intros; simplify_eq; lia].
  apply getu4_length in Hu'. rewrite length_str_drop in Hu'.
  destruct (_ =? _)%N; intros; simplify_eq; lia.
Qed.

(** A string literal needs at most one round a byte, and its end is a byte. *)
Lemma parse_string_fuel n : forall m s, String.length s < n -> String.length s < m ->
  parse_string n s = parse_string m s /\ left_of 1 s (parse_string n s).
Proof.
  induction n as [|n IH]; [lia|]. intros [|m] [|c s] Hn Hm; [lia..|by split|].
  cbn [parse_string String.length] in *.
  assert (Hrest : forall {A} (f : string * string -> A) t, String.length t <= String.length s ->
    (tr ← parse_string n t; Some (f tr, tr.2)) = (tr ← parse_string m t; Some (f tr, tr.2))
    /\ left_of 1 (String c s) (tr ← parse_string n t; Some (f tr, tr.2))).
  { intros A f t Ht. destruct (IH m t) as [He Hl]; [lia..|]. rewrite He in *. split; [done|].
    eapply left_of_bind; [exact Hl|]. intros x u Hu. apply left_of_ret. cbn. lia. }
  destruct (Ascii.eqb c dquote). { split; [done|]. apply left_of_ret. cbn. lia. }
  destruct (Ascii.eqb c "\"%char).
  - destruct s as [|e s']; [split; [done|apply left_of_none]|].
    destruct (Ascii.eqb e "u"%char).
    + destruct (unicode_escape _) as [[r w]|] eqn:Hw; [|split; [done|apply left_of_none]].
      apply unicode_escape_width in Hw. cbn in Hw.
      apply (Hrest _ (fun tr => EncodeRune r +:+ tr.1)). rewrite length_str_drop. cbn. lia.
    + destruct (simple_escape e) as [b|]; [|split; [done|apply left_of_none]].
      apply (Hrest _ (fun tr => String b tr.1)). cbn. lia.
  - destruct (byte c <? 32)%N; [split; [done|apply left_of_none]|].
    pose proof (DecodeRune_width c s) as Hw. destruct (DecodeRune _) as [r w]. cbn [snd] in Hw.
    apply (Hrest _ (fun tr => EncodeRune r +:+ tr.1)). rewrite length_str_drop. cbn. lia.
Qed.

Lemma parse_string_length s : left_of 1 s (parse_string (S (String.length s)) s).
Proof. apply (parse_string_fuel _ (S (String.length s))); lia. Qed.

(** ** Numbers *)

Lemma span_digits_length s : String.length (span_digits s).1 + String.length (span_digits s).2 = String.length s.
Proof.
  induction s as [|c s IH]; [done|]. cbn [span_digits]. destruct (is_digit c); [|done].
  destruct (span_digits s). cbn in *. lia.
Qed.

Lemma digits1_length s : left_of 1 s (digits1 s).
Proof.
  unfold digits1. pose proof (span_digits_length s) as H. destruct (span_digits s) as [[|d ds] r].
  - apply left_of_none.
  - apply left_of_ret. cbn in *. lia.
Qed.

Lemma opt_sign_length g s : String.length (opt_sign g s).2 <= String.length s.
Proof. destruct s as [|c s]; [done|]. cbn. destruct (has_char c g); cbn; lia. Qed.

Lemma int_part_length s : left_of 1 s (int_part s).
Proof.
  destruct s as [|c s]; [apply left_of_none|]. unfold int_part.
  destruct (Ascii.eqb c _); [apply left_of_ret; cbn; lia|apply digits1_length].
Qed.

Lemma frac_part_length s : left_of 0 s (frac_part s).
Proof.
  destruct s as [|c s]; [by apply left_of_ret|]. unfold frac_part.
  destruct (Ascii.eqb c _); [|apply left_of_ret; lia].
  apply (left_of_map 1 0 _ s); [apply digits1_length|]. cbn. lia.
Qed.

Lemma exp_part_length s : left_of 0 s (exp_part s).
Proof.
  destruct s as [|c s]; [by apply left_of_ret|]. unfold exp_part.
  destruct (has_char c _); [|apply left_of_ret; lia].
  pose proof (opt_sign_length "+-" s). destruct (opt_sign "+-" s) as [g s']. cbn in *.
  apply (left_of_map 1 0 _ s'); [apply digits1_length|]. cbn. lia.
Qed.

Lemma parse_number_length s : left_of 1 s (parse_number s).
Proof.
  unfold parse_number. pose proof (opt_sign_length "-" s) as Hs. destruct (opt_sign "-" s) as [g s1].
  eapply left_of_bind; [apply int_part_length|]. intros x1 t1 H1. cbn [snd fst] in *.
  eapply left_of_bind; [apply frac_part_length|]. intros x2 t2 H2. cbn [snd fst] in *.
  eapply left_of_bind; [apply exp_part_length|]. intros x3 t3 H3. apply left_of_ret. cbn. lia.
Qed.

(** ** Values *)

(** Two runs of a parser on [s] agree and, when they answer, have read a byte. *)
Definition settled {A} (s : string) (o o' : option (A * string)) : Prop :=
  o = o' /\ left_of 1 s o.

Lemma settled_bind {A B} s s' (o o' : option (A * string)) (f f' : A * string -> option (B * string)) :
  settled s' o o' ->
  (forall x t, String.length t < String.length s' -> settled s (f (x, t)) (f' (x, t))) ->
  settled s (r ← o; f r) (r ← o'; f' r).
Proof.
  intros [<- Ho] Hf. destruct o as [[x t]|]; cbn; [|by split; [|apply left_of_none]].
  apply Hf. specialize (Ho x t eq_refl). lia.
Qed.

Lemma settled_same {A} s (o : option (A * string)) : left_of 1 s o -> settled s o o.
Proof. by split. Qed.

Lemma settled_ret {A} s (x : A) t :
  String.length t < String.length s -> settled s (Some (x, t)) (Some (x, t)).
Proof. intros. apply settled_same, left_of_ret. lia. Qed.

Lemma settled_none {A} s : settled (A := A) s None None.
Proof. apply settled_same, left_of_none. Qed.

Lemma settled_map {A B} s s' (o o' : option (A * string)) (f : A -> B) :
  settled s' o o' -> String.length s' <= String.length s ->
  settled s (r ← o; Some (f r.1, r.2)) (r ← o'; Some (f r.1, r.2)).
Proof. intros Ho Hs. eapply settled_bind; [exact Ho|]. intros x t Ht. apply settled_ret. cbn. lia. Qed.

(** What fuel [n] is enough for, whatever the other run has. *)
Definition enough (n : nat) : Prop :=
  (forall m d s, 2 * String.length s < n -> 2 * String.length s < m ->
     settled s (parse_value n d s) (parse_value m d s))
  /\ (forall m d s, 2 * String.length s < n -> 2 * String.length s < m ->
     settled s (parse_members n d s) (parse_members m d s))
  /\ (forall m d s, S (2 * String.length s) < n -> S (2 * String.length s) < m ->
     settled s (parse_elems n d s) (parse_elems m d s)).

Lemma parse_value_settled n m d s : enough n ->
  2 * String.length s < S n -> 2 * String.length s < S m ->
  settled s (parse_value (S n) d s) (parse_value (S m) d s).
Proof.
  intros (_ & HM & HE) Hn Hm. pose proof (skip_space_length s) as Hs. cbn [parse_value].
  destruct (skip_space s) as [|c s'] eqn:Hsk; [apply settled_none|]. cbn [String.length] in Hs.
  destruct (Ascii.eqb c dquote).
  { apply (settled_map _ s' _ _ JStr); [|lia]. apply settled_same, parse_string_length. }
  destruct (Ascii.eqb c "{"%char).
  { destruct (_ <=? _)%N; [apply settled_none|]. pose proof (skip_space_length s') as Hs'.
    destruct (skip_space s') as [|e r]; [apply settled_none|]. cbn [String.length] in Hs'.
    destruct (Ascii.eqb e _); [apply settled_ret; lia|].
    apply (settled_map _ (String e r) _ _ JObj); [|cbn; lia]. apply HM; cbn; lia. }
  destruct (Ascii.eqb c "["%char).
  { destruct (_ <=? _)%N; [apply settled_none|]. pose proof (skip_space_length s') as Hs'.
    destruct (skip_space s') as [|e r]; [apply settled_none|]. cbn [String.length] in Hs'.
    destruct (Ascii.eqb e _); [apply settled_ret; lia|].
    apply (settled_map _ (String e r) _ _ JArr); [|cbn; lia]. apply HE; cbn; lia. }
  do 3 (destruct (HasPrefix _ _); [apply settled_ret; rewrite length_str_drop; cbn; lia|]).
  apply (settled_map _ (String c s') _ _ JNum); [|cbn; lia]. apply settled_same, parse_number_length.
Qed.

Lemma parse_members_settled n m d s : enough n ->
  2 * String.length s < S n -> 2 * String.length s < S m ->
  settled s (parse_members (S n) d s) (parse_members (S m) d s).
Proof.
  intros (HV & HM & _) Hn Hm. pose proof (skip_space_length s) as Hs. cbn [parse_members].
  destruct (skip_space s) as [|c s']; [apply settled_none|]. cbn [String.length] in Hs.
  destruct (Ascii.eqb c dquote); [|apply settled_none].
  eapply settled_bind; [apply settled_same, parse_string_length|]. intros k t Ht. cbn [fst snd].
  destruct (skip_space t) as [|e s2] eqn:He; [apply settled_none|]. apply skip_space_cons in He.
  destruct (decide (e = ":"%char)) as [->|Hne]; [|by destruct e as [[] [] [] [] [] [] [] []]; first [apply settled_none|exfalso; apply Hne]].
  eapply settled_bind; [apply HV; lia|]. intros v t' Ht'. cbn [fst snd].
  destruct (skip_space t') as [|e s3] eqn:He'; [apply settled_none|]. apply skip_space_cons in He'.
  destruct (decide (e = ","%char)) as [->|H1].
  { eapply (settled_map _ s3 _ _ (fun l => (k, v) :: l)); [|lia]. apply HM; lia. }
  destruct (decide (e = "}"%char)) as [->|H2]; [apply settled_ret; lia|].
  by destruct e as [[] [] [] [] [] [] [] []]; first [apply settled_none|exfalso; apply H1|exfalso; apply H2].
Qed.

Lemma parse_elems_settled n m d s : enough n ->
  S (2 * String.length s) < S n -> S (2 * String.length s) < S m ->
  settled s (parse_elems (S n) d s) (parse_elems (S m) d s).
Proof.
  intros (HV & _ & HE) Hn Hm. cbn [parse_elems].
  eapply settled_bind; [apply HV; lia|]. intros v t' Ht'. cbn [fst snd].
  destruct (skip_space t') as [|e s3] eqn:He'; [apply settled_none|]. apply skip_space_cons in He'.
  destruct (decide (e = ","%char)) as [->|H1].
  { eapply (settled_map _ s3 _ _ (fun l => v :: l)); [|lia]. apply HE; lia. }
  destruct (decide (e = "]"%char)) as [->|H2]; [apply settled_ret; lia|].
  by destruct e as [[] [] [] [] [] [] [] []]; first [apply settled_none|exfalso; apply H1|exfalso; apply H2].
Qed.

Lemma fuel_enough n : enough n.
Proof.
  induction n as [|n IH]; [split_and!; lia|].
  split_and!; intros [|m] d s Hn Hm; try lia;
    [by apply parse_value_settled|by apply parse_members_settled|by apply parse_elems_settled].
Qed.

(** More fuel than [parse_fuel] changes no answer. *)
Lemma parse_fuel_enough n d s : parse_fuel s <= n -> parse_value n d s = parse_value (parse_fuel s) d s.
Proof. unfold parse_fuel. intros Hn. by apply fuel_enough; lia. Qed.

(** A value is at least one byte. *)
Lemma parse_value_consumes d s : left_of 1 s (parse_value (parse_fuel s) d s).
Proof.
  destruct (fuel_enough (parse_fuel s)) as [HV _].
  apply (HV (parse_fuel s) d s); unfold parse_fuel; lia.
Qed.
