(* ===== verification/Strconv.v ===== *)
(** * Strconv: quoting of strings in Go syntax ([strconv.Quote], [strconv.Unquote])

    The config file of fleetctl is written with [Quote] and read with [Unquote];
    the file ends with the proof that this loses nothing, on any bytes. *)

From S2P Require Import Prelude.
From S2P Require Import GoStd.
From S2P Require Import Utf8.
From S2P Require Import Json.
Local Open Scope N_scope.

(** [strconv.IsPrint] is a table of the Unicode standard; the printable ASCII
    characters are the ones from space to tilde. *)
Class UnicodeTables := { IsPrint : N -> bool }.
Class UnicodeTablesOk `(UnicodeTables) := {
  IsPrint_ascii r : r < 128 -> IsPrint r = in_range 32 126 r
}.

(** A table for the witnesses: ASCII only. *)
Module RefUnicode.
#[global] Instance ref_unicode : UnicodeTables := {| IsPrint := in_range 32 126 |}.
#[global] Instance ref_unicode_ok : UnicodeTablesOk ref_unicode.
Proof. by split. Qed.
End RefUnicode.

Definition backslash : ascii := "\"%char.
Definition newline : ascii := ascii_of_N 10.
Definition backquote : ascii := "`"%char.
Definition apostrophe : ascii := "'"%char.

(** [utf8.ValidRune]. *)
Definition ValidRune (r : N) : bool := (r <=? 1114111) && negb (in_range 55296 57343 r).

(** ** Quote *)

(** The [k] low hexadecimal digits, the most significant first. *)
Fixpoint hex_digits (k : nat) (r : N) : string :=
  match k with
  | O => ""
  | S k => hex_char ((r / 16 ^ N.of_nat k) mod 16) +:+ hex_digits k r
  end.

Definition control_escape (r : N) : option string :=
  if r =? 7 then Some "\a"
  else if r =? 8 then Some "\b"
  else if r =? 12 then Some "\f"
  else if r =? 10 then Some "\n"
  else if r =? 13 then Some "\r"
  else if r =? 9 then Some "\t"
  else if r =? 11 then Some "\v"
  else None.

Section Quote.
Context `{UnicodeTables}.

(** One rune between double quotes, with the bytes it was decoded from. *)
Definition quote_rune (rw : N * string) : string :=
  let (r, w) := rw in
  if (r =? RuneError) && Nat.eqb (String.length w) 1 then
    match w with String c _ => "\x" +:+ hex_digits 2 (byte c) | "" => "" end
  else if (r =? byte dquote) || (r =? byte backslash) then String backslash (chr r)
  else if IsPrint r then EncodeRune r
  else match control_escape r with
  | Some e => e
  | None =>
      if (r <? 32) || (r =? 127) then "\x" +:+ hex_digits 2 r
      else
        let r := if ValidRune r then r else RuneError in
        if r <? 65536 then "\u" +:+ hex_digits 4 r
        else "\U" +:+ hex_digits 8 r
  end.

Definition Quote (s : string) : string :=
  String dquote (str_concat (map quote_rune (string_runes s)) +:+ String dquote "").
End Quote.

(** ** Unquote *)

(** [unhex] repeated: [n] hexadecimal digits on top of the value [v]. *)
Fixpoint unhex (n : nat) (v : N) (s : string) : option (N * string) :=
  match n, s with
  | O, _ => Some (v, s)
  | S n, String c s => x ← hex_digit c; unhex n (v * 16 + x) s
  | S _, "" => None
  end.

Definition octal_digit (c : ascii) : option N :=
  if in_range 48 55 (byte c) then Some (byte c - 48) else None.

(** The value of a one-letter escape. *)
Definition letter_escape (c : ascii) : option N :=
  match c with
  | "a"%char => Some 7
  | "b"%char => Some 8
  | "f"%char => Some 12
  | "n"%char => Some 10
  | "r"%char => Some 13
  | "t"%char => Some 9
  | "v"%char => Some 11
  | "\"%char => Some 92
  | _ => None
  end.

(** [UnquoteChar]: the value, whether it stands for a rune of several bytes, and
    the rest; [None] is [ErrSyntax]. *)
Definition UnquoteChar (s : string) (quote : ascii) : option (N * bool * string) :=
  match s with
  | "" => None
  | String c s1 =>
    if Ascii.eqb c quote && (Ascii.eqb quote apostrophe || Ascii.eqb quote dquote) then None
    else if 128 <=? byte c then
      let (r, size) := DecodeRune s in Some (r, true, str_drop size s)
    else if negb (Ascii.eqb c backslash) then Some (byte c, false, s1)
    else match s1 with
    | "" => None
    | String e s2 =>
      match letter_escape e with
      | Some v => Some (v, false, s2)
      | None =>
        if Ascii.eqb e "x"%char then
          vr ← unhex 2 0 s2; Some (vr.1, false, vr.2)
        else if Ascii.eqb e "u"%char then
          vr ← unhex 4 0 s2; if ValidRune vr.1 then Some (vr.1, true, vr.2) else None
        else if Ascii.eqb e "U"%char then
          vr ← unhex 8 0 s2; if ValidRune vr.1 then Some (vr.1, true, vr.2) else None
        else if Ascii.eqb e apostrophe || Ascii.eqb e dquote then
          if Ascii.eqb e quote then Some (byte e, false, s2) else None
        else match octal_digit e, s2 with
        | Some v, String d1 (String d2 s3) =>
            x1 ← octal_digit d1; x2 ← octal_digit d2;
            let v := (v * 8 + x1) * 8 + x2 in
            if 255 <? v then None else Some (v, false, s3)
        | _, _ => None
        end
      end
    end
  end.

(** What is appended for an unquoted character. *)
Definition emit (r : N) (multibyte : bool) : string :=
  if (r <? 128) || negb multibyte then chr r else EncodeRune r.

(** The loop of [unquote], to the closing quote; between apostrophes there is
    one character. Every round consumes a byte. *)
Fixpoint unquote_loop (fuel : nat) (quote : ascii) (s : string) : option (string * string) :=
  match fuel, s with
  | S fuel, String c s1 =>
      if Ascii.eqb c quote then Some ("", s1)
      else
        u ← UnquoteChar s quote;
        let '(r, multibyte, rem) := u in
        if Ascii.eqb c newline then None
        else
          tr ← (if Ascii.eqb quote apostrophe then
                  match rem with
                  | String c' rem' => if Ascii.eqb c' quote then Some ("", rem') else None
                  | "" => None
                  end
                else unquote_loop fuel quote rem);
          Some (emit r multibyte +:+ tr.1, tr.2)
  | _, _ => None
  end.

Fixpoint remove_char (c : ascii) (s : string) : string :=
  match s with
  | "" => ""
  | String d s => if Ascii.eqb d c then remove_char c s else String d (remove_char c s)
  end.

(** Text that can be taken as it is. *)
Definition plain_body (quote : ascii) (body : string) : bool :=
  negb (has_char backslash body) && negb (has_char newline body) &&
  (if Ascii.eqb quote dquote then ValidString body
   else let (r, n) := DecodeRune body in
        Nat.eqb n (String.length body) && negb ((r =? RuneError) && Nat.eqb n 1)).

(** [unquote(in, true)]: the text and what follows the closing quote. *)
Definition unquote (s : string) : option (string * string) :=
  match s with
  | "" => None
  | String quote s1 =>
      match SplitN2 s1 quote with
      | None => None
      | Some (body, rest) =>
          if Ascii.eqb quote backquote then Some (remove_char (ascii_of_N 13) body, rest)
          else if Ascii.eqb quote dquote || Ascii.eqb quote apostrophe then
            if plain_body quote body then Some (body, rest)
            else unquote_loop (S (String.length s1)) quote s1
          else None
      end
  end.

Definition Unquote (s : string) : option string :=
  or ← unquote s; if String.eqb or.2 "" then Some or.1 else None.

Example unquote_ex1 : Unquote (dq "'a\tb\x41\u00e9\101'") =
  Some ("a" +:+ chr 9 +:+ "bA" +:+ chr 195 +:+ chr 169 +:+ "A").
Proof. reflexivity. Qed.
Example unquote_ex2 : Unquote "http://localhost" = None.
Proof. reflexivity. Qed.

(** ** Lemmas *)

Lemma below_16 (P : N -> Prop) :
  P 0 -> P 1 -> P 2 -> P 3 -> P 4 -> P 5 -> P 6 -> P 7 -> P 8 -> P 9 -> P 10 -> P 11 ->
  P 12 -> P 13 -> P 14 -> P 15 -> forall n, n < 16 -> P n.
Proof.
  intros. destruct n as [|p]; [assumption|].
  do 4 (try destruct p as [p|p|]; try assumption); lia.
Qed.

Lemma unhex_digit k v n s :
  n < 16 -> unhex (S k) v (hex_char n +:+ s) = unhex k (v * 16 + n) s.
Proof. revert n. by apply below_16. Qed.

Lemma unhex_digits k v r s :
  unhex k v (hex_digits k r +:+ s) = Some (v * 16 ^ N.of_nat k + r mod 16 ^ N.of_nat k, s).
Proof.
  revert v. induction k as [|k IH]; intros v; cbn [hex_digits].
  - cbn. by rewrite N.mod_1_r, N.mul_1_r, N.add_0_r.
  - rewrite <- append_assoc, unhex_digit by (by apply N.mod_lt). rewrite IH.
    rewrite Nat2N.inj_succ, N.pow_succ_r', (N.mul_comm 16), N.Div0.mod_mul_r. f_equal.
    f_equal. lia.
Qed.

Lemma unhex_small k r s :
  r < 16 ^ N.of_nat k -> unhex k 0 (hex_digits k r +:+ s) = Some (r, s).
Proof. intros Hr. rewrite unhex_digits, N.mod_small by done. done. Qed.

Lemma decoded_valid s r k : decoded s r k -> ValidRune r = true.
Proof.
  intros Hd. unfold ValidRune. pose proof (decoded_range _ _ _ Hd) as [Hmax _].
  rewrite (decoded_not_surrogate _ _ _ Hd). apply andb_true_iff. split; [by apply N.leb_le|done].
Qed.

(** *** The loop on quoted text *)

Lemma loop_step n c s r mb rem :
  c <> dquote -> c <> newline -> UnquoteChar (String c s) dquote = Some (r, mb, rem) ->
  unquote_loop (S n) dquote (String c s) = prepend (emit r mb) (unquote_loop n dquote rem).
Proof.
  intros Hq Hn Hu. cbn [unquote_loop]. destruct (Ascii.eqb_spec c dquote); [done|].
  rewrite Hu. cbn [mbind option_bind]. destruct (Ascii.eqb_spec c newline); [done|]. done.
Qed.

Lemma emit_encode r : emit r true = EncodeRune r.
Proof. unfold emit, EncodeRune. cbn. by destruct (r <? 128). Qed.

Lemma emit_byte r : emit r false = chr r.
Proof. unfold emit. by rewrite orb_true_r. Qed.

Lemma loop_hex2 n r t :
  r < 256 -> unquote_loop (S n) dquote ("\x" +:+ hex_digits 2 r +:+ t)
  = prepend (chr r) (unquote_loop n dquote t).
Proof.
  intros Hr. rewrite <- emit_byte. apply (loop_step n backslash _ r false t); [done..|].
  cbn -[unhex hex_digits]. rewrite unhex_small by done. done.
Qed.

Lemma loop_hex4 n r t :
  r < 65536 -> ValidRune r = true ->
  unquote_loop (S n) dquote ("\u" +:+ hex_digits 4 r +:+ t)
  = prepend (EncodeRune r) (unquote_loop n dquote t).
Proof.
  intros Hr Hv. rewrite <- emit_encode. apply (loop_step n backslash _ r true t); [done..|].
  cbn -[unhex hex_digits]. rewrite unhex_small by done. cbn. by rewrite Hv.
Qed.

Lemma loop_hex8 n r t :
  ValidRune r = true ->
  unquote_loop (S n) dquote ("\U" +:+ hex_digits 8 r +:+ t)
  = prepend (EncodeRune r) (unquote_loop n dquote t).
Proof.
  intros Hv. rewrite <- emit_encode. apply (loop_step n backslash _ r true t); [done..|].
  cbn -[unhex hex_digits]. rewrite unhex_small.
  - cbn. by rewrite Hv.
  - unfold ValidRune in Hv. apply andb_true_iff in Hv as [Hv _]. apply N.leb_le in Hv.
    cbn. lia.
Qed.

(** A rune written as it is. *)
Lemma loop_plain n r w t :
  decoded w r (String.length w) -> w = EncodeRune r -> r <> byte dquote -> r <> byte backslash ->
  r <> byte newline ->
  unquote_loop (S n) dquote (w +:+ t) = prepend w (unquote_loop n dquote t).
Proof.
  intros Hd Hw Hq Hb Hn. destruct (N.lt_ge_cases r 128) as [Hr|Hr].
  - rewrite EncodeRune_ascii in Hw by done. subst w. unfold chr. cbn [String.append].
    assert (Hc : byte (ascii_of_N r) = r) by (apply N_ascii_embedding; lia).
    assert (forall d, r <> byte d -> ascii_of_N r <> d) as Hne by (intros d Hd' <-; congruence).
    rewrite (loop_step n _ t r false t); [|by apply Hne..|].
    + by rewrite emit_byte.
    + cbn -[byte dquote backslash apostrophe]. destruct (Ascii.eqb_spec (ascii_of_N r) dquote); [exfalso; by apply (Hne dquote Hq)|].
      cbn [andb]. rewrite Hc. destruct (N.leb_spec 128 r); [lia|].
      destruct (Ascii.eqb_spec (ascii_of_N r) backslash); [exfalso; by apply (Hne backslash Hb)|done].
  - destruct (decoded_head _ _ _ Hd Hr) as (c & w' & Hcw & Hc).
    assert (forall d, byte d < 128 -> c <> d) as Hne by (intros d Hd' <-; lia).
    pose proof (decoded_append w r t Hd) as Hdec.
    rewrite <- (emit_encode r) in Hw. rewrite Hw at 2. rewrite Hcw in *. cbn [String.append].
    apply loop_step; [by apply Hne..|].
    cbn -[byte DecodeRune dquote backslash apostrophe]. destruct (Ascii.eqb_spec c dquote); [exfalso; by apply (Hne dquote eq_refl)|]. cbn [andb].
    destruct (N.leb_spec 128 (byte c)); [|lia].
    change (String c (w' +:+ t)) with (String c w' +:+ t). rewrite Hdec.
    f_equal. f_equal. by apply str_drop_app.
Qed.

Lemma control_escape_loop n r e t :
  control_escape r = Some e ->
  unquote_loop (S n) dquote (e +:+ t) = prepend (chr r) (unquote_loop n dquote t).
Proof.
  unfold control_escape. intros He.
  repeat match type of He with
  | (if ?r =? ?k then _ else _) = _ =>
      destruct (N.eqb_spec r k) as [->|]; [injection He as <-; rewrite <- emit_byte; by apply loop_step|]
  end. done.
Qed.

Lemma control_escape_ascii r e : control_escape r = Some e -> r < 128.
Proof.
  unfold control_escape. repeat case_match; try done; byte_tests; lia.
Qed.

Section RoundTrip.
Context `{UnicodeTables} `{!UnicodeTablesOk _}.

Lemma quote_rune_loop n rw t :
  rune_of rw ->
  unquote_loop (S n) dquote (quote_rune rw +:+ t) = prepend rw.2 (unquote_loop n dquote t).
Proof using All.
  intros [c Hc|r w k Hd -> Hw]; cbn [snd].
  - unfold quote_rune. rewrite N.eqb_refl. cbn [andb String.length Nat.eqb].
    rewrite <- append_assoc, <- (chr_byte c). apply loop_hex2, byte_lt.
  - unfold quote_rune.
    assert ((r =? RuneError) && Nat.eqb (String.length w) 1 = false) as ->.
    { apply andb_false_iff. destruct (Nat.eqb_spec (String.length w) 1) as [Hl|]; [|by right].
      left. rewrite Hl in Hd. apply decoded_one in Hd as (_ & _ & _ & _ & Hr).
      apply N.eqb_neq. unfold RuneError. lia. }
    destruct (N.eqb_spec r (byte dquote)) as [->|Hq].
    { rewrite EncodeRune_ascii in Hw by done. subst w. rewrite <- emit_byte. by apply loop_step. }
    destruct (N.eqb_spec r (byte backslash)) as [->|Hb].
    { rewrite EncodeRune_ascii in Hw by done. subst w. rewrite <- emit_byte. by apply loop_step. }
    cbn [orb]. destruct (IsPrint r) eqn:Hp.
    { rewrite <- Hw. apply (loop_plain n r); [done..|]. intros ->.
      by rewrite IsPrint_ascii in Hp by done. }
    destruct (control_escape r) as [e|] eqn:He.
    { rewrite (control_escape_loop n r e t He).
      by rewrite Hw, EncodeRune_ascii by (by eapply control_escape_ascii). }
    destruct ((r <? 32) || (r =? 127)) eqn:Hctl.
    { rewrite <- append_assoc, Hw, EncodeRune_ascii; [apply loop_hex2|];
        apply orb_true_iff in Hctl as [?%N.ltb_lt|?%N.eqb_eq]; lia. }
    rewrite (decoded_valid _ _ _ Hd), Hw.
    destruct (N.ltb_spec r 65536); rewrite <- append_assoc.
    + by apply loop_hex4, (decoded_valid w r (String.length w)).
    + by apply loop_hex8, (decoded_valid w r (String.length w)).
Qed.

Lemma quoted_loop n l t :
  Forall rune_of l -> (length l < n)%nat ->
  unquote_loop n dquote (str_concat (map quote_rune l) +:+ String dquote t)
  = Some (str_concat (map snd l), t).
Proof using All.
  intros Hl. revert n. induction Hl as [|rw l Hrw Hl IH]; intros [|n] Hn; cbn in Hn; try lia.
  - done.
  - cbn [map str_concat]. rewrite <- append_assoc, quote_rune_loop by done.
    rewrite IH by lia. done.
Qed.

(** Text taken as it is is the text the loop would have found. *)
Lemma plain_loop n l t :
  Forall rune_of l -> Forall (fun rw => bad_rune (rw.1, String.length rw.2) = false) l ->
  Forall (fun rw => rw.1 <> byte dquote /\ rw.1 <> byte backslash /\ rw.1 <> byte newline) l ->
  (length l < n)%nat ->
  unquote_loop n dquote (str_concat (map snd l) +:+ String dquote t)
  = Some (str_concat (map snd l), t).
Proof using Type.
  intros Hl. revert n. induction Hl as [|rw l Hrw Hl IH]; intros [|n] Hbad Hne Hn; cbn in Hn; try lia.
  - done.
  - apply Forall_cons in Hbad as [Hb Hbad]. apply Forall_cons in Hne as [(Hq & Hs & Hnl) Hne].
    destruct Hrw as [c Hc|r w k Hd -> Hw]; cbn in Hb, Hq, Hs, Hnl; [done|].
    cbn [map str_concat snd]. rewrite <- append_assoc, (loop_plain n r) by done.
    by rewrite IH by (done || lia).
Qed.

Lemma has_char_append c s t : has_char c (s +:+ t) = has_char c s || has_char c t.
Proof using Type. induction s as [|d s IH]; cbn; [done|]. by rewrite IH, orb_assoc. Qed.

Lemma SplitN2_has s c : has_char c s = true -> is_Some (SplitN2 s c).
Proof using Type.
  induction s as [|d s IH]; cbn; [done|]. rewrite Ascii.eqb_sym.
  destruct (Ascii.eqb d c); [by eexists|]. intros Hs. destruct (IH Hs) as [[a b] ->]. by eexists.
Qed.

(** An ASCII rune of a string is one of its characters. *)
Lemma ascii_rune_in l r w :
  rune_of (r, w) -> (r, w) ∈ l -> r < 128 -> has_char (ascii_of_N r) (str_concat (map snd l)) = true.
Proof using Type.
  intros Hrw Hin Hr. induction l as [|rw l IH]; [by apply not_elem_of_nil in Hin|].
  cbn. rewrite has_char_append. apply elem_of_cons in Hin as [<-|Hin].
  - inversion Hrw as [c Hc|r' w' k Hd Hk Hw]; subst; [unfold RuneError in Hr; lia|].
    cbn [snd]. rewrite EncodeRune_ascii by done. cbn. by rewrite Ascii.eqb_refl.
  - by rewrite IH, orb_true_r.
Qed.

Lemma plain_body_loop n body t :
  plain_body dquote body = true -> has_char dquote body = false ->
  (length (string_runes body) < n)%nat ->
  unquote_loop n dquote (body +:+ String dquote t) = Some (body, t).
Proof using Type.
  unfold plain_body. change (Ascii.eqb dquote dquote) with true. cbn match. rewrite !andb_true_iff, !negb_true_iff.
  intros [[Hb Hnl] Hv] Hq Hn. unfold ValidString in Hv. rewrite forallb_forall in Hv.
  assert (Hall := string_runes_rune_of body). rewrite Forall_forall in Hall.
  pose proof (plain_loop n (string_runes body) t (string_runes_rune_of body)) as Hloop.
  rewrite string_runes_concat in Hloop. apply Hloop; [| |done]; apply Forall_forall; intros rw Hin.
  - apply list_elem_of_In, Hv, negb_true_iff in Hin. done.
  - assert (forall d, byte d < 128 -> has_char d body = false -> rw.1 <> byte d) as Hne.
    { intros d Hd Hno Heq. destruct rw as [r w]; cbn in Heq. subst r.
      pose proof (ascii_rune_in _ _ _ (Hall _ Hin) Hin Hd) as Hhas.
      rewrite string_runes_concat in Hhas. unfold byte in Hhas.
      rewrite ascii_N_embedding in Hhas. congruence. }
    split_and!; by apply Hne.
Qed.

Lemma quote_rune_length rw : rune_of rw -> (1 <= String.length (quote_rune rw))%nat.
Proof using All.
  intros Hrw. pose proof (quote_rune_loop 0 rw (String dquote "") Hrw) as Hloop.
  destruct (quote_rune rw) as [|c q]; [done|]. cbn. lia.
Qed.

Lemma quoted_length l :
  Forall rune_of l -> (length l <= String.length (str_concat (map quote_rune l)))%nat.
Proof using All.
  induction 1 as [|rw l Hrw Hl IH]; cbn; [lia|]. rewrite length_append.
  pose proof (quote_rune_length rw Hrw). lia.
Qed.

(** Quoting and unquoting any bytes gives them back. *)
Lemma Unquote_Quote s : Unquote (Quote s) = Some s.
Proof using All.
  pose proof (string_runes_rune_of s) as Hl. set (l := string_runes s) in Hl.
  set (body := str_concat (map quote_rune l)).
  assert (Hloop : forall n, (length l < n)%nat ->
    unquote_loop n dquote (body +:+ String dquote "") = Some (s, "")).
  { intros n Hn. unfold body. rewrite quoted_loop by done. unfold l. by rewrite string_runes_concat. }
  assert (Hun : unquote (Quote s) = Some (s, "")); [|unfold Unquote; by rewrite Hun].
  unfold Quote. fold l body. unfold unquote.
  destruct (SplitN2_has (body +:+ String dquote "") dquote) as [[body0 rest] Hsplit].
  { rewrite has_char_append. cbn. apply orb_true_r. }
  rewrite Hsplit. cbn [Ascii.eqb]. change (Ascii.eqb dquote backquote) with false.
  change (Ascii.eqb dquote dquote || Ascii.eqb dquote apostrophe) with true. cbn match.
  destruct (plain_body dquote body0) eqn:Hplain.
  - apply SplitN2_Some in Hsplit as [Heq Hno]. rewrite Heq in Hloop.
    set (n := S (length l + length (string_runes body0))).
    specialize (Hloop n ltac:(lia)).
    rewrite (plain_body_loop n body0 rest Hplain Hno) in Hloop by lia. done.
  - apply Hloop. rewrite length_append.
    pose proof (quoted_length l Hl) as Hlen. fold body in Hlen. cbn. lia.
Qed.
End RoundTrip.
