(* ===== verification/Sql.v ===== *)
(** * Sql: the database the repositories talk to

    The tables created by [api/internal/db/migrations], the SQL statements of
    the repository as data, what a statement may do to the tables
    ([sql_sem]), PostgreSQL behind pgx as a class ([Postgres], with the laws
    [PostgresOk]), database programs ([prog]) and their logic: the sequential
    [wp] and the rely-guarantee [rg] for interleaved requests. *)

From S2P Require Import Prelude.
From S2P Require Import GoStd.

(** ** Values, rows, tables *)

(** [uuid.UUID] is a 128-bit value; [uuid.Nil] is zero. *)
Abbreviation UUID := N.
Definition uuid_Nil : UUID := 0%N.

(** [time.Time] as nanoseconds since the Unix epoch. *)
Abbreviation Time := Z.

Inductive Value :=
| VText (s : string)
| VUuid (u : UUID)
| VTime (t : Time)
| VNull.

#[global] Instance Value_eq_dec : EqDecision Value.
Proof. solve_decision. Defined.

(** A row: the value of each column of its table. *)
Abbreviation Row := (list (string * Value)).

Fixpoint col (r : Row) (c : string) : option Value :=
  match r with
  | [] => None
  | (d, v) :: r => if String.eqb c d then Some v else col r c
  end.

(** Overwrite a column; a row keeps the columns it has. *)
Definition set_col (c : string) (v : Value) (r : Row) : Row :=
  map (fun dv => if String.eqb c dv.1 then (dv.1, v) else dv) r.

Definition project (cols : list string) (r : Row) : list Value :=
  map (fun c => default VNull (col r c)) cols.

Inductive TableName := TSatellites | TUsers.

#[global] Instance TableName_eq_dec : EqDecision TableName.
Proof. solve_decision. Defined.

Record Tables := mkTables { t_satellites : list Row; t_users : list Row }.

Definition rows (T : Tables) (t : TableName) : list Row :=
  match t with TSatellites => t_satellites T | TUsers => t_users T end.

Definition set_rows (T : Tables) (t : TableName) (l : list Row) : Tables :=
  match t with
  | TSatellites => mkTables l (t_users T)
  | TUsers => mkTables (t_satellites T) l
  end.

(** ** The schema *)

Inductive Default :=
| DfltUuid          (** [DEFAULT gen_random_uuid()] *)
| DfltNow           (** [DEFAULT now()] *)
| DfltText (s : string)
| DfltNull          (** a nullable column without a default *)
| DfltNone.         (** [NOT NULL] without a default *)

Record TableSchema := mkSchema {
  ts_columns : list (string * Default);
  ts_unique : list string               (** the primary key and the [UNIQUE] columns *)
}.

(** [000001_create_satellites.up.sql]. *)
Definition create_satellites : TableSchema := {|
  ts_columns :=
    [("id", DfltUuid); ("name", DfltNone); ("region", DfltNone);
     ("status", DfltText "Pending"); ("managed_by", DfltText "manual");
     ("last_seen_at", DfltNull); ("created_at", DfltNow)];
  ts_unique := ["id"; "name"]
|}.

(** [000002_create_users.up.sql]. *)
Definition create_users : TableSchema := {|
  ts_columns :=
    [("id", DfltUuid); ("username", DfltNone); ("password_hash", DfltNone);
     ("role", DfltText "viewer"); ("created_at", DfltNow)];
  ts_unique := ["id"; "username"]
|}.

Definition schema (t : TableName) : TableSchema :=
  match t with TSatellites => create_satellites | TUsers => create_users end.

(** ** Statements *)

(** A value in a statement: a parameter, a literal, or [NOW()]. *)
Inductive Expr := Arg (v : Value) | Lit (s : string) | NOW.

Definition eval_expr (now : Time) (e : Expr) : Value :=
  match e with Arg v => v | Lit s => VText s | NOW => VTime now end.

Inductive Stmt :=
| Insert (t : TableName) (vals : list (string * Expr)) (returning : list string)
| Select (cols : list string) (t : TableName) (wh : option (string * Value))
         (order_by_desc : option string)
| Update (t : TableName) (sets : list (string * Expr)) (wh : string * Value)
         (returning : list string)
| Delete (t : TableName) (wh : string * Value).

(** [WHERE c = v]. *)
Definition matches (wh : string * Value) (r : Row) : bool :=
  bool_decide (col r wh.1 = Some wh.2).

Definition selected (wh : option (string * Value)) (r : Row) : bool :=
  match wh with Some w => matches w r | None => true end.

Definition default_value (fresh : UUID) (now : Time) (d : Default) : option Value :=
  match d with
  | DfltUuid => Some (VUuid fresh)
  | DfltNow => Some (VTime now)
  | DfltText s => Some (VText s)
  | DfltNull => Some VNull
  | DfltNone => None
  end.

Fixpoint given (vals : list (string * Expr)) (c : string) : option Expr :=
  match vals with
  | [] => None
  | (d, e) :: vals => if String.eqb c d then Some e else given vals c
  end.

(** The row an [INSERT] builds: the value given for a column, its default
    otherwise; no row when a [NOT NULL] column has neither. *)
Fixpoint new_row (fresh : UUID) (now : Time) (vals : list (string * Expr))
    (cols : list (string * Default)) : option Row :=
  match cols with
  | [] => Some []
  | (c, d) :: cols =>
      v ← match given vals c with
          | Some e => Some (eval_expr now e)
          | None => default_value fresh now d
          end;
      r ← new_row fresh now vals cols;
      Some ((c, v) :: r)
  end.

(** No stored row agrees with the new one on a unique column. *)
Definition no_conflict (unique : list string) (l : list Row) (r : Row) : bool :=
  forallb (fun r' => forallb (fun c => negb (bool_decide (col r' c = col r c))) unique) l.

Definition apply_sets (now : Time) (sets : list (string * Expr)) (r : Row) : Row :=
  foldl (fun r ce => set_col ce.1 (eval_expr now ce.2) r) r sets.

Definition update_row (now : Time) (sets : list (string * Expr)) (wh : string * Value)
    (r : Row) : Row :=
  if matches wh r then apply_sets now sets r else r.

(** The sort key of a [TIMESTAMPTZ NOT NULL] column, and [ORDER BY c DESC]:
    [r] may come before [r']. *)
Definition time_key (c : string) (r : Row) : Time :=
  match col r c with Some (VTime t) => t | _ => 0%Z end.

Definition desc_by (c : string) (r r' : Row) : Prop := (time_key c r' <= time_key c r)%Z.

#[global] Instance desc_by_dec c r r' : Decision (desc_by c r r').
Proof. unfold desc_by. apply _. Defined.

#[global] Instance desc_by_trans c : Transitive (desc_by c).
Proof. unfold desc_by. intros ???; lia. Qed.

#[global] Instance desc_by_total c : Total (desc_by c).
Proof. unfold desc_by. intros ??; lia. Qed.

Definition ordered (o : option string) (l : list Row) : Prop :=
  match o with Some c => StronglySorted (desc_by c) l | None => True end.

(** What a statement may answer on tables [T], and the tables after it: rows,
    or an error of the server or the connection. A failed statement has no
    effect, except that the connection can be lost after the server committed
    it. The generated uuid and the time of the statement are the server's. *)
Inductive sql_sem : Stmt -> Tables -> res (list (list Value)) -> Tables -> Prop :=
| sem_select cols t wh o T l :
    l ≡ₚ List.filter (selected wh) (rows T t) -> ordered o l ->
    sql_sem (Select cols t wh o) T (Ok (map (project cols) l)) T
| sem_insert t vals ret T fresh now r :
    new_row fresh now vals (ts_columns (schema t)) = Some r ->
    no_conflict (ts_unique (schema t)) (rows T t) r = true ->
    sql_sem (Insert t vals ret) T (Ok [project ret r]) (set_rows T t (rows T t ++ [r]))
| sem_update t sets wh ret T now :
    Forall (fun c => c ∉ ts_unique (schema t)) (map fst sets) ->
    sql_sem (Update t sets wh ret) T
      (Ok (map (fun r => project ret (apply_sets now sets r))
               (List.filter (matches wh) (rows T t))))
      (set_rows T t (map (update_row now sets wh) (rows T t)))
| sem_delete t wh T :
    sql_sem (Delete t wh) T (Ok [])
      (set_rows T t (List.filter (fun r => negb (matches wh r)) (rows T t)))
| sem_fail st T msg :
    sql_sem st T (Err (Foreign msg)) T
| sem_lost st T l T' msg :
    sql_sem st T (Ok l) T' -> sql_sem st T (Err (Foreign msg)) T'.

(** ** PostgreSQL behind pgx *)

(** The database as the server sees it through the pool: its state, the tables
    in it, the answer to a statement and to a ping, and which statements it
    accepts (is reachable for, has no reason to refuse). *)
Class Postgres := {
  pg_state : Type;
  pg_view : pg_state -> Tables;
  pg_query : Stmt -> pg_state -> res (list (list Value)) * pg_state;
  pg_ping : pg_state -> res unit * pg_state;
  pg_accepts : Stmt -> pg_state -> Prop
}.

Class PostgresOk `(Postgres) := {
  pg_query_sem st s r s' :
    pg_query st s = (r, s') -> sql_sem st (pg_view s) r (pg_view s');
  pg_accepts_ok st s :
    pg_accepts st s -> exists l s', pg_query st s = (Ok l, s');
  pg_ping_view s : pg_view (pg_ping s).2 = pg_view s
}.

(** ** Database programs *)

(** A computation of the server between the statements it sends: it finishes,
    or sends a statement (or a ping) and goes on with the answer. Other requests
    may run between two statements. *)
Inductive prog (A : Type) :=
| Ret (a : A)
| Query (st : Stmt) (k : res (list (list Value)) -> prog A)
| Ping (k : res unit -> prog A).
Arguments Ret {_} _.
Arguments Query {_} _ _.
Arguments Ping {_} _.

Fixpoint prog_bind {A B} (f : A -> prog B) (p : prog A) : prog B :=
  match p with
  | Ret a => f a
  | Query st k => Query st (fun r => prog_bind f (k r))
  | Ping k => Ping (fun r => prog_bind f (k r))
  end.

#[global] Instance prog_mret : MRet prog := fun _ a => Ret a.
#[global] Instance prog_mbind : MBind prog := @prog_bind.

(** [db.Query(...)]: all rows of the answer. *)
Definition db_Query (st : Stmt) : prog (res (list (list Value))) := Query st Ret.

Definition first_row (r : res (list (list Value))) : res (list Value) :=
  match r with
  | Ok (row :: _) => Ok row
  | Ok [] => Err (Sentinel ErrNoRows)
  | Err e => Err e
  end.

Definition no_rows (r : res (list (list Value))) : res unit :=
  match r with Ok _ => Ok tt | Err e => Err e end.

(** [db.QueryRow(...)], before [Scan]: pgx takes the first row, or reports
    [pgx.ErrNoRows] when there is none. *)
Definition db_QueryRow (st : Stmt) : prog (res (list Value)) :=
  Query st (fun r => Ret (first_row r)).

(** [db.Exec(...)]. *)
Definition db_Exec (st : Stmt) : prog (res unit) :=
  Query st (fun r => Ret (no_rows r)).

(** [db.Ping(ctx)]. *)
Definition db_Ping : prog (res unit) := Ping Ret.

(** A program running alone against the database. *)
Fixpoint run `{Postgres} {A} (p : prog A) (s : pg_state) : A * pg_state :=
  match p with
  | Ret a => (a, s)
  | Query st k => let (r, s') := pg_query st s in run (k r) s'
  | Ping k => let (r, s') := pg_ping s in run (k r) s'
  end.

(** *** Sequential reasoning *)

(** [wp p Q T]: run alone on tables [T], whatever the database answers, [p]
    finishes with a result and tables satisfying [Q]. *)
Fixpoint wp {A} (p : prog A) (Q : A -> Tables -> Prop) (T : Tables) : Prop :=
  match p with
  | Ret a => Q a T
  | Query st k => forall r T', sql_sem st T r T' -> wp (k r) Q T'
  | Ping k => forall r, wp (k r) Q T
  end.

Lemma wp_mono {A} (p : prog A) (Q Q' : A -> Tables -> Prop) T :
  wp p Q T -> (forall a T', Q a T' -> Q' a T') -> wp p Q' T.
Proof. revert T. induction p; cbn; eauto. Qed.

Lemma wp_bind {A B} (p : prog A) (f : A -> prog B) Q T :
  wp p (fun a T' => wp (f a) Q T') T -> wp (p ≫= f) Q T.
Proof. revert T. unfold mbind, prog_mbind. induction p; cbn; eauto. Qed.

Lemma wp_run `{PostgresOk} {A} (p : prog A) Q s :
  wp p Q (pg_view s) -> Q (run p s).1 (pg_view (run p s).2).
Proof.
  revert s. induction p as [a|st k IH|k IH]; intros s; cbn; [done| |].
  - intros Hwp. destruct (pg_query st s) as [r s'] eqn:Hq.
    apply IH, Hwp. by apply pg_query_sem.
  - intros Hwp. pose proof (pg_ping_view s) as Hv.
    destruct (pg_ping s) as [r s']; cbn in Hv. apply IH. by rewrite Hv.
Qed.

Lemma run_bind `{Postgres} {A B} (p : prog A) (f : A -> prog B) s :
  run (p ≫= f) s = run (f (run p s).1) (run p s).2.
Proof.
  revert s. unfold mbind, prog_mbind. induction p; intros s; cbn; [done|..];
    by case_match.
Qed.

(** The three ways to send a statement, reduced to what the statement may do. *)

Lemma sql_err st T e T' :
  sql_sem st T (Err e) T' ->
  exists msg, e = Foreign msg /\ (T' = T \/ exists l, sql_sem st T (Ok l) T').
Proof. inversion 1; subst; eauto. Qed.

(** [Q] holds after any failure of the statement: without effect, or with the
    effect it has when it succeeds and the answer is lost. *)
Definition on_failure {A} (st : Stmt) (T : Tables) (Q : res A -> Tables -> Prop) : Prop :=
  forall msg T', T' = T \/ (exists l, sql_sem st T (Ok l) T') -> Q (Err (Foreign msg)) T'.

Lemma select_inv cols t wh o T l T' :
  sql_sem (Select cols t wh o) T (Ok l) T' ->
  T' = T /\ exists l', l = map (project cols) l' /\ ordered o l'
    /\ l' ≡ₚ List.filter (selected wh) (rows T t).
Proof. inversion 1; subst; eauto 10. Qed.

Lemma insert_inv t vals ret T l T' :
  sql_sem (Insert t vals ret) T (Ok l) T' ->
  exists fresh now r, new_row fresh now vals (ts_columns (schema t)) = Some r
    /\ no_conflict (ts_unique (schema t)) (rows T t) r = true
    /\ l = [project ret r] /\ T' = set_rows T t (rows T t ++ [r]).
Proof. inversion 1; subst; eauto 10. Qed.

Lemma update_inv t sets wh ret T l T' :
  sql_sem (Update t sets wh ret) T (Ok l) T' ->
  exists now, l = map (fun r => project ret (apply_sets now sets r))
                      (List.filter (matches wh) (rows T t))
    /\ T' = set_rows T t (map (update_row now sets wh) (rows T t)).
Proof. inversion 1; subst; eauto 10. Qed.

Lemma delete_inv t wh T l T' :
  sql_sem (Delete t wh) T (Ok l) T' ->
  l = [] /\ T' = set_rows T t (List.filter (fun r => negb (matches wh r)) (rows T t)).
Proof. inversion 1; subst; eauto 10. Qed.

Lemma wp_QueryRow st (Q : res (list Value) -> Tables -> Prop) T :
  (forall l T', sql_sem st T (Ok l) T' -> Q (first_row (Ok l)) T') ->
  on_failure st T Q -> wp (db_QueryRow st) Q T.
Proof.
  intros Hok Herr. cbn. intros [l|e] T' Hsem; [by apply Hok|].
  apply sql_err in Hsem as (msg & -> & HT). by apply Herr.
Qed.

Lemma wp_Query st (Q : res (list (list Value)) -> Tables -> Prop) T :
  (forall l T', sql_sem st T (Ok l) T' -> Q (Ok l) T') ->
  on_failure st T Q -> wp (db_Query st) Q T.
Proof.
  intros Hok Herr. cbn. intros [l|e] T' Hsem; [by apply Hok|].
  apply sql_err in Hsem as (msg & -> & HT). by apply Herr.
Qed.

Lemma wp_Exec st (Q : res unit -> Tables -> Prop) T :
  (forall l T', sql_sem st T (Ok l) T' -> Q (Ok tt) T') ->
  on_failure st T Q -> wp (db_Exec st) Q T.
Proof.
  intros Hok Herr. cbn. intros [l|e] T' Hsem; [by eapply Hok|].
  apply sql_err in Hsem as (msg & -> & HT). by apply Herr.
Qed.

(** A [SELECT] changes nothing; its first row is a selected row of the table. *)
Lemma wp_QueryRow_select cols t wh o (Q : res (list Value) -> Tables -> Prop) T :
  (forall r, r ∈ rows T t -> selected wh r = true -> Q (Ok (project cols r)) T) ->
  (Forall (fun r => selected wh r = false) (rows T t) -> Q (Err (Sentinel ErrNoRows)) T) ->
  (forall msg, Q (Err (Foreign msg)) T) ->
  wp (db_QueryRow (Select cols t wh o)) Q T.
Proof.
  intros Hrow Hnone Herr. apply wp_QueryRow.
  - intros l T' (-> & l' & -> & _ & Hperm)%select_inv.
    destruct l' as [|r l']; cbn.
    + apply Hnone, Forall_forall. intros r Hr.
      destruct (selected wh r) eqn:Hs; [|done]. exfalso.
      apply Permutation_nil_l in Hperm.
      assert (r ∈ List.filter (selected wh) (rows T t)) as Hin.
      { by apply elem_of_filter_bool. }
      rewrite <- Hperm in Hin. by apply not_elem_of_nil in Hin.
    + assert (r ∈ List.filter (selected wh) (rows T t)) as Hin.
      { rewrite <- Hperm. by left. }
      apply elem_of_filter_bool in Hin as [Hin Hs]. by apply Hrow.
  - intros msg T' [->|(l & (-> & _)%select_inv)]; apply Herr.
Qed.

(** A single statement that the database accepts is answered with rows. *)
Lemma run_accepted `{PostgresOk} {A} st (k : res (list (list Value)) -> prog A) Q s :
  pg_accepts st s ->
  (forall l T', sql_sem st (pg_view s) (Ok l) T' -> wp (k (Ok l)) Q T') ->
  let rs := run (Query st k) s in Q rs.1 (pg_view rs.2).
Proof.
  intros Hacc Hk. destruct (pg_accepts_ok st s Hacc) as (l & s' & Hq). cbn. rewrite Hq.
  apply wp_run, Hk. by apply pg_query_sem.
Qed.

(** *** Interleaved reasoning *)

(** [rg rely guar p Q T]: started on tables [T], with other requests changing
    the tables between the statements of [p] within [rely], every statement of
    [p] changes the tables within [guar], and [p] finishes satisfying [Q]. *)
Fixpoint rg {A} (rely guar : Tables -> Tables -> Prop) (p : prog A)
    (Q : A -> Tables -> Prop) (T : Tables) : Prop :=
  match p with
  | Ret a => forall T1, rely T T1 -> Q a T1
  | Query st k => forall T1, rely T T1 -> forall r T2, sql_sem st T1 r T2 ->
      guar T1 T2 /\ rg rely guar (k r) Q T2
  | Ping k => forall T1, rely T T1 -> forall r, rg rely guar (k r) Q T1
  end.

(** The requests in flight, each at some point of its program; one step of the
    server: a request gets the answer to its next statement, or a new request
    (one [adm] admits) is accepted. *)
Record Pool `{Postgres} (A : Type) := mkPool { pool_db : pg_state; pool_reqs : list (prog A) }.
Arguments mkPool {_ _} _ _.
Arguments pool_db {_ _} _.
Arguments pool_reqs {_ _} _.

Inductive pool_step `{Postgres} {A} (adm : prog A -> Prop) : relation (Pool A) :=
| step_query s ps1 st k ps2 r s' :
    pg_query st s = (r, s') ->
    pool_step adm (mkPool s (ps1 ++ Query st k :: ps2)) (mkPool s' (ps1 ++ k r :: ps2))
| step_ping s ps1 k ps2 r s' :
    pg_ping s = (r, s') ->
    pool_step adm (mkPool s (ps1 ++ Ping k :: ps2)) (mkPool s' (ps1 ++ k r :: ps2))
| step_accept s ps p :
    adm p -> pool_step adm (mkPool s ps) (mkPool s (ps ++ [p])).

Section Rg.
Context (rely guar : Tables -> Tables -> Prop) `{!PreOrder rely}.

Lemma rg_mono {A} (p : prog A) (Q Q' : A -> Tables -> Prop) T :
  rg rely guar p Q T -> (forall a T', Q a T' -> Q' a T') -> rg rely guar p Q' T.
Proof using Type.
  revert T. induction p as [a|st k IH|k IH]; cbn; intros T Hp HQ; [eauto| |eauto].
  intros T1 HT1 r T2 Hsem. destruct (Hp T1 HT1 r T2 Hsem). eauto.
Qed.

Lemma rg_rely {A} (p : prog A) Q T T' :
  rg rely guar p Q T -> rely T T' -> rg rely guar p Q T'.
Proof using All. destruct p; cbn; intros Hrg Hr T1 HT1; apply Hrg; by etrans. Qed.

Lemma rg_bind {A B} (p : prog A) (f : A -> prog B) Q T :
  rg rely guar p (fun a T' => rg rely guar (f a) Q T') T -> rg rely guar (p ≫= f) Q T.
Proof using All.
  unfold mbind, prog_mbind. revert T. induction p as [a|st k IH|k IH]; cbn; intros T Hp.
  - by apply Hp.
  - intros T1 HT1 r T2 Hsem. destruct (Hp T1 HT1 r T2 Hsem). auto.
  - intros T1 HT1 r. auto.
Qed.

Context `{PostgresOk} {A : Type} (adm : prog A -> Prop).
Context (guar_rely : forall T T', guar T T' -> rely T T').
Context (Inv : Tables -> Prop) (Inv_rely : forall T T', Inv T -> rely T T' -> Inv T').
Context (adm_rg : forall p T, adm p -> Inv T -> rg rely guar p (fun _ _ => True) T).

Definition pool_ok (c : Pool A) : Prop :=
  Inv (pg_view (pool_db c)) /\
  Forall (fun p => rg rely guar p (fun _ _ => True) (pg_view (pool_db c))) (pool_reqs c).

Lemma Forall_rg_rely (ps : list (prog A)) T T' :
  rely T T' -> Forall (fun p => rg rely guar p (fun _ _ => True) T) ps ->
  Forall (fun p => rg rely guar p (fun _ _ => True) T') ps.
Proof using All.
  intros Hr Hps. eapply Forall_impl; [exact Hps|]. cbn. intros p Hp. by apply (rg_rely p _ T).
Qed.

Lemma pool_step_ok c c' :
  pool_step adm c c' -> pool_ok c ->
  rely (pg_view (pool_db c)) (pg_view (pool_db c')) /\ pool_ok c'.
Proof using All.
  unfold pool_ok. intros [s ps1 st k ps2 r s' Hq|s ps1 k ps2 r s' Hq|s ps p Hp]; cbn.
  - rewrite Forall_app, Forall_cons. intros (HI & H1 & Hk & H2).
    destruct (Hk _ (reflexivity _) r (pg_view s')) as [Hg Hk']; [by apply pg_query_sem|].
    apply guar_rely in Hg. rewrite Forall_app, Forall_cons.
    split_and!; [done|by eapply Inv_rely|by apply (Forall_rg_rely _ (pg_view s))|done
                |by apply (Forall_rg_rely _ (pg_view s))].
  - assert (pg_view s' = pg_view s) as Hv.
    { pose proof (pg_ping_view s) as Hv. by rewrite Hq in Hv. }
    rewrite Hv, !Forall_app, !Forall_cons. intros (HI & H1 & Hk & H2).
    split; [done|]. split_and!; auto. by apply Hk.
  - intros [HI Hps]. rewrite Forall_app, Forall_singleton.
    split_and!; [done|done|done|by apply adm_rg].
Qed.

(** Whatever the interleaving, the tables only move within [rely]. *)
Lemma pool_steps_ok c c' :
  rtc (pool_step adm) c c' -> pool_ok c ->
  rely (pg_view (pool_db c)) (pg_view (pool_db c')) /\ pool_ok c'.
Proof using All.
  induction 1 as [c|c1 c2 c3 Hstep _ IH]; intros Hok; [done|].
  destruct (pool_step_ok _ _ Hstep Hok) as [Hr Hok2].
  destruct (IH Hok2) as [Hr' Hok3]. split; [by etrans|done].
Qed.
End Rg.

(** Run alone, a program does what it guarantees. *)
Lemma rg_run `{PostgresOk} (rely guar : Tables -> Tables -> Prop) `{!PreOrder rely}
    `{!PreOrder guar} {A} (p : prog A) Q s :
  rg rely guar p Q (pg_view s) -> guar (pg_view s) (pg_view (run p s).2).
Proof using All.
  revert s. induction p as [a|st k IH|k IH]; intros s; cbn; [done| |].
  - intros Hrg. destruct (pg_query st s) as [r s'] eqn:Hq.
    destruct (Hrg (pg_view s) (reflexivity _) r (pg_view s')) as [Hg Hk]; [by apply pg_query_sem|].
    etrans; [exact Hg|]. by apply IH.
  - intros Hrg. pose proof (pg_ping_view s) as Hv.
    destruct (pg_ping s) as [r s']; cbn in Hv. rewrite <- Hv. apply IH. rewrite Hv.
    by apply Hrg.
Qed.

(** ** A reference database

    An in-memory database that satisfies the laws, for the witnesses: uuids are
    handed out in sequence, every statement takes one tick of the clock, and
    nothing is answered while the server is down. *)
Module Mem.

Record Mem := mkMem { tables : Tables; next : UUID; now : Time; up : bool }.

Definition set_tables (m : Mem) (T : Tables) : Mem :=
  mkMem T (next m + 1)%N (now m + 1)%Z (up m).

Definition exec (st : Stmt) (m : Mem) : res (list (list Value)) * Mem :=
  let T := tables m in
  if negb (up m) then (Err (Foreign "connection refused"), m)
  else match st with
  | Insert t vals ret =>
      match new_row (next m) (now m) vals (ts_columns (schema t)) with
      | None => (Err (Foreign "null value violates not-null constraint"), m)
      | Some r =>
          if no_conflict (ts_unique (schema t)) (rows T t) r
          then (Ok [project ret r], set_tables m (set_rows T t (rows T t ++ [r])))
          else (Err (Foreign "duplicate key value violates unique constraint"), m)
      end
  | Select cols t wh o =>
      let l := List.filter (selected wh) (rows T t) in
      let l := match o with Some c => merge_sort (desc_by c) l | None => l end in
      (Ok (map (project cols) l), m)
  | Update t sets wh ret =>
      if bool_decide (Forall (fun c => c ∉ ts_unique (schema t)) (map fst sets)) then
        (Ok (map (fun r => project ret (apply_sets (now m) sets r))
                 (List.filter (matches wh) (rows T t))),
         set_tables m (set_rows T t (map (update_row (now m) sets wh) (rows T t))))
      else (Err (Foreign "unsupported"), m)
  | Delete t wh =>
      (Ok [], set_tables m
                (set_rows T t (List.filter (fun r => negb (matches wh r)) (rows T t))))
  end.

Definition ping (m : Mem) : res unit * Mem :=
  (if up m then Ok tt else Err (Foreign "connection refused"), m).

#[global] Instance mem : Postgres := {|
  pg_state := Mem;
  pg_view := tables;
  pg_query := exec;
  pg_ping := ping;
  pg_accepts st m := is_ok (exec st m).1 = true
|}.

Lemma exec_sem st m r m' : exec st m = (r, m') -> sql_sem st (tables m) r (tables m').
Proof.
  unfold exec. destruct (up m); cbn [negb]; [|intros [= <- <-]; constructor].
  destruct st as [t vals ret|cols t wh o|t sets wh ret|t wh].
  - destruct (new_row _ _ _ _) as [row|] eqn:Hr; [|intros [= <- <-]; constructor].
    destruct (no_conflict _ _ _) eqn:Hc; intros [= <- <-]; econstructor; eauto.
  - intros [= <- <-]. constructor.
    + destruct o; [apply merge_sort_Permutation|done].
    + destruct o as [c|]; cbn; [|done]. apply (StronglySorted_merge_sort _).
  - destruct (bool_decide_reflect (Forall (fun c => c ∉ ts_unique (schema t)) (map fst sets)));
      intros [= <- <-]; by constructor.
  - intros [= <- <-]. constructor.
Qed.

#[global] Instance mem_ok : PostgresOk mem.
Proof.
  split.
  - apply exec_sem.
  - cbn. intros st s Hok. destruct (exec st s) as [[l|e] s']; [eauto|done].
  - done.
Qed.

Definition empty : Mem := mkMem (mkTables [] []) 1 1000000000 true.

End Mem.
