(* ===== verification/Principal.v ===== *)
(** * Principal: the authenticated caller ([api/internal/auth/principal.go])

    The principal record, its constructors, accessors and validation, and the
    abstract set of principals ADR 0001 allows, which validation decides. *)

From S2P Require Import Prelude.
From S2P Require Import GoStd.
From S2P Require Import Sql.

(** [ActorKind] and [HumanRole] are string types with named constants. *)
Abbreviation ActorKind := string.
Definition ActorHuman : ActorKind := "human".
Definition ActorOperator : ActorKind := "operator".
Definition ActorAgent : ActorKind := "agent".

Abbreviation HumanRole := string.
Definition RoleAdmin : HumanRole := "admin".
Definition RoleViewer : HumanRole := "viewer".

Record Principal := mkPrincipal {
  kind : ActorKind;
  subject : string;
  role : HumanRole;
  satelliteID : UUID
}.

#[global] Instance Principal_eq_dec : EqDecision Principal.
Proof. solve_decision. Defined.

(** [Principal{}]. *)
Definition zero_principal : Principal := mkPrincipal "" "" "" uuid_Nil.

Definition invalidPrincipal (reason : string) : error :=
  Wrapped "" (Sentinel ErrInvalidPrincipal) (": " +:+ reason).

(** [Principal.Validate]; [None] is the nil error. *)
Definition Validate (p : Principal) : option error :=
  if String.eqb (TrimSpace (subject p)) "" then
    Some (invalidPrincipal "subject is required")
  else if String.eqb (kind p) ActorHuman then
    if negb (String.eqb (role p) RoleAdmin) && negb (String.eqb (role p) RoleViewer) then
      Some (invalidPrincipal "human role must be admin or viewer")
    else if negb (N.eqb (satelliteID p) uuid_Nil) then
      Some (invalidPrincipal "human principal cannot bind a satellite")
    else None
  else if String.eqb (kind p) ActorOperator then
    if negb (String.eqb (role p) "") then
      Some (invalidPrincipal "operator principal cannot have a human role")
    else if negb (N.eqb (satelliteID p) uuid_Nil) then
      Some (invalidPrincipal "operator principal cannot bind a satellite")
    else None
  else if String.eqb (kind p) ActorAgent then
    if negb (String.eqb (role p) "") then
      Some (invalidPrincipal "agent principal cannot have a human role")
    else if N.eqb (satelliteID p) uuid_Nil then
      Some (invalidPrincipal "agent principal requires a satellite binding")
    else None
  else Some (invalidPrincipal "actor kind is not recognized").

(** The Go functions return [(Principal{}, err)] on failure. *)
Definition newPrincipal (p : Principal) : res Principal :=
  match Validate p with Some e => Err e | None => Ok p end.

Definition NewHumanPrincipal (subject : string) (role : HumanRole) : res Principal :=
  newPrincipal (mkPrincipal ActorHuman subject role uuid_Nil).

Definition NewOperatorPrincipal (subject : string) : res Principal :=
  newPrincipal (mkPrincipal ActorOperator subject "" uuid_Nil).

Definition NewAgentPrincipal (subject : string) (satelliteID : UUID) : res Principal :=
  newPrincipal (mkPrincipal ActorAgent subject "" satelliteID).

Definition Kind (p : Principal) : ActorKind := kind p.

Definition Subject (p : Principal) : string := subject p.

(** [Principal.HumanRole]: the role and whether the principal is human. *)
Definition HumanRole_of (p : Principal) : HumanRole * bool :=
  if negb (String.eqb (kind p) ActorHuman) then ("", false) else (role p, true).

(** [Principal.SatelliteID]: the binding and whether there is one. *)
Definition SatelliteID (p : Principal) : UUID * bool :=
  if negb (String.eqb (kind p) ActorAgent) || N.eqb (satelliteID p) uuid_Nil
  then (uuid_Nil, false)
  else (satelliteID p, true).

(** ** Specification *)

(** A subject is present when it is not blank. *)
Definition subject_ok (s : string) : Prop := TrimSpace s <> "".

(** The identities ADR 0001 allows: one shape for each kind of actor. *)
Inductive identity : Principal -> Prop :=
| human_identity s r :
    subject_ok s -> r = RoleAdmin \/ r = RoleViewer ->
    identity (mkPrincipal ActorHuman s r uuid_Nil)
| operator_identity s :
    subject_ok s -> identity (mkPrincipal ActorOperator s "" uuid_Nil)
| agent_identity s id :
    subject_ok s -> id <> uuid_Nil -> identity (mkPrincipal ActorAgent s "" id).

Ltac eqb_cases :=
  repeat match goal with
  | |- context [String.eqb ?a ?b] => destruct (String.eqb_spec a b)
  | |- context [N.eqb ?a ?b] => destruct (N.eqb_spec a b)
  | H : context [String.eqb ?a ?b] |- _ => destruct (String.eqb_spec a b)
  | H : context [N.eqb ?a ?b] |- _ => destruct (N.eqb_spec a b)
  end.

Lemma Validate_identity p : Validate p = None <-> identity p.
Proof.
  split.
  - destruct p as [k s r i]. unfold Validate; cbn.
    eqb_cases; cbn; intros Hv; simplify_eq; constructor; auto.
  - destruct 1 as [s r Hs [-> | ->]|s Hs|s id Hs Hid]; unfold Validate; cbn;
      unfold subject_ok in Hs; eqb_cases; done.
Qed.

Lemma newPrincipal_Ok p q : newPrincipal p = Ok q <-> q = p /\ identity p.
Proof.
  unfold newPrincipal. rewrite <- Validate_identity.
  destruct (Validate p); naive_solver.
Qed.

Lemma NewHumanPrincipal_Ok s r p :
  NewHumanPrincipal s r = Ok p <->
  p = mkPrincipal ActorHuman s r uuid_Nil /\ subject_ok s /\ (r = RoleAdmin \/ r = RoleViewer).
Proof.
  unfold NewHumanPrincipal. rewrite newPrincipal_Ok. split.
  - intros [-> Hi]. inversion Hi; subst; auto.
  - intros (-> & ? & ?). split; [done|by constructor].
Qed.

Lemma NewHumanPrincipal_Err s r e :
  NewHumanPrincipal s r = Err e -> errors_Is e ErrInvalidPrincipal = true.
Proof.
  unfold NewHumanPrincipal, newPrincipal, Validate; cbn. by eqb_cases; intros [= <-].
Qed.

(** ** Properties *)

(** C34. A principal passes validation exactly when it has one of the three shapes
    ADR 0001 allows (a human with an admin or viewer role and no satellite, an
    operator with neither, an agent with a satellite and no role, each with a
    subject that is not blank), and every rejection is an [ErrInvalidPrincipal]. *)
Theorem principal_validation_exact (p : Principal) :
  (Validate p = None <-> identity p)
  /\ (forall e, Validate p = Some e -> errors_Is e ErrInvalidPrincipal = true).
Proof.
  split; [apply Validate_identity|].
  intros e. unfold Validate. by eqb_cases; intros [= <-].
Qed.

(** The constructors are the only way in, and they fix the authority of what
    they build: a principal made by [NewOperatorPrincipal] or
    [NewAgentPrincipal] never answers [HumanRole], one made by
    [NewHumanPrincipal] or [NewOperatorPrincipal] never answers [SatelliteID],
    and an agent's binding is the satellite it was made for. *)
Theorem constructors_fix_authority (s : string) (r : HumanRole) (id : UUID) (p : Principal) :
  (NewHumanPrincipal s r = Ok p ->
     HumanRole_of p = (r, true) /\ (r = RoleAdmin \/ r = RoleViewer)
     /\ SatelliteID p = (uuid_Nil, false))
  /\ (NewOperatorPrincipal s = Ok p ->
     HumanRole_of p = ("", false) /\ SatelliteID p = (uuid_Nil, false))
  /\ (NewAgentPrincipal s id = Ok p ->
     HumanRole_of p = ("", false) /\ SatelliteID p = (id, true) /\ id <> uuid_Nil).
Proof.
  split_and!.
  - intros (-> & _ & Hr)%NewHumanPrincipal_Ok. done.
  - intros [-> Hi]%newPrincipal_Ok. done.
  - intros [-> Hi]%newPrincipal_Ok. unfold HumanRole_of, SatelliteID; cbn.
    inversion Hi as [| |s' id' Hs Hid]; subst.
    destruct (N.eqb_spec id uuid_Nil); done.
Qed.
