(* ===== verification/Jwt.v ===== *)
(** * Jwt: human access tokens ([api/internal/auth/jwt.go])

    golang-jwt is a parameter: [JWTLib] is what the code calls of it and
    [JWTLibOk] the documented behaviour it relies on. *)

From S2P Require Import Prelude.
From S2P Require Import GoStd.
From S2P Require Import Sql.
From S2P Require Import Principal.

(** ** golang-jwt *)

(** [jwt.RegisteredClaims]; a nil [*NumericDate] is [None]. *)
Record RegisteredClaims := mkRegistered {
  Issuer : string;
  ClaimSubject : string;
  Audience : list string;
  ExpiresAt : option Time;
  NotBefore : option Time;
  IssuedAt : option Time;
  ClaimID : string
}.

(** [Claims]: the wire form of a human token. *)
Record Claims := mkClaims {
  ActorKind_claim : ActorKind;
  Role_claim : HumanRole;
  Registered : RegisteredClaims
}.

(** The parser options the code passes; [WithTimeFunc] carries the reading of
    the clock at the call. *)
Inductive ParserOption :=
| WithValidMethods (methods : list string)
| WithIssuer (iss : string)
| WithAudience (aud : string)
| WithExpirationRequired
| WithIssuedAt
| WithTimeFunc (now : Time).

(** [time.Second] and [time.Hour] in nanoseconds. *)
Definition Second : Z := 1000000000.
Definition Hour : Z := 3600 * Second.

Class JWTLib := {
  (** [jwt.NewNumericDate]. *)
  NewNumericDate : Time -> Time;
  (** [jwt.NewWithClaims(method, claims).SignedString(key)]. *)
  SignedString : string -> Claims -> string -> res string;
  (** [jwt.ParseWithClaims(token, claims, keyfunc, opts...)] for a key function
      that returns [key] and claims whose own [Validate] is [validate]: the
      decoded claims and [token.Valid]. *)
  ParseWithClaims : string -> string -> (Claims -> option error) -> list ParserOption ->
    res (Claims * bool);
  (** The algorithm and the claims a token carries when its signature verifies
      under a key. *)
  token_claims : string -> string -> option (string * Claims)
}.

(** What one option asks of a token signed with [alg] carrying [c], as the
    golang-jwt documentation states it (no leeway is configured): empty expected
    values are not checked, and the issued-at claim only under [WithIssuedAt]. *)
Definition before_opt (now : Time) (o : option Time) : bool :=
  match o with Some e => (now <? e)%Z | None => true end.

Definition not_after_opt (o : option Time) (now : Time) : bool :=
  match o with Some t => (t <=? now)%Z | None => true end.

Definition is_with_issued_at (o : ParserOption) : bool :=
  match o with WithIssuedAt => true | _ => false end.

Definition option_ok (opts : list ParserOption) (alg : string) (c : RegisteredClaims)
    (o : ParserOption) : bool :=
  match o with
  | WithValidMethods l => existsb (String.eqb alg) l
  | WithIssuer iss => String.eqb iss "" || String.eqb (Issuer c) iss
  | WithAudience aud => String.eqb aud "" || existsb (String.eqb aud) (Audience c)
  | WithExpirationRequired => match ExpiresAt c with Some _ => true | None => false end
  | WithIssuedAt => true
  | WithTimeFunc now =>
      before_opt now (ExpiresAt c) && not_after_opt (NotBefore c) now
      && (negb (existsb is_with_issued_at opts) || not_after_opt (IssuedAt c) now)
  end.

Definition registered_ok (opts : list ParserOption) (alg : string) (c : RegisteredClaims) : bool :=
  forallb (option_ok opts alg c) opts.

(** Claims the JSON wire format carries without loss: text in valid UTF-8 and
    dates in whole seconds within the range of [NumericDate]. *)
Definition wire_date (o : option Time) : Prop :=
  forall t, o = Some t -> (t mod Second = 0 /\ 0 <= t < 2 ^ 53 * Second)%Z.

Definition wire_safe (c : Claims) : Prop :=
  let r := Registered c in
  ValidString (ActorKind_claim c) = true /\ ValidString (Role_claim c) = true
  /\ ValidString (Issuer r) = true /\ ValidString (ClaimSubject r) = true
  /\ ValidString (ClaimID r) = true
  /\ Forall (fun a => ValidString a = true) (Audience r) /\ Audience r <> []
  /\ wire_date (ExpiresAt r) /\ wire_date (NotBefore r) /\ wire_date (IssuedAt r).

Class JWTLibOk `(JWTLib) := {
  (** Dates are truncated to [TimePrecision], a second. *)
  NewNumericDate_trunc t : NewNumericDate t = (t - t mod Second)%Z;
  (** Signing with HMAC and a byte key succeeds, and the token carries the
      claims under that key. *)
  SignedString_ok c key :
    exists tok, SignedString "HS256" c key = Ok tok
      /\ (wire_safe c -> token_claims tok key = Some ("HS256", c));
  (** A token is valid only if its signature verifies, the options are met and
      the claims' own validation passes ... *)
  Parse_sound tok key validate opts c :
    ParseWithClaims tok key validate opts = Ok (c, true) ->
    exists alg, token_claims tok key = Some (alg, c)
      /\ registered_ok opts alg (Registered c) = true /\ validate c = None;
  (** ... and then it is. *)
  Parse_complete tok key validate opts alg c :
    token_claims tok key = Some (alg, c) ->
    registered_ok opts alg (Registered c) = true -> validate c = None ->
    ParseWithClaims tok key validate opts = Ok (c, true)
}.

(** ** Human tokens *)

Definition minimumJWTSecretBytes : nat := 32.
Definition HumanTokenTTL : Z := Hour.

Record JWTConfig := mkJWTConfig {
  cfg_Secret : string; cfg_Issuer : string; cfg_Audience : string }.

(** [Claims.Validate], run by golang-jwt after the registered claims. *)
Definition Claims_Validate (c : Claims) : option error :=
  match IssuedAt (Registered c) with
  | None => Some (Foreign "issued-at claim is required")
  | Some _ =>
    if negb (String.eqb (ActorKind_claim c) ActorHuman) then
      Some (Foreign "actor kind must be human")
    else match NewHumanPrincipal (ClaimSubject (Registered c)) (Role_claim c) with
         | Err err => Some err
         | Ok _ => None
         end
  end.

(** The clock [now] of the manager is an argument of the operations that read
    it: each reads it once. *)
Record JWTManager := mkJWTManager { secret : string; issuer : string; audience : string }.

Definition NewJWTManager (config : JWTConfig) : res JWTManager :=
  if Nat.ltb (String.length (cfg_Secret config)) minimumJWTSecretBytes
     || String.eqb (TrimSpace (cfg_Secret config)) "" then
    Err (Wrapped "" (Sentinel ErrInvalidJWTConfig)
           (": secret must contain at least " +:+ pretty minimumJWTSecretBytes +:+ " bytes"))
  else
    let issuer := TrimSpace (cfg_Issuer config) in
    if String.eqb issuer "" then
      Err (Wrapped "" (Sentinel ErrInvalidJWTConfig) ": issuer is required")
    else
      let audience := TrimSpace (cfg_Audience config) in
      if String.eqb audience "" then
        Err (Wrapped "" (Sentinel ErrInvalidJWTConfig) ": audience is required")
      else Ok (mkJWTManager (cfg_Secret config) issuer audience).

Section Tokens.
Context `{JWTLib}.

Definition human_claims (m : JWTManager) (p : Principal) (role : HumanRole) (now : Time)
    : Claims :=
  mkClaims (Kind p) role
    (mkRegistered (issuer m) (Subject p) [audience m]
       (Some (NewNumericDate (now + HumanTokenTTL)%Z)) None (Some (NewNumericDate now)) "").

Definition GenerateHumanToken (m : JWTManager) (now : Time) (subject : string)
    (role : HumanRole) : res string :=
  match NewHumanPrincipal subject role with
  | Err err => Err err
  | Ok principal => SignedString "HS256" (human_claims m principal role now) (secret m)
  end.

Definition parse_options (m : JWTManager) (now : Time) : list ParserOption :=
  [WithValidMethods ["HS256"]; WithIssuer (issuer m); WithAudience (audience m);
   WithExpirationRequired; WithIssuedAt; WithTimeFunc now].

Definition ParseHumanToken (m : JWTManager) (now : Time) (tokenString : string)
    : res Principal :=
  match ParseWithClaims tokenString (secret m) Claims_Validate (parse_options m now) with
  | Ok (claims, true) =>
      match NewHumanPrincipal (ClaimSubject (Registered claims)) (Role_claim claims) with
      | Err err => Err (Wrapped "" (Sentinel ErrInvalidToken) (": " +:+ Error err))
      | Ok principal => Ok principal
      end
  | _ => Err (Wrapped "" (Sentinel ErrInvalidToken) ": validation failed")
  end.

(** ** Lemmas *)

Lemma NewJWTManager_Ok cfg m :
  NewJWTManager cfg = Ok m <->
  m = mkJWTManager (cfg_Secret cfg) (TrimSpace (cfg_Issuer cfg)) (TrimSpace (cfg_Audience cfg))
  /\ 32 <= String.length (cfg_Secret cfg) /\ TrimSpace (cfg_Secret cfg) <> ""
  /\ issuer m <> "" /\ audience m <> "".
Proof using Type.
  unfold NewJWTManager, minimumJWTSecretBytes.
  destruct (Nat.ltb_spec (String.length (cfg_Secret cfg)) 32); cbn [orb].
  { split; [done|]. intros (_ & ? & _); lia. }
  eqb_cases; split; try done; try (intros (-> & _ & ? & ? & ?); done).
  intros [= <-]. done.
Qed.

Lemma NewJWTManager_Err cfg e :
  NewJWTManager cfg = Err e -> errors_Is e ErrInvalidJWTConfig = true.
Proof using Type. unfold NewJWTManager. intros He. split_matches. Qed.

(** What the claims of a token must say for the parser options of [m]. *)
Definition claims_accepted (m : JWTManager) (now : Time) (c : RegisteredClaims) : Prop :=
  (issuer m = "" \/ Issuer c = issuer m)
  /\ (audience m = "" \/ audience m ∈ Audience c)
  /\ (exists e, ExpiresAt c = Some e /\ (now < e)%Z)
  /\ not_after_opt (NotBefore c) now = true
  /\ not_after_opt (IssuedAt c) now = true.

Lemma existsb_eqb (s : string) l : existsb (String.eqb s) l = true <-> s ∈ l.
Proof using Type.
  rewrite existsb_exists, list_elem_of_In. setoid_rewrite String.eqb_eq. naive_solver.
Qed.

Lemma registered_ok_accepted m now alg c :
  registered_ok (parse_options m now) alg c = true <->
  alg = "HS256" /\ claims_accepted m now c.
Proof using Type.
  unfold registered_ok, parse_options, claims_accepted; cbn [forallb option_ok existsb
    is_with_issued_at negb orb]. rewrite !andb_true_iff, !orb_true_iff, !String.eqb_eq.
  rewrite existsb_eqb. destruct (ExpiresAt c) as [e|]; cbn [before_opt].
  - rewrite Z.ltb_lt. naive_solver.
  - naive_solver.
Qed.

Lemma Claims_Validate_None c :
  Claims_Validate c = None <->
  IssuedAt (Registered c) <> None /\ ActorKind_claim c = ActorHuman
  /\ exists p, NewHumanPrincipal (ClaimSubject (Registered c)) (Role_claim c) = Ok p.
Proof using Type.
  unfold Claims_Validate. destruct (IssuedAt (Registered c)); [|naive_solver].
  destruct (String.eqb_spec (ActorKind_claim c) ActorHuman); cbn [negb]; [|naive_solver].
  destruct (NewHumanPrincipal _ _) eqn:Hp; naive_solver.
Qed.

Context `{!JWTLibOk _}.

(** The tokens a manager accepts, in terms of what they carry. *)
Lemma ParseHumanToken_Ok m now tok p :
  ParseHumanToken m now tok = Ok p <->
  exists c, token_claims tok (secret m) = Some ("HS256", c)
    /\ claims_accepted m now (Registered c) /\ Claims_Validate c = None
    /\ NewHumanPrincipal (ClaimSubject (Registered c)) (Role_claim c) = Ok p.
Proof using All.
  unfold ParseHumanToken. split.
  - destruct (ParseWithClaims _ _ _ _) as [[c []]|] eqn:Hparse; try done.
    apply Parse_sound in Hparse as (alg & Hc & [-> Hacc]%registered_ok_accepted & Hv).
    destruct (NewHumanPrincipal _ _) eqn:Hp; [|done]. intros [= <-]. eauto 10.
  - intros (c & Hc & Hacc & Hv & Hp).
    rewrite (Parse_complete _ _ _ _ _ _ Hc); [by rewrite Hp| |done].
    by apply registered_ok_accepted.
Qed.

(** A token whose claims the options refuse is rejected. *)
Lemma ParseHumanToken_reject m now tok alg c :
  token_claims tok (secret m) = Some (alg, c) ->
  ~ claims_accepted m now (Registered c) ->
  ParseHumanToken m now tok = Err (Wrapped "" (Sentinel ErrInvalidToken) ": validation failed").
Proof using All.
  intros Htok Hnot. unfold ParseHumanToken.
  destruct (ParseWithClaims _ _ _ _) as [[c' []]|] eqn:Hparse; try done.
  apply Parse_sound in Hparse as (alg' & Hc & [_ Ha]%registered_ok_accepted & _).
  rewrite Htok in Hc. by simplify_eq.
Qed.

Lemma ParseHumanToken_Err m now tok e :
  ParseHumanToken m now tok = Err e -> errors_Is e ErrInvalidToken = true.
Proof using Type.
  unfold ParseHumanToken. intros Hp. split_matches.
Qed.

(** A manager's own token carries exactly the claims it put in. *)
Lemma GenerateHumanToken_Ok m now s r tok :
  GenerateHumanToken m now s r = Ok tok ->
  subject_ok s /\ (r = RoleAdmin \/ r = RoleViewer)
  /\ (wire_safe (human_claims m (mkPrincipal ActorHuman s r uuid_Nil) r now) ->
      token_claims tok (secret m) =
        Some ("HS256", human_claims m (mkPrincipal ActorHuman s r uuid_Nil) r now)).
Proof using All.
  unfold GenerateHumanToken.
  destruct (NewHumanPrincipal s r) as [p|] eqn:Hp; [|done].
  apply NewHumanPrincipal_Ok in Hp as (-> & Hs & Hr). intros Hsign.
  split_and!; [done..|]. intros Hsafe.
  destruct (SignedString_ok
    (human_claims m (mkPrincipal ActorHuman s r uuid_Nil) r now) (secret m)) as (t & Ht & Hc).
  rewrite Ht in Hsign. simplify_eq. auto.
Qed.

Lemma second_trunc now : (NewNumericDate now = now - now mod Second)%Z.
Proof using All. apply NewNumericDate_trunc. Qed.

Lemma second_trunc_hour now :
  (NewNumericDate (now + HumanTokenTTL) = now - now mod Second + HumanTokenTTL)%Z.
Proof using All.
  rewrite NewNumericDate_trunc. unfold HumanTokenTTL, Hour.
  rewrite Z.mod_add; unfold Second; lia.
Qed.

(** Configured text and clock readings that the wire format carries. *)
Definition wire_config (m : JWTManager) (s : string) (now : Time) : Prop :=
  ValidString (issuer m) = true /\ ValidString (audience m) = true /\ ValidString s = true
  /\ (0 <= now)%Z /\ (now + HumanTokenTTL < 2 ^ 53 * Second)%Z.

Lemma wire_date_trunc now :
  (0 <= now < 2 ^ 53 * Second)%Z -> wire_date (Some (NewNumericDate now)).
Proof using All.
  rewrite second_trunc. intros Hnow t [= <-].
  pose proof (Z.mod_pos_bound now Second eq_refl).
  rewrite Zminus_mod_idemp_r, Z.sub_diag. unfold Second in *.
  pose proof (Z.mod_le now 1000000000). split; [done|lia].
Qed.

Lemma human_claims_wire_safe m s r now :
  wire_config m s now -> r = RoleAdmin \/ r = RoleViewer ->
  wire_safe (human_claims m (mkPrincipal ActorHuman s r uuid_Nil) r now).
Proof using All.
  intros (Hi & Ha & Hs & Hlo & Hhi) Hr. unfold wire_safe, human_claims; cbn.
  assert (0 < HumanTokenTTL)%Z by done.
  split_and!; try done; try (by constructor).
  - by destruct Hr as [-> | ->].
  - apply wire_date_trunc. lia.
  - apply wire_date_trunc. lia.
Qed.

Lemma human_claims_validate m s r now p :
  NewHumanPrincipal s r = Ok p ->
  Claims_Validate (human_claims m (mkPrincipal ActorHuman s r uuid_Nil) r now) = None.
Proof using Type. intros Hp. apply Claims_Validate_None. cbn. eauto. Qed.

(** When a manager accepts the claims it issues. *)
Lemma own_claims_accepted m s r now now' :
  claims_accepted m now' (Registered (human_claims m (mkPrincipal ActorHuman s r uuid_Nil) r now))
  <-> (now - now mod Second <= now' < now - now mod Second + HumanTokenTTL)%Z.
Proof using All.
  unfold claims_accepted, human_claims; cbn -[HumanTokenTTL Second].
  rewrite second_trunc_hour, second_trunc. rewrite Z.leb_le. split.
  - intros (_ & _ & (e & [= <-] & ?) & _ & ?). lia.
  - intros [? ?]. split_and!; auto; [right; by left|]. eexists; split; [done|lia].
Qed.

Lemma own_token_parses m s r now now' tok :
  GenerateHumanToken m now s r = Ok tok -> wire_config m s now ->
  (now - now mod Second <= now' < now - now mod Second + HumanTokenTTL)%Z ->
  ParseHumanToken m now' tok = Ok (mkPrincipal ActorHuman s r uuid_Nil).
Proof using All.
  intros (Hs & Hr & Htok)%GenerateHumanToken_Ok Hwire Hw.
  assert (Hp : NewHumanPrincipal s r = Ok (mkPrincipal ActorHuman s r uuid_Nil)).
  { by apply NewHumanPrincipal_Ok. }
  apply ParseHumanToken_Ok. eexists. split_and!; [|by apply own_claims_accepted| |exact Hp].
  - by apply Htok, human_claims_wire_safe.
  - by apply (human_claims_validate m s r now _ Hp).
Qed.

(** ** Properties *)

(** C12. A token issued at [now] for a subject and role is accepted by the manager
    that issued it exactly from the second it was issued in until one hour after
    that second, and then gives back the human principal with that subject and
    role; at any other time it is rejected. *)
Theorem human_token_lifetime (m : JWTManager) (now now' : Time) (s : string)
    (r : HumanRole) (tok : string) :
  GenerateHumanToken m now s r = Ok tok -> wire_config m s now ->
  let issued := (now - now mod Second)%Z in
  ParseHumanToken m now' tok =
    if (issued <=? now')%Z && (now' <? issued + HumanTokenTTL)%Z
    then Ok (mkPrincipal ActorHuman s r uuid_Nil)
    else Err (Wrapped "" (Sentinel ErrInvalidToken) ": validation failed").
Proof using All.
  intros Hgen Hwire. cbn zeta.
  pose proof (GenerateHumanToken_Ok _ _ _ _ _ Hgen) as (_ & Hr & Htok).
  specialize (Htok (human_claims_wire_safe m s r now Hwire Hr)).
  destruct (Z.leb_spec (now - now mod Second) now'); cbn [andb];
    [destruct (Z.ltb_spec now' (now - now mod Second + HumanTokenTTL))|].
  - by apply (own_token_parses _ _ _ now).
  - apply (ParseHumanToken_reject _ _ _ _ _ Htok). rewrite own_claims_accepted. lia.
  - apply (ParseHumanToken_reject _ _ _ _ _ Htok). rewrite own_claims_accepted. lia.
Qed.

(** C11. Whatever token is accepted, its signature verifies under the configured
    secret with HS256, it names the configured issuer and audience, it carries
    an expiry in the future and an issue time that is not, and the principal
    is a valid human principal with exactly its subject and role. *)
Theorem accepted_token_sound (cfg : JWTConfig) (m : JWTManager) (now : Time) (tok : string)
    (p : Principal) :
  NewJWTManager cfg = Ok m -> ParseHumanToken m now tok = Ok p ->
  identity p /\ Kind p = ActorHuman
  /\ exists c, token_claims tok (secret m) = Some ("HS256", c)
     /\ ActorKind_claim c = ActorHuman
     /\ p = mkPrincipal ActorHuman (ClaimSubject (Registered c)) (Role_claim c) uuid_Nil
     /\ Issuer (Registered c) = issuer m
     /\ audience m ∈ Audience (Registered c)
     /\ (exists e, ExpiresAt (Registered c) = Some e /\ now < e)%Z
     /\ (exists i, IssuedAt (Registered c) = Some i /\ i <= now)%Z.
Proof using All.
  intros (_ & _ & _ & Hi & Ha)%NewJWTManager_Ok (c & Hc & Hacc & Hv & Hp)%ParseHumanToken_Ok.
  destruct Hacc as ([?|?] & [?|?] & Hexp & _ & Hiat); try done.
  apply Claims_Validate_None in Hv as (Hiat' & Hk & _).
  apply NewHumanPrincipal_Ok in Hp as (-> & Hs & Hr).
  split; [by constructor|]. split; [done|]. exists c. split_and!; try done.
  destruct (IssuedAt (Registered c)) as [i|]; [|done].
  exists i. split; [done|]. by apply Z.leb_le.
Qed.

(** A token issued under one configuration is useless under another: a manager
    with a different issuer or a different audience rejects it as an invalid
    token even when both share the signing secret. *)
Theorem tokens_bound_to_configuration (cfg cfg' : JWTConfig) (m m' : JWTManager)
    (now now' : Time) (s : string) (r : HumanRole) (tok : string) (res : res Principal) :
  NewJWTManager cfg = Ok m -> NewJWTManager cfg' = Ok m' ->
  secret m = secret m' -> issuer m <> issuer m' \/ audience m <> audience m' ->
  wire_config m s now -> GenerateHumanToken m now s r = Ok tok ->
  ParseHumanToken m' now' tok = res ->
  res = Err (Wrapped "" (Sentinel ErrInvalidToken) ": validation failed").
Proof using All.
  intros (_ & _ & _ & Hi & Ha)%NewJWTManager_Ok (_ & _ & _ & Hi' & Ha')%NewJWTManager_Ok.
  intros Hsec Hne Hwire (Hs & Hr & Htok)%GenerateHumanToken_Ok <-.
  specialize (Htok (human_claims_wire_safe m s r now Hwire Hr)). rewrite Hsec in Htok.
  apply (ParseHumanToken_reject _ _ _ _ _ Htok). unfold claims_accepted; cbn.
  rewrite list_elem_of_singleton. naive_solver.
Qed.

End Tokens.

(** A configuration is accepted exactly when the secret has at least 32 bytes
    and is not blank, and the issuer and the audience are not blank; the
    manager keeps the secret as it is and the other two trimmed; a refusal is
    an [ErrInvalidJWTConfig]. *)
Theorem jwt_configuration_checked (cfg : JWTConfig) :
  (is_ok (NewJWTManager cfg) = true <->
     32 <= String.length (cfg_Secret cfg) /\ TrimSpace (cfg_Secret cfg) <> ""
     /\ TrimSpace (cfg_Issuer cfg) <> "" /\ TrimSpace (cfg_Audience cfg) <> "")
  /\ match NewJWTManager cfg with
     | Ok m => secret m = cfg_Secret cfg /\ issuer m = TrimSpace (cfg_Issuer cfg)
               /\ audience m = TrimSpace (cfg_Audience cfg)
     | Err e => errors_Is e ErrInvalidJWTConfig = true
     end.
Proof.
  unfold NewJWTManager, minimumJWTSecretBytes.
  destruct (Nat.ltb_spec (String.length (cfg_Secret cfg)) 32); cbn [orb].
  { split; [|done]. split; [done|lia]. }
  eqb_cases; cbn; split; try done; split; try done; naive_solver.
Qed.

(** ** A reference implementation of the library

    For the witnesses: a token is the binary text of its key, algorithm and
    claims. *)
Module RefJWT.

Fixpoint bits (p : positive) : string :=
  match p with
  | xH => ""
  | xO p => String "0" (bits p)
  | xI p => String "1" (bits p)
  end.

Fixpoint unbits (s : string) : positive :=
  match s with
  | "" => xH
  | String c s => if Ascii.eqb c "0"%char then xO (unbits s) else xI (unbits s)
  end.

Lemma unbits_bits p : unbits (bits p) = p.
Proof. induction p as [p IH|p IH|]; cbn; by rewrite ?IH. Qed.

Definition flat : Type :=
  (string * string) * ((string * string) * (string * string * list string)
    * (option Z * option Z * option Z) * string).

Definition flatten (key alg : string) (c : Claims) : flat :=
  let r := Registered c in
  ((key, alg), ((ActorKind_claim c, Role_claim c), (Issuer r, ClaimSubject r, Audience r),
    (ExpiresAt r, NotBefore r, IssuedAt r), ClaimID r)).

Definition unflatten (f : flat) : (string * string) * Claims :=
  match f with
  | (ka, ((k, r), (i, s, a), (e, n, t), d)) =>
      (ka, mkClaims k r (mkRegistered i s a e n t d))
  end.

Lemma unflatten_flatten key alg c : unflatten (flatten key alg c) = ((key, alg), c).
Proof. by destruct c as [? ? []]. Qed.

Definition sign (alg : string) (c : Claims) (key : string) : res string :=
  Ok (bits (encode (flatten key alg c))).

Definition claims_of (tok key : string) : option (string * Claims) :=
  f ← decode (A:=flat) (unbits tok);
  let (ka, c) := unflatten f in
  if String.eqb ka.1 key then Some (ka.2, c) else None.

Definition parse (tok key : string) (validate : Claims -> option error)
    (opts : list ParserOption) : res (Claims * bool) :=
  match claims_of tok key with
  | Some (alg, c) =>
      if registered_ok opts alg (Registered c) then
        match validate c with None => Ok (c, true) | Some e => Err e end
      else Err (Foreign "token has invalid claims")
  | None => Err (Foreign "signature is invalid")
  end.

#[global] Instance ref_jwt : JWTLib := {|
  NewNumericDate t := (t - t mod Second)%Z;
  SignedString := sign;
  ParseWithClaims := parse;
  token_claims := claims_of
|}.

Lemma claims_of_sign key alg c :
  claims_of (bits (encode (flatten key alg c))) key = Some (alg, c).
Proof.
  unfold claims_of. rewrite unbits_bits, decode_encode; cbn [mbind option_bind].
  rewrite unflatten_flatten; cbn. by rewrite String.eqb_refl.
Qed.

#[global] Instance ref_jwt_ok : JWTLibOk ref_jwt.
Proof.
  split; cbn; unfold parse.
  - done.
  - intros c key. eexists. split; [done|]. intros _. apply claims_of_sign.
  - intros tok key validate opts c. destruct (claims_of tok key) as [[alg c']|]; [|done].
    destruct (registered_ok opts alg (Registered c')) eqn:Hreg; [|done].
    destruct (validate c') eqn:Hv; [done|]. intros [= <-]. eauto.
  - intros tok key validate opts alg c -> -> ->. done.
Qed.

End RefJWT.

(** ** Witnesses *)

Module JwtExamples.
Import RefJWT.

Definition config : JWTConfig :=
  mkJWTConfig "0123456789abcdef0123456789abcdef" " fleetcontrol " "fleetcontrol-api".

Definition other_config : JWTConfig :=
  mkJWTConfig "0123456789abcdef0123456789abcdef" "fleetcontrol" "other-api".

Definition manager : JWTManager :=
  mkJWTManager "0123456789abcdef0123456789abcdef" "fleetcontrol" "fleetcontrol-api".

Definition other_manager : JWTManager :=
  mkJWTManager "0123456789abcdef0123456789abcdef" "fleetcontrol" "other-api".

Definition issue_time : Time := (1700000000 * Second + 7)%Z.

Definition token : string :=
  match GenerateHumanToken manager issue_time "user-1" "admin" with Ok t => t | Err _ => "" end.

Definition admin : Principal := mkPrincipal ActorHuman "user-1" "admin" uuid_Nil.

Lemma token_generated : GenerateHumanToken manager issue_time "user-1" "admin" = Ok token.
Proof. vm_compute. reflexivity. Qed.

Lemma token_wire : wire_config manager "user-1" issue_time.
Proof. unfold wire_config. split_and!; vm_compute; done. Qed.

End JwtExamples.

Import RefJWT JwtExamples.

Lemma human_token_lifetime_witness :
  ParseHumanToken manager (issue_time + 5)%Z token = Ok admin
  /\ is_ok (ParseHumanToken manager (issue_time + HumanTokenTTL)%Z token) = false.
Proof.
  split.
  - refine (eq_trans (human_token_lifetime manager issue_time (issue_time + 5)%Z "user-1"
      "admin" token token_generated token_wire) _). vm_compute. reflexivity.
  - refine (eq_trans (f_equal is_ok (human_token_lifetime manager issue_time
      (issue_time + HumanTokenTTL)%Z "user-1" "admin" token token_generated token_wire)) _).
    vm_compute. reflexivity.
Defined.

Lemma accepted_token_sound_witness : identity admin /\ Kind admin = ActorHuman.
Proof.
  destruct (accepted_token_sound config manager (issue_time + 5)%Z token admin)
    as (Hi & Hk & _).
  - vm_compute. reflexivity.
  - vm_compute. reflexivity.
  - split; assumption.
Defined.

Lemma tokens_bound_to_configuration_witness :
  ParseHumanToken other_manager issue_time token
  = Err (Wrapped "" (Sentinel ErrInvalidToken) ": validation failed").
Proof.
  apply (tokens_bound_to_configuration config other_config manager other_manager issue_time
    issue_time "user-1" "admin" token); [vm_compute; reflexivity..| |exact token_wire
    |exact token_generated|reflexivity].
  right. vm_compute. discriminate.
Defined.
