(* ===== verification/Http.v ===== *)
(** * Http: requests, responses and handlers ([net/http])

    A handler is a database program that carries the state of its response
    writer and may panic. Requests carry the context values middleware stores,
    the path parameters the router binds, and the readings the process takes of
    its clock and of its entropy source while it serves them (no handler takes
    more than one of each), and the time the request log measures. *)

From S2P Require Import Prelude.
From S2P Require Import GoStd.
From S2P Require Import Json.
From S2P Require Import Sql.
From S2P Require Import Principal.

(** ** Status codes *)

Definition StatusOK : Z := 200.
Definition StatusCreated : Z := 201.
Definition StatusNoContent : Z := 204.
Definition StatusBadRequest : Z := 400.
Definition StatusUnauthorized : Z := 401.
Definition StatusForbidden : Z := 403.
Definition StatusNotFound : Z := 404.
Definition StatusMethodNotAllowed : Z := 405.
Definition StatusInternalServerError : Z := 500.
Definition StatusNotImplemented : Z := 501.
Definition StatusServiceUnavailable : Z := 503.

(** ** Contexts *)

(** Keys of different Go types never meet: [contextKey] is private to the auth
    package, the generated code uses plain strings. *)
Inductive CtxKey := ContextKey (k : string) | StringKey (k : string).

#[global] Instance CtxKey_eq_dec : EqDecision CtxKey.
Proof. solve_decision. Defined.

Inductive CtxVal := CtxPrincipal (p : Principal) | CtxStrings (l : list string).

Abbreviation Context_ := (list (CtxKey * CtxVal)).

(** [context.WithValue]. *)
Definition WithValue (ctx : Context_) (k : CtxKey) (v : CtxVal) : Context_ := (k, v) :: ctx.

(** [ctx.Value]: the value stored last under the key. *)
Fixpoint ctx_Value (ctx : Context_) (k : CtxKey) : option CtxVal :=
  match ctx with
  | [] => None
  | (k', v) :: ctx => if decide (k = k') then Some v else ctx_Value ctx k
  end.

Lemma ctx_Value_WithValue ctx k v : ctx_Value (WithValue ctx k v) k = Some v.
Proof. unfold WithValue. cbn. by rewrite decide_True. Qed.

Lemma ctx_Value_WithValue_ne ctx k k' v :
  k' <> k -> ctx_Value (WithValue ctx k' v) k = ctx_Value ctx k.
Proof. intros ?. unfold WithValue. cbn. by rewrite decide_False by congruence. Qed.

(** ** Requests *)

Record Request := mkRequest {
  r_method : string;
  r_path : string;
  r_header : Header;
  r_body : string;
  r_ctx : Context_;
  r_params : list (string * string);
  r_now : Time;
  r_elapsed : Z;
  r_entropy : string
}.

(** [r.WithContext]. *)
Definition WithContext (r : Request) (ctx : Context_) : Request :=
  mkRequest (r_method r) (r_path r) (r_header r) (r_body r) ctx (r_params r)
    (r_now r) (r_elapsed r) (r_entropy r).

Definition with_params (r : Request) (ps : list (string * string)) : Request :=
  mkRequest (r_method r) (r_path r) (r_header r) (r_body r) (r_ctx r) ps
    (r_now r) (r_elapsed r) (r_entropy r).

(** [chi.URLParam]: the value the router bound, or the empty string. *)
Definition URLParam (r : Request) (k : string) : string :=
  match find (fun kv => String.eqb kv.1 k) (r_params r) with
  | Some kv => kv.2
  | None => ""
  end.

(** ** Response writers *)

Record LogEntry := mkLog {
  log_msg : string; log_method : string; log_path : string; log_status : Z; log_latency : Z }.

(** The header map being built, the status and header that went out with
    [WriteHeader], the body written so far, and the log of the process. *)
Record Writer := mkWriter {
  w_header : Header;
  w_sent : option (Z * Header);
  w_body : string;
  w_log : list LogEntry
}.

Definition fresh_writer : Writer := mkWriter ∅ None "" [].

Definition w_Set (k v : string) (w : Writer) : Writer :=
  mkWriter (Header_Set (w_header w) k v) (w_sent w) (w_body w) (w_log w).

Definition w_Del (k : string) (w : Writer) : Writer :=
  mkWriter (Header_Del (w_header w) k) (w_sent w) (w_body w) (w_log w).

(** [WriteHeader]: the first call decides, and freezes the header. *)
Definition w_WriteHeader (status : Z) (w : Writer) : Writer :=
  match w_sent w with
  | Some _ => w
  | None => mkWriter (w_header w) (Some (status, w_header w)) (w_body w) (w_log w)
  end.

(** [Write]: sends status 200 first when no status was sent. *)
Definition w_Write (s : string) (w : Writer) : Writer :=
  let w := w_WriteHeader StatusOK w in
  mkWriter (w_header w) (w_sent w) (w_body w +:+ s) (w_log w).

Definition w_Log (e : LogEntry) (w : Writer) : Writer :=
  mkWriter (w_header w) (w_sent w) (w_body w) (w_log w ++ [e]).

(** The status the client sees; a handler that writes nothing gives 200. *)
Definition status_of (w : Writer) : Z :=
  match w_sent w with Some (n, _) => n | None => StatusOK end.

(** [http.Error]. *)
Definition http_Error (msg : string) (code : Z) (w : Writer) : Writer :=
  w_Write (msg +:+ chr 10)
    (w_WriteHeader code
      (w_Set "X-Content-Type-Options" "nosniff"
        (w_Set "Content-Type" "text/plain; charset=utf-8" (w_Del "Content-Length" w)))).

(** The JSON responses of the handlers: the header, the status, then the body
    of [json.NewEncoder(w).Encode]. *)
Definition json_response (status : Z) (j : json) (w : Writer) : Writer :=
  w_Write (Encode j) (w_WriteHeader status (w_Set "Content-Type" "application/json" w)).

(** [map[string]interface{}{"error": map[string]string{"code", "message"}}]:
    maps are encoded with their keys sorted. *)
Definition error_json (code message : string) : json :=
  JObj [("error", JObj [("code", JStr code); ("message", JStr message)])].

(** ** Handlers *)

Inductive outcome (A : Type) := Done (a : A) | Panicked (msg : string).
Arguments Done {_} _.
Arguments Panicked {_} _.

Definition HM (A : Type) : Type := Writer -> prog (outcome A * Writer).

Definition HM_ret {A} (a : A) : HM A := fun w => Ret (Done a, w).

Definition HM_bind {A B} (f : A -> HM B) (m : HM A) : HM B := fun w =>
  m w ≫= fun ow => match ow.1 with
                   | Done a => f a ow.2
                   | Panicked e => Ret (Panicked e, ow.2)
                   end.

#[global] Instance HM_mret : MRet HM := @HM_ret.
#[global] Instance HM_mbind : MBind HM := @HM_bind.

(** Run a database program inside a handler. *)
Definition lift {A} (p : prog A) : HM A := fun w => p ≫= fun a => Ret (Done a, w).

(** Write to the response. *)
Definition modify (f : Writer -> Writer) : HM unit := fun w => Ret (Done tt, f w).

Definition panic {A} (msg : string) : HM A := fun w => Ret (Panicked msg, w).

Definition get_writer : HM Writer := fun w => Ret (Done w, w).

Definition Handler : Type := Request -> HM unit.
Definition MiddlewareT : Type := Handler -> Handler.

(** ** Reasoning about handlers *)

Definition wpH {A} (h : HM A) (Q : outcome A -> Writer -> Tables -> Prop)
    (w : Writer) (T : Tables) : Prop :=
  wp (h w) (fun ow T' => Q ow.1 ow.2 T') T.

Lemma wpH_mono {A} (h : HM A) (Q Q' : outcome A -> Writer -> Tables -> Prop) w T :
  wpH h Q w T -> (forall o w' T', Q o w' T' -> Q' o w' T') -> wpH h Q' w T.
Proof. intros Hh HQ. eapply wp_mono; [exact Hh|]. cbn. auto. Qed.

Lemma wpH_bind {A B} (m : HM A) (f : A -> HM B) Q w T :
  wpH m (fun o w' T' => match o with
                        | Done a => wpH (f a) Q w' T'
                        | Panicked e => Q (Panicked e) w' T'
                        end) w T ->
  wpH (m ≫= f) Q w T.
Proof.
  unfold wpH. intros Hm. apply wp_bind. eapply wp_mono; [exact Hm|].
  intros [[a|e] w'] T'; cbn; auto.
Qed.

Lemma wpH_lift {A} (p : prog A) Q w T :
  wp p (fun a T' => Q (Done a) w T') T -> wpH (lift p) Q w T.
Proof. intros Hp. apply wp_bind. exact Hp. Qed.

Lemma wpH_lift_bind {A B} (p : prog A) (f : A -> HM B) Q w T :
  wp p (fun a T' => wpH (f a) Q w T') T -> wpH (lift p ≫= f) Q w T.
Proof. intros Hp. apply wpH_bind, wpH_lift. exact Hp. Qed.

Lemma wpH_run `{PostgresOk} {A} (h : HM A) Q w s :
  wpH h Q w (pg_view s) ->
  Q (run (h w) s).1.1 (run (h w) s).1.2 (pg_view (run (h w) s).2).
Proof. intros Hh. exact (wp_run (h w) _ s Hh). Qed.

(** A handler whose statements stay within [guar] while others run. *)
Definition rgH {A} (rely guar : Tables -> Tables -> Prop) (h : HM A)
    (Q : outcome A -> Writer -> Tables -> Prop) (w : Writer) (T : Tables) : Prop :=
  rg rely guar (h w) (fun ow T' => Q ow.1 ow.2 T') T.

Section RgH.
Context (rely guar : Tables -> Tables -> Prop) `{!PreOrder rely}.

Lemma rgH_bind {A B} (m : HM A) (f : A -> HM B) Q w T :
  rgH rely guar m (fun o w' T' => match o with
                        | Done a => rgH rely guar (f a) Q w' T'
                        | Panicked e => forall T1, rely T' T1 -> Q (Panicked e) w' T1
                        end) w T ->
  rgH rely guar (m ≫= f) Q w T.
Proof using All.
  unfold rgH. intros Hm. apply (rg_bind _ _). eapply rg_mono; [exact Hm|].
  intros [[a|e] w'] T'; cbn; auto.
Qed.

Lemma rgH_lift_bind {A B} (p : prog A) (f : A -> HM B) Q w T :
  rg rely guar p (fun a T' => rgH rely guar (f a) Q w T') T ->
  rgH rely guar (lift p ≫= f) Q w T.
Proof using All.
  intros Hp. apply rgH_bind. apply (rg_bind _ _). eapply rg_mono; [exact Hp|].
  intros a T' Hf. cbn. intros T1 HT1. exact (rg_rely _ _ _ _ _ _ Hf HT1).
Qed.
End RgH.

(** ** Facts about the writer *)

Definition unsent (w : Writer) : Prop := w_sent w = None.

Lemma status_json n j w : unsent w -> status_of (json_response n j w) = n.
Proof.
  unfold unsent, status_of, json_response, w_Write, w_WriteHeader; cbn.
  intros Hw. by rewrite Hw.
Qed.

Lemma status_http_Error msg n w : unsent w -> status_of (http_Error msg n w) = n.
Proof.
  unfold unsent, status_of, http_Error, w_Write, w_WriteHeader; cbn.
  intros Hw. by rewrite Hw.
Qed.

Lemma status_WriteHeader n w : unsent w -> status_of (w_WriteHeader n w) = n.
Proof. unfold unsent, status_of, w_WriteHeader. by intros ->. Qed.

#[export] Hint Resolve status_json status_http_Error status_WriteHeader : fleet.
