(* ===== verification/Chi.v ===== *)
(** * Chi: the router library

    go-chi is a parameter: [ChiLib] is what the code calls of it, [ChiOk] its
    documented behaviour (middleware stacks, inline groups, route patterns).
    A route pattern is a path whose [{name}] segments match any text of one
    segment. *)

From S2P Require Import Prelude.
From S2P Require Import GoStd.
From S2P Require Import Json.
From S2P Require Import Sql.
From S2P Require Import Principal.
From S2P Require Import Http.

(** ** Patterns *)

(** The segments of a path, split at each slash. *)
Fixpoint segments (s : string) : list string :=
  match s with
  | "" => [""]
  | String c s' =>
      if Ascii.eqb c "/"%char then "" :: segments s'
      else match segments s' with
           | seg :: segs => String c seg :: segs
           | [] => [String c ""]
           end
  end.

(** The name of a [{name}] segment. *)
Definition param_name (seg : string) : option string :=
  match seg with
  | String "{" s => Some (TrimRight s "}")
  | _ => None
  end.

Fixpoint match_segments (pat segs : list string) : option (list (string * string)) :=
  match pat, segs with
  | [], [] => Some []
  | p :: pat, s :: segs =>
      match param_name p with
      | Some n => ps ← match_segments pat segs; Some ((n, s) :: ps)
      | None => if String.eqb p s then match_segments pat segs else None
      end
  | _, _ => None
  end.

(** The parameters with which a path matches a pattern. *)
Definition pattern_match (pat path : string) : option (list (string * string)) :=
  match_segments (segments pat) (segments path).

(** ** Routes and routers *)

Abbreviation Signature := (string * string)%type.

Record Route := mkRoute { rt_method : string; rt_pattern : string; rt_handler : Handler }.

Definition signature (rt : Route) : Signature := (rt_method rt, rt_pattern rt).

(** [chi.Chain(middlewares...).Handler(h)]: the first middleware is outermost. *)
Definition chain (mws : list MiddlewareT) (h : Handler) : Handler := foldr (fun m h => m h) h mws.

(** What is known of a router: whether it is an inline one (of a [Group]), its
    middleware stack, whether the stack may still grow (no route was added through
    this router), and the routes of its tree, with the inline middlewares already
    around their handlers. *)
Record MuxView := mkView {
  mv_inline : bool; mv_stack : list MiddlewareT; mv_open : bool; mv_routes : list Route }.

Definition view_Use (v : MuxView) (m : MiddlewareT) : MuxView :=
  mkView (mv_inline v) (mv_stack v ++ [m]) (mv_open v) (mv_routes v).

Definition view_Method (v : MuxView) (method pattern : string) (h : Handler) : MuxView :=
  mkView (mv_inline v) (mv_stack v) false
    (mv_routes v ++
       [mkRoute method pattern (if mv_inline v then chain (mv_stack v) h else h)]).

Definition view_inline (v : MuxView) : MuxView :=
  mkView true (if mv_inline v then mv_stack v else []) true (mv_routes v).

Definition view_with (v : MuxView) (routes : list Route) : MuxView :=
  mkView (mv_inline v) (mv_stack v) false routes.

Class ChiLib := {
  Mux : Type;
  (** [chi.NewRouter()]. *)
  NewRouter_ : Mux;
  (** [r.Use(m)]. *)
  Use : Mux -> MiddlewareT -> Mux;
  (** [r.Method(method, pattern, h)]; [r.Get] and the others abbreviate it. *)
  Method : Mux -> string -> string -> Handler -> Mux;
  (** [r.Group(fn)]. *)
  Group : Mux -> (Mux -> Mux) -> Mux;
  ServeHTTP : Mux -> Handler;
  mux_view : Mux -> MuxView;
  (** The route, by position, and the path parameters a request is given. *)
  find_route : list Signature -> string -> string -> option (nat * list (string * string));
  (** The answer when there is none. *)
  unmatched : list Signature -> Handler
}.

Definition Get `{ChiLib} (m : Mux) := Method m "GET".
Definition Post `{ChiLib} (m : Mux) := Method m "POST".
Definition Patch `{ChiLib} (m : Mux) := Method m "PATCH".
Definition DELETE `{ChiLib} (m : Mux) := Method m "DELETE".

(** Routing a request: the handler of the route that is found, or the answer
    for an unmatched request. *)
Definition dispatch `{ChiLib} (routes : list Route) : Handler := fun r =>
  let sigs := map signature routes in
  match find_route sigs (r_method r) (r_path r) with
  | Some (i, ps) =>
      match routes !! i with
      | Some rt => rt_handler rt (with_params r ps)
      | None => unmatched sigs r
      end
  | None => unmatched sigs r
  end.

Class ChiOk `(ChiLib) := {
  view_New : mux_view NewRouter_ = mkView false [] true [];
  (** Middlewares come before routes. *)
  view_Use_ok m f :
    mv_open (mux_view m) = true ->
    mux_view (Use m f) = view_Use (mux_view m) f;
  view_Method_ok m method pat h :
    mux_view (Method m method pat h) = view_Method (mux_view m) method pat h;
  (** A group's callback gets an inline router on the same tree. *)
  view_Group_ok m f :
    exists i, mux_view i = view_inline (mux_view m)
      /\ mux_view (Group m f) = view_with (mux_view m) (mv_routes (mux_view (f i)));
  ServeHTTP_ok m r w :
    mv_inline (mux_view m) = false ->
    ServeHTTP m r w = chain (mv_stack (mux_view m)) (dispatch (mv_routes (mux_view m))) r w;
  find_route_sound sigs method path i ps :
    find_route sigs method path = Some (i, ps) ->
    exists pat, sigs !! i = Some (method, pat) /\ pattern_match pat path = Some ps;
  find_route_complete sigs method path i pat ps :
    sigs !! i = Some (method, pat) -> pattern_match pat path = Some ps ->
    Forall (fun p => p.2 <> "") ps -> is_Some (find_route sigs method path);
  (** Not found, or method not allowed. *)
  unmatched_answers sigs r w :
    exists w', unmatched sigs r w = Ret (Done tt, w')
      /\ (unsent w -> status_of w' = StatusNotFound \/ status_of w' = StatusMethodNotAllowed)
}.

(** ** A reference router, for the witnesses *)

Module RefChi.

Fixpoint find_from (i : nat) (sigs : list Signature) (method path : string)
    : option (nat * list (string * string)) :=
  match sigs with
  | [] => None
  | (m, pat) :: sigs =>
      if String.eqb m method then
        match pattern_match pat path with
        | Some ps => Some (i, ps)
        | None => find_from (S i) sigs method path
        end
      else find_from (S i) sigs method path
  end.

Definition not_found_handler (sigs : list Signature) : Handler := fun _ =>
  modify (http_Error "404 page not found" StatusNotFound).

#[global] Instance ref_chi : ChiLib := {|
  Mux := MuxView;
  NewRouter_ := mkView false [] true [];
  Use := view_Use;
  Method := view_Method;
  Group v f := view_with v (mv_routes (f (view_inline v)));
  ServeHTTP v := chain (mv_stack v) (fun r =>
    let sigs := map signature (mv_routes v) in
    match find_from 0 sigs (r_method r) (r_path r) with
    | Some (i, ps) =>
        match mv_routes v !! i with
        | Some rt => rt_handler rt (with_params r ps)
        | None => not_found_handler sigs r
        end
    | None => not_found_handler sigs r
    end);
  mux_view v := v;
  find_route := find_from 0;
  unmatched := not_found_handler
|}.

Lemma find_from_sound i sigs method path j ps :
  find_from i sigs method path = Some (j, ps) ->
  exists k pat, j = i + k /\ sigs !! k = Some (method, pat) /\ pattern_match pat path = Some ps.
Proof.
  revert i. induction sigs as [|[m pat] sigs IH]; intros i; cbn; [done|].
  assert (forall i', find_from (S i') sigs method path = Some (j, ps) ->
    exists k pat', j = i' + k /\ ((m, pat) :: sigs) !! k = Some (method, pat')
      /\ pattern_match pat' path = Some ps) as Hnext.
  { intros i' (k & pat' & -> & ? & ?)%IH. exists (S k), pat'.
    split_and!; [lia|done|done]. }
  destruct (String.eqb_spec m method) as [->|]; [|by apply Hnext].
  destruct (pattern_match pat path) as [ps'|] eqn:Hm; [|by apply Hnext].
  intros [= <- <-]. exists 0, pat. split_and!; [lia|done|done].
Qed.

Lemma find_from_complete i sigs method path k pat ps :
  sigs !! k = Some (method, pat) -> pattern_match pat path = Some ps ->
  is_Some (find_from i sigs method path).
Proof.
  revert i k. induction sigs as [|[m pat'] sigs IH]; intros i k; [done|].
  cbn. destruct k as [|k]; cbn.
  - intros [= -> ->] Hm. rewrite String.eqb_refl, Hm. by eexists.
  - intros Hk Hm. destruct (String.eqb m method); [|by eapply IH].
    destruct (pattern_match pat' path); [by eexists|by eapply IH].
Qed.

#[global] Instance ref_chi_ok : ChiOk ref_chi.
Proof.
  split; try done.
  - intros m f. cbn. by exists (view_inline m).
  - cbn. intros sigs method path i ps (k & pat & -> & ? & ?)%find_from_sound. by exists pat.
  - cbn. intros sigs method path i pat ps Hi Hm _. by eapply find_from_complete.
  - intros sigs r w. eexists. split; [done|]. intros Hw. left. by apply status_http_Error.
Qed.
End RefChi.
