(* ===== verification/Auth.v ===== *)
(** * Auth: authentication middleware and login
    ([api/internal/auth/middleware.go], [api/internal/auth/handler.go])

    bcrypt and the text form of uuids are parameters. *)

From S2P Require Import Prelude.
From S2P Require Import GoStd.
From S2P Require Import Json.
From S2P Require Import Sql.
From S2P Require Import Principal.
From S2P Require Import Jwt.
From S2P Require Import Http.

(** ** Libraries *)

(** [github.com/google/uuid]: parsing and the canonical text form, which is also
    the text pgx scans a [UUID] column into a string as. *)
Class UuidLib := {
  uuid_Parse : string -> res UUID;
  uuid_String : UUID -> string
}.

Class UuidLibOk `(UuidLib) := {
  uuid_Parse_String u : (u < 2 ^ 128)%N -> uuid_Parse (uuid_String u) = Ok u;
  uuid_String_text u : TrimSpace (uuid_String u) <> "" /\ ValidString (uuid_String u) = true
}.

(** [golang.org/x/crypto/bcrypt]; the salt is drawn from the entropy source.
    Passwords of more than 72 bytes are refused. *)
Class BcryptLib := {
  GenerateFromPassword : string -> string -> Z -> res string;
  CompareHashAndPassword : string -> string -> res unit
}.

Definition DefaultCost : Z := 10.

Class BcryptLibOk `(BcryptLib) := {
  bcrypt_verifies e p c h :
    GenerateFromPassword e p c = Ok h -> CompareHashAndPassword h p = Ok tt;
  bcrypt_generates e p :
    String.length p <= 72 -> exists h, GenerateFromPassword e p DefaultCost = Ok h;
  bcrypt_too_long e p c : 72 < String.length p -> is_ok (GenerateFromPassword e p c) = false;
  bcrypt_not_empty e p c h : GenerateFromPassword e p c = Ok h -> h <> "";
  bcrypt_own_errors e p c err :
    GenerateFromPassword e p c = Err err -> exists msg, err = Foreign msg
}.

(** Reference implementations of the two libraries, for the witnesses. *)
Module RefLib.

Definition text_of (u : UUID) : string := String "u" (RefJWT.bits (N.succ_pos u)).

Definition of_text (s : string) : res UUID :=
  match s with
  | String c t =>
      if Ascii.eqb c "u"%char then Ok (N.pred (Npos (RefJWT.unbits t)))
      else Err (Foreign "invalid UUID length")
  | "" => Err (Foreign "invalid UUID length")
  end.

#[global] Instance ref_uuid : UuidLib := {| uuid_Parse := of_text; uuid_String := text_of |}.

Lemma bits_ascii p : str_forall is_ascii (RefJWT.bits p) = true.
Proof. by induction p. Qed.

#[global] Instance ref_uuid_ok : UuidLibOk ref_uuid.
Proof.
  split.
  - intros u _. cbn. rewrite RefJWT.unbits_bits, N.succ_pos_spec. f_equal. apply N.pred_succ.
  - intros u. split; [by apply TrimSpace_head|].
    apply ValidString_ascii. cbn. apply bits_ascii.
Qed.

Definition hash_of (salt p : string) (cost : Z) : res string :=
  if Nat.ltb 72 (String.length p)
  then Err (Foreign "bcrypt: password length exceeds 72 bytes")
  else Ok ("$2a$10$" +:+ p).

Definition compare (hash p : string) : res unit :=
  if String.eqb hash ("$2a$10$" +:+ p) then Ok tt
  else Err (Foreign "crypto/bcrypt: hashedPassword is not the hash of the given password").

#[global] Instance ref_bcrypt : BcryptLib := {|
  GenerateFromPassword := hash_of; CompareHashAndPassword := compare |}.

#[global] Instance ref_bcrypt_ok : BcryptLibOk ref_bcrypt.
Proof.
  split; cbn; unfold hash_of, compare.
  - intros e p c h. destruct (Nat.ltb_spec 72 (String.length p)); [done|].
    intros [= <-]. by rewrite String.eqb_refl.
  - intros e p Hp. destruct (Nat.ltb_spec 72 (String.length p)); [lia|eauto].
  - intros e p c Hp. destruct (Nat.ltb_spec 72 (String.length p)); [done|lia].
  - intros e p c h. destruct (Nat.ltb_spec 72 (String.length p)); [done|]. by intros [= <-].
  - intros e p c err. destruct (Nat.ltb_spec 72 (String.length p)); [|done].
    intros [= <-]. by eexists.
Qed.

End RefLib.

(** ** Principals in contexts *)

Definition principalContextKey : CtxKey := ContextKey "principal".

(** [PrincipalFromContext]: the stored principal and whether it is there and valid. *)
Definition PrincipalFromContext (ctx : Context_) : Principal * bool :=
  match ctx_Value ctx principalContextKey with
  | Some (CtxPrincipal principal) =>
      match Validate principal with
      | None => (principal, true)
      | Some _ => (zero_principal, false)
      end
  | _ => (zero_principal, false)
  end.

Definition withPrincipal (ctx : Context_) (principal : Principal) : Context_ :=
  WithValue ctx principalContextKey (CtxPrincipal principal).

(** ** Middleware *)

Definition unauthorized_missing : string :=
  dq "{'error':{'code':'UNAUTHORIZED','message':'missing or invalid token'}}".
Definition unauthorized_invalid : string :=
  dq "{'error':{'code':'UNAUTHORIZED','message':'invalid token'}}".
Definition forbidden_role : string :=
  dq "{'error':{'code':'FORBIDDEN','message':'insufficient role'}}".

Section Auth.
Context `{JWTLib}.

Definition Middleware (tokens : JWTManager) : MiddlewareT := fun next r =>
  let header := Header_Get (r_header r) "Authorization" in
  if String.eqb header "" || negb (HasPrefix header "Bearer ") then
    modify (http_Error unauthorized_missing StatusUnauthorized)
  else
    let tokenStr := TrimPrefix header "Bearer " in
    match ParseHumanToken tokens (r_now r) tokenStr with
    | Err _ => modify (http_Error unauthorized_invalid StatusUnauthorized)
    | Ok principal =>
        let ctx := withPrincipal (r_ctx r) principal in
        next (WithContext r ctx)
    end.

Definition RequireHumanRole (role : HumanRole) : MiddlewareT := fun next r =>
  let (principal, ok) := PrincipalFromContext (r_ctx r) in
  let (principalRole, isHuman) := HumanRole_of principal in
  if negb ok || negb isHuman || negb (String.eqb principalRole role) then
    modify (http_Error forbidden_role StatusForbidden)
  else next r.

(** ** Login *)

Record loginRequest := mkLogin { Username : string; Password : string }.

Definition login_fields : list (string * setter loginRequest) :=
  [("username", set_string (fun s r => mkLogin s (Password r)));
   ("password", set_string (fun s r => mkLogin (Username r) s))].

Definition decode_login (body : string) : option loginRequest :=
  j ← Decode body; decode_struct login_fields j (mkLogin "" "").

(** [loginResponse]. *)
Definition login_json (token : string) (expiresIn : Z) : json :=
  JObj [("token", JStr token); ("expiresIn", JNum (pretty expiresIn))].

Definition writeError (status : Z) (code message : string) : HM unit :=
  modify (json_response status (error_json code message)).

Context `{UuidLib} `{BcryptLib}.

Definition login_query (username : string) : Stmt :=
  Select ["id"; "password_hash"; "role"] TUsers (Some ("username", VText username)) None.

(** [Scan(&userID, &passwordHash, &role)] into strings. *)
Definition scan_login (row : list Value) : res (string * string * string) :=
  match row with
  | [VUuid id; VText hash; VText role] => Ok (uuid_String id, hash, role)
  | _ => Err (Foreign "can't scan into dest")
  end.

Definition Login (tokens : JWTManager) : Handler := fun r =>
  match decode_login (r_body r) with
  | None => writeError StatusBadRequest "INVALID_BODY" "invalid request body"
  | Some req =>
      row ← lift (db_QueryRow (login_query (Username req)));
      match row ≫= scan_login with
      | Err _ =>
          writeError StatusUnauthorized "INVALID_CREDENTIALS" "invalid username or password"
      | Ok (userID, passwordHash, role) =>
          match CompareHashAndPassword passwordHash (Password req) with
          | Err _ =>
              writeError StatusUnauthorized "INVALID_CREDENTIALS" "invalid username or password"
          | Ok _ =>
              match GenerateHumanToken tokens (r_now r) userID role with
              | Err _ =>
                  writeError StatusInternalServerError "TOKEN_ERROR" "failed to generate token"
              | Ok token =>
                  modify (json_response StatusOK (login_json token (Z.quot HumanTokenTTL Second)))
              end
          end
      end
  end.
End Auth.

(** ** Lemmas *)

Lemma PrincipalFromContext_withPrincipal ctx p :
  identity p -> PrincipalFromContext (withPrincipal ctx p) = (p, true).
Proof.
  intros Hp%Validate_identity. unfold PrincipalFromContext, withPrincipal.
  by rewrite ctx_Value_WithValue, Hp.
Qed.

(** A context only ever yields principals that are valid identities. *)
Lemma PrincipalFromContext_sound ctx p :
  PrincipalFromContext ctx = (p, true) -> identity p.
Proof.
  unfold PrincipalFromContext. intros Hp.
  destruct (ctx_Value ctx principalContextKey) as [[q|]|]; [|done..].
  destruct (Validate q) eqn:Hv; [done|]. injection Hp as <-. by apply Validate_identity.
Qed.

(** The token of a bearer header. *)
Definition bearer (r : Request) : option string :=
  let header := Header_Get (r_header r) "Authorization" in
  if HasPrefix header "Bearer " then Some (TrimPrefix header "Bearer ") else None.

Section AuthLemmas.
Context `{JWTLib}.

Lemma Middleware_bearer tokens next r :
  Middleware tokens next r =
    match bearer r with
    | None => modify (http_Error unauthorized_missing StatusUnauthorized)
    | Some tok =>
        match ParseHumanToken tokens (r_now r) tok with
        | Err _ => modify (http_Error unauthorized_invalid StatusUnauthorized)
        | Ok p => next (WithContext r (withPrincipal (r_ctx r) p))
        end
    end.
Proof using Type.
  unfold Middleware, bearer. destruct (String.eqb_spec (Header_Get (r_header r) "Authorization") "")
    as [->|]; cbn [orb]; [done|].
  by destruct (HasPrefix _ _).
Qed.

Context `{!JWTLibOk _}.

Lemma ParseHumanToken_human m now tok p :
  ParseHumanToken m now tok = Ok p -> identity p /\ kind p = ActorHuman /\ HumanRole_of p = (role p, true).
Proof using All.
  intros (c & _ & _ & _ & Hp)%ParseHumanToken_Ok.
  apply NewHumanPrincipal_Ok in Hp as (-> & Hs & Hr). split; [by constructor|done].
Qed.
End AuthLemmas.

(** ** Properties *)

Section AuthProperties.
Context `{JWTLib} `{!JWTLibOk _}.

(** C13. The middleware is a gate: either the request carries a bearer token the
    manager accepts, and the next handler runs on the request whose context
    yields exactly the token's principal, a valid human one; or the next
    handler does not run at all and the answer is a 401. *)
Theorem authentication_gate (tokens : JWTManager) (next : Handler) (r : Request) :
  (exists tok p, bearer r = Some tok /\ ParseHumanToken tokens (r_now r) tok = Ok p
     /\ identity p /\ Kind p = ActorHuman
     /\ PrincipalFromContext (r_ctx (WithContext r (withPrincipal (r_ctx r) p))) = (p, true)
     /\ Middleware tokens next r = next (WithContext r (withPrincipal (r_ctx r) p)))
  \/ ((forall tok p, bearer r = Some tok -> ParseHumanToken tokens (r_now r) tok <> Ok p)
      /\ exists msg, forall w, Middleware tokens next r w
           = Ret (Done tt, http_Error msg StatusUnauthorized w)).
Proof using All.
  rewrite Middleware_bearer. destruct (bearer r) as [tok|].
  - destruct (ParseHumanToken tokens (r_now r) tok) as [p|e] eqn:Hp.
    + left. exists tok, p. destruct (ParseHumanToken_human _ _ _ _ Hp) as (Hi & Hk & _).
      split_and!; try done. by apply PrincipalFromContext_withPrincipal.
    + right. split; [|by eexists]. intros tok' p [= <-]. by rewrite Hp.
  - right. split; [done|by eexists].
Qed.

(** The two middlewares of the user routes together: the handler runs exactly
    for a bearer token that is accepted with the admin role, a viewer's token
    gets a 403 and everything else a 401; only then does anything else happen. *)
Theorem admin_gate (tokens : JWTManager) (next : Handler) (r : Request) (w : Writer) :
  Middleware tokens (RequireHumanRole RoleAdmin next) r w =
    match bearer r with
    | None => Ret (Done tt, http_Error unauthorized_missing StatusUnauthorized w)
    | Some tok =>
        match ParseHumanToken tokens (r_now r) tok with
        | Err _ => Ret (Done tt, http_Error unauthorized_invalid StatusUnauthorized w)
        | Ok p =>
            if String.eqb (role p) RoleAdmin
            then next (WithContext r (withPrincipal (r_ctx r) p)) w
            else Ret (Done tt, http_Error forbidden_role StatusForbidden w)
        end
    end.
Proof using All.
  rewrite Middleware_bearer. destruct (bearer r) as [tok|]; [|done].
  destruct (ParseHumanToken tokens (r_now r) tok) as [p|e] eqn:Hp; [|done].
  apply ParseHumanToken_human in Hp as (Hi & _ & Hr).
  unfold RequireHumanRole; cbn [r_ctx WithContext].
  rewrite PrincipalFromContext_withPrincipal by done. rewrite Hr; cbn.
  by destruct (String.eqb (role p) RoleAdmin).
Qed.

Context `{UuidLib} `{BcryptLib}.

(** What a login answers for a stored user row. *)
Definition login_grants (tokens : JWTManager) (r : Request) (req : loginRequest) (T : Tables)
    (tok : string) : Prop :=
  exists row id hash role,
    row ∈ t_users T /\ col row "username" = Some (VText (Username req))
    /\ project ["id"; "password_hash"; "role"] row = [VUuid id; VText hash; VText role]
    /\ CompareHashAndPassword hash (Password req) = Ok tt
    /\ GenerateHumanToken tokens (r_now r) (uuid_String id) role = Ok tok.

(** C14. Login never changes the database and never panics. It answers 200 only with
    a token issued for the id and the role of a stored user of the given name
    whose password hash verifies the given password; a malformed body is 400,
    anything wrong with the credentials or the lookup 401, and 500 means the
    stored role cannot be issued a token. *)
Theorem login_sound (tokens : JWTManager) (r : Request) (w : Writer) (T : Tables) :
  wpH (Login tokens r)
    (fun o w' T' => o = Done tt /\ T' = T /\
      match decode_login (r_body r) with
      | None =>
          w' = json_response StatusBadRequest
                 (error_json "INVALID_BODY" "invalid request body") w
      | Some req =>
          (exists tok, login_grants tokens r req T tok
             /\ w' = json_response StatusOK (login_json tok 3600) w)
          \/ w' = json_response StatusUnauthorized
                    (error_json "INVALID_CREDENTIALS" "invalid username or password") w
          \/ (w' = json_response StatusInternalServerError
                    (error_json "TOKEN_ERROR" "failed to generate token") w
              /\ exists row id hash role, row ∈ t_users T
                   /\ project ["id"; "password_hash"; "role"] row
                      = [VUuid id; VText hash; VText role]
                   /\ is_ok (GenerateHumanToken tokens (r_now r) (uuid_String id) role) = false)
      end)
    w T.
Proof using Type.
  unfold Login. destruct (decode_login (r_body r)) as [req|]; [|done].
  apply wpH_lift_bind. apply wp_QueryRow_select.
  - intros row Hrow Hsel. unfold selected, matches in Hsel. apply bool_decide_eq_true in Hsel.
    cbn [mbind res_bind]. destruct (scan_login _) as [[[uid hash] rl]|] eqn:Hscan.
    + assert (exists id, uid = uuid_String id /\
        project ["id"; "password_hash"; "role"] row = [VUuid id; VText hash; VText rl])
        as (id & -> & Hproj).
      { unfold scan_login in Hscan. destruct (project _ _) as [|[] [|[] [|[] []]]]; naive_solver. }
      destruct (CompareHashAndPassword hash (Password req)) as [[]|] eqn:Hcmp.
      * destruct (GenerateHumanToken _ _ _ _) as [tok|] eqn:Hgen; cbn.
        -- split_and!; [done..|]. left. exists tok. split; [|done].
           exists row, id, hash, rl. done.
        -- split_and!; [done..|]. right. right. split; [done|].
           exists row, id, hash, rl. rewrite Hgen. done.
      * cbn. auto.
    + cbn. auto.
  - intros _. cbn. auto.
  - intros msg. cbn. auto.
Qed.
End AuthProperties.

(** ** Witnesses *)

Module AuthExamples.
Import RefJWT JwtExamples.

(** A request with the token of [JwtExamples] as its bearer token. *)
Definition bearer_request : Request :=
  mkRequest "GET" "/users" {[ "Authorization" := ["Bearer " +:+ token] ]} "" [] []
    (issue_time + 5)%Z 0 "".

Definition ok_handler : Handler := fun _ => modify (w_WriteHeader StatusOK).
End AuthExamples.

Import RefJWT JwtExamples AuthExamples.

Lemma authentication_gate_witness :
  exists p, ParseHumanToken manager (r_now bearer_request) token = Ok p /\ Kind p = ActorHuman
    /\ Middleware manager ok_handler bearer_request
       = ok_handler (WithContext bearer_request (withPrincipal (r_ctx bearer_request) p)).
Proof.
  destruct (authentication_gate manager ok_handler bearer_request)
    as [(tok & p & Htok & Hp & _ & Hk & _ & Heq)|[Hno _]].
  - exists p. assert (tok = token) as ->.
    { vm_compute in Htok. injection Htok as <-. vm_compute. reflexivity. }
    split; [exact Hp|]. split; [exact Hk|exact Heq].
  - exfalso. apply (Hno token admin); vm_compute; reflexivity.
Defined.

Lemma admin_gate_witness :
  Middleware manager (RequireHumanRole RoleAdmin ok_handler) bearer_request fresh_writer
  = Ret (Done tt, w_WriteHeader StatusOK fresh_writer).
Proof.
  refine (eq_trans (admin_gate manager ok_handler bearer_request fresh_writer) _).
  vm_compute. reflexivity.
Defined.
