(* ===== verification/Gen.v ===== *)
(** * Gen: the API models ([api/gen/models.gen.go])

    The request and response types of the OpenAPI contract, with the JSON
    encoding and decoding their struct tags prescribe. *)

From S2P Require Import Prelude.
From S2P Require Import GoStd.
From S2P Require Import Json.
From S2P Require Import Sql.
From S2P Require Import Principal.
From S2P Require Import Jwt.
From S2P Require Import Http.
From S2P Require Import Auth.

(** The text [time.Time] is marshalled to (RFC 3339); it depends on the time
    zone the process runs in, hence a parameter. [time_parse] reads it back. *)
Class TimeText := {
  time_text : Time -> string;
  time_parse : string -> res Time
}.

(** Instants of the years 1 to 9998, which RFC 3339 can write in any time zone. *)
Definition rfc3339_time (t : Time) : Prop := (-62135596800 * Second <= t < 253370764800 * Second)%Z.

Class TimeTextOk `(TimeText) := {
  time_parse_text t : rfc3339_time t -> time_parse (time_text t) = Ok t;
  time_text_valid t : ValidString (time_text t) = true
}.

(** A reference instance for the witnesses. *)
Module RefTime.
#[global] Instance ref_time : TimeText := {|
  time_text t := RefJWT.bits (countable.encode t);
  time_parse s := res_of_option (Foreign "cannot parse time") (countable.decode (RefJWT.unbits s))
|}.

#[global] Instance ref_time_ok : TimeTextOk ref_time.
Proof.
  split.
  - intros t _. cbn. by rewrite RefJWT.unbits_bits, decode_encode.
  - intros t. cbn. apply ValidString_ascii. apply RefLib.bits_ascii.
Qed.
End RefTime.

(** ** Enumerations (named string types) *)

Definition Manual : string := "manual".
Definition Operator : string := "operator".

Definition Status_Error : string := "Error".
Definition Pending : string := "Pending".
Definition Ready : string := "Ready".
Definition Unreachable : string := "Unreachable".

Definition SatelliteStatus_values : list string := [Status_Error; Pending; Ready; Unreachable].
Definition SatelliteManagedBy_values : list string := [Manual; Operator].
Definition UserRole_values : list string := ["admin"; "viewer"].

(** ** Requests *)

Record CreateSatelliteRequest := mkCreateSatelliteRequest {
  csr_Name : string; csr_Region : string }.

Definition CreateSatelliteRequest_fields : list (string * setter CreateSatelliteRequest) :=
  [("name", set_string (fun s r => mkCreateSatelliteRequest s (csr_Region r)));
   ("region", set_string (fun s r => mkCreateSatelliteRequest (csr_Name r) s))].

Definition decode_CreateSatelliteRequest (body : string) : option CreateSatelliteRequest :=
  j ← Decode body;
  decode_struct CreateSatelliteRequest_fields j (mkCreateSatelliteRequest "" "").

Record UpdateSatelliteRequest := mkUpdateSatelliteRequest { usr_Region : string }.

Definition UpdateSatelliteRequest_fields : list (string * setter UpdateSatelliteRequest) :=
  [("region", set_string (fun s _ => mkUpdateSatelliteRequest s))].

Definition decode_UpdateSatelliteRequest (body : string) : option UpdateSatelliteRequest :=
  j ← Decode body;
  decode_struct UpdateSatelliteRequest_fields j (mkUpdateSatelliteRequest "").

Record CreateUserRequest := mkCreateUserRequest {
  cur_Password : string; cur_Role : option string; cur_Username : string }.

Definition CreateUserRequest_fields : list (string * setter CreateUserRequest) :=
  [("password", set_string (fun s r => mkCreateUserRequest s (cur_Role r) (cur_Username r)));
   ("role", set_ptr_string (fun o r => mkCreateUserRequest (cur_Password r) o (cur_Username r)));
   ("username", set_string (fun s r => mkCreateUserRequest (cur_Password r) (cur_Role r) s))].

Definition decode_CreateUserRequest (body : string) : option CreateUserRequest :=
  j ← Decode body;
  decode_struct CreateUserRequest_fields j (mkCreateUserRequest "" None "").

(** ** Responses *)

Record gen_Satellite := mkGenSatellite {
  gs_CreatedAt : option Time;
  gs_Id : option UUID;
  gs_LastSeenAt : option Time;
  gs_ManagedBy : option string;
  gs_Name : option string;
  gs_Region : option string;
  gs_Status : option string
}.

Record gen_User := mkGenUser {
  gu_CreatedAt : option Time;
  gu_Id : option UUID;
  gu_Role : option string;
  gu_Username : option string
}.

Record ErrorBody := mkErrorBody { eb_Code : option string; eb_Message : option string }.

Record ErrorResponse := mkErrorResponse { er_Error : option ErrorBody }.

Record HealthResponse := mkHealthResponse { hr_Db : option string; hr_Status : option string }.

Record LoginRequest := mkLoginRequest { lr_Password : string; lr_Username : string }.

Record LoginResponse := mkLoginResponse { lr_ExpiresIn : option Z; lr_Token : option string }.

Record VersionResponse := mkVersionResponse { vr_Version : option string }.

Section Encoding.
Context `{UuidLib} `{TimeText}.

Definition time_json (t : Time) : json := JStr (time_text t).
Definition uuid_json (u : UUID) : json := JStr (uuid_String u).

(** The members in field order; every tag but [last_seen_at]'s has [omitempty]. *)
Definition gen_Satellite_json (s : gen_Satellite) : json :=
  JObj (opt_member "created_at" time_json (gs_CreatedAt s)
        ++ opt_member "id" uuid_json (gs_Id s)
        ++ [("last_seen_at",
             match gs_LastSeenAt s with Some t => time_json t | None => JNull end)]
        ++ opt_member "managed_by" JStr (gs_ManagedBy s)
        ++ opt_member "name" JStr (gs_Name s)
        ++ opt_member "region" JStr (gs_Region s)
        ++ opt_member "status" JStr (gs_Status s)).

Definition gen_User_json (u : gen_User) : json :=
  JObj (opt_member "created_at" time_json (gu_CreatedAt u)
        ++ opt_member "id" uuid_json (gu_Id u)
        ++ opt_member "role" JStr (gu_Role u)
        ++ opt_member "username" JStr (gu_Username u)).

(** *** Bodies of requests, as [json.Marshal] writes them *)

Definition LoginRequest_json (r : LoginRequest) : json :=
  JObj [("password", JStr (lr_Password r)); ("username", JStr (lr_Username r))].

Definition CreateSatelliteRequest_json (r : CreateSatelliteRequest) : json :=
  JObj [("name", JStr (csr_Name r)); ("region", JStr (csr_Region r))].

Definition UpdateSatelliteRequest_json (r : UpdateSatelliteRequest) : json :=
  JObj [("region", JStr (usr_Region r))].

Definition CreateUserRequest_json (r : CreateUserRequest) : json :=
  JObj (("password", JStr (cur_Password r))
        :: opt_member "role" JStr (cur_Role r)
        ++ [("username", JStr (cur_Username r))]).

Definition HealthResponse_json (r : HealthResponse) : json :=
  JObj (opt_member "db" JStr (hr_Db r) ++ opt_member "status" JStr (hr_Status r)).

(** *** Decoding of responses

    A pointer field: [null] stores nil, anything else is decoded into a new
    value of its type. *)

Definition set_ptr {A B} (dec : json -> option B) (upd : option B -> A -> A) : setter A :=
  fun j a => match j with
             | JNull => Some (upd None a)
             | j => b ← dec j; Some (upd (Some b) a)
             end.

Definition dec_string (j : json) : option string :=
  match j with JStr s => Some s | _ => None end.

(** [time.Time.UnmarshalJSON] (on text without escapes) and [UUID.UnmarshalText]. *)
Definition dec_time (j : json) : option Time :=
  match j with
  | JStr s => match time_parse s with Ok t => Some t | Err _ => None end
  | _ => None
  end.

Definition dec_uuid (j : json) : option UUID :=
  match j with
  | JStr s => match uuid_Parse s with Ok u => Some u | Err _ => None end
  | _ => None
  end.

Definition gen_Satellite_fields : list (string * setter gen_Satellite) :=
  [("created_at", set_ptr dec_time (fun o s => mkGenSatellite o (gs_Id s) (gs_LastSeenAt s)
      (gs_ManagedBy s) (gs_Name s) (gs_Region s) (gs_Status s)));
   ("id", set_ptr dec_uuid (fun o s => mkGenSatellite (gs_CreatedAt s) o (gs_LastSeenAt s)
      (gs_ManagedBy s) (gs_Name s) (gs_Region s) (gs_Status s)));
   ("last_seen_at", set_ptr dec_time (fun o s => mkGenSatellite (gs_CreatedAt s) (gs_Id s) o
      (gs_ManagedBy s) (gs_Name s) (gs_Region s) (gs_Status s)));
   ("managed_by", set_ptr dec_string (fun o s => mkGenSatellite (gs_CreatedAt s) (gs_Id s)
      (gs_LastSeenAt s) o (gs_Name s) (gs_Region s) (gs_Status s)));
   ("name", set_ptr dec_string (fun o s => mkGenSatellite (gs_CreatedAt s) (gs_Id s)
      (gs_LastSeenAt s) (gs_ManagedBy s) o (gs_Region s) (gs_Status s)));
   ("region", set_ptr dec_string (fun o s => mkGenSatellite (gs_CreatedAt s) (gs_Id s)
      (gs_LastSeenAt s) (gs_ManagedBy s) (gs_Name s) o (gs_Status s)));
   ("status", set_ptr dec_string (fun o s => mkGenSatellite (gs_CreatedAt s) (gs_Id s)
      (gs_LastSeenAt s) (gs_ManagedBy s) (gs_Name s) (gs_Region s) o))].

Definition decode_Satellite (j : json) : option gen_Satellite :=
  decode_struct gen_Satellite_fields j (mkGenSatellite None None None None None None None).

Definition gen_User_fields : list (string * setter gen_User) :=
  [("created_at", set_ptr dec_time (fun o u => mkGenUser o (gu_Id u) (gu_Role u) (gu_Username u)));
   ("id", set_ptr dec_uuid (fun o u => mkGenUser (gu_CreatedAt u) o (gu_Role u) (gu_Username u)));
   ("role", set_ptr dec_string (fun o u => mkGenUser (gu_CreatedAt u) (gu_Id u) o (gu_Username u)));
   ("username", set_ptr dec_string (fun o u => mkGenUser (gu_CreatedAt u) (gu_Id u) (gu_Role u) o))].

Definition decode_User (j : json) : option gen_User :=
  decode_struct gen_User_fields j (mkGenUser None None None None).

(** A slice: [null] is nil ([None]), every element is decoded on its own. *)
Definition decode_slice {A} (dec : json -> option A) (j : json) : option (option (list A)) :=
  match j with
  | JNull => Some None
  | JArr l => Some <$> mapM dec l
  | _ => None
  end.
End Encoding.

(** A nested structure is decoded into the one already there. *)
Definition ErrorBody_fields : list (string * setter ErrorBody) :=
  [("code", set_ptr_string (fun o b => mkErrorBody o (eb_Message b)));
   ("message", set_ptr_string (fun o b => mkErrorBody (eb_Code b) o))].

Definition ErrorResponse_fields : list (string * setter ErrorResponse) :=
  [("error", fun j r => match j with
     | JNull => Some (mkErrorResponse None)
     | j => b ← decode_struct ErrorBody_fields j (default (mkErrorBody None None) (er_Error r));
            Some (mkErrorResponse (Some b))
     end)].

Definition decode_ErrorResponse (j : json) : option ErrorResponse :=
  decode_struct ErrorResponse_fields j (mkErrorResponse None).

Definition HealthResponse_fields : list (string * setter HealthResponse) :=
  [("db", set_ptr_string (fun o r => mkHealthResponse o (hr_Status r)));
   ("status", set_ptr_string (fun o r => mkHealthResponse (hr_Db r) o))].

Definition decode_HealthResponse (j : json) : option HealthResponse :=
  decode_struct HealthResponse_fields j (mkHealthResponse None None).

(** [strconv.ParseInt(s, 10, 64)] on a number literal. *)
Fixpoint parse_digits (acc : Z) (s : string) : option Z :=
  match s with
  | "" => Some acc
  | String c s =>
      if is_digit c then parse_digits (acc * 10 + Z.of_N (byte c - 48))%Z s else None
  end.

Definition parse_int (s : string) : option Z :=
  let (neg, ds) := match opt_sign "-" s with ("", ds) => (false, ds) | (_, ds) => (true, ds) end in
  n ← (if String.eqb ds "" then None else parse_digits 0 ds);
  let n := if neg then (- n)%Z else n in
  if (-2 ^ 63 <=? n)%Z && (n <? 2 ^ 63)%Z then Some n else None.

Definition dec_int (j : json) : option Z :=
  match j with JNum lit => parse_int lit | _ => None end.

Definition LoginResponse_fields : list (string * setter LoginResponse) :=
  [("expiresIn", set_ptr dec_int (fun o r => mkLoginResponse o (lr_Token r)));
   ("token", set_ptr_string (fun o r => mkLoginResponse (lr_ExpiresIn r) o))].

Definition decode_LoginResponse (j : json) : option LoginResponse :=
  decode_struct LoginResponse_fields j (mkLoginResponse None None).

Definition VersionResponse_fields : list (string * setter VersionResponse) :=
  [("version", set_ptr_string (fun o _ => mkVersionResponse o))].

Definition decode_VersionResponse (j : json) : option VersionResponse :=
  decode_struct VersionResponse_fields j (mkVersionResponse None).
