(* ===== verification/Table.v ===== *)
(** * Table: tables as keyed collections

    What the two repositories share: the map from ids to records that a table
    represents, the outcomes of an operation on an abstract state, and the rules
    that reduce a statement of a repository to its effect on that state. *)

From S2P Require Import Prelude.
From S2P Require Import GoStd.
From S2P Require Import Sql.

(** ** Outcomes *)

(** An operation either has its effect and returns its value, or fails with an
    error of the store, with or without the effect. *)
Definition outcome_of {S A} (eff : S -> A -> S -> Prop) (m : S) (r : res A) (m' : S) : Prop :=
  match r with
  | Ok a => eff m a m'
  | Err e => (exists msg, e = Foreign msg) /\ (m' = m \/ exists a, eff m a m')
  end.

Section Statements.
Context {S A : Type} (view : Tables -> S) (keeps : Tables -> Tables -> Prop).
Context (post : res (list (list Value)) -> res A) (eff : S -> A -> S -> Prop).
Context (post_err : forall msg, post (Err (Foreign msg)) = Err (Foreign msg)).

Lemma wp_stmt st T :
  keeps T T ->
  (forall l T', sql_sem st T (Ok l) T' ->
     keeps T T' /\ exists a, post (Ok l) = Ok a /\ eff (view T) a (view T')) ->
  wp (Query st (fun r => Ret (post r)))
    (fun r T' => keeps T T' /\ outcome_of eff (view T) r (view T')) T.
Proof using All.
  intros Hrefl Hok. cbn. intros [l|e] T' Hsem.
  - destruct (Hok l T' Hsem) as (Hst & a & -> & Heff). done.
  - apply sql_err in Hsem as (msg & -> & [->|(l & Hsem)]).
    + rewrite post_err. split; [done|]. split; [by eexists|by left].
    + destruct (Hok l T' Hsem) as (Hst & a & _ & Heff).
      rewrite post_err. split; [done|]. split; [by eexists|right; by eexists].
Qed.

(** A read: the same, on tables that do not change. *)
Lemma wp_select cols t wh o T :
  (forall l, sql_sem (Select cols t wh o) T (Ok l) T ->
     exists a, post (Ok l) = Ok a /\ eff (view T) a (view T)) ->
  wp (Query (Select cols t wh o) (fun r => Ret (post r)))
    (fun r T' => T' = T /\ outcome_of eff (view T) r (view T')) T.
Proof using post_err.
  intros Hok. cbn. intros [l|e] T' Hsem.
  - assert (T' = T) as -> by by apply select_inv in Hsem as [-> _].
    destruct (Hok l Hsem) as (a & -> & Heff). done.
  - apply sql_err in Hsem as (msg & -> & [->|(l & [-> _]%select_inv)]);
      rewrite post_err; (split; [done|]); split; [by eexists|by left|by eexists|by left].
Qed.
End Statements.

(** ** The map of a list of records *)

Section Keyed.
Context {A : Type} (key : A -> UUID).

Definition map_of (l : list A) : gmap UUID A := list_to_map (map (fun a => (key a, a)) l).

Lemma map_of_keys (l : list A) : (map (fun a => (key a, a)) l).*1 = map key l.
Proof using Type. by rewrite <- list_fmap_compose. Qed.

Lemma map_of_lookup l id a :
  NoDup (map key l) -> map_of l !! id = Some a <-> a ∈ l /\ key a = id.
Proof using Type.
  intros Hnd. unfold map_of. rewrite <- elem_of_list_to_map by by rewrite map_of_keys.
  rewrite list_elem_of_fmap. naive_solver.
Qed.

Lemma map_of_lookup_None l id : map_of l !! id = None <-> id ∉ map key l.
Proof using Type. unfold map_of. rewrite <- not_elem_of_list_to_map. by rewrite map_of_keys. Qed.

Lemma filter_key l id :
  NoDup (map key l) ->
  List.filter (fun a => bool_decide (key a = id)) l = option_list (map_of l !! id).
Proof using Type.
  induction l as [|a l IH]; [done|]. cbn [map]. intros [Hni Hnd]%NoDup_cons.
  cbn [List.filter]. unfold map_of; cbn [map list_to_map foldr].
  destruct (decide (key a = id)) as [Heq|Hne].
  - rewrite bool_decide_true by done. subst id. rewrite lookup_insert_eq, IH by done.
    apply map_of_lookup_None in Hni. by rewrite Hni.
  - rewrite bool_decide_false by done. rewrite lookup_insert_ne by done. by apply IH.
Qed.

Lemma map_of_alter f l id :
  (forall a, key (f a) = key a) -> NoDup (map key l) ->
  map_of (map (fun a => if bool_decide (key a = id) then f a else a) l)
  = alter f id (map_of l).
Proof using Type.
  intros Hf. unfold map_of. induction l as [|a l IH]; cbn; [done|].
  intros [Hni Hnd]%NoDup_cons. rewrite IH by done.
  destruct (decide (key a = id)) as [<-|Hne].
  - rewrite bool_decide_true by done. rewrite Hf, alter_insert_eq.
    f_equal. apply map_eq. intros j. rewrite lookup_alter. case_decide as Hj; [|done].
    subst j. apply map_of_lookup_None in Hni. unfold map_of in Hni. by rewrite Hni.
  - rewrite bool_decide_false by done. by rewrite alter_insert_ne by done.
Qed.

Lemma map_of_delete l id :
  map_of (List.filter (fun a => negb (bool_decide (key a = id))) l) = delete id (map_of l).
Proof using Type.
  unfold map_of. induction l as [|a l IH]; cbn; [by rewrite delete_empty|].
  destruct (decide (key a = id)) as [<-|Hne].
  - rewrite bool_decide_true by done. cbn. rewrite IH. by rewrite delete_insert_eq.
  - rewrite bool_decide_false by done. cbn. rewrite IH. by rewrite delete_insert_ne by done.
Qed.

Lemma map_of_snoc l a :
  map_of l !! key a = None -> map_of (l ++ [a]) = <[key a := a]> (map_of l).
Proof using Type.
  intros Hnone. unfold map_of in *. rewrite map_app, list_to_map_app; cbn.
  rewrite insert_empty. symmetry. by apply insert_union_singleton_r.
Qed.

Lemma map_of_values l : NoDup (map key l) -> l ≡ₚ (map_to_list (map_of l)).*2.
Proof using Type.
  intros Hnd. unfold map_of. rewrite map_to_list_to_map by by rewrite map_of_keys.
  rewrite <- list_fmap_compose. by rewrite list_fmap_id.
Qed.

Lemma map_key_update {B} (g : A -> B) f id l :
  (forall a, g (f a) = g a) ->
  map g (map (fun a => if bool_decide (key a = id) then f a else a) l) = map g l.
Proof using Type. intros Hg. rewrite map_map. apply map_ext. intros a. by case_bool_decide. Qed.

(** ** Rows of records *)

Context (row_of : A -> Row).

Lemma filter_map_rows (f : Row -> bool) (g : A -> bool) l :
  (forall a, f (row_of a) = g a) ->
  List.filter f (map row_of l) = map row_of (List.filter g l).
Proof using Type.
  intros Hfg. induction l as [|a l IH]; cbn; [done|]. rewrite Hfg, IH. by destruct (g a).
Qed.

Lemma filter_all (l : list A) : List.filter (fun _ => true) l = l.
Proof using Type. induction l; cbn; by f_equal. Qed.

Lemma StronglySorted_rows (created : A -> Time) c l :
  (forall a, time_key c (row_of a) = created a) ->
  StronglySorted (desc_by c) (map row_of l) ->
  StronglySorted (fun a b => (created b <= created a)%Z) l.
Proof using Type.
  intros Hc. induction l as [|a l IH]; cbn; [constructor|].
  intros [Hs Hall]%StronglySorted_inv. constructor; [by apply IH|].
  rewrite Forall_forall in Hall. apply Forall_forall. intros b Hb. rewrite <- !Hc.
  apply (Hall (row_of b)), elem_of_map. eauto.
Qed.
End Keyed.

Lemma NoDup_snoc {A B} (g : A -> B) (l : list A) a :
  NoDup (map g l) -> (g a ∉ map g l) -> NoDup (map g (l ++ [a])).
Proof.
  intros Hnd Hni. rewrite map_app. apply NoDup_app. cbn.
  split_and!; [done| |apply NoDup_singleton].
  intros i Hi ->%list_elem_of_singleton. done.
Qed.

(** A row that conflicts with none has new values in the unique columns. *)
Lemma no_conflict_key {A B} (row_of : A -> Row) (key : A -> B) (val : B -> Value)
    (c : string) unique l r b :
  no_conflict unique (map row_of l) r = true -> c ∈ unique ->
  (forall a, col (row_of a) c = Some (val (key a))) -> col r c = Some (val b) ->
  b ∉ map key l.
Proof.
  unfold no_conflict. rewrite forallb_forall. intros Hall Hc Hcol Hr (a & <- & Ha)%elem_of_map.
  assert (row_of a ∈ map row_of l) as Hin by (apply elem_of_map; eauto).
  apply list_elem_of_In, Hall in Hin. rewrite forallb_forall in Hin.
  apply list_elem_of_In, Hin in Hc. rewrite Hcol, Hr in Hc.
  apply negb_true_iff, bool_decide_eq_false in Hc. done.
Qed.
