(* ===== verification/Satellite.v ===== *)
(** * Satellite: the satellite resource ([api/internal/satellite])

    Model, mapper, repository interface and its PostgreSQL implementation,
    service and HTTP handlers. *)

From S2P Require Import Prelude.
From S2P Require Import GoStd.
From S2P Require Import Json.
From S2P Require Import Sql.
From S2P Require Import Principal.
From S2P Require Import Jwt.
From S2P Require Import Http.
From S2P Require Import Auth.
From S2P Require Import Gen.

(** ** Model ([model.go]) *)

Record Satellite := mkSatellite {
  ID : UUID;
  Name : string;
  Region : string;
  Status : string;
  ManagedBy : string;
  LastSeenAt : option Time;
  CreatedAt : Time
}.

#[global] Instance Satellite_eq_dec : EqDecision Satellite.
Proof. solve_decision. Defined.

(** [time.Time{}]: 1 January of the year 1, in nanoseconds from the epoch. *)
Definition zero_time : Time := (-62135596800 * 1000000000)%Z.

(** ** Mapper ([mapper.go]) *)

Definition ToDomainCreate (req : CreateSatelliteRequest) : Satellite :=
  mkSatellite uuid_Nil (csr_Name req) (csr_Region req) "" "" None zero_time.

(** A nil satellite maps to the empty response. *)
Definition ToResponse (s : option Satellite) : gen_Satellite :=
  match s with
  | None => mkGenSatellite None None None None None None None
  | Some s =>
      mkGenSatellite (Some (CreatedAt s)) (Some (ID s)) (LastSeenAt s) (Some (ManagedBy s))
        (Some (Name s)) (Some (Region s)) (Some (Status s))
  end.

Definition ToResponseList (satellites : list (option Satellite)) : list gen_Satellite :=
  map ToResponse satellites.

(** ** Repository ([repository.go]) *)

(** The [Repository] interface; pointers are options. *)
Class Repository := {
  repo_Create : Satellite -> prog (res (option Satellite));
  repo_GetByID : UUID -> prog (res (option Satellite));
  repo_List : prog (res (list (option Satellite)));
  repo_Update : UUID -> string -> prog (res (option Satellite));
  repo_Delete : UUID -> prog (res unit);
  repo_UpdateHeartbeat : UUID -> prog (res (option Satellite))
}.

Definition satellite_columns : list string :=
  ["id"; "name"; "region"; "status"; "managed_by"; "last_seen_at"; "created_at"].

(** [Scan(&out.ID, ..., &out.CreatedAt)]; SQL NULL scans to a nil pointer. *)
Definition scan_satellite (row : list Value) : res Satellite :=
  match row with
  | [VUuid id; VText name; VText region; VText status; VText managed_by; last_seen;
     VTime created] =>
      match last_seen with
      | VNull => Ok (mkSatellite id name region status managed_by None created)
      | VTime t => Ok (mkSatellite id name region status managed_by (Some t) created)
      | _ => Err (Foreign "can't scan into dest")
      end
  | _ => Err (Foreign "can't scan into dest")
  end.

(** The error of [Scan] for a statement that may find no row. *)
Definition nil_when_no_rows (r : res Satellite) : res (option Satellite) :=
  match r with
  | Err e => if decide (e = Sentinel ErrNoRows) then Ok None else Err e
  | Ok out => Ok (Some out)
  end.

Definition insert_satellite (s : Satellite) : Stmt :=
  Insert TSatellites
    [("name", Arg (VText (Name s))); ("region", Arg (VText (Region s)));
     ("status", Arg (VText (Status s))); ("managed_by", Arg (VText (ManagedBy s)))]
    satellite_columns.

Definition Postgres_Create (s : Satellite) : prog (res (option Satellite)) :=
  row ← db_QueryRow (insert_satellite s);
  mret (Some <$> (row ≫= scan_satellite)).

Definition select_satellite (id : UUID) : Stmt :=
  Select satellite_columns TSatellites (Some ("id", VUuid id)) None.

Definition Postgres_GetByID (id : UUID) : prog (res (option Satellite)) :=
  row ← db_QueryRow (select_satellite id);
  mret (nil_when_no_rows (row ≫= scan_satellite)).

Definition select_satellites : Stmt :=
  Select satellite_columns TSatellites None (Some "created_at").

(** The [rows.Next] loop. *)
Fixpoint scan_satellites (rows : list (list Value)) : res (list (option Satellite)) :=
  match rows with
  | [] => Ok []
  | row :: rows =>
      s ← scan_satellite row;
      result ← scan_satellites rows;
      Ok (Some s :: result)
  end.

Definition Postgres_List : prog (res (list (option Satellite))) :=
  rows ← db_Query select_satellites;
  mret (rows ≫= scan_satellites).

Definition update_region (id : UUID) (region : string) : Stmt :=
  Update TSatellites [("region", Arg (VText region))] ("id", VUuid id) satellite_columns.

Definition Postgres_Update (id : UUID) (region : string) : prog (res (option Satellite)) :=
  row ← db_QueryRow (update_region id region);
  mret (nil_when_no_rows (row ≫= scan_satellite)).

Definition delete_satellite (id : UUID) : Stmt := Delete TSatellites ("id", VUuid id).

Definition Postgres_Delete (id : UUID) : prog (res unit) := db_Exec (delete_satellite id).

Definition update_heartbeat (id : UUID) : Stmt :=
  Update TSatellites [("status", Lit "Ready"); ("last_seen_at", NOW)] ("id", VUuid id)
    satellite_columns.

Definition Postgres_UpdateHeartbeat (id : UUID) : prog (res (option Satellite)) :=
  row ← db_QueryRow (update_heartbeat id);
  mret (nil_when_no_rows (row ≫= scan_satellite)).

Definition PostgresRepository : Repository := {|
  repo_Create := Postgres_Create;
  repo_GetByID := Postgres_GetByID;
  repo_List := Postgres_List;
  repo_Update := Postgres_Update;
  repo_Delete := Postgres_Delete;
  repo_UpdateHeartbeat := Postgres_UpdateHeartbeat
|}.

(** ** Service ([service.go]) *)

Module Service.
Section Service.
Context `{Repository}.

Definition Create (sat : Satellite) : prog (res (option Satellite)) :=
  let sat := mkSatellite (ID sat) (Name sat) (Region sat) "Pending" "manual"
               (LastSeenAt sat) (CreatedAt sat) in
  repo_Create sat.

Definition GetByID (id : UUID) : prog (res (option Satellite)) := repo_GetByID id.

Definition List : prog (res (list (option Satellite))) := repo_List.

Definition Update (id : UUID) (region : string) (fromOperator : bool)
    : prog (res (option Satellite)) :=
  r ← repo_GetByID id;
  match r with
  | Err err => mret (Err err)
  | Ok None => mret (Ok None)
  | Ok (Some sat) =>
      if String.eqb (ManagedBy sat) "operator" && negb fromOperator then
        mret (Err (Sentinel ErrManagedByOperator))
      else repo_Update id region
  end.

Definition Delete (id : UUID) (fromOperator : bool) : prog (res unit) :=
  r ← repo_GetByID id;
  match r with
  | Err err => mret (Err err)
  | Ok None => mret (Ok tt)
  | Ok (Some sat) =>
      if String.eqb (ManagedBy sat) "operator" && negb fromOperator then
        mret (Err (Sentinel ErrManagedByOperator))
      else repo_Delete id
  end.

Definition Heartbeat (id : UUID) : prog (res (option Satellite)) := repo_UpdateHeartbeat id.
End Service.
End Service.

(** ** Handlers ([handler.go]) *)

Module SatHandler.
Section Handler.
Context `{Repository} `{UuidLib} `{TimeText}.

Definition writeJSON (status : Z) (body : json) : HM unit := modify (json_response status body).

Definition writeError (status : Z) (code message : string) : HM unit :=
  modify (json_response status (error_json code message)).

Definition Create : Handler := fun r =>
  match decode_CreateSatelliteRequest (r_body r) with
  | None => writeError StatusBadRequest "INVALID_BODY" "invalid request body"
  | Some req =>
      created ← lift (Service.Create (ToDomainCreate req));
      match created with
      | Err err => writeError StatusInternalServerError "CREATE_FAILED" (Error err)
      | Ok created => writeJSON StatusCreated (gen_Satellite_json (ToResponse created))
      end
  end.

Definition List : Handler := fun r =>
  sats ← lift Service.List;
  match sats with
  | Err err => writeError StatusInternalServerError "LIST_FAILED" (Error err)
  | Ok sats => writeJSON StatusOK (JArr (map gen_Satellite_json (ToResponseList sats)))
  end.

Definition GetByID : Handler := fun r =>
  match uuid_Parse (URLParam r "id") with
  | Err _ => writeError StatusBadRequest "INVALID_ID" "invalid satellite id"
  | Ok id =>
      sat ← lift (Service.GetByID id);
      match sat with
      | Err err => writeError StatusInternalServerError "GET_FAILED" (Error err)
      | Ok None => writeError StatusNotFound "NOT_FOUND" "satellite not found"
      | Ok sat => writeJSON StatusOK (gen_Satellite_json (ToResponse sat))
      end
  end.

(** The header both mutating handlers take the operator's word from. *)
Definition fromOperator (r : Request) : bool :=
  String.eqb (Header_Get (r_header r) "X-FleetControl-Operator") "true".

Definition Update : Handler := fun r =>
  match uuid_Parse (URLParam r "id") with
  | Err _ => writeError StatusBadRequest "INVALID_ID" "invalid satellite id"
  | Ok id =>
    match decode_UpdateSatelliteRequest (r_body r) with
    | None => writeError StatusBadRequest "INVALID_BODY" "invalid request body"
    | Some req =>
        updated ← lift (Service.Update id (usr_Region req) (fromOperator r));
        match updated with
        | Err err =>
            if errors_Is err ErrManagedByOperator then
              writeError StatusForbidden "SATELLITE_MANAGED_BY_OPERATOR" (Error err)
            else writeError StatusInternalServerError "UPDATE_FAILED" (Error err)
        | Ok None => writeError StatusNotFound "NOT_FOUND" "satellite not found"
        | Ok updated => writeJSON StatusOK (gen_Satellite_json (ToResponse updated))
        end
    end
  end.

Definition Delete : Handler := fun r =>
  match uuid_Parse (URLParam r "id") with
  | Err _ => writeError StatusBadRequest "INVALID_ID" "invalid satellite id"
  | Ok id =>
      deleted ← lift (Service.Delete id (fromOperator r));
      match deleted with
      | Err err =>
          if errors_Is err ErrManagedByOperator then
            writeError StatusForbidden "SATELLITE_MANAGED_BY_OPERATOR" (Error err)
          else writeError StatusInternalServerError "DELETE_FAILED" (Error err)
      | Ok _ => modify (w_WriteHeader StatusNoContent)
      end
  end.

Definition Heartbeat : Handler := fun r =>
  match uuid_Parse (URLParam r "id") with
  | Err _ => writeError StatusBadRequest "INVALID_ID" "invalid satellite id"
  | Ok id =>
      updated ← lift (Service.Heartbeat id);
      match updated with
      | Err err => writeError StatusInternalServerError "HEARTBEAT_FAILED" (Error err)
      | Ok None => writeError StatusNotFound "NOT_FOUND" "satellite not found"
      | Ok updated => writeJSON StatusOK (gen_Satellite_json (ToResponse updated))
      end
  end.
End Handler.
End SatHandler.
