(* ===== verification/SatelliteSpec.v ===== *)
(** * SatelliteSpec: the contract of the satellite repository

    What the service expects of its [Repository], stated on a finite map from
    ids to satellites ([RepositorySpec]), and the proof that the PostgreSQL
    implementation keeps it on every well-formed table. *)

From S2P Require Import Prelude.
From S2P Require Import GoStd.
From S2P Require Import Json.
From S2P Require Import Sql.
From S2P Require Import Principal.
From S2P Require Import Jwt.
From S2P Require Import Http.
From S2P Require Import Auth.
From S2P Require Import Gen.
From S2P Require Import Table.
From S2P Require Import Satellite.

(** ** The abstract operations *)

Abbreviation Fleet := (gmap UUID Satellite).

Definition with_region (region : string) (s : Satellite) : Satellite :=
  mkSatellite (ID s) (Name s) region (Status s) (ManagedBy s) (LastSeenAt s) (CreatedAt s).

Definition beat (now : Time) (s : Satellite) : Satellite :=
  mkSatellite (ID s) (Name s) (Region s) "Ready" (ManagedBy s) (Some now) (CreatedAt s).

(** A new record: the given fields, an unused id, a creation time, never seen. *)
Definition create_eff (s : Satellite) (m : Fleet) (a : option Satellite) (m' : Fleet) : Prop :=
  exists id now, let s' := mkSatellite id (Name s) (Region s) (Status s) (ManagedBy s) None now in
    a = Some s' /\ m !! id = None /\ m' = <[id := s']> m
    /\ forall i t, m !! i = Some t -> Name t <> Name s.

Definition get_eff (id : UUID) (m : Fleet) (a : option Satellite) (m' : Fleet) : Prop :=
  a = m !! id /\ m' = m.

(** Every record once, the newest first. *)
Definition list_eff (m : Fleet) (a : list (option Satellite)) (m' : Fleet) : Prop :=
  m' = m /\ exists l, a = map Some l /\ l ≡ₚ (map_to_list m).*2
    /\ StronglySorted (fun s s' => (CreatedAt s' <= CreatedAt s)%Z) l.

Definition update_eff (id : UUID) (region : string) (m : Fleet) (a : option Satellite)
    (m' : Fleet) : Prop :=
  a = with_region region <$> m !! id /\ m' = alter (with_region region) id m.

Definition delete_eff (id : UUID) (m : Fleet) (a : unit) (m' : Fleet) : Prop :=
  m' = delete id m.

Definition heartbeat_eff (id : UUID) (m : Fleet) (a : option Satellite) (m' : Fleet) : Prop :=
  exists now, a = beat now <$> m !! id /\ m' = alter (beat now) id m.

(** ** The contract *)

Class RepositorySpec `(Repository) := {
  repo_inv : Tables -> Prop;
  repo_view : Tables -> Fleet;
  repo_keyed T id s : repo_inv T -> repo_view T !! id = Some s -> ID s = id;
  Create_spec s T : repo_inv T -> wp (repo_Create s)
    (fun r T' => (repo_inv T' /\ t_users T' = t_users T) /\
       outcome_of (create_eff s) (repo_view T) r (repo_view T')) T;
  GetByID_spec id T : repo_inv T -> wp (repo_GetByID id)
    (fun r T' => T' = T /\ outcome_of (get_eff id) (repo_view T) r (repo_view T')) T;
  List_spec T : repo_inv T -> wp repo_List
    (fun r T' => T' = T /\ outcome_of list_eff (repo_view T) r (repo_view T')) T;
  Update_spec id region T : repo_inv T -> wp (repo_Update id region)
    (fun r T' => (repo_inv T' /\ t_users T' = t_users T) /\
       outcome_of (update_eff id region) (repo_view T) r (repo_view T')) T;
  Delete_spec id T : repo_inv T -> wp (repo_Delete id)
    (fun r T' => (repo_inv T' /\ t_users T' = t_users T) /\
       outcome_of (delete_eff id) (repo_view T) r (repo_view T')) T;
  UpdateHeartbeat_spec id T : repo_inv T -> wp (repo_UpdateHeartbeat id)
    (fun r T' => (repo_inv T' /\ t_users T' = t_users T) /\
       outcome_of (heartbeat_eff id) (repo_view T) r (repo_view T')) T
}.

(** ** The satellites table *)

Definition seen_value (o : option Time) : Value :=
  match o with Some t => VTime t | None => VNull end.

Definition row_of_sat (s : Satellite) : Row :=
  [("id", VUuid (ID s)); ("name", VText (Name s)); ("region", VText (Region s));
   ("status", VText (Status s)); ("managed_by", VText (ManagedBy s));
   ("last_seen_at", seen_value (LastSeenAt s)); ("created_at", VTime (CreatedAt s))].

Definition sat_of_row (r : Row) : option Satellite :=
  match scan_satellite (project satellite_columns r) with Ok s => Some s | Err _ => None end.

Definition sat_list (T : Tables) : list Satellite := omap sat_of_row (t_satellites T).

Abbreviation fleet_of := (map_of ID).

Definition sat_view (T : Tables) : Fleet := fleet_of (sat_list T).

(** A well-formed table: every row is a satellite, ids and names are unique. *)
Definition sat_table (T : Tables) (l : list Satellite) : Prop :=
  t_satellites T = map row_of_sat l /\ NoDup (map ID l) /\ NoDup (map Name l).

Definition sat_inv (T : Tables) : Prop := exists l, sat_table T l.

(** *** Rows *)

Lemma scan_row_of_sat s : scan_satellite (project satellite_columns (row_of_sat s)) = Ok s.
Proof. by destruct s as [i n r st m [t|] c]. Qed.

Lemma scan_rows_of_sats l :
  scan_satellites (map (project satellite_columns) (map row_of_sat l)) = Ok (map Some l).
Proof.
  induction l as [|s l IH]; [done|]. cbn [map scan_satellites].
  by rewrite scan_row_of_sat, IH.
Qed.

Lemma sat_list_table T l : sat_table T l -> sat_list T = l.
Proof.
  intros [HT _]. unfold sat_list. rewrite HT. clear HT.
  induction l as [|s l IH]; [done|]. cbn [map].
  change (omap sat_of_row (row_of_sat s :: map row_of_sat l)) with
    (match sat_of_row (row_of_sat s) with
     | Some y => y :: omap sat_of_row (map row_of_sat l)
     | None => omap sat_of_row (map row_of_sat l) end).
  unfold sat_of_row at 1. by rewrite scan_row_of_sat, IH.
Qed.

Lemma sat_view_table T l : sat_table T l -> sat_view T = fleet_of l.
Proof. intros HT. unfold sat_view. by rewrite (sat_list_table _ _ HT). Qed.

Lemma matches_id id s : matches ("id", VUuid id) (row_of_sat s) = bool_decide (ID s = id).
Proof. unfold matches; cbn. apply bool_decide_ext. naive_solver. Qed.

Lemma set_region_row now region s :
  apply_sets now [("region", Arg (VText region))] (row_of_sat s)
  = row_of_sat (with_region region s).
Proof. done. Qed.

Lemma set_heartbeat_row now s :
  apply_sets now [("status", Lit "Ready"); ("last_seen_at", NOW)] (row_of_sat s)
  = row_of_sat (beat now s).
Proof. done. Qed.

Lemma new_satellite_row fresh now s r :
  new_row fresh now
    [("name", Arg (VText (Name s))); ("region", Arg (VText (Region s)));
     ("status", Arg (VText (Status s))); ("managed_by", Arg (VText (ManagedBy s)))]
    (ts_columns create_satellites) = Some r ->
  r = row_of_sat (mkSatellite fresh (Name s) (Region s) (Status s) (ManagedBy s) None now).
Proof. cbn. by intros [= <-]. Qed.

(** *** Statements on the table *)

Definition sat_stepped (T T' : Tables) : Prop := sat_inv T' /\ t_users T' = t_users T.

Lemma map_update_rows f now sets id l :
  (forall s, apply_sets now sets (row_of_sat s) = row_of_sat (f s)) ->
  map (update_row now sets ("id", VUuid id)) (map row_of_sat l)
  = map row_of_sat (map (fun s => if bool_decide (ID s = id) then f s else s) l).
Proof.
  intros Hf. rewrite !map_map. apply map_ext. intros s. unfold update_row.
  rewrite matches_id. case_bool_decide; [apply Hf|done].
Qed.

(** An update of one record in place, whose change is [f]. *)
Lemma update_table f now sets id T l :
  sat_table T l ->
  (forall s, apply_sets now sets (row_of_sat s) = row_of_sat (f s)) ->
  (forall s, ID (f s) = ID s) -> (forall s, Name (f s) = Name s) ->
  let T' := set_rows T TSatellites
              (map (update_row now sets ("id", VUuid id)) (rows T TSatellites)) in
  sat_stepped T T' /\ sat_view T' = alter f id (sat_view T)
  /\ map (fun r => project satellite_columns (apply_sets now sets r))
         (List.filter (matches ("id", VUuid id)) (rows T TSatellites))
     = map (fun s => project satellite_columns (row_of_sat (f s)))
           (option_list (sat_view T !! id)).
Proof.
  intros HT Hf Hid Hname T'. pose proof HT as (Hrows & Hids & Hnames).
  set (l' := map (fun s => if bool_decide (ID s = id) then f s else s) l).
  assert (HT' : sat_table T' l').
  { split; [|split].
    - cbn. rewrite Hrows. by apply map_update_rows.
    - unfold l'. by rewrite map_key_update.
    - unfold l'. by rewrite map_key_update. }
  split; [split; [by exists l'|done]|].
  rewrite (sat_view_table _ _ HT), (sat_view_table _ _ HT'). split.
  - by apply map_of_alter.
  - cbn [rows]. rewrite Hrows.
    rewrite (filter_map_rows row_of_sat _ (fun s => bool_decide (ID s = id))) by apply matches_id.
    rewrite filter_key by done. rewrite map_map. apply map_ext. intros s. by rewrite Hf.
Qed.

Lemma delete_table id T l :
  sat_table T l ->
  let T' := set_rows T TSatellites
              (List.filter (fun r => negb (matches ("id", VUuid id) r)) (rows T TSatellites)) in
  sat_stepped T T' /\ sat_view T' = delete id (sat_view T).
Proof.
  intros HT T'. pose proof HT as (Hrows & Hids & Hnames).
  set (g := fun s => negb (bool_decide (ID s = id))).
  assert (HT' : sat_table T' (List.filter g l)).
  { split; [|split].
    - cbn. rewrite Hrows. apply (filter_map_rows row_of_sat). intros s. by rewrite matches_id.
    - by apply NoDup_map_filter.
    - by apply NoDup_map_filter. }
  split; [split; [by eexists|done]|].
  rewrite (sat_view_table _ _ HT), (sat_view_table _ _ HT'). apply map_of_delete.
Qed.

Lemma insert_table T l s :
  sat_table T l ->
  no_conflict (ts_unique create_satellites) (rows T TSatellites) (row_of_sat s) = true ->
  let T' := set_rows T TSatellites (rows T TSatellites ++ [row_of_sat s]) in
  sat_stepped T T' /\ sat_view T' = <[ID s := s]> (sat_view T)
  /\ sat_view T !! ID s = None
  /\ forall i t, sat_view T !! i = Some t -> Name t <> Name s.
Proof.
  intros HT Hc T'. pose proof HT as (Hrows & Hids & Hnames).
  cbn [rows] in Hc. rewrite Hrows in Hc.
  assert (Hid : ID s ∉ map ID l).
  { eapply (no_conflict_key _ ID VUuid "id"); [exact Hc|by left|done..]. }
  assert (Hname : Name s ∉ map Name l).
  { eapply (no_conflict_key _ Name VText "name"); [exact Hc|by right; left|done..]. }
  assert (HT' : sat_table T' (l ++ [s])).
  { split; [cbn; by rewrite Hrows, map_app|]. split; by apply NoDup_snoc. }
  assert (Hnone : fleet_of l !! ID s = None) by (by apply map_of_lookup_None).
  split; [split; [by eexists|done]|].
  rewrite (sat_view_table _ _ HT), (sat_view_table _ _ HT').
  split_and!; [by apply map_of_snoc|done|].
  intros i t [Ht _]%map_of_lookup Heq; [|done]. apply Hname, elem_of_map. eauto.
Qed.

(** *** The PostgreSQL implementation keeps the contract *)

Definition one_satellite (r : res (list (list Value))) : res (option Satellite) :=
  nil_when_no_rows (first_row r ≫= scan_satellite).

Lemma one_satellite_option (o : option Satellite) (f : Satellite -> Satellite) :
  one_satellite (Ok (map (fun s => project satellite_columns (row_of_sat (f s)))
                         (option_list o)))
  = Ok (f <$> o).
Proof.
  destruct o as [s|]; [|done]. unfold one_satellite.
  change (nil_when_no_rows (scan_satellite (project satellite_columns (row_of_sat (f s))))
          = Ok (Some (f s))).
  by rewrite scan_row_of_sat.
Qed.

Lemma Postgres_Create_spec s T :
  sat_inv T -> wp (Postgres_Create s)
    (fun r T' => sat_stepped T T' /\
       outcome_of (create_eff s) (sat_view T) r (sat_view T')) T.
Proof.
  intros Hinv.
  apply (wp_stmt sat_view sat_stepped (fun r => Some <$> (first_row r ≫= scan_satellite)));
    [done..|].
  intros l T' (fresh & now & r & Hr & Hc & -> & ->)%insert_inv.
  apply new_satellite_row in Hr as ->. destruct Hinv as [l HT].
  destruct (insert_table _ _ _ HT Hc) as (Hst & Hview & Hnone & Hnames).
  split; [done|]. rewrite Hview. eexists. split.
  - cbn [first_row mbind res_bind]. by rewrite scan_row_of_sat.
  - exists fresh, now. split_and!; done.
Qed.

Lemma Postgres_GetByID_spec id T :
  sat_inv T -> wp (Postgres_GetByID id)
    (fun r T' => T' = T /\ outcome_of (get_eff id) (sat_view T) r (sat_view T')) T.
Proof.
  intros [l HT]. apply (wp_select sat_view one_satellite); [done|].
  intros rs (_ & rl & -> & _ & Hperm)%select_inv.
  pose proof HT as (Hrows & Hids & _). rewrite (sat_view_table _ _ HT).
  unfold selected in Hperm. cbn [rows] in Hperm. rewrite Hrows in Hperm.
  rewrite (filter_map_rows row_of_sat _ (fun s => bool_decide (ID s = id))) in Hperm by apply matches_id.
  rewrite filter_key in Hperm by done. exists (fleet_of l !! id). split; [|done].
  assert (rl = map row_of_sat (option_list (fleet_of l !! id))) as ->.
  { destruct (fleet_of l !! id) as [s|]; cbn in *.
    - by apply Permutation_singleton_r in Hperm.
    - symmetry in Hperm. by apply Permutation_nil_l in Hperm. }
  rewrite map_map. rewrite (one_satellite_option _ (fun s => s)).
  by destruct (fleet_of l !! id).
Qed.

Lemma Postgres_List_spec T :
  sat_inv T -> wp Postgres_List
    (fun r T' => T' = T /\ outcome_of list_eff (sat_view T) r (sat_view T')) T.
Proof.
  intros [l HT]. apply (wp_select sat_view (fun r => r ≫= scan_satellites)); [done|].
  intros rs (_ & rl & -> & Hord & Hperm)%select_inv.
  pose proof HT as (Hrows & Hids & _). rewrite (sat_view_table _ _ HT).
  cbn [rows] in Hperm. rewrite Hrows in Hperm.
  rewrite (filter_map_rows row_of_sat _ (fun _ => true)) in Hperm by done.
  apply Permutation_map_inv in Hperm as (l' & -> & Hperm).
  cbn [mbind res_bind]. rewrite scan_rows_of_sats. eexists. split; [done|].
  split; [done|]. exists l'.
  split_and!; [done| |by apply (StronglySorted_rows row_of_sat CreatedAt "created_at")].
  by rewrite <- (map_of_values ID l Hids), <- Hperm, filter_all.
Qed.

Lemma Postgres_Update_spec id region T :
  sat_inv T -> wp (Postgres_Update id region)
    (fun r T' => sat_stepped T T' /\
       outcome_of (update_eff id region) (sat_view T) r (sat_view T')) T.
Proof.
  intros Hinv. apply (wp_stmt sat_view sat_stepped one_satellite); [done..|].
  intros l T' (now & -> & ->)%update_inv. destruct Hinv as [l HT].
  destruct (update_table (with_region region) now [("region", Arg (VText region))] id T l HT)
    as (Hst & Hview & ->); [done..|].
  split; [done|]. rewrite Hview, one_satellite_option. by eexists.
Qed.

Lemma Postgres_Delete_spec id T :
  sat_inv T -> wp (Postgres_Delete id)
    (fun r T' => sat_stepped T T' /\
       outcome_of (delete_eff id) (sat_view T) r (sat_view T')) T.
Proof.
  intros Hinv. apply (wp_stmt sat_view sat_stepped no_rows); [done..|].
  intros l T' [-> ->]%delete_inv. destruct Hinv as [l HT].
  destruct (delete_table id T l HT) as [Hst Hview]. split; [done|]. exists tt. done.
Qed.

Lemma Postgres_UpdateHeartbeat_spec id T :
  sat_inv T -> wp (Postgres_UpdateHeartbeat id)
    (fun r T' => sat_stepped T T' /\
       outcome_of (heartbeat_eff id) (sat_view T) r (sat_view T')) T.
Proof.
  intros Hinv. apply (wp_stmt sat_view sat_stepped one_satellite); [done..|].
  intros l T' (now & -> & ->)%update_inv. destruct Hinv as [l HT].
  destruct (update_table (beat now) now [("status", Lit "Ready"); ("last_seen_at", NOW)]
    id T l HT) as (Hst & Hview & ->); [done..|].
  split; [done|]. rewrite Hview, one_satellite_option. eexists. split; [done|]. by exists now.
Qed.

Lemma sat_view_keyed T id s : sat_inv T -> sat_view T !! id = Some s -> ID s = id.
Proof.
  intros [l HT]. pose proof HT as (_ & Hids & _). rewrite (sat_view_table _ _ HT).
  by intros [_ ?]%map_of_lookup.
Qed.

#[export] Instance PostgresRepository_spec : RepositorySpec PostgresRepository.
Proof.
  refine (Build_RepositorySpec PostgresRepository sat_inv sat_view sat_view_keyed _ _ _ _ _ _).
  - exact Postgres_Create_spec.
  - exact Postgres_GetByID_spec.
  - exact Postgres_List_spec.
  - exact Postgres_Update_spec.
  - exact Postgres_Delete_spec.
  - exact Postgres_UpdateHeartbeat_spec.
Defined.
