(* ===== verification/SatelliteProps.v ===== *)
(** * SatelliteProps: the satellite service and handlers against the contract

    Everything here is proved from [RepositorySpec] alone, for any repository
    that keeps the contract. *)

From S2P Require Import Prelude.
From S2P Require Import GoStd.
From S2P Require Import Json.
From S2P Require Import Sql.
From S2P Require Import Principal.
From S2P Require Import Jwt.
From S2P Require Import Http.
From S2P Require Import Auth.
From S2P Require Import Gen.
From S2P Require Import Table.
From S2P Require Import Satellite.
From S2P Require Import SatelliteSpec.

(** ** The service *)

(** A mutation of record [id] that the ownership rule guards: unknown ids give
    [nothing] and change nothing, operator-managed records are refused unless
    the request speaks for the operator, everything else is the mutation. *)
Definition guarded {A} (id : UUID) (fromOperator : bool) (nothing : A)
    (eff : Fleet -> A -> Fleet -> Prop) (m : Fleet) (r : res A) (m' : Fleet) : Prop :=
  (exists msg, r = Err (Foreign msg) /\ m' = m) \/
  match m !! id with
  | None => r = Ok nothing /\ m' = m
  | Some s =>
      if String.eqb (ManagedBy s) "operator" && negb fromOperator
      then r = Err (Sentinel ErrManagedByOperator) /\ m' = m
      else outcome_of eff m r m'
  end.

Section Service.
Context `{RepositorySpec}.

Definition stays (T T' : Tables) : Prop := repo_inv T' /\ t_users T' = t_users T.

Lemma stays_refl T : repo_inv T -> stays T T.
Proof using Type. done. Qed.

Lemma Service_Update_spec id region fromOperator T :
  repo_inv T -> wp (Service.Update id region fromOperator)
    (fun r T' => stays T T' /\
       guarded id fromOperator None (update_eff id region) (repo_view T) r (repo_view T')) T.
Proof using Type.
  intros Hinv. unfold Service.Update. apply wp_bind.
  eapply wp_mono; [by apply GetByID_spec|]. intros r T' [-> Hout]. unfold guarded.
  destruct r as [o|e].
  - destruct Hout as [-> _]. destruct (repo_view T !! id) as [s|] eqn:Hs; [|by split; [|right]].
    destruct (String.eqb (ManagedBy s) "operator" && negb fromOperator); [by split; [|right]|].
    eapply wp_mono; [by apply Update_spec|]. intros r T' [? Hout]. split; [done|by right].
  - destruct Hout as [[msg ->] _]. split; [done|left; by exists msg].
Qed.

Lemma Service_Delete_spec id fromOperator T :
  repo_inv T -> wp (Service.Delete id fromOperator)
    (fun r T' => stays T T' /\
       guarded id fromOperator tt (delete_eff id) (repo_view T) r (repo_view T')) T.
Proof using Type.
  intros Hinv. unfold Service.Delete. apply wp_bind.
  eapply wp_mono; [by apply GetByID_spec|]. intros r T' [-> Hout]. unfold guarded.
  destruct r as [o|e].
  - destruct Hout as [-> _]. destruct (repo_view T !! id) as [s|] eqn:Hs; [|by split; [|right]].
    destruct (String.eqb (ManagedBy s) "operator" && negb fromOperator); [by split; [|right]|].
    eapply wp_mono; [by apply Delete_spec|]. intros r T' [? Hout]. split; [done|by right].
  - destruct Hout as [[msg ->] _]. split; [done|left; by exists msg].
Qed.

(** The record a create request asks for. *)
Definition pending (s : Satellite) : Satellite :=
  mkSatellite (ID s) (Name s) (Region s) "Pending" "manual" (LastSeenAt s) (CreatedAt s).

Lemma Service_Create_spec s T :
  repo_inv T -> wp (Service.Create s)
    (fun r T' => stays T T' /\
       outcome_of (create_eff (pending s)) (repo_view T) r (repo_view T')) T.
Proof using Type. intros Hinv. by apply (Create_spec (pending s)). Qed.
End Service.

(** ** Handlers *)

(** A failure of the store shows as a 500 with the text of the error. *)
Definition store_failure (code : string) (w w' : Writer) : Prop :=
  exists msg, w' = json_response StatusInternalServerError (error_json code msg) w.

Definition bad_request (code msg : string) (w w' : Writer) : Prop :=
  w' = json_response StatusBadRequest (error_json code msg) w.

Definition not_found (w w' : Writer) : Prop :=
  w' = json_response StatusNotFound (error_json "NOT_FOUND" "satellite not found") w.

Definition refused (w w' : Writer) : Prop :=
  w' = json_response StatusForbidden
         (error_json "SATELLITE_MANAGED_BY_OPERATOR" (sentinel_text ErrManagedByOperator)) w.

Section Handlers.
Context `{RepositorySpec} `{UuidLib} `{TimeText}.

(** The answer with one satellite. *)
Definition shows (status : Z) (s : Satellite) (w w' : Writer) : Prop :=
  w' = json_response status (gen_Satellite_json (ToResponse (Some s))) w.

(** C23. A satellite is created only from a well-formed body, as [Pending], [manual],
    never seen, under an id and a name nobody uses; the answer shows the stored
    record. Otherwise the answer is 400 and nothing changed, or 500. *)
Theorem create_handler_spec (r : Request) (w : Writer) (T : Tables) :
  repo_inv T -> wpH (SatHandler.Create r)
    (fun o w' T' => o = Done tt /\ stays T T' /\
      match decode_CreateSatelliteRequest (r_body r) with
      | None => bad_request "INVALID_BODY" "invalid request body" w w' /\ T' = T
      | Some req =>
          (store_failure "CREATE_FAILED" w w' /\
             (repo_view T' = repo_view T
              \/ exists a, create_eff (pending (ToDomainCreate req)) (repo_view T) a (repo_view T')))
          \/ exists id now,
             let s := mkSatellite id (csr_Name req) (csr_Region req) "Pending" "manual" None now in
             shows StatusCreated s w w' /\ repo_view T !! id = None
             /\ (forall i t, repo_view T !! i = Some t -> Name t <> csr_Name req)
             /\ repo_view T' = <[id := s]> (repo_view T)
      end) w T.
Proof using Type.
  intros Hinv. unfold SatHandler.Create.
  destruct (decode_CreateSatelliteRequest (r_body r)) as [req|]; [|done].
  apply wpH_lift_bind. eapply wp_mono; [by apply Service_Create_spec|].
  intros [a|e] T' [Hst Hout]; cbn in Hout.
  - destruct Hout as (id & now & -> & Hnone & Hview & Hnames).
    split; [done|]. split; [done|]. right. exists id, now. done.
  - destruct Hout as [[msg ->] Heff]. split; [done|]. split; [done|]. left.
    split; [by exists msg|]. destruct Heff; eauto.
Qed.



(** What the two mutating handlers answer when the store works. *)
Definition update_answer (r : Request) (id : UUID) (region : string) (m m' : Fleet)
    (w w' : Writer) : Prop :=
  match m !! id with
  | None => not_found w w' /\ m' = m
  | Some s =>
      if String.eqb (ManagedBy s) "operator" && negb (SatHandler.fromOperator r)
      then refused w w' /\ m' = m
      else shows StatusOK (with_region region s) w w' /\ m' = <[id := with_region region s]> m
  end.

(** C5. Changing the region: 400 for a bad id or body, 404 for an unknown id, 403
    for an operator-managed satellite unless the request carries the operator
    header, otherwise 200 with the record whose region, and nothing else, has
    changed. A 500 leaves the fleet as it was or, when the answer of the store
    was lost, with that same permitted change; no answer but 200 goes with any
    other change. *)
Theorem update_handler_spec (r : Request) (w : Writer) (T : Tables) :
  repo_inv T -> wpH (SatHandler.Update r)
    (fun o w' T' => o = Done tt /\ stays T T' /\
      match uuid_Parse (URLParam r "id"), decode_UpdateSatelliteRequest (r_body r) with
      | Err _, _ => bad_request "INVALID_ID" "invalid satellite id" w w' /\ T' = T
      | Ok _, None => bad_request "INVALID_BODY" "invalid request body" w w' /\ T' = T
      | Ok id, Some req =>
          (store_failure "UPDATE_FAILED" w w' /\
             (repo_view T' = repo_view T
              \/ exists w'', update_answer r id (usr_Region req) (repo_view T) (repo_view T') w w''))
          \/ update_answer r id (usr_Region req) (repo_view T) (repo_view T') w w'
      end) w T.
Proof using Type.
  intros Hinv. unfold SatHandler.Update.
  destruct (uuid_Parse (URLParam r "id")) as [id|]; [|done].
  destruct (decode_UpdateSatelliteRequest (r_body r)) as [req|]; [|done].
  apply wpH_lift_bind. eapply wp_mono; [by apply Service_Update_spec|].
  intros res T' [Hst Hg]. unfold guarded in Hg. unfold update_answer.
  destruct Hg as [(msg & -> & Hview)|Hg].
  { split; [done|]. split; [done|]. left. split; [by exists msg|by left]. }
  destruct (repo_view T !! id) as [s|] eqn:Hs.
  - destruct (String.eqb (ManagedBy s) "operator" && negb (SatHandler.fromOperator r)).
    { destruct Hg as [-> Hview]. split; [done|]. split; [done|]. by right. }
    assert (Halter : alter (with_region (usr_Region req)) id (repo_view T)
      = <[id := with_region (usr_Region req) s]> (repo_view T)) by (by apply alter_present).
    destruct res as [a|e]; cbn in Hg.
    + destruct Hg as [-> Hview]. rewrite Hs. split; [done|]. split; [done|]. right.
      split; [done|]. by rewrite Hview.
    + destruct Hg as [[msg ->] Heff]. split; [done|]. split; [done|]. left.
      split; [by exists msg|]. destruct Heff as [?|(a & -> & Hview)]; [by left|right].
      eexists. split; [done|]. by rewrite Hview.
  - destruct Hg as [-> Hview]. split; [done|]. split; [done|]. by right.
Qed.

(** C6. Deleting: 400 for a bad id, 403 for an operator-managed satellite unless the
    request carries the operator header, otherwise 204 (for an unknown id too,
    where nothing changes) and the record is gone; a 500 leaves the fleet as it
    was or with that permitted deletion. *)
Theorem delete_handler_spec (r : Request) (w : Writer) (T : Tables) :
  repo_inv T -> wpH (SatHandler.Delete r)
    (fun o w' T' => o = Done tt /\ stays T T' /\
      match uuid_Parse (URLParam r "id") with
      | Err _ => bad_request "INVALID_ID" "invalid satellite id" w w' /\ T' = T
      | Ok id =>
          let m := repo_view T in
          let permitted := match m !! id with
            | Some s => String.eqb (ManagedBy s) "operator" = false
                        \/ SatHandler.fromOperator r = true
            | None => True
            end in
          (store_failure "DELETE_FAILED" w w' /\
             (repo_view T' = m \/ permitted /\ repo_view T' = delete id m))
          \/ (refused w w' /\ ~ permitted /\ repo_view T' = m)
          \/ (w' = w_WriteHeader StatusNoContent w /\ permitted /\ repo_view T' = delete id m)
      end) w T.
Proof using Type.
  intros Hinv. unfold SatHandler.Delete.
  destruct (uuid_Parse (URLParam r "id")) as [id|]; [|done].
  apply wpH_lift_bind. eapply wp_mono; [by apply Service_Delete_spec|].
  intros res T' [Hst Hg]. unfold guarded in Hg. cbn zeta.
  destruct Hg as [(msg & -> & Hview)|Hg].
  { split; [done|]. split; [done|]. left. split; [by exists msg|by left]. }
  destruct (repo_view T !! id) as [s|] eqn:Hs.
  - destruct (String.eqb (ManagedBy s) "operator") eqn:Hop;
      destruct (SatHandler.fromOperator r) eqn:Hfrom; cbn [andb negb] in Hg.
    2: { destruct Hg as [-> Hview]. split; [done|]. split; [done|]. right; left.
         split; [done|]. split; [|done]. by intros [?|?]. }
    all: destruct res as [[]|e]; cbn in Hg;
      [split; [done|]; split; [done|]; right; right; split; [done|]; split; [auto|done]|].
    all: destruct Hg as [[msg ->] Heff]; split; [done|]; split; [done|]; left;
      (split; [by exists msg|]); destruct Heff as [?|[[] ?]]; auto.
  - destruct Hg as [-> Hview]. split; [done|]. split; [done|]. right; right.
    split; [done|]. split; [done|]. rewrite Hview. symmetry. by apply delete_id.
Qed.

(** C26. A heartbeat: 400 for a bad id, 404 for an unknown one, otherwise 200 with
    the record now [Ready] and seen at a time of the server's choosing, its
    other fields unchanged; a 500 leaves the fleet as it was or with that
    change. Ownership plays no part. *)
Theorem heartbeat_handler_spec (r : Request) (w : Writer) (T : Tables) :
  repo_inv T -> wpH (SatHandler.Heartbeat r)
    (fun o w' T' => o = Done tt /\ stays T T' /\
      match uuid_Parse (URLParam r "id") with
      | Err _ => bad_request "INVALID_ID" "invalid satellite id" w w' /\ T' = T
      | Ok id =>
          (store_failure "HEARTBEAT_FAILED" w w' /\
             (repo_view T' = repo_view T
              \/ exists now, repo_view T' = alter (beat now) id (repo_view T)))
          \/ match repo_view T !! id with
             | None => not_found w w' /\ repo_view T' = repo_view T
             | Some s => exists now, shows StatusOK (beat now s) w w'
                 /\ repo_view T' = <[id := beat now s]> (repo_view T)
             end
      end) w T.
Proof using Type.
  intros Hinv. unfold SatHandler.Heartbeat.
  destruct (uuid_Parse (URLParam r "id")) as [id|]; [|done].
  apply wpH_lift_bind. eapply wp_mono; [by apply UpdateHeartbeat_spec|].
  intros [a|e] T' [Hst Hout]; cbn in Hout.
  - destruct Hout as (now & -> & Hview).
    destruct (repo_view T !! id) as [s|] eqn:Hs; (split; [done|]).
    + split; [done|]. right. exists now. split; [done|].
      rewrite Hview. by apply alter_present.
    + split; [done|]. right. split; [done|]. rewrite Hview. apply map_eq. intros j.
      rewrite lookup_alter. case_decide as Hj; [|done]. subst. by rewrite Hs.
  - destruct Hout as [[msg ->] Heff]. split; [done|]. split; [done|]. left.
    split; [by exists msg|]. destruct Heff as [?|(a & now & _ & ?)]; eauto.
Qed.
End Handlers.

(** ** The lifecycle of a satellite *)

(** A satellite that was never seen is [Pending], one that was is [Ready]: no
    other status is ever written. *)
Definition lifecycle_ok (s : Satellite) : Prop :=
  match LastSeenAt s with None => Status s = Pending | Some _ => Status s = Ready end.

Definition fleet_ok (m : Fleet) : Prop := forall id s, m !! id = Some s -> lifecycle_ok s.

Lemma fleet_ok_insert id s m : lifecycle_ok s -> fleet_ok m -> fleet_ok (<[id := s]> m).
Proof.
  intros Hs Hm i t. rewrite lookup_insert. case_decide; [intros [= <-]; done|apply Hm].
Qed.

Lemma fleet_ok_alter f id m :
  (forall s, lifecycle_ok s -> lifecycle_ok (f s)) -> fleet_ok m -> fleet_ok (alter f id m).
Proof.
  intros Hf Hm i t. rewrite lookup_alter. case_decide; [|apply Hm].
  subst. destruct (m !! i) as [s|] eqn:Hs; [|done]. cbn. intros [= <-]. eauto.
Qed.

Lemma fleet_ok_delete id m : fleet_ok m -> fleet_ok (delete id m).
Proof. intros Hm i t [_ Ht]%lookup_delete_Some. by eapply Hm. Qed.

Lemma outcome_ok {A} (eff : Fleet -> A -> Fleet -> Prop) m r m' :
  fleet_ok m -> (forall a, eff m a m' -> fleet_ok m') -> outcome_of eff m r m' -> fleet_ok m'.
Proof.
  intros Hm Heff. destruct r as [a|e]; cbn; [apply Heff|].
  intros [_ [->|[a ?]]]; [done|by eapply Heff].
Qed.

Lemma guarded_ok {A} id fromOp (nothing : A) eff m r m' :
  fleet_ok m -> (forall a, eff m a m' -> fleet_ok m') ->
  guarded id fromOp nothing eff m r m' -> fleet_ok m'.
Proof.
  intros Hm Heff [(msg & _ & ->)|Hg]; [done|].
  destruct (m !! id) as [s|]; [|by destruct Hg as [_ ->]].
  destruct (_ && _); [by destruct Hg as [_ ->]|]. by eapply outcome_ok.
Qed.

Section Lifecycle.
Context `{RepositorySpec}.

(** The operations of the service, by what they may do to the fleet. *)
Inductive service_op : forall A, prog (res A) -> Prop :=
| op_Create req : service_op _ (Service.Create (ToDomainCreate req))
| op_GetByID id : service_op _ (Service.GetByID id)
| op_List : service_op _ Service.List
| op_Update id region from : service_op _ (Service.Update id region from)
| op_Delete id from : service_op _ (Service.Delete id from)
| op_Heartbeat id : service_op _ (Service.Heartbeat id).

(** Every operation of the service keeps the fleet in its lifecycle: a record
    enters as [Pending] and never seen, only a heartbeat makes it [Ready] and
    then together with the time it was seen, and nothing undoes that. *)
Theorem service_keeps_lifecycle A (p : prog (res A)) (T : Tables) :
  service_op A p -> repo_inv T -> fleet_ok (repo_view T) ->
  wp p (fun _ T' => repo_inv T' /\ fleet_ok (repo_view T')) T.
Proof using Type.
  intros Hop Hinv Hok. destruct Hop as [req|id| |id region from|id from|id].
  - eapply wp_mono; [by apply Service_Create_spec|]. intros r T' [[? _] Hout].
    split; [done|]. eapply outcome_ok; [done| |done].
    intros a (i & now & _ & _ & -> & _). by apply fleet_ok_insert.
  - eapply wp_mono; [by apply GetByID_spec|]. by intros r T' [-> _].
  - eapply wp_mono; [by apply List_spec|]. by intros r T' [-> _].
  - eapply wp_mono; [by apply Service_Update_spec|]. intros r T' [[? _] Hg].
    split; [done|]. eapply guarded_ok; [done| |done].
    intros a [_ ->]. by apply fleet_ok_alter.
  - eapply wp_mono; [by apply Service_Delete_spec|]. intros r T' [[? _] Hg].
    split; [done|]. eapply guarded_ok; [done| |done].
    intros a ->. by apply fleet_ok_delete.
  - eapply wp_mono; [by apply UpdateHeartbeat_spec|]. intros r T' [[? _] Hout].
    split; [done|]. eapply outcome_ok; [done| |done].
    intros a (now & _ & ->). by apply fleet_ok_alter.
Qed.
End Lifecycle.

(** ** The PostgreSQL repository *)

(** C15. The PostgreSQL repository refines the abstract operations: on a well-formed
    table every call either has the effect and the result of its abstract
    operation, or fails with a store error, with or without that effect; the
    table stays well formed and the users table is not touched. *)
Theorem postgres_refines_contract (T : Tables) :
  sat_inv T ->
  (forall s, wp (Postgres_Create s) (fun r T' => sat_stepped T T' /\
     outcome_of (create_eff s) (sat_view T) r (sat_view T')) T)
  /\ (forall id, wp (Postgres_GetByID id) (fun r T' => T' = T /\
     outcome_of (get_eff id) (sat_view T) r (sat_view T')) T)
  /\ wp Postgres_List (fun r T' => T' = T /\
     outcome_of list_eff (sat_view T) r (sat_view T')) T
  /\ (forall id region, wp (Postgres_Update id region) (fun r T' => sat_stepped T T' /\
     outcome_of (update_eff id region) (sat_view T) r (sat_view T')) T)
  /\ (forall id, wp (Postgres_Delete id) (fun r T' => sat_stepped T T' /\
     outcome_of (delete_eff id) (sat_view T) r (sat_view T')) T)
  /\ (forall id, wp (Postgres_UpdateHeartbeat id) (fun r T' => sat_stepped T T' /\
     outcome_of (heartbeat_eff id) (sat_view T) r (sat_view T')) T).
Proof.
  intros Hinv. split_and!; intros.
  - by apply Postgres_Create_spec.
  - by apply Postgres_GetByID_spec.
  - by apply Postgres_List_spec.
  - by apply Postgres_Update_spec.
  - by apply Postgres_Delete_spec.
  - by apply Postgres_UpdateHeartbeat_spec.
Qed.
