(* ===== verification/User.v ===== *)
(** * User: the user resource ([api/internal/user])

    Model, mapper, repository interface and its PostgreSQL implementation,
    service and HTTP handlers. *)

From S2P Require Import Prelude.
From S2P Require Import GoStd.
From S2P Require Import Json.
From S2P Require Import Sql.
From S2P Require Import Principal.
From S2P Require Import Jwt.
From S2P Require Import Http.
From S2P Require Import Auth.
From S2P Require Import Gen.
From S2P Require Import Satellite.

(** ** Model ([model.go]) *)

Record User := mkUser {
  u_ID : UUID;
  u_Username : string;
  u_PasswordHash : string;
  u_Role : string;
  u_CreatedAt : Time
}.

#[global] Instance User_eq_dec : EqDecision User.
Proof. solve_decision. Defined.

(** ** Mapper ([mapper.go]) *)

Definition defaultRole : string := "viewer".

Definition CreateParamsFromRequest (req : CreateUserRequest) : string * string * string :=
  let role := match cur_Role req with Some r => r | None => defaultRole end in
  (cur_Username req, cur_Password req, role).

Module UserMapper.

(** Panics on a nil user. *)
Definition ToResponse (u : option User) : HM gen_User :=
  match u with
  | None =>
      panic "user: ToResponse called with nil User — caller must check for not-found before mapping"
  | Some u =>
      mret (mkGenUser (Some (u_CreatedAt u)) (Some (u_ID u)) (Some (u_Role u))
              (Some (u_Username u)))
  end.

Fixpoint ToResponseList (users : list (option User)) : HM (list gen_User) :=
  match users with
  | [] => mret []
  | u :: users =>
      u' ← ToResponse u;
      resp ← ToResponseList users;
      mret (u' :: resp)
  end.
End UserMapper.

(** ** Repository ([repository.go]) *)

(** The [Repository] interface of the package; pointers are options. *)
Class UserRepository := {
  urepo_Create : User -> prog (res (option User));
  urepo_GetByUsername : string -> prog (res (option User));
  urepo_GetByID : UUID -> prog (res (option User));
  urepo_List : prog (res (list (option User)));
  urepo_Delete : UUID -> prog (res unit)
}.

Definition user_columns : list string := ["id"; "username"; "password_hash"; "role"; "created_at"].

(** [Scan(&out.ID, ..., &out.CreatedAt)]. *)
Definition scan_user (row : list Value) : res User :=
  match row with
  | [VUuid id; VText username; VText hash; VText role; VTime created] =>
      Ok (mkUser id username hash role created)
  | _ => Err (Foreign "can't scan into dest")
  end.

Definition user_or_nil (r : res User) : res (option User) :=
  match r with
  | Err e => if decide (e = Sentinel ErrNoRows) then Ok None else Err e
  | Ok out => Ok (Some out)
  end.

Module PostgresUsers.

Definition insert_user (u : User) : Stmt :=
  Insert TUsers
    [("username", Arg (VText (u_Username u))); ("password_hash", Arg (VText (u_PasswordHash u)));
     ("role", Arg (VText (u_Role u)))]
    user_columns.

Definition Create (u : User) : prog (res (option User)) :=
  row ← db_QueryRow (insert_user u);
  mret (Some <$> (row ≫= scan_user)).

Definition GetByUsername (username : string) : prog (res (option User)) :=
  row ← db_QueryRow (Select user_columns TUsers (Some ("username", VText username)) None);
  mret (user_or_nil (row ≫= scan_user)).

Definition GetByID (id : UUID) : prog (res (option User)) :=
  row ← db_QueryRow (Select user_columns TUsers (Some ("id", VUuid id)) None);
  mret (user_or_nil (row ≫= scan_user)).

(** The [rows.Next] loop. *)
Fixpoint scan_users (rows : list (list Value)) : res (list (option User)) :=
  match rows with
  | [] => Ok []
  | row :: rows =>
      u ← scan_user row;
      result ← scan_users rows;
      Ok (Some u :: result)
  end.

Definition List : prog (res (list (option User))) :=
  rows ← db_Query (Select user_columns TUsers None (Some "created_at"));
  mret (rows ≫= scan_users).

Definition Delete (id : UUID) : prog (res unit) := db_Exec (Sql.Delete TUsers ("id", VUuid id)).

Definition repository : UserRepository := {|
  urepo_Create := Create;
  urepo_GetByUsername := GetByUsername;
  urepo_GetByID := GetByID;
  urepo_List := List;
  urepo_Delete := Delete
|}.
End PostgresUsers.

(** ** Service ([service.go]) *)

Module UserService.
Section Service.
Context `{UserRepository} `{BcryptLib}.

(** [entropy] is the salt bcrypt draws. *)
Definition Create (entropy username password role : string) : prog (res (option User)) :=
  if negb (String.eqb role "admin") && negb (String.eqb role "viewer") then
    mret (Err (Sentinel ErrInvalidRole))
  else
    match GenerateFromPassword entropy password DefaultCost with
    | Err err => mret (Err err)
    | Ok hash => urepo_Create (mkUser uuid_Nil username hash role zero_time)
    end.

Definition GetByID (id : UUID) : prog (res (option User)) := urepo_GetByID id.

Definition List : prog (res (list (option User))) := urepo_List.

Definition Delete (id : UUID) : prog (res unit) := urepo_Delete id.
End Service.
End UserService.

(** ** Handlers ([handler.go]) *)

Module UserHandler.
Section Handler.
Context `{UserRepository} `{BcryptLib} `{UuidLib} `{TimeText}.

Definition writeJSON (status : Z) (body : json) : HM unit := modify (json_response status body).

Definition writeError (status : Z) (code message : string) : HM unit :=
  modify (json_response status (error_json code message)).

Definition Create : Handler := fun r =>
  match decode_CreateUserRequest (r_body r) with
  | None => writeError StatusBadRequest "INVALID_BODY" "invalid request body"
  | Some req =>
      let '(username, password, role) := CreateParamsFromRequest req in
      created ← lift (UserService.Create (r_entropy r) username password role);
      match created with
      | Err err =>
          if errors_Is err ErrInvalidRole then
            writeError StatusBadRequest "INVALID_ROLE" (Error err)
          else writeError StatusInternalServerError "CREATE_FAILED" (Error err)
      | Ok created =>
          resp ← UserMapper.ToResponse created;
          writeJSON StatusCreated (gen_User_json resp)
      end
  end.

Definition List : Handler := fun r =>
  users ← lift UserService.List;
  match users with
  | Err err => writeError StatusInternalServerError "LIST_FAILED" (Error err)
  | Ok users =>
      resp ← UserMapper.ToResponseList users;
      writeJSON StatusOK (JArr (map gen_User_json resp))
  end.

Definition Delete : Handler := fun r =>
  match uuid_Parse (URLParam r "id") with
  | Err _ => writeError StatusBadRequest "INVALID_ID" "invalid user id"
  | Ok id =>
      deleted ← lift (UserService.Delete id);
      match deleted with
      | Err err => writeError StatusInternalServerError "DELETE_FAILED" (Error err)
      | Ok _ => modify (w_WriteHeader StatusNoContent)
      end
  end.
End Handler.
End UserHandler.
