(* ===== verification/UserSpec.v ===== *)
(** * UserSpec: the contract of the user repository, its handlers and login

    The abstract operations on a finite map from ids to users
    ([UserRepositorySpec]), the proof that the PostgreSQL implementation keeps
    them, and what the handlers and login do with them. *)

From S2P Require Import Prelude.
From S2P Require Import GoStd.
From S2P Require Import Json.
From S2P Require Import Sql.
From S2P Require Import Principal.
From S2P Require Import Jwt.
From S2P Require Import Http.
From S2P Require Import Auth.
From S2P Require Import Gen.
From S2P Require Import Table.
From S2P Require Import Satellite.
From S2P Require Import User.

(** ** The abstract operations *)

Abbreviation Accounts := (gmap UUID User).

(** A new account: the given name, hash and role, an unused id and name. *)
Definition user_create_eff (u : User) (m : Accounts) (a : option User) (m' : Accounts) : Prop :=
  exists id now,
    let u' := mkUser id (u_Username u) (u_PasswordHash u) (u_Role u) now in
    a = Some u' /\ m !! id = None /\ m' = <[id := u']> m
    /\ forall i v, m !! i = Some v -> u_Username v <> u_Username u.

Definition user_by_name (username : string) (m : Accounts) (a : option User) (m' : Accounts)
    : Prop :=
  m' = m /\ match a with
            | Some u => m !! u_ID u = Some u /\ u_Username u = username
            | None => forall i v, m !! i = Some v -> u_Username v <> username
            end.

Definition user_get_eff (id : UUID) (m : Accounts) (a : option User) (m' : Accounts) : Prop :=
  a = m !! id /\ m' = m.

Definition user_list_eff (m : Accounts) (a : list (option User)) (m' : Accounts) : Prop :=
  m' = m /\ exists l, a = map Some l /\ l ≡ₚ (map_to_list m).*2
    /\ StronglySorted (fun u v => (u_CreatedAt v <= u_CreatedAt u)%Z) l.

Definition user_delete_eff (id : UUID) (m : Accounts) (a : unit) (m' : Accounts) : Prop :=
  m' = delete id m.

(** ** The contract *)

Class UserRepositorySpec `(UserRepository) := {
  urepo_inv : Tables -> Prop;
  urepo_view : Tables -> Accounts;
  urepo_Create_spec u T : urepo_inv T -> wp (urepo_Create u)
    (fun r T' => (urepo_inv T' /\ t_satellites T' = t_satellites T) /\
       outcome_of (user_create_eff u) (urepo_view T) r (urepo_view T')) T;
  urepo_GetByUsername_spec name T : urepo_inv T -> wp (urepo_GetByUsername name)
    (fun r T' => T' = T /\ outcome_of (user_by_name name) (urepo_view T) r (urepo_view T')) T;
  urepo_GetByID_spec id T : urepo_inv T -> wp (urepo_GetByID id)
    (fun r T' => T' = T /\ outcome_of (user_get_eff id) (urepo_view T) r (urepo_view T')) T;
  urepo_List_spec T : urepo_inv T -> wp urepo_List
    (fun r T' => T' = T /\ outcome_of user_list_eff (urepo_view T) r (urepo_view T')) T;
  urepo_Delete_spec id T : urepo_inv T -> wp (urepo_Delete id)
    (fun r T' => (urepo_inv T' /\ t_satellites T' = t_satellites T) /\
       outcome_of (user_delete_eff id) (urepo_view T) r (urepo_view T')) T
}.

(** ** The users table *)

Definition row_of_user (u : User) : Row :=
  [("id", VUuid (u_ID u)); ("username", VText (u_Username u));
   ("password_hash", VText (u_PasswordHash u)); ("role", VText (u_Role u));
   ("created_at", VTime (u_CreatedAt u))].

Definition user_of_row (r : Row) : option User :=
  match scan_user (project user_columns r) with Ok u => Some u | Err _ => None end.

Definition user_list (T : Tables) : list User := omap user_of_row (t_users T).

Definition user_view (T : Tables) : Accounts := map_of u_ID (user_list T).

(** A well-formed table: every row is a user, ids and names are unique. *)
Definition user_table (T : Tables) (l : list User) : Prop :=
  t_users T = map row_of_user l /\ NoDup (map u_ID l) /\ NoDup (map u_Username l).

Definition user_inv (T : Tables) : Prop := exists l, user_table T l.

Lemma user_of_row_of_user u : user_of_row (row_of_user u) = Some u.
Proof. by destruct u. Qed.

Lemma scan_row_of_user u : scan_user (project user_columns (row_of_user u)) = Ok u.
Proof. by destruct u. Qed.

Lemma scan_rows_of_users l :
  PostgresUsers.scan_users (map (project user_columns) (map row_of_user l)) = Ok (map Some l).
Proof.
  induction l as [|u l IH]; [done|]. cbn [map PostgresUsers.scan_users].
  by rewrite scan_row_of_user, IH.
Qed.

Lemma omap_rows (l : list User) : omap user_of_row (map row_of_user l) = l.
Proof.
  induction l as [|u l IH]; [done|].
  change (match user_of_row (row_of_user u) with
          | Some v => v :: omap user_of_row (map row_of_user l)
          | None => omap user_of_row (map row_of_user l) end = u :: l).
  by rewrite user_of_row_of_user, IH.
Qed.

Lemma user_view_table T l : user_table T l -> user_view T = map_of u_ID l.
Proof. intros [HT _]. unfold user_view, user_list. by rewrite HT, omap_rows. Qed.

Definition user_stepped (T T' : Tables) : Prop :=
  user_inv T' /\ t_satellites T' = t_satellites T.

Lemma matches_user_id id u :
  matches ("id", VUuid id) (row_of_user u) = bool_decide (u_ID u = id).
Proof. unfold matches; cbn. apply bool_decide_ext. naive_solver. Qed.

Lemma matches_user_name n u :
  matches ("username", VText n) (row_of_user u) = bool_decide (u_Username u = n).
Proof. unfold matches; cbn. apply bool_decide_ext. naive_solver. Qed.

Lemma new_user_row fresh now u r :
  new_row fresh now
    [("username", Arg (VText (u_Username u))); ("password_hash", Arg (VText (u_PasswordHash u)));
     ("role", Arg (VText (u_Role u)))]
    (ts_columns create_users) = Some r ->
  r = row_of_user (mkUser fresh (u_Username u) (u_PasswordHash u) (u_Role u) now).
Proof. cbn. by intros [= <-]. Qed.

Lemma insert_user_table T l u :
  user_table T l ->
  no_conflict (ts_unique create_users) (rows T TUsers) (row_of_user u) = true ->
  let T' := set_rows T TUsers (rows T TUsers ++ [row_of_user u]) in
  user_stepped T T' /\ user_view T' = <[u_ID u := u]> (user_view T)
  /\ user_view T !! u_ID u = None
  /\ forall i v, user_view T !! i = Some v -> u_Username v <> u_Username u.
Proof.
  intros HT Hc T'. pose proof HT as (Hrows & Hids & Hnames).
  cbn [rows] in Hc. rewrite Hrows in Hc.
  assert (Hid : u_ID u ∉ map u_ID l).
  { eapply (no_conflict_key _ u_ID VUuid "id"); [exact Hc|by left|done..]. }
  assert (Hname : u_Username u ∉ map u_Username l).
  { eapply (no_conflict_key _ u_Username VText "username"); [exact Hc|by right; left|done..]. }
  assert (HT' : user_table T' (l ++ [u])).
  { split; [cbn; by rewrite Hrows, map_app|]. split; by apply NoDup_snoc. }
  assert (Hnone : map_of u_ID l !! u_ID u = None) by (by apply map_of_lookup_None).
  split; [split; [by eexists|done]|].
  rewrite (user_view_table _ _ HT), (user_view_table _ _ HT').
  split_and!; [by apply map_of_snoc|done|].
  intros i v [Hv _]%map_of_lookup Heq; [|done]. apply Hname, elem_of_map. eauto.
Qed.

Lemma delete_user_table id T l :
  user_table T l ->
  let T' := set_rows T TUsers
              (List.filter (fun r => negb (matches ("id", VUuid id) r)) (rows T TUsers)) in
  user_stepped T T' /\ user_view T' = delete id (user_view T).
Proof.
  intros HT T'. pose proof HT as (Hrows & Hids & Hnames).
  set (g := fun u => negb (bool_decide (u_ID u = id))).
  assert (HT' : user_table T' (List.filter g l)).
  { split; [|split; by apply NoDup_map_filter].
    cbn. rewrite Hrows. apply (filter_map_rows row_of_user). intros u.
    by rewrite matches_user_id. }
  split; [split; [by eexists|done]|].
  rewrite (user_view_table _ _ HT), (user_view_table _ _ HT'). apply map_of_delete.
Qed.

(** ** The PostgreSQL implementation keeps the contract *)

Definition one_user (r : res (list (list Value))) : res (option User) :=
  user_or_nil (first_row r ≫= scan_user).

Lemma Postgres_user_Create_spec u T :
  user_inv T -> wp (PostgresUsers.Create u)
    (fun r T' => user_stepped T T' /\
       outcome_of (user_create_eff u) (user_view T) r (user_view T')) T.
Proof.
  intros Hinv.
  apply (wp_stmt user_view user_stepped (fun r => Some <$> (first_row r ≫= scan_user)));
    [done..|].
  intros l T' (fresh & now & r & Hr & Hc & -> & ->)%insert_inv.
  apply new_user_row in Hr as ->. destruct Hinv as [l HT].
  destruct (insert_user_table _ _ _ HT Hc) as (Hst & Hview & Hnone & Hnames).
  split; [done|]. rewrite Hview. eexists. split.
  - cbn [first_row mbind res_bind]. by rewrite scan_row_of_user.
  - exists fresh, now. split_and!; done.
Qed.

(** The user a lookup finds among the rows it selects. *)
Lemma one_user_selected (f : User -> bool) rl (l : list User) :
  rl ≡ₚ map row_of_user (List.filter f l) ->
  exists o, one_user (Ok (map (project user_columns) rl)) = Ok o /\
    match o with
    | Some u => u ∈ l /\ f u = true
    | None => forall u, u ∈ l -> f u = false
    end.
Proof.
  intros (rl' & -> & Hperm)%Permutation_map_inv.
  destruct rl' as [|u rl'].
  - exists None. split; [done|]. intros u Hu. apply Permutation_sym, Permutation_nil_l in Hperm.
    destruct (f u) eqn:Hf; [|done]. exfalso.
    assert (u ∈ List.filter f l) as Hin by by apply elem_of_filter_bool.
    rewrite <- Hperm in Hin. by apply not_elem_of_nil in Hin.
  - exists (Some u). cbn [map]. unfold one_user. cbn [first_row mbind res_bind].
    rewrite scan_row_of_user. split; [done|].
    apply elem_of_filter_bool. rewrite Hperm. by left.
Qed.

Lemma Postgres_user_GetByUsername_spec name T :
  user_inv T -> wp (PostgresUsers.GetByUsername name)
    (fun r T' => T' = T /\
       outcome_of (user_by_name name) (user_view T) r (user_view T')) T.
Proof.
  intros [l HT]. apply (wp_select user_view one_user); [done|].
  intros rs (_ & rl & -> & _ & Hperm)%select_inv.
  pose proof HT as (Hrows & Hids & _). rewrite (user_view_table _ _ HT).
  unfold selected in Hperm. cbn [rows] in Hperm. rewrite Hrows in Hperm.
  rewrite (filter_map_rows row_of_user _ (fun u => bool_decide (u_Username u = name)))
    in Hperm by apply matches_user_name.
  apply one_user_selected in Hperm as (o & Ho & Hsel). exists o. split; [done|].
  split; [done|]. destruct o as [u|].
  - destruct Hsel as [Hin Hn%bool_decide_eq_true]. split; [|done]. by apply map_of_lookup.
  - intros i v [Hv _]%map_of_lookup; [|done]. by apply Hsel, bool_decide_eq_false in Hv.
Qed.

Lemma Postgres_user_GetByID_spec id T :
  user_inv T -> wp (PostgresUsers.GetByID id)
    (fun r T' => T' = T /\
       outcome_of (user_get_eff id) (user_view T) r (user_view T')) T.
Proof.
  intros [l HT]. apply (wp_select user_view one_user); [done|].
  intros rs (_ & rl & -> & _ & Hperm)%select_inv.
  pose proof HT as (Hrows & Hids & _). rewrite (user_view_table _ _ HT).
  unfold selected in Hperm. cbn [rows] in Hperm. rewrite Hrows in Hperm.
  rewrite (filter_map_rows row_of_user _ (fun u => bool_decide (u_ID u = id)))
    in Hperm by apply matches_user_id.
  apply one_user_selected in Hperm as (o & Ho & Hsel). exists o. split; [done|].
  split; [|done]. symmetry. destruct o as [u|].
  - destruct Hsel as [Hin Hid%bool_decide_eq_true]. by apply map_of_lookup.
  - apply map_of_lookup_None. intros (u & <- & Hu)%elem_of_map.
    apply Hsel, bool_decide_eq_false in Hu. done.
Qed.

Lemma Postgres_user_List_spec T :
  user_inv T -> wp PostgresUsers.List
    (fun r T' => T' = T /\ outcome_of user_list_eff (user_view T) r (user_view T')) T.
Proof.
  intros [l HT].
  apply (wp_select user_view (fun r => r ≫= PostgresUsers.scan_users)); [done|].
  intros rs (_ & rl & -> & Hord & Hperm)%select_inv.
  pose proof HT as (Hrows & Hids & _). rewrite (user_view_table _ _ HT).
  cbn [rows] in Hperm. rewrite Hrows in Hperm.
  rewrite (filter_map_rows row_of_user _ (fun _ => true)), filter_all in Hperm by done.
  apply Permutation_map_inv in Hperm as (l' & -> & Hperm).
  cbn [mbind res_bind]. rewrite scan_rows_of_users. eexists. split; [done|].
  split; [done|]. exists l'.
  split_and!; [done| |by apply (StronglySorted_rows row_of_user u_CreatedAt "created_at")].
  by rewrite <- (map_of_values u_ID l Hids), <- Hperm.
Qed.

Lemma Postgres_user_Delete_spec id T :
  user_inv T -> wp (PostgresUsers.Delete id)
    (fun r T' => user_stepped T T' /\
       outcome_of (user_delete_eff id) (user_view T) r (user_view T')) T.
Proof.
  intros Hinv. apply (wp_stmt user_view user_stepped no_rows); [done..|].
  intros l T' [-> ->]%delete_inv. destruct Hinv as [l HT].
  destruct (delete_user_table id T l HT) as [Hst Hview]. split; [done|]. exists tt. done.
Qed.

#[export] Instance PostgresUsers_spec : UserRepositorySpec PostgresUsers.repository.
Proof.
  refine (Build_UserRepositorySpec PostgresUsers.repository user_inv user_view _ _ _ _ _).
  - exact Postgres_user_Create_spec.
  - exact Postgres_user_GetByUsername_spec.
  - exact Postgres_user_GetByID_spec.
  - exact Postgres_user_List_spec.
  - exact Postgres_user_Delete_spec.
Defined.
