(* ===== verification/UserProps.v ===== *)
(** * UserProps: the user service, its handlers and login

    The handlers are proved against [UserRepositorySpec] alone; login, which
    sends its own statement, against the users table. *)

From S2P Require Import Prelude.
From S2P Require Import GoStd.
From S2P Require Import Json.
From S2P Require Import Sql.
From S2P Require Import Principal.
From S2P Require Import Jwt.
From S2P Require Import Http.
From S2P Require Import Auth.
From S2P Require Import Gen.
From S2P Require Import Table.
From S2P Require Import Satellite.
From S2P Require Import User.
From S2P Require Import UserSpec.

(** ** The service *)

Definition role_valid (role : string) : bool :=
  String.eqb role "admin" || String.eqb role "viewer".

Section Handlers.
Context `{UserRepositorySpec} `{BcryptLib} `{!BcryptLibOk _} `{UuidLib} `{TimeText}.

Definition users_stay (T T' : Tables) : Prop :=
  urepo_inv T' /\ t_satellites T' = t_satellites T.

Lemma UserService_Create_spec entropy name pw role T :
  urepo_inv T -> wp (UserService.Create entropy name pw role)
    (fun r T' => users_stay T T' /\
       if role_valid role then
         match GenerateFromPassword entropy pw DefaultCost with
         | Err e => r = Err e /\ T' = T
         | Ok hash =>
             outcome_of (user_create_eff (mkUser uuid_Nil name hash role zero_time))
               (urepo_view T) r (urepo_view T')
         end
       else r = Err (Sentinel ErrInvalidRole) /\ T' = T) T.
Proof using Type.
  intros Hinv. unfold UserService.Create, role_valid. rewrite <- negb_orb.
  destruct (String.eqb role "admin" || String.eqb role "viewer"); cbn [negb]; [|done].
  destruct (GenerateFromPassword entropy pw DefaultCost) as [hash|e]; [|done].
  by apply urepo_Create_spec.
Qed.

(** ** Handlers *)

(** The answer for one account never carries the password hash. *)
Definition public (u : User) : gen_User :=
  mkGenUser (Some (u_CreatedAt u)) (Some (u_ID u)) (Some (u_Role u)) (Some (u_Username u)).

Lemma ToResponseList_ok (l : list User) w :
  UserMapper.ToResponseList (map Some l) w = Ret (Done (map public l), w).
Proof using Type.
  induction l as [|u l IH]; [done|]. cbn [map UserMapper.ToResponseList].
  unfold mbind, HM_mbind, HM_bind in *. cbn. by rewrite IH.
Qed.

Definition answers (status : Z) (j : json) (w w' : Writer) : Prop :=
  w' = json_response status j w.

Definition answers_error (status : Z) (code msg : string) (w w' : Writer) : Prop :=
  answers status (error_json code msg) w w'.

(** The account a create request asks for, with the hash its password got. *)
Definition requested (req : CreateUserRequest) (hash : string) : User :=
  mkUser uuid_Nil (cur_Username req) hash (default "viewer" (cur_Role req)) zero_time.

(** C27. Creating an account: 400 for a malformed body or a role other than admin and
    viewer (viewer when none is given), 500 without any change when the password
    cannot be hashed, otherwise 201 with a new account that has the requested
    name, unused until then, the role and a hash of the password, or 500 with
    the accounts unchanged or with that account added. The satellites are never
    touched and the handler never panics on a nil user. *)
Theorem create_user_handler_spec (r : Request) (w : Writer) (T : Tables) :
  urepo_inv T -> wpH (UserHandler.Create r)
    (fun o w' T' => o = Done tt /\ users_stay T T' /\
      match decode_CreateUserRequest (r_body r) with
      | None => answers_error StatusBadRequest "INVALID_BODY" "invalid request body" w w' /\ T' = T
      | Some req =>
        if role_valid (default "viewer" (cur_Role req)) then
          match GenerateFromPassword (r_entropy r) (cur_Password req) DefaultCost with
          | Err e =>
              answers_error StatusInternalServerError "CREATE_FAILED" (Error e) w w' /\ T' = T
          | Ok hash =>
              (exists a, user_create_eff (requested req hash) (urepo_view T) (Some a) (urepo_view T')
                 /\ answers StatusCreated (gen_User_json (public a)) w w')
              \/ ((exists msg, answers_error StatusInternalServerError "CREATE_FAILED" msg w w')
                  /\ (urepo_view T' = urepo_view T \/
                      exists a, user_create_eff (requested req hash) (urepo_view T) a (urepo_view T')))
          end
        else answers_error StatusBadRequest "INVALID_ROLE" (sentinel_text ErrInvalidRole) w w'
             /\ T' = T
      end) w T.
Proof using All.
  intros Hinv. unfold UserHandler.Create.
  destruct (decode_CreateUserRequest (r_body r)) as [req|]; [|done]. cbn zeta.
  unfold CreateParamsFromRequest. change defaultRole with "viewer".
  assert ((match cur_Role req with Some r => r | None => "viewer" end)
    = default "viewer" (cur_Role req)) as -> by by destruct (cur_Role req).
  apply wpH_lift_bind. eapply wp_mono; [by apply UserService_Create_spec|].
  intros res T' [Hst Hres]. destruct (role_valid _); [|by destruct Hres as [-> ->]].
  destruct (GenerateFromPassword _ _ _) as [hash|e] eqn:Hgen.
  - destruct res as [a|e]; cbn in Hres.
    + pose proof Hres as (id & now & -> & _). split; [done|]. split; [done|]. left. by eexists.
    + destruct Hres as [[msg ->] Heff]. split; [done|]. split; [done|]. right.
      split; [by exists msg|done].
  - destruct Hres as [-> ->]. apply bcrypt_own_errors in Hgen as [msg ->]. done.
Qed.

(** C28. Listing answers every account once, the most recently created first, and
    shows id, name, role and creation time only; nothing changes. *)
Theorem list_users_handler_spec (r : Request) (w : Writer) (T : Tables) :
  urepo_inv T -> wpH (UserHandler.List r)
    (fun o w' T' => o = Done tt /\ T' = T /\
      ((exists msg, answers_error StatusInternalServerError "LIST_FAILED" msg w w') \/
       exists l, l ≡ₚ (map_to_list (urepo_view T)).*2
         /\ StronglySorted (fun u v => (u_CreatedAt v <= u_CreatedAt u)%Z) l
         /\ answers StatusOK (JArr (map (fun u => gen_User_json (public u)) l)) w w')) w T.
Proof using Type.
  intros Hinv. unfold UserHandler.List.
  apply wpH_lift_bind. eapply wp_mono; [by apply urepo_List_spec|].
  intros [a|e] T' [-> Hout]; cbn in Hout.
  - destruct Hout as (_ & l & -> & Hperm & Hsort).
    apply wpH_bind. unfold wpH. rewrite ToResponseList_ok. cbn.
    split; [done|]. split; [done|]. right. exists l. rewrite map_map. done.
  - destruct Hout as [[msg ->] _]. split; [done|]. split; [done|]. left. by exists msg.
Qed.

(** C29. Deleting: 400 for a bad id, otherwise 204 (for an unknown id too) and the
    account is gone, or 500 with the accounts unchanged or without it. *)
Theorem delete_user_handler_spec (r : Request) (w : Writer) (T : Tables) :
  urepo_inv T -> wpH (UserHandler.Delete r)
    (fun o w' T' => o = Done tt /\ users_stay T T' /\
      match uuid_Parse (URLParam r "id") with
      | Err _ => answers_error StatusBadRequest "INVALID_ID" "invalid user id" w w' /\ T' = T
      | Ok id =>
          (w' = w_WriteHeader StatusNoContent w /\ urepo_view T' = delete id (urepo_view T))
          \/ ((exists msg, answers_error StatusInternalServerError "DELETE_FAILED" msg w w')
              /\ (urepo_view T' = urepo_view T \/ urepo_view T' = delete id (urepo_view T)))
      end) w T.
Proof using Type.
  intros Hinv. unfold UserHandler.Delete.
  destruct (uuid_Parse (URLParam r "id")) as [id|]; [|done].
  apply wpH_lift_bind. eapply wp_mono; [by apply urepo_Delete_spec|].
  intros [a|e] T' [Hst Hout]; cbn in Hout.
  - split; [done|]. split; [done|]. by left.
  - destruct Hout as [[msg ->] Heff]. split; [done|]. split; [done|]. right.
    split; [by exists msg|]. destruct Heff as [?|[? ?]]; auto.
Qed.

(** ** Roles *)

Definition roles_ok (m : Accounts) : Prop :=
  forall id u, m !! id = Some u -> role_valid (u_Role u) = true.

Lemma roles_ok_create u m a m' :
  role_valid (u_Role u) = true -> roles_ok m -> user_create_eff u m a m' -> roles_ok m'.
Proof using Type.
  intros Hu Hm (id & now & _ & _ & -> & _) i v. rewrite lookup_insert.
  case_decide; [by intros [= <-]|apply Hm].
Qed.

Lemma roles_ok_delete id m : roles_ok m -> roles_ok (delete id m).
Proof using Type. intros Hm i v [_ Hv]%lookup_delete_Some. by eapply Hm. Qed.

(** The operations of the user service, by what they may do to the accounts. *)
Inductive user_op : forall A, prog (res A) -> Prop :=
| op_user_Create e name pw role : user_op _ (UserService.Create e name pw role)
| op_user_GetByID id : user_op _ (UserService.GetByID id)
| op_user_List : user_op _ UserService.List
| op_user_Delete id : user_op _ (UserService.Delete id).

(** Every operation of the user service keeps the roles of the stored accounts
    among admin and viewer, so that every account can be issued a token. *)
Theorem user_service_keeps_roles A (p : prog (res A)) (T : Tables) :
  user_op A p -> urepo_inv T -> roles_ok (urepo_view T) ->
  wp p (fun _ T' => urepo_inv T' /\ roles_ok (urepo_view T')) T.
Proof using Type.
  intros Hop Hinv Hok. destruct Hop as [e name pw role|id| |id].
  - eapply wp_mono; [by apply UserService_Create_spec|]. intros r T' [[? _] Hout].
    split; [done|]. destruct (role_valid role) eqn:Hrole; [|by destruct Hout as [_ ->]].
    destruct (GenerateFromPassword _ _ _) as [hash|]; [|by destruct Hout as [_ ->]].
    destruct r as [a|err]; cbn in Hout;
      [by refine (roles_ok_create _ _ _ _ _ Hok Hout)|].
    destruct Hout as [_ [->|[a Ha]]]; [done|by refine (roles_ok_create _ _ _ _ _ Hok Ha)].
  - eapply wp_mono; [by apply urepo_GetByID_spec|]. by intros r T' [-> _].
  - eapply wp_mono; [by apply urepo_List_spec|]. by intros r T' [-> _].
  - eapply wp_mono; [by apply urepo_Delete_spec|]. intros r T' [[? _] Hout].
    split; [done|]. destruct r as [a|err]; cbn in Hout; [rewrite Hout; by apply roles_ok_delete|].
    destruct Hout as [_ [->|[a ->]]]; [done|by apply roles_ok_delete].
Qed.
End Handlers.

(** ** Login *)

Section Login.
Context `{PostgresOk} `{JWTLib} `{!JWTLibOk _} `{BcryptLib} `{!BcryptLibOk _}
  `{UuidLib} `{!UuidLibOk _}.

(** The rows login reads for a stored account. *)
Lemma login_rows l u rl :
  NoDup (map u_Username l) -> u ∈ l ->
  rl ≡ₚ List.filter (selected (Some ("username", VText (u_Username u)))) (map row_of_user l) ->
  rl = [row_of_user u].
Proof using Type.
  intros Hnd Hu Hperm. unfold selected in Hperm.
  rewrite (filter_map_rows row_of_user _ (fun v => bool_decide (u_Username v = u_Username u)))
    in Hperm by apply matches_user_name.
  assert (List.filter (fun v => bool_decide (u_Username v = u_Username u)) l = [u]) as Hf.
  { clear Hperm. induction l as [|v l IH]; [by apply not_elem_of_nil in Hu|].
    cbn [map] in Hnd. apply NoDup_cons in Hnd as [Hni Hnd]. cbn.
    apply elem_of_cons in Hu as [<-|Hu].
    - rewrite bool_decide_true by done. f_equal. clear IH.
      induction l as [|v l IH]; [done|]. cbn in *.
      apply not_elem_of_cons in Hni as [Hne Hni]. rewrite bool_decide_false by congruence.
      apply NoDup_cons in Hnd as [_ Hnd]. by apply IH.
    - rewrite bool_decide_false; [by apply IH|].
      intros Heq. apply Hni. rewrite Heq. apply elem_of_map. eauto. }
  rewrite Hf in Hperm. by apply Permutation_singleton_r in Hperm.
Qed.

(** Login of a stored account with its password, when the database answers. *)
Lemma login_complete tokens r w s name pw id u :
  user_inv (pg_view s) -> user_view (pg_view s) !! id = Some u ->
  u_Username u = name -> CompareHashAndPassword (u_PasswordHash u) pw = Ok tt ->
  role_valid (u_Role u) = true ->
  decode_login (r_body r) = Some (mkLogin name pw) ->
  pg_accepts (login_query name) s ->
  exists tok, GenerateHumanToken tokens (r_now r) (uuid_String id) (u_Role u) = Ok tok
    /\ (run (Login tokens r w) s).1
       = (Done tt, json_response StatusOK (login_json tok 3600) w).
Proof using All.
  intros [l HT] Hu <- Hcmp Hrole Hbody Hacc.
  pose proof HT as (Hrows & Hids & Hnames). rewrite (user_view_table _ _ HT) in Hu.
  apply map_of_lookup in Hu as [Hu <-]; [|done].
  assert (exists tok, GenerateHumanToken tokens (r_now r) (uuid_String (u_ID u)) (u_Role u)
    = Ok tok) as [tok Htok].
  { unfold GenerateHumanToken.
    assert (NewHumanPrincipal (uuid_String (u_ID u)) (u_Role u)
      = Ok (mkPrincipal ActorHuman (uuid_String (u_ID u)) (u_Role u) uuid_Nil)) as ->.
    { apply NewHumanPrincipal_Ok. split; [done|].
      split; [apply uuid_String_text|].
      unfold role_valid in Hrole. apply orb_true_iff in Hrole as [?%String.eqb_eq|?%String.eqb_eq]; auto. }
    edestruct SignedString_ok as (tok & Htok & _). by exists tok. }
  exists tok. split; [done|]. unfold Login. rewrite Hbody.
  refine (run_accepted (login_query (u_Username u)) _ (fun ow _ =>
    ow = (Done tt, json_response StatusOK (login_json tok 3600) w)) s Hacc _).
  intros rs T' (-> & rl & -> & Hord & Hperm)%select_inv.
  cbn [rows] in Hperm. rewrite Hrows in Hperm.
  apply (login_rows l u) in Hperm as ->; [|done..].
  cbn. rewrite Hcmp; cbn. by rewrite Htok; cbn.
Qed.

(** C10. An account just created with a role can log in at once: when the database
    accepts the lookup, login with the name and password of the create answers
    200 with a token that the server accepts at that time as the human principal
    of the new account with its role. *)
Theorem created_account_can_log_in (tokens : JWTManager) (entropy name pw role : string)
    (r : Request) (w : Writer) (s s1 : pg_state) (u : option User) :
  user_inv (pg_view s) ->
  run (UserService.Create (H:=PostgresUsers.repository) entropy name pw role) s = (Ok u, s1) ->
  decode_login (r_body r) = Some (mkLogin name pw) ->
  pg_accepts (login_query name) s1 ->
  ValidString (issuer tokens) = true -> ValidString (audience tokens) = true ->
  (0 <= r_now r)%Z -> (r_now r + HumanTokenTTL < 2 ^ 53 * Second)%Z ->
  exists id tok,
    user_view (pg_view s) !! id = None
    /\ (run (Login tokens r w) s1).1
       = (Done tt, json_response StatusOK (login_json tok 3600) w)
    /\ ParseHumanToken tokens (r_now r) tok
       = Ok (mkPrincipal ActorHuman (uuid_String id) role uuid_Nil).
Proof using All.
  intros Hinv Hrun Hbody Hacc Hiss Haud Hlo Hhi.
  pose proof (wp_run _ _ s (UserService_Create_spec (H:=PostgresUsers.repository)
    entropy name pw role _ Hinv)) as Hspec.
  rewrite Hrun in Hspec; cbn [fst snd] in Hspec. destruct Hspec as [[Hinv1 _] Hspec].
  destruct (role_valid role) eqn:Hrole; [|by destruct Hspec].
  destruct (GenerateFromPassword entropy pw DefaultCost) as [hash|] eqn:Hhash;
    [|by destruct Hspec].
  destruct Hspec as (id & now & -> & Hnone & Hview & _).
  change (user_view (pg_view s1) = <[id := mkUser id name hash role now]> (user_view (pg_view s)))
    in Hview.
  destruct (login_complete tokens r w s1 name pw id (mkUser id name hash role now))
    as (tok & Htok & Hlogin); try done.
  { rewrite Hview. apply lookup_insert_eq. }
  { by apply (bcrypt_verifies entropy pw DefaultCost). }
  exists id, tok. split_and!; [done..|].
  apply (own_token_parses _ _ _ (r_now r)); [done| |].
  - split_and!; try done. apply uuid_String_text.
  - pose proof (Z.mod_pos_bound (r_now r) Second eq_refl).
    assert (Second < HumanTokenTTL)%Z by done. lia.
Qed.
End Login.
