(* ===== verification/GenServer.v ===== *)
(** * GenServer: the generated server ([api/gen/server.gen.go])

    The server interface, its wrapper that binds path parameters and stores the
    required scopes, the stub implementation, the error types, and the generated
    router. Parameter binding ([oapi-codegen/runtime]) is a parameter. *)

From S2P Require Import Prelude.
From S2P Require Import GoStd.
From S2P Require Import Json.
From S2P Require Import Sql.
From S2P Require Import Principal.
From S2P Require Import Http.
From S2P Require Import Chi.
From S2P Require Import Jwt.
From S2P Require Import Auth.

(** [runtime.BindStyledParameterWithOptions(style, name, value, &id, opts)] for a
    required path parameter of type [openapi_types.UUID]. *)
Class BindLib := {
  BindStyledParameter : string -> string -> string -> res UUID
}.

(** The canonical text of a uuid binds to it; what is not a uuid does not bind. *)
Class BindLibOk `(BindLib) `(UuidLib) := {
  bind_canonical name u :
    (u < 2 ^ 128)%N -> BindStyledParameter "simple" name (uuid_String u) = Ok u;
  bind_empty name : is_ok (BindStyledParameter "simple" name "") = false
}.

(** A reference implementation, for the witnesses. *)
Module RefBind.
Import RefLib.

#[global] Instance ref_bind : BindLib := {|
  BindStyledParameter _ name s :=
    if String.eqb s "" then Err (Foreign ("parameter '" +:+ name +:+ "' is empty, can't bind its value"))
    else uuid_Parse s
|}.

#[global] Instance ref_bind_ok : BindLibOk ref_bind ref_uuid.
Proof.
  split; [|done]. intros name u Hu. cbn -[uuid_String uuid_Parse].
  destruct (String.eqb_spec (uuid_String u) ""); [done|]. by apply uuid_Parse_String.
Qed.
End RefBind.

(** [BearerAuthScopes]. *)
Definition BearerAuthScopes : CtxKey := StringKey "BearerAuth.Scopes".

Record ServerInterface := mkServerInterface {
  PostAuthLogin : Handler;
  GetHealth : Handler;
  GetSatellites : Handler;
  PostSatellites : Handler;
  DeleteSatellitesId : UUID -> Handler;
  GetSatellitesId : UUID -> Handler;
  PatchSatellitesId : UUID -> Handler;
  PostSatellitesIdHeartbeat : UUID -> Handler;
  GetUsers : Handler;
  PostUsers : Handler;
  DeleteUsersId : UUID -> Handler;
  GetVersion : Handler
}.

(** [Unimplemented]: every endpoint answers 501. *)
Definition unimplemented_handler : Handler := fun _ => modify (w_WriteHeader StatusNotImplemented).

Definition Unimplemented : ServerInterface := {|
  PostAuthLogin := unimplemented_handler;
  GetHealth := unimplemented_handler;
  GetSatellites := unimplemented_handler;
  PostSatellites := unimplemented_handler;
  DeleteSatellitesId := fun _ => unimplemented_handler;
  GetSatellitesId := fun _ => unimplemented_handler;
  PatchSatellitesId := fun _ => unimplemented_handler;
  PostSatellitesIdHeartbeat := fun _ => unimplemented_handler;
  GetUsers := unimplemented_handler;
  PostUsers := unimplemented_handler;
  DeleteUsersId := fun _ => unimplemented_handler;
  GetVersion := unimplemented_handler
|}.

(** [ServerInterfaceWrapper]; a nil [ErrorHandlerFunc] is [None]. *)
Record ServerInterfaceWrapper := mkWrapper {
  siw_Handler : ServerInterface;
  HandlerMiddlewares : list MiddlewareT;
  ErrorHandlerFunc : option (error -> Handler)
}.

Definition InvalidParamFormatError (ParamName : string) (Err : error) : error :=
  Wrapped ("Invalid format for parameter " +:+ ParamName +:+ ": ") Err "".

(** The error types that wrap an error show it, or (cookies, headers) a text of
    their own; they are listed by their [Error()] texts. *)
Definition UnescapedCookieParamError_Error (ParamName : string) : string :=
  "error unescaping cookie parameter '" +:+ ParamName +:+ "'".
Definition UnmarshalingParamError (ParamName : string) (Err : error) : error :=
  Wrapped ("Error unmarshaling parameter " +:+ ParamName +:+ " as JSON: ") Err "".
Definition RequiredParamError_Error (ParamName : string) : string :=
  "Query argument " +:+ ParamName +:+ " is required, but not found".
Definition RequiredHeaderError_Error (ParamName : string) : string :=
  "Header parameter " +:+ ParamName +:+ " is required, but not found".
Definition TooManyValuesForParamError_Error (ParamName : string) (Count : Z) : string :=
  "Expected one value for " +:+ ParamName +:+ ", got " +:+ pretty Count.

(** Calling a nil function value panics. *)
Definition nil_deref : string := "runtime error: invalid memory address or nil pointer dereference".

Definition call_ErrorHandlerFunc (siw : ServerInterfaceWrapper) (err : error) : Handler := fun r =>
  match ErrorHandlerFunc siw with
  | Some f => f err r
  | None => panic nil_deref
  end.

(** [for _, middleware := range siw.HandlerMiddlewares]: the last is outermost. *)
Definition with_middlewares (siw : ServerInterfaceWrapper) (handler : Handler) : Handler :=
  fold_left (fun handler middleware => middleware handler) (HandlerMiddlewares siw) handler.

(** Store the scopes in the context of the request. *)
Definition with_scopes (r : Request) : Request :=
  WithContext r (WithValue (r_ctx r) BearerAuthScopes (CtxStrings [])).

Module Wrapper.
Section Wrapper.
Context `{BindLib} (siw : ServerInterfaceWrapper).

Definition PostAuthLogin : Handler := fun r =>
  with_middlewares siw (PostAuthLogin (siw_Handler siw)) r.

Definition GetHealth : Handler := fun r =>
  with_middlewares siw (GetHealth (siw_Handler siw)) r.

Definition GetSatellites : Handler := fun r =>
  with_middlewares siw (GetSatellites (siw_Handler siw)) (with_scopes r).

Definition PostSatellites : Handler := fun r =>
  with_middlewares siw (PostSatellites (siw_Handler siw)) (with_scopes r).

Definition DeleteSatellitesId : Handler := fun r =>
  match BindStyledParameter "simple" "id" (URLParam r "id") with
  | Err err => call_ErrorHandlerFunc siw (InvalidParamFormatError "id" err) r
  | Ok id =>
      with_middlewares siw (DeleteSatellitesId (siw_Handler siw) id) (with_scopes r)
  end.

Definition GetSatellitesId : Handler := fun r =>
  match BindStyledParameter "simple" "id" (URLParam r "id") with
  | Err err => call_ErrorHandlerFunc siw (InvalidParamFormatError "id" err) r
  | Ok id =>
      with_middlewares siw (GetSatellitesId (siw_Handler siw) id) (with_scopes r)
  end.

Definition PatchSatellitesId : Handler := fun r =>
  match BindStyledParameter "simple" "id" (URLParam r "id") with
  | Err err => call_ErrorHandlerFunc siw (InvalidParamFormatError "id" err) r
  | Ok id =>
      with_middlewares siw (PatchSatellitesId (siw_Handler siw) id) (with_scopes r)
  end.

Definition PostSatellitesIdHeartbeat : Handler := fun r =>
  match BindStyledParameter "simple" "id" (URLParam r "id") with
  | Err err => call_ErrorHandlerFunc siw (InvalidParamFormatError "id" err) r
  | Ok id =>
      with_middlewares siw (PostSatellitesIdHeartbeat (siw_Handler siw) id) (with_scopes r)
  end.

Definition GetUsers : Handler := fun r =>
  with_middlewares siw (GetUsers (siw_Handler siw)) (with_scopes r).

Definition PostUsers : Handler := fun r =>
  with_middlewares siw (PostUsers (siw_Handler siw)) (with_scopes r).

Definition DeleteUsersId : Handler := fun r =>
  match BindStyledParameter "simple" "id" (URLParam r "id") with
  | Err err => call_ErrorHandlerFunc siw (InvalidParamFormatError "id" err) r
  | Ok id =>
      with_middlewares siw (DeleteUsersId (siw_Handler siw) id) (with_scopes r)
  end.

Definition GetVersion : Handler := fun r =>
  with_middlewares siw (GetVersion (siw_Handler siw)) r.

End Wrapper.
End Wrapper.

(** ** The generated router *)

Record ChiServerOptions `{ChiLib} := mkOptions {
  BaseURL : string;
  BaseRouter : option Mux;
  Middlewares : list MiddlewareT;
  opt_ErrorHandlerFunc : option (error -> Handler)
}.

Section Routing.
Context `{ChiLib} `{BindLib}.

(** The error handler the generated router installs when it is given none. *)
Definition default_error_handler (err : error) : Handler := fun _ =>
  modify (http_Error (Error err) StatusBadRequest).

Definition HandlerWithOptions (si : ServerInterface) (options : ChiServerOptions) : Mux :=
  let r := match BaseRouter options with Some r => r | None => NewRouter_ end in
  let errorHandler :=
    match opt_ErrorHandlerFunc options with Some f => f | None => default_error_handler end in
  let wrapper := mkWrapper si (Middlewares options) (Some errorHandler) in
  let url p := BaseURL options +:+ p in
  let r := Group r (fun r => Post r (url "/auth/login") (Wrapper.PostAuthLogin wrapper)) in
  let r := Group r (fun r => Get r (url "/health") (Wrapper.GetHealth wrapper)) in
  let r := Group r (fun r => Get r (url "/satellites") (Wrapper.GetSatellites wrapper)) in
  let r := Group r (fun r => Post r (url "/satellites") (Wrapper.PostSatellites wrapper)) in
  let r := Group r (fun r => DELETE r (url "/satellites/{id}") (Wrapper.DeleteSatellitesId wrapper)) in
  let r := Group r (fun r => Get r (url "/satellites/{id}") (Wrapper.GetSatellitesId wrapper)) in
  let r := Group r (fun r => Patch r (url "/satellites/{id}") (Wrapper.PatchSatellitesId wrapper)) in
  let r := Group r (fun r => Post r (url "/satellites/{id}/heartbeat") (Wrapper.PostSatellitesIdHeartbeat wrapper)) in
  let r := Group r (fun r => Get r (url "/users") (Wrapper.GetUsers wrapper)) in
  let r := Group r (fun r => Post r (url "/users") (Wrapper.PostUsers wrapper)) in
  let r := Group r (fun r => DELETE r (url "/users/{id}") (Wrapper.DeleteUsersId wrapper)) in
  let r := Group r (fun r => Get r (url "/version") (Wrapper.GetVersion wrapper)) in
  r.

Definition no_options : ChiServerOptions := mkOptions _ "" None [] None.

Definition Handler_ (si : ServerInterface) : Mux := HandlerWithOptions si no_options.

Definition HandlerFromMux (si : ServerInterface) (r : Mux) : Mux :=
  HandlerWithOptions si (mkOptions _ "" (Some r) [] None).

Definition HandlerFromMuxWithBaseURL (si : ServerInterface) (r : Mux) (baseURL : string) : Mux :=
  HandlerWithOptions si (mkOptions _ baseURL (Some r) [] None).
End Routing.
