(* ===== verification/ServerProps.v ===== *)
(** * ServerProps: routing, access control, the request log and start-up *)

From S2P Require Import Prelude.
From S2P Require Import GoStd.
From S2P Require Import Json.
From S2P Require Import Sql.
From S2P Require Import Principal.
From S2P Require Import Jwt.
From S2P Require Import Http.
From S2P Require Import Chi.
From S2P Require Import Auth.
From S2P Require Import Gen.
From S2P Require Import Satellite.
From S2P Require Import User.
From S2P Require Import GenServer.
From S2P Require Import Server.

(** ** Route tables *)

(** Can one path match both patterns? *)
Fixpoint overlap (p q : list string) : bool :=
  match p, q with
  | [], [] => true
  | a :: p, b :: q =>
      (match param_name a, param_name b with
       | None, None => String.eqb a b
       | _, _ => true
       end) && overlap p q
  | _, _ => false
  end.

Lemma match_segments_cons a p s segs ps :
  match_segments (a :: p) (s :: segs) = Some ps ->
  (param_name a = None -> a = s) /\ exists ps', match_segments p segs = Some ps'.
Proof.
  cbn. destruct (param_name a) as [n|].
  - destruct (match_segments p segs); [|done]. intros _. split; [done|by eexists].
  - destruct (String.eqb_spec a s); [|done]. intros ?. split; [done|by eexists].
Qed.

Lemma match_overlap p q segs ps qs :
  match_segments p segs = Some ps -> match_segments q segs = Some qs -> overlap p q = true.
Proof.
  revert q segs ps qs. induction p as [|a p IH]; intros [|b q] [|s segs] ps qs; try done.
  intros [Ha [ps' Hp]]%match_segments_cons [Hb [qs' Hq]]%match_segments_cons.
  cbn. rewrite (IH _ _ _ _ Hp Hq), andb_true_r.
  destruct (param_name a), (param_name b); [done..|].
  rewrite Ha, Hb by done. apply String.eqb_refl.
Qed.

(** No two routes of a table can serve the same request. *)
Fixpoint unambiguous (sigs : list Signature) : bool :=
  match sigs with
  | [] => true
  | (m, p) :: sigs =>
      forallb (fun s => negb (String.eqb m s.1 && overlap (segments p) (segments s.2))) sigs
      && unambiguous sigs
  end.

Lemma unambiguous_inj sigs i j m p q path ps qs :
  unambiguous sigs = true -> sigs !! i = Some (m, p) -> sigs !! j = Some (m, q) ->
  pattern_match p path = Some ps -> pattern_match q path = Some qs -> i = j.
Proof.
  revert i j. induction sigs as [|[m' p'] sigs IH]; intros i j; [done|].
  cbn [unambiguous]. intros [Hall Hun]%andb_true_iff Hi Hj Hp Hq.
  assert (forall k q' qs', sigs !! k = Some (m, q') -> m' = m ->
    pattern_match q' path = Some qs' -> forall ps', pattern_match p' path = Some ps' -> False)
    as Hno.
  { intros k q' qs' Hk -> Hq' ps' Hp'. rewrite forallb_forall in Hall.
    apply list_elem_of_lookup_2, list_elem_of_In, Hall in Hk. cbn in Hk.
    rewrite String.eqb_refl in Hk. cbn [andb] in Hk.
    by rewrite (match_overlap _ _ _ _ _ Hp' Hq') in Hk. }
  destruct i as [|i], j as [|j]; cbn in Hi, Hj; [done| | |].
  - injection Hi as -> ->. exfalso. by eapply (Hno j).
  - injection Hj as -> ->. exfalso. by eapply (Hno i).
  - f_equal. by eapply IH.
Qed.

Section Router.
Context `{ChiLib} `{!ChiOk _}.

(** In an unambiguous table a request goes to the route whose pattern it
    matches. *)
Lemma dispatch_to routes i rt r w ps :
  unambiguous (map signature routes) = true -> routes !! i = Some rt ->
  rt_method rt = r_method r -> pattern_match (rt_pattern rt) (r_path r) = Some ps ->
  Forall (fun p => p.2 <> "") ps ->
  dispatch routes r w = rt_handler rt (with_params r ps) w.
Proof using All.
  intros Hun Hi Hm Hp Hps.
  assert (Hsig : map signature routes !! i = Some (r_method r, rt_pattern rt)).
  { rewrite list_lookup_fmap, Hi. cbn. unfold signature. by rewrite Hm. }
  unfold dispatch.
  destruct (find_route_complete _ _ _ _ _ _ Hsig Hp Hps) as [[j qs] Hfind].
  rewrite Hfind. apply find_route_sound in Hfind as (q & Hj & Hq).
  assert (i = j) as <- by (by eapply unambiguous_inj).
  rewrite Hi. rewrite Hsig in Hj. injection Hj as <-. rewrite Hp in Hq. by injection Hq as <-.
Qed.

(** Whatever a request is given, it is a route its path matches, or unmatched. *)
Lemma dispatch_cases routes r w :
  (exists rt ps, rt ∈ routes /\ rt_method rt = r_method r
     /\ pattern_match (rt_pattern rt) (r_path r) = Some ps
     /\ dispatch routes r w = rt_handler rt (with_params r ps) w)
  \/ (exists w', dispatch routes r w = Ret (Done tt, w')
      /\ (unsent w -> status_of w' = StatusNotFound \/ status_of w' = StatusMethodNotAllowed)).
Proof using All.
  unfold dispatch.
  destruct (find_route _ _ _) as [[i ps]|] eqn:Hfind; [|right; by apply unmatched_answers].
  apply find_route_sound in Hfind as (q & Hj & Hq). rewrite list_lookup_fmap in Hj.
  destruct (routes !! i) as [rt|] eqn:Hrt; [|done]. cbn in Hj. unfold signature in Hj.
  simplify_eq. left. exists rt, ps. split_and!; [by eapply list_elem_of_lookup_2|done..].
Qed.
End Router.

(** ** The routes of the server *)

Section Server.
Context `{JWTLib} `{!JWTLibOk _} `{BcryptLib} `{UuidLib} `{TimeText} `{Repository}
  `{UserRepository} `{ChiLib} `{!ChiOk _} `{BindLib}.
Context (server : ServerInterface) (Spec : string) (tokens : JWTManager).

Definition router_wrapper : ServerInterfaceWrapper := mkWrapper server [] None.

Definition public_routes : list Route :=
  [mkRoute "POST" "/auth/login" (Wrapper.PostAuthLogin router_wrapper);
   mkRoute "GET" "/health" (Wrapper.GetHealth router_wrapper);
   mkRoute "GET" "/version" (Wrapper.GetVersion router_wrapper);
   mkRoute "GET" "/openapi.yaml" (ServeSpec Spec);
   mkRoute "GET" "/docs" ServeUI].

Definition protected (mws : list MiddlewareT) (rt : Route) : Route :=
  mkRoute (rt_method rt) (rt_pattern rt) (chain mws (rt_handler rt)).

Definition satellite_routes : list Route :=
  [mkRoute "POST" "/satellites" (Wrapper.PostSatellites router_wrapper);
   mkRoute "GET" "/satellites" (Wrapper.GetSatellites router_wrapper);
   mkRoute "GET" "/satellites/{id}" (Wrapper.GetSatellitesId router_wrapper);
   mkRoute "PATCH" "/satellites/{id}" (Wrapper.PatchSatellitesId router_wrapper);
   mkRoute "DELETE" "/satellites/{id}" (Wrapper.DeleteSatellitesId router_wrapper);
   mkRoute "POST" "/satellites/{id}/heartbeat"
     (Wrapper.PostSatellitesIdHeartbeat router_wrapper)].

Definition user_routes : list Route :=
  [mkRoute "POST" "/users" (Wrapper.PostUsers router_wrapper);
   mkRoute "GET" "/users" (Wrapper.GetUsers router_wrapper);
   mkRoute "DELETE" "/users/{id}" (Wrapper.DeleteUsersId router_wrapper)].

(** Who may reach a route. *)
Definition served_routes : list Route :=
  public_routes
  ++ map (protected [Middleware tokens]) satellite_routes
  ++ map (protected [Middleware tokens; RequireHumanRole RoleAdmin]) user_routes.

(** Rewrite a router to its view, along its construction. *)
Lemma view_Use_stack m f v :
  mux_view m = v -> mv_open v = true -> mux_view (Use m f) = view_Use v f.
Proof using ChiOk0. intros <-. apply view_Use_ok. Qed.

Lemma view_Method_routes m meth pat h v :
  mux_view m = v -> mux_view (Method m meth pat h) = view_Method v meth pat h.
Proof using ChiOk0. intros <-. apply view_Method_ok. Qed.

Lemma view_Group_routes m f v routes :
  mux_view m = v ->
  (forall i, mux_view i = view_inline v -> mv_routes (mux_view (f i)) = routes) ->
  mux_view (Group m f) = view_with v routes.
Proof using ChiOk0.
  intros <- Hf. destruct (view_Group_ok m f) as (i & Hi & ->). by rewrite (Hf i Hi).
Qed.

Ltac router_view :=
  repeat match goal with
  | |- mux_view NewRouter_ = _ => exact view_New
  | |- mux_view (Method _ _ _ _) = _ => eapply view_Method_routes
  | |- mux_view (Use _ _) = _ => eapply view_Use_stack
  | H : mux_view ?i = _ |- mux_view ?i = _ => exact H
  | |- mv_open _ = true => reflexivity
  end.

Lemma mv_routes_eq m v : mux_view m = v -> mv_routes (mux_view m) = mv_routes v.
Proof using Type. by intros ->. Qed.

Lemma NewRouter_view logger :
  mux_view (NewRouter server Spec tokens logger)
  = mkView false (option_list logger) false served_routes.
Proof using ChiOk0.
  unfold NewRouter; cbn zeta. unfold Get, Post, Patch, DELETE.
  destruct logger as [l|].
  all: etrans; [eapply view_Group_routes;
    [eapply view_Group_routes;
      [router_view
      |intros i Hi; etrans; [eapply mv_routes_eq; router_view|reflexivity]]
    |intros i Hi; etrans; [eapply mv_routes_eq; router_view|reflexivity]]
  |reflexivity].
Qed.
(** The first segment of a path decides which gate its routes are behind. *)
Lemma served_gate rt path ps seg rest :
  rt ∈ served_routes -> pattern_match (rt_pattern rt) path = Some ps ->
  segments path = "" :: seg :: rest ->
  (seg = "satellites" -> exists h, rt_handler rt = Middleware tokens h)
  /\ (seg = "users" ->
      exists h, rt_handler rt = Middleware tokens (RequireHumanRole RoleAdmin h)).
Proof using Type.
  unfold pattern_match. intros Hin Hm Hseg. rewrite Hseg in Hm. clear Hseg.
  unfold served_routes, public_routes, satellite_routes, user_routes, protected in Hin.
  cbn [map app rt_method rt_pattern rt_handler] in Hin.
  repeat (apply elem_of_cons in Hin as [->|Hin];
    [split; intros ->; first [by exfalso; vm_compute in Hm|by eexists]|]).
  by apply not_elem_of_nil in Hin.
Qed.

Lemma ServeHTTP_router logger r w :
  ServeHTTP (NewRouter server Spec tokens logger) r w
  = chain (option_list logger) (dispatch served_routes) r w.
Proof using ChiOk0. rewrite ServeHTTP_ok; by rewrite NewRouter_view. Qed.

Lemma RequestLogger_Ret next r w w' :
  next r w = Ret (Done tt, w') ->
  RequestLogger next r w
  = Ret (Done tt, w_Log (mkLog "http_request" (r_method r) (r_path r) (written_status w') (r_elapsed r)) w').
Proof using Type.
  intros Hn. unfold RequestLogger, mbind, HM_mbind, HM_bind. by rewrite Hn.
Qed.

Lemma status_of_Log e w : status_of (w_Log e w) = status_of w.
Proof using Type. done. Qed.

(** The answers given without running a handler of the API. *)
Definition denied (codes : list Z) (r : Request) (w : Writer) : Prop :=
  exists w', ServeHTTP (NewRouter server Spec tokens (Some RequestLogger)) r w
             = Ret (Done tt, w') /\ status_of w' ∈ codes.

Lemma denied_intro codes r w :
  (exists w', dispatch served_routes r w = Ret (Done tt, w') /\ status_of w' ∈ codes) ->
  denied codes r w.
Proof using All.
  intros (w' & Hd & Hc). eexists. rewrite ServeHTTP_router; cbn.
  split; [by apply RequestLogger_Ret|done].
Qed.

(** C3. No operation on satellites or users happens without a valid token: a request
    for a path under [/satellites] or [/users] that carries no bearer token the
    server accepts is answered 401 (404 or 405 where there is no such route)
    without a single statement being sent to the database. *)
Theorem api_needs_token (r : Request) (w : Writer) (seg : string) (rest : list string) :
  segments (r_path r) = "" :: seg :: rest -> seg = "satellites" \/ seg = "users" ->
  (forall tok p, bearer r = Some tok -> ParseHumanToken tokens (r_now r) tok <> Ok p) ->
  unsent w ->
  denied [StatusUnauthorized; StatusNotFound; StatusMethodNotAllowed] r w.
Proof using All.
  intros Hseg Hsu Hno Hw. apply denied_intro.
  destruct (dispatch_cases served_routes r w) as [(rt & ps & Hin & _ & Hm & ->)|(w' & -> & Hst)].
  - destruct (served_gate _ _ _ _ _ Hin Hm Hseg) as [Hs Hu].
    assert (exists h, rt_handler rt = Middleware tokens h) as [h ->].
    { destruct Hsu as [?|?]; [by apply Hs|]. destruct Hu as [h ->]; [done|]. by eexists. }
    rewrite Middleware_bearer. change (bearer (with_params r ps)) with (bearer r).
    destruct (bearer r) as [tok|] eqn:Hb.
    + change (r_now (with_params r ps)) with (r_now r).
      destruct (ParseHumanToken tokens (r_now r) tok) as [p|] eqn:Hp; [by exfalso; eapply Hno|].
      eexists. split; [done|]. rewrite status_http_Error by done. by left.
    + eexists. split; [done|]. rewrite status_http_Error by done. by left.
  - exists w'. split; [done|]. destruct (Hst Hw) as [-> | ->]; [by right; left|by right; right; left].
Qed.

(** C4. Accounts are the administrators' business: a request for a path under
    [/users] whose token is not an administrator's is answered 401 or 403 (404
    or 405 where there is no such route) without a statement being sent. *)
Theorem users_need_admin (r : Request) (w : Writer) (rest : list string) :
  segments (r_path r) = "" :: "users" :: rest ->
  (forall tok p, bearer r = Some tok -> ParseHumanToken tokens (r_now r) tok = Ok p ->
     role p <> RoleAdmin) ->
  unsent w ->
  denied [StatusUnauthorized; StatusForbidden; StatusNotFound; StatusMethodNotAllowed] r w.
Proof using All.
  intros Hseg Hno Hw. apply denied_intro.
  destruct (dispatch_cases served_routes r w) as [(rt & ps & Hin & _ & Hm & ->)|(w' & -> & Hst)].
  - destruct (served_gate _ _ _ _ _ Hin Hm Hseg) as [_ Hu].
    destruct Hu as [h ->]; [done|].
    rewrite Middleware_bearer. change (bearer (with_params r ps)) with (bearer r).
    destruct (bearer r) as [tok|] eqn:Hb.
    + change (r_now (with_params r ps)) with (r_now r).
      destruct (ParseHumanToken tokens (r_now r) tok) as [p|] eqn:Hp.
      * specialize (Hno _ _ eq_refl Hp). apply ParseHumanToken_human in Hp as (Hi & _ & Hr).
        eexists. unfold RequireHumanRole; cbn [r_ctx WithContext].
        rewrite PrincipalFromContext_withPrincipal by done. rewrite Hr; cbn [negb orb].
        destruct (String.eqb_spec (role p) RoleAdmin); [done|]. cbn [negb].
        split; [done|]. rewrite status_http_Error by done. by right; left.
      * eexists. split; [done|]. rewrite status_http_Error by done. by left.
    + eexists. split; [done|]. rewrite status_http_Error by done. by left.
  - exists w'. split; [done|].
    destruct (Hst Hw) as [-> | ->]; [by right; right; left|by do 3 right; left].
Qed.
(** C30. Every request for a route of the table, with path parameters that are not
    empty, runs exactly the handler of that route, behind its gate and inside the
    request log: no other route can take it. *)
Theorem router_serves_table (r : Request) (w : Writer) (rt : Route)
    (ps : list (string * string)) :
  rt ∈ served_routes -> rt_method rt = r_method r ->
  pattern_match (rt_pattern rt) (r_path r) = Some ps -> Forall (fun p => p.2 <> "") ps ->
  ServeHTTP (NewRouter server Spec tokens (Some RequestLogger)) r w
  = RequestLogger (fun r => rt_handler rt (with_params r ps)) r w.
Proof using All.
  intros [i Hi]%list_elem_of_lookup_1 Hm Hp Hps. rewrite ServeHTTP_router; cbn.
  unfold RequestLogger, mbind, HM_mbind, HM_bind.
  by rewrite (dispatch_to served_routes i rt r w ps) by done.
Qed.

(** The routes of the generated router. *)
Definition generated_routes : list Route :=
  [mkRoute "POST" "/auth/login" (Wrapper.PostAuthLogin (mkWrapper server [] (Some default_error_handler)));
   mkRoute "GET" "/health" (Wrapper.GetHealth (mkWrapper server [] (Some default_error_handler)));
   mkRoute "GET" "/satellites" (Wrapper.GetSatellites (mkWrapper server [] (Some default_error_handler)));
   mkRoute "POST" "/satellites" (Wrapper.PostSatellites (mkWrapper server [] (Some default_error_handler)));
   mkRoute "DELETE" "/satellites/{id}" (Wrapper.DeleteSatellitesId (mkWrapper server [] (Some default_error_handler)));
   mkRoute "GET" "/satellites/{id}" (Wrapper.GetSatellitesId (mkWrapper server [] (Some default_error_handler)));
   mkRoute "PATCH" "/satellites/{id}" (Wrapper.PatchSatellitesId (mkWrapper server [] (Some default_error_handler)));
   mkRoute "POST" "/satellites/{id}/heartbeat" (Wrapper.PostSatellitesIdHeartbeat (mkWrapper server [] (Some default_error_handler)));
   mkRoute "GET" "/users" (Wrapper.GetUsers (mkWrapper server [] (Some default_error_handler)));
   mkRoute "POST" "/users" (Wrapper.PostUsers (mkWrapper server [] (Some default_error_handler)));
   mkRoute "DELETE" "/users/{id}" (Wrapper.DeleteUsersId (mkWrapper server [] (Some default_error_handler)));
   mkRoute "GET" "/version" (Wrapper.GetVersion (mkWrapper server [] (Some default_error_handler)))].

Lemma Handler_routes : mv_routes (mux_view (Handler_ server)) = generated_routes.
Proof using ChiOk0.
  unfold Handler_, HandlerWithOptions, no_options.
  cbn [BaseURL BaseRouter Middlewares opt_ErrorHandlerFunc]. unfold Get, Post, Patch, DELETE.
  etrans; [eapply mv_routes_eq|].
  { do 12 (eapply view_Group_routes;
      [|intros i Hi; etrans; [eapply mv_routes_eq; router_view|reflexivity]]).
    router_view. }
  reflexivity.
Qed.

(** C31. The hand-written router serves exactly the operations of the generated
    contract, each once, and the two documentation pages. *)
Theorem router_serves_contract :
  map signature (mv_routes (mux_view (NewRouter server Spec tokens (Some RequestLogger))))
  ≡ₚ map signature (mv_routes (mux_view (Handler_ server)))
     ++ [("GET", "/openapi.yaml"); ("GET", "/docs")].
Proof using All.
  assert (mv_routes (mux_view (Handler_ server)) = generated_routes) as ->.
  { apply Handler_routes. }
  rewrite NewRouter_view. apply (bool_decide_unpack _). vm_compute. done.
Qed.

(** A request for a single satellite whose wrapper panics. *)
Lemma single_satellite_panics i h r w tok id p :
  served_routes !! i = Some (mkRoute (r_method r) "/satellites/{id}" (Middleware tokens h)) ->
  (forall r', URLParam r' "id" = id -> h r' = panic nil_deref) ->
  segments (r_path r) = [""; "satellites"; id] -> id <> "" ->
  bearer r = Some tok -> ParseHumanToken tokens (r_now r) tok = Ok p ->
  ServeHTTP (NewRouter server Spec tokens (Some RequestLogger)) r w
  = Ret (Panicked nil_deref, w).
Proof using All.
  intros Hi Hh Hseg Hid Hb Hp. rewrite ServeHTTP_router; cbn.
  unfold RequestLogger, mbind, HM_mbind, HM_bind.
  rewrite (dispatch_to served_routes i _ r w [("id", id)] eq_refl Hi eq_refl);
    [|unfold pattern_match; cbn [rt_pattern]; by rewrite Hseg|by constructor].
  cbn [rt_handler]. rewrite Middleware_bearer. change (bearer (with_params r _)) with (bearer r).
  rewrite Hb. change (r_now (with_params r _)) with (r_now r). rewrite Hp.
  by rewrite Hh.
Qed.

(** C32. The router is built without an error handler for parameters that do not
    bind: an authenticated request for a single satellite whose id is not a uuid
    ends in a nil function call. Nothing is written and nothing is logged; the
    400 [INVALID_ID] of the handlers is never reached. *)
Theorem unbindable_id_panics (r : Request) (w : Writer) (tok id : string) (p : Principal)
    (err : error) :
  segments (r_path r) = [""; "satellites"; id] -> id <> "" ->
  r_method r ∈ ["GET"; "PATCH"; "DELETE"] ->
  bearer r = Some tok -> ParseHumanToken tokens (r_now r) tok = Ok p ->
  BindStyledParameter "simple" "id" id = Err err ->
  ServeHTTP (NewRouter server Spec tokens (Some RequestLogger)) r w
  = Ret (Panicked nil_deref, w).
Proof using All.
  intros Hseg Hid Hmeth Hb Hp Hbind.
  rewrite !elem_of_cons in Hmeth.
  destruct Hmeth as [Hm|[Hm|[Hm|Hm%not_elem_of_nil]]]; [..|done].
  - eapply (single_satellite_panics 7 (Wrapper.GetSatellitesId router_wrapper)); try done; [by rewrite Hm|]. intros r' Hr'.
    cbn. unfold Wrapper.GetSatellitesId. by rewrite Hr', Hbind.
  - eapply (single_satellite_panics 8 (Wrapper.PatchSatellitesId router_wrapper)); try done; [by rewrite Hm|]. intros r' Hr'.
    cbn. unfold Wrapper.PatchSatellitesId. by rewrite Hr', Hbind.
  - eapply (single_satellite_panics 9 (Wrapper.DeleteSatellitesId router_wrapper)); try done; [by rewrite Hm|]. intros r' Hr'.
    cbn. unfold Wrapper.DeleteSatellitesId. by rewrite Hr', Hbind.
Qed.
End Server.

(** ** The request log *)

(** The log records what happened: after a request that is answered, the log has
    exactly one more entry, with the method, the path and the status sent, and
    the response is the one of the handler; a panic passes through unlogged. *)
Theorem request_log_faithful `{Postgres} (next : Handler) (r : Request) (w : Writer)
    (s : pg_state) :
  run (RequestLogger next r w) s =
    match run (next r w) s with
    | (Done _, w', s') =>
        (Done tt, w_Log (mkLog "http_request" (r_method r) (r_path r) (written_status w') (r_elapsed r)) w', s')
    | (Panicked e, w', s') => (Panicked e, w', s')
    end.
Proof.
  unfold RequestLogger, mbind, HM_mbind, HM_bind. rewrite run_bind.
  by destruct (run (next r w) s) as [[[[]|e] w'] s'].
Qed.

(** ** Start-up *)

Section Startup.
Context `{JWTLib} `{BcryptLib} `{UuidLib} `{TimeText} `{ChiLib} `{BindLib} `{PostgresOk}.

(** C33. The server listens only after every check: the secret in the environment has
    at least 32 bytes, issuer and audience are not blank once the defaults are
    filled in, the pool was made and the database answered; it then listens on
    [PORT] (8080 when unset) with the routes of [NewRouter] and the tokens of that
    configuration. Starting never changes the tables. *)
Theorem startup_checked (Getenv : string -> string) (logger_New : res unit)
    (pgxpool_New : string -> res unit) (Spec : string) (s : pg_state) :
  let cfg := Load Getenv in
  let rs := run (main Getenv logger_New pgxpool_New Spec) s in
  pg_view rs.2 = pg_view s /\
  match rs.1 with
  | Listening addr handler =>
      is_ok logger_New = true /\ is_ok (pgxpool_New (DBUrl cfg)) = true
      /\ is_ok (pg_ping s).1 = true
      /\ 32 <= String.length (Getenv "JWT_SECRET")
      /\ addr = ":" +:+ (if String.eqb (Getenv "PORT") "" then "8080" else Getenv "PORT")
      /\ exists tokens,
           NewJWTManager (mkJWTConfig (Getenv "JWT_SECRET") (JWTIssuer cfg) (JWTAudience cfg))
             = Ok tokens
           /\ handler = ServeHTTP (NewRouter
                (NewServer (H3:=PostgresRepository) (H4:=PostgresUsers.repository) tokens)
                Spec tokens (Some RequestLogger))
  | Fatal msg err =>
      (msg = "invalid JWT configuration" /\ errors_Is err ErrInvalidJWTConfig = true)
      \/ (msg = "failed to connect to db"
          /\ (is_ok (pgxpool_New (DBUrl cfg)) = false \/ is_ok (pg_ping s).1 = false))
  | Panics err => logger_New = Err err
  end.
Proof using All.
  cbn zeta. unfold main. destruct logger_New as [[]|e]; [|done].
  change (JWTSecret (Load Getenv)) with (Getenv "JWT_SECRET").
  destruct (NewJWTManager _) as [tokens|e] eqn:Htok.
  - unfold Connect. destruct (pgxpool_New (DBUrl (Load Getenv))) as [[]|e] eqn:Hnew; cbn.
    + pose proof (pg_ping_view s) as Hv. destruct (pg_ping s) as [[[]|e] s'] eqn:Hping; cbn in *.
      * split; [done|]. apply NewJWTManager_Ok in Htok as Hcfg.
        split_and!; try done.
        -- destruct Hcfg as (_ & Hlen & _). exact Hlen.
        -- unfold Load, getEnv; cbn. by destruct (String.eqb (Getenv "PORT") "").
        -- exists tokens. split; [done|]. done.
      * split; [done|]. right. auto.
    + split; [done|]. right. auto.
  - split; [done|]. left. split; [done|]. by apply NewJWTManager_Err in Htok.
Qed.
End Startup.
