(* ===== verification/Fleet.v ===== *)
(** * Fleet: many requests at once

    The server runs its requests concurrently, each sending one statement at a
    time. Updating and deleting a satellite first read the record and check who
    manages it, and only then change it, so another request may come between.
    Here every request the router can serve is shown to move the tables only in
    permitted ways, whatever the others do in between. *)

From S2P Require Import Prelude.
From S2P Require Import GoStd.
From S2P Require Import Json.
From S2P Require Import Sql.
From S2P Require Import Principal.
From S2P Require Import Jwt.
From S2P Require Import Http.
From S2P Require Import Chi.
From S2P Require Import Auth.
From S2P Require Import Gen.
From S2P Require Import Table.
From S2P Require Import Satellite.
From S2P Require Import SatelliteSpec.
From S2P Require Import SatelliteProps.
From S2P Require Import User.
From S2P Require Import UserSpec.
From S2P Require Import UserProps.
From S2P Require Import GenServer.
From S2P Require Import Server.
From S2P Require Import ServerProps.

(** ** What may happen to the tables *)

(** Well-formed tables: unique ids and names, satellites in their lifecycle,
    accounts with a role. *)
Definition db_ok (T : Tables) : Prop :=
  sat_inv T /\ user_inv T /\ fleet_ok (sat_view T) /\ roles_ok (user_view T).

(** What a person may not change of a record the operator manages. *)
Definition same_record (s s' : Satellite) : Prop :=
  ID s' = ID s /\ Name s' = Name s /\ Region s' = Region s /\ ManagedBy s' = ManagedBy s
  /\ CreatedAt s' = CreatedAt s.

(** The operator's records all survive, unchanged but for heartbeats, and none
    is added to them. *)
Definition operator_records_kept (m m' : Fleet) : Prop :=
  (forall id s, m !! id = Some s -> ManagedBy s = Operator ->
     exists s', m' !! id = Some s' /\ same_record s s')
  /\ (forall id s', m' !! id = Some s' -> ManagedBy s' = Operator ->
     exists s, m !! id = Some s /\ ManagedBy s = Operator).

#[global] Instance operator_records_kept_preorder : PreOrder operator_records_kept.
Proof.
  split.
  - intros m. split; intros id s Hs Hop; exists s; done.
  - intros m1 m2 m3 [Ha1 Hb1] [Ha2 Hb2]. split.
    + intros id s Hs Hop. destruct (Ha1 id s Hs Hop) as (s' & Hs' & Hsame).
      pose proof Hsame as (? & ? & ? & Hm & ?).
      destruct (Ha2 id s' Hs') as (s'' & Hs'' & Hsame'); [congruence|].
      exists s''. split; [done|]. unfold same_record in *. intuition congruence.
    + intros id s'' Hs'' Hop. destruct (Hb2 id s'' Hs'' Hop) as (s' & Hs' & Hop'). eauto.
Qed.

Lemma kept_insert id s m :
  m !! id = None -> ManagedBy s <> Operator -> operator_records_kept m (<[id := s]> m).
Proof.
  intros Hnone Hs. split.
  - intros i t Ht _. exists t. rewrite lookup_insert_ne by congruence. done.
  - intros i t. rewrite lookup_insert. case_decide; [intros [= <-]; done|eauto].
Qed.

Lemma kept_alter f id m :
  (forall s, m !! id = Some s -> ManagedBy (f s) = ManagedBy s
     /\ (ManagedBy s = Operator -> same_record s (f s))) ->
  operator_records_kept m (alter f id m).
Proof.
  intros Hf. split.
  - intros i s Hs Hop. rewrite lookup_alter. case_decide; [|by exists s].
    subst i. exists (f s). rewrite Hs. split; [done|]. by apply Hf.
  - intros i s'. rewrite lookup_alter. case_decide; [|eauto]. subst i.
    destruct (m !! id) as [s|] eqn:Hs; [|done]. cbn. intros [= <-] Hop.
    exists s. split; [done|]. by rewrite <- (proj1 (Hf s eq_refl)).
Qed.

Lemma kept_delete id m :
  (forall s, m !! id = Some s -> ManagedBy s <> Operator) ->
  operator_records_kept m (delete id m).
Proof.
  intros Hno. split.
  - intros i s Hs Hop. exists s. split; [|done]. rewrite lookup_delete_ne; [done|].
    intros <-. by apply (Hno s).
  - intros i s' [_ Hs']%lookup_delete_Some. eauto.
Qed.

Lemma outcome_rel {A} (eff : Fleet -> A -> Fleet -> Prop) (R : Fleet -> Fleet -> Prop) m r m' :
  Reflexive R -> (forall a, eff m a m' -> R m m') -> outcome_of eff m r m' -> R m m'.
Proof.
  intros Hrefl Heff. destruct r as [a|e]; cbn; [apply Heff|].
  intros [_ [->|[a ?]]]; [done|by eapply Heff].
Qed.

Section Fleet.
(** Whether requests that speak for the operator are among the others. *)
Context (op : bool).

Definition moves (T T' : Tables) : Prop :=
  db_ok T -> db_ok T' /\ (op = false -> operator_records_kept (sat_view T) (sat_view T')).

#[export] Instance moves_preorder : PreOrder moves.
Proof using Type.
  split.
  - intros T HT. split; [done|]. reflexivity.
  - intros T1 T2 T3 H12 H23 HT. destruct (H12 HT) as [HT2 H2]. destruct (H23 HT2) as [HT3 H3].
    split; [done|]. intros Hop. etrans; eauto.
Qed.

Lemma moves_db_ok T T' : db_ok T -> moves T T' -> db_ok T'.
Proof using Type. intros HT Hm. by apply Hm. Qed.

(** *** Statements *)

Lemma sat_moves {A} (eff : Fleet -> A -> Fleet -> Prop) T r T' :
  sat_stepped T T' -> outcome_of eff (sat_view T) r (sat_view T') ->
  (forall a, eff (sat_view T) a (sat_view T') ->
     (fleet_ok (sat_view T) -> fleet_ok (sat_view T'))
     /\ (op = false -> operator_records_kept (sat_view T) (sat_view T'))) ->
  moves T T'.
Proof using Type.
  intros [Hinv Husers] Hout Heff (Hs & Hu & Hf & Hr).
  assert (Huv : user_view T' = user_view T) by (unfold user_view, user_list; by rewrite Husers).
  split; [split_and!|].
  - done.
  - destruct Hu as [l Hl]. exists l. unfold user_table in *. by rewrite Husers.
  - eapply outcome_ok; [done| |done]. intros a Ha. by apply (Heff a Ha).
  - by rewrite Huv.
  - intros Hop. eapply outcome_rel; [apply _| |done]. intros a Ha. by apply (Heff a Ha).
Qed.

Lemma user_moves {A} (eff : Accounts -> A -> Accounts -> Prop) T r T' :
  user_stepped T T' -> outcome_of eff (user_view T) r (user_view T') ->
  (forall a, eff (user_view T) a (user_view T') -> roles_ok (user_view T) ->
     roles_ok (user_view T')) ->
  moves T T'.
Proof using Type.
  intros [Hinv Hsats] Hout Heff (Hs & Hu & Hf & Hr).
  assert (Hsv : sat_view T' = sat_view T) by (unfold sat_view, sat_list; by rewrite Hsats).
  split; [split_and!|].
  - destruct Hs as [l Hl]. exists l. unfold sat_table in *. by rewrite Hsats.
  - done.
  - by rewrite Hsv.
  - destruct r as [a|e]; cbn in Hout; [by eapply Heff|].
    destruct Hout as [_ [->|[a Ha]]]; [done|by eapply Heff].
  - intros _. by rewrite Hsv.
Qed.

(** *** Programs *)

(** A program whose statements all move the tables as permitted. *)
Definition safe {A} (p : prog A) (Q : A -> Tables -> Prop) : Prop :=
  forall T, db_ok T -> rg moves moves p (fun a T' => db_ok T' /\ Q a T') T.

(** A property that permitted moves do not undo. *)
Definition stable {A} (Q : A -> Tables -> Prop) : Prop :=
  forall a T T', db_ok T -> moves T T' -> Q a T -> Q a T'.

Lemma rg_stmt {A} st (f : res (list (list Value)) -> A) (P : Tables -> Prop)
    (Q : A -> Tables -> Prop) T :
  (forall T1 T2, db_ok T1 -> moves T1 T2 -> P T1 -> P T2) -> stable Q ->
  (forall T1, db_ok T1 -> P T1 ->
     wp (Query st (fun r => Ret (f r))) (fun a T2 => moves T1 T2 /\ Q a T2) T1) ->
  db_ok T -> P T ->
  rg moves moves (Query st (fun r => Ret (f r))) (fun a T' => db_ok T' /\ Q a T') T.
Proof using Type.
  intros HP Hst Hwp HT HPT. cbn. intros T1 HT1 r T2 Hsem.
  assert (Hok1 : db_ok T1) by (by eapply moves_db_ok).
  destruct (Hwp T1 Hok1 (HP _ _ HT HT1 HPT) r T2 Hsem) as [Hm HQ]. split; [done|].
  assert (Hok2 : db_ok T2) by (by eapply moves_db_ok). intros T3 HT3.
  split; [by eapply moves_db_ok|by eapply Hst].
Qed.

Lemma safe_stmt {A} st (f : res (list (list Value)) -> A) (Q : A -> Tables -> Prop) :
  stable Q ->
  (forall T, db_ok T ->
     wp (Query st (fun r => Ret (f r))) (fun a T' => moves T T' /\ Q a T') T) ->
  safe (Query st (fun r => Ret (f r))) Q.
Proof using Type.
  intros Hst Hwp T HT. apply (rg_stmt _ _ (fun _ => True)); try done. auto.
Qed.

Definition any {A} (a : A) (T : Tables) : Prop := True.

Lemma any_stable {A} : stable (@any A).
Proof using Type. done. Qed.

Lemma safe_ret {A} (a : A) : safe (Ret a) any.
Proof using Type. intros T HT. cbn. intros T1 HT1. split; [by eapply moves_db_ok|done]. Qed.

Lemma safe_bind {A B} (p : prog A) (f : A -> prog B) P Q :
  safe p P -> (forall a T, db_ok T -> P a T ->
     rg moves moves (f a) (fun b T' => db_ok T' /\ Q b T') T) ->
  safe (p ≫= f) Q.
Proof using Type.
  intros Hp Hf T HT. apply (rg_bind _ _). eapply rg_mono; [by apply Hp|].
  cbn. intros a T' [HT' HP]. by apply Hf.
Qed.

(** *** Handlers *)

Definition safeH {A} (h : HM A) : Prop := forall w, safe (h w) any.

Lemma safeH_bind {A B} (m : HM A) (f : A -> HM B) :
  safeH m -> (forall a, safeH (f a)) -> safeH (m ≫= f).
Proof using Type.
  intros Hm Hf w. eapply safe_bind; [by apply Hm|]. intros [[a|e] w'] T HT _; cbn.
  - by apply Hf.
  - by apply (safe_ret (Panicked e, w')).
Qed.

Lemma safeH_lift {A} (p : prog A) : safe p any -> safeH (lift p).
Proof using Type.
  intros Hp w. eapply safe_bind; [exact Hp|]. intros a T HT _. by apply safe_ret.
Qed.

Lemma safeH_modify f : safeH (modify f).
Proof using Type. intros w. apply safe_ret. Qed.

Lemma safeH_panic {A} msg : safeH (@panic A msg).
Proof using Type. intros w. apply safe_ret. Qed.

Lemma safeH_ret {A} (a : A) : safeH (mret a).
Proof using Type. intros w. apply (safe_ret (Done a, w)). Qed.

Lemma safeH_get : safeH get_writer.
Proof using Type. intros w. apply safe_ret. Qed.

(** *** The statements of the repositories *)

Lemma Create_safe s :
  safe (Postgres_Create (pending (ToDomainCreate s))) any.
Proof using Type.
  apply (safe_stmt _ (fun r => Some <$> (first_row r ≫= scan_satellite))); [apply any_stable|].
  intros T HT. eapply wp_mono; [apply Postgres_Create_spec, HT|].
  intros r T' [Hst Hout]. split; [|done]. eapply sat_moves; [done..|].
  intros a (id & now & _ & Hnone & -> & _). split.
  - by apply fleet_ok_insert.
  - intros _. by apply kept_insert.
Qed.

Lemma select_safe {A} cols t wh o (f : res (list (list Value)) -> A) :
  safe (Query (Select cols t wh o) (fun r => Ret (f r))) any.
Proof using Type.
  apply safe_stmt; [apply any_stable|]. intros T HT r T' Hsem. cbn. split; [|done].
  assert (T' = T) as ->; [|reflexivity].
  destruct r as [l|e]; [by apply select_inv in Hsem as [-> _]|].
  by apply sql_err in Hsem as (_ & _ & [->|(l & [-> _]%select_inv)]).
Qed.

(** The record is not the operator's. *)
Definition not_operators (id : UUID) (T : Tables) : Prop :=
  op = false -> forall s, sat_view T !! id = Some s -> ManagedBy s <> Operator.

Lemma not_operators_stable id T T' :
  db_ok T -> moves T T' -> not_operators id T -> not_operators id T'.
Proof using Type.
  intros HT Hm Hno Hop s Hs Hmine. destruct (Hm HT) as [_ Hk].
  destruct (Hk Hop) as [_ Hb]. destruct (Hb id s Hs Hmine) as (s0 & Hs0 & Hop0).
  by apply (Hno Hop s0).
Qed.

(** What the check of the owner learns, and may rely on afterwards. *)
Definition checked (id : UUID) (r : res (option Satellite)) (T : Tables) : Prop :=
  match r with
  | Ok (Some s) => ManagedBy s <> Operator -> not_operators id T
  | _ => True
  end.

Lemma GetByID_safe id : safe (Postgres_GetByID id) (checked id).
Proof using Type.
  apply (safe_stmt _ one_satellite).
  - intros [[s|]|e] T T' HT Hm; cbn; [|done..]. intros Hc Hne.
    by apply (not_operators_stable id T), Hc.
  - intros T HT. eapply wp_mono; [apply Postgres_GetByID_spec, HT|].
    intros r T' [-> Hout]. split; [reflexivity|].
    destruct r as [[s|]|e]; cbn in *; [|done..]. destruct Hout as [Hs _].
    intros Hne _ s' Hs'. rewrite <- Hs in Hs'. by injection Hs' as <-.
Qed.

(** A change of one record that is not the operator's, or by the operator. *)
Lemma mutate_safe {A} st (f : res (list (list Value)) -> res A)
    (eff : Fleet -> A -> Fleet -> Prop) id T :
  (forall T1, sat_inv T1 -> wp (Query st (fun r => Ret (f r)))
     (fun r T2 => sat_stepped T1 T2 /\ outcome_of eff (sat_view T1) r (sat_view T2)) T1) ->
  (forall m a m', eff m a m' -> (fleet_ok m -> fleet_ok m') /\
     ((forall s, m !! id = Some s -> ManagedBy s <> Operator) -> operator_records_kept m m')) ->
  db_ok T -> not_operators id T ->
  rg moves moves (Query st (fun r => Ret (f r))) (fun a T' => db_ok T' /\ any a T') T.
Proof using Type.
  intros Hspec Heff HT Hno. eapply (rg_stmt _ _ (not_operators id)); [|apply any_stable| |done|done].
  - intros T1 T2. apply not_operators_stable.
  - intros T1 HT1 Hno1. eapply wp_mono; [apply Hspec, HT1|].
    intros r T2 [Hst Hout]. split; [|done]. eapply sat_moves; [done..|].
    intros a Ha. destruct (Heff _ _ _ Ha) as [Hf Hk]. split; [done|].
    intros Hop. by apply Hk, Hno1.
Qed.

Lemma update_effect id region m a m' :
  update_eff id region m a m' -> (fleet_ok m -> fleet_ok m') /\
  ((forall s, m !! id = Some s -> ManagedBy s <> Operator) -> operator_records_kept m m').
Proof using Type.
  intros [_ ->]. split; [by apply fleet_ok_alter|].
  intros Hno. apply kept_alter. intros s Hs. split; [done|]. intros Hop. by apply Hno in Hs.
Qed.

Lemma delete_effect id m a m' :
  delete_eff id m a m' -> (fleet_ok m -> fleet_ok m') /\
  ((forall s, m !! id = Some s -> ManagedBy s <> Operator) -> operator_records_kept m m').
Proof using Type. intros ->. split; [apply fleet_ok_delete|apply kept_delete]. Qed.

(** The guard of the two mutations, and the mutation after it. *)
Lemma guard_safe {A} id from (nothing refusal : res A) (mutation : prog (res A)) :
  (op = false -> from = false) ->
  (forall T, db_ok T -> not_operators id T ->
     rg moves moves mutation (fun a T' => db_ok T' /\ any a T') T) ->
  safe (r ← Postgres_GetByID id;
        match r with
        | Err err => mret (Err err)
        | Ok None => mret nothing
        | Ok (Some sat) =>
            if String.eqb (ManagedBy sat) "operator" && negb from then mret refusal
            else mutation
        end) any.
Proof using Type.
  intros Hfrom Hmut. eapply safe_bind; [apply GetByID_safe|].
  intros [[s|]|e] T HT Hc; cbn in Hc; [|by apply (safe_ret nothing)|by apply (safe_ret (Err e))].
  destruct (String.eqb_spec (ManagedBy s) "operator") as [Hop|Hne]; cbn [andb].
  - destruct from; cbn [negb]; [|by apply (safe_ret refusal)].
    apply Hmut; [done|]. intros Hopf. by specialize (Hfrom Hopf).
  - apply Hmut; [done|]. by apply Hc.
Qed.

Lemma Service_Update_safe id region from :
  (op = false -> from = false) ->
  safe (Service.Update (H:=PostgresRepository) id region from) any.
Proof using Type.
  intros Hfrom. apply guard_safe; [done|]. intros T HT Hno.
  apply (mutate_safe _ one_satellite (update_eff id region) id); [|apply update_effect|done..].
  apply Postgres_Update_spec.
Qed.

Lemma Service_Delete_safe id from :
  (op = false -> from = false) ->
  safe (Service.Delete (H:=PostgresRepository) id from) any.
Proof using Type.
  intros Hfrom. apply guard_safe; [done|]. intros T HT Hno.
  apply (mutate_safe _ no_rows (delete_eff id) id); [|apply delete_effect|done..].
  apply Postgres_Delete_spec.
Qed.

Lemma Heartbeat_safe id : safe (Postgres_UpdateHeartbeat id) any.
Proof using Type.
  apply (safe_stmt _ one_satellite); [apply any_stable|].
  intros T HT. eapply wp_mono; [apply Postgres_UpdateHeartbeat_spec, HT|].
  intros r T' [Hst Hout]. split; [|done]. eapply sat_moves; [done..|].
  intros a (now & _ & ->). split.
  - by apply fleet_ok_alter.
  - intros _. by apply kept_alter.
Qed.

Lemma CreateUser_safe `{BcryptLib} entropy name pw role :
  safe (UserService.Create (H:=PostgresUsers.repository) entropy name pw role) any.
Proof using Type.
  unfold UserService.Create.
  destruct (negb (String.eqb role "admin") && negb (String.eqb role "viewer")) eqn:Hrole;
    [apply (safe_ret (Err _))|].
  destruct (GenerateFromPassword _ _ _) as [hash|e]; [|apply (safe_ret (Err e))].
  apply (safe_stmt _ (fun r => Some <$> (first_row r ≫= scan_user))); [apply any_stable|].
  intros T HT. eapply wp_mono; [apply Postgres_user_Create_spec, HT|].
  intros r T' [Hst Hout]. split; [|done]. eapply user_moves; [done..|].
  intros a Ha Hr. refine (roles_ok_create _ _ _ _ _ Hr Ha).
  rewrite <- negb_orb in Hrole. by apply negb_false_iff in Hrole.
Qed.

Lemma DeleteUser_safe id : safe (PostgresUsers.Delete id) any.
Proof using Type.
  apply (safe_stmt _ no_rows); [apply any_stable|].
  intros T HT. eapply wp_mono; [apply Postgres_user_Delete_spec, HT|].
  intros r T' [Hst Hout]. split; [|done]. eapply user_moves; [done..|].
  intros a -> Hr. by apply roles_ok_delete.
Qed.

Lemma Ping_safe : safe db_Ping any.
Proof using Type. intros T HT. cbn. intros T1 HT1 r T2 HT2. split; [|done].
  eapply moves_db_ok; [by eapply moves_db_ok|done]. Qed.

(** *** Handlers and routes *)

(** The requests that are let in: any, or those that do not speak for the
    operator. *)
Definition admitted (r : Request) : Prop := op = false -> SatHandler.fromOperator r = false.

Definition safe_handler (h : Handler) : Prop := forall r, admitted r -> safeH (h r).

Create HintDb safe_db.
#[local] Hint Resolve safeH_modify safeH_panic safeH_ret safeH_get : safe_db.
#[local] Hint Resolve Create_safe select_safe Service_Update_safe Service_Delete_safe
  Heartbeat_safe CreateUser_safe DeleteUser_safe Ping_safe : safe_db.

(** Walk through a handler: every statement is one of those above, and every
    branch after it only writes the response. *)
Ltac safe_walk :=
  repeat first
    [ progress intros
    | solve [eauto with safe_db]
    | apply safeH_bind
    | apply safeH_lift
    | case_match ].

Context `{JWTLib} `{BcryptLib} `{UuidLib} `{TimeText} `{ChiLib} `{!ChiOk _} `{BindLib}.
Existing Instance PostgresRepository.
Existing Instance PostgresUsers.repository.

Lemma SatHandler_safe :
  safe_handler SatHandler.Create /\ safe_handler SatHandler.List
  /\ safe_handler SatHandler.GetByID /\ safe_handler SatHandler.Update
  /\ safe_handler SatHandler.Delete /\ safe_handler SatHandler.Heartbeat.
Proof using Type.
  split_and!; intros r Hr;
    unfold SatHandler.Create, SatHandler.List, SatHandler.GetByID, SatHandler.Update,
      SatHandler.Delete, SatHandler.Heartbeat, SatHandler.writeJSON, SatHandler.writeError;
    safe_walk.
  - apply (select_safe _ _ _ _ (fun r => r ≫= scan_satellites)).
  - apply (select_safe _ _ _ _ one_satellite).
Qed.

Lemma ToResponseList_safe l : safeH (UserMapper.ToResponseList l).
Proof using Type.
  induction l as [|u l IH]; cbn; [apply safeH_ret|].
  apply safeH_bind; [destruct u; cbn; auto with safe_db|]. intros u'.
  apply safeH_bind; [done|]. auto with safe_db.
Qed.

Lemma UserHandler_safe :
  safe_handler UserHandler.Create /\ safe_handler UserHandler.List
  /\ safe_handler UserHandler.Delete.
Proof using Type.
  pose proof ToResponseList_safe.
  split_and!; intros r Hr;
    unfold UserHandler.Create, UserHandler.List, UserHandler.Delete, CreateParamsFromRequest,
      UserHandler.writeJSON, UserHandler.writeError; safe_walk.
  - destruct a0; cbn; auto with safe_db.
  - apply (select_safe _ _ _ _ (fun r => r ≫= PostgresUsers.scan_users)).
Qed.

Lemma Login_safe tokens : safe_handler (Login tokens).
Proof using Type.
  intros r Hr. unfold Login, writeError. safe_walk.
Qed.

Lemma small_handlers_safe Spec :
  safe_handler Health /\ safe_handler Version /\ safe_handler (ServeSpec Spec)
  /\ safe_handler ServeUI.
Proof using Type.
  split_and!; intros r Hr; unfold Health, Version, ServeSpec, ServeUI, write_json; safe_walk.
Qed.

Definition safe_middleware (m : MiddlewareT) : Prop :=
  forall h, safe_handler h -> safe_handler (m h).

Lemma Middleware_safe tokens : safe_middleware (Middleware tokens).
Proof using Type.
  intros h Hh r Hr. unfold Middleware. cbv zeta. repeat case_match; try apply safeH_modify.
  by apply Hh.
Qed.

Lemma RequireHumanRole_safe role : safe_middleware (RequireHumanRole role).
Proof using Type.
  intros h Hh r Hr. unfold RequireHumanRole. repeat case_match; try apply safeH_modify.
  by apply Hh.
Qed.

Lemma RequestLogger_safe : safe_middleware RequestLogger.
Proof using Type.
  intros h Hh r Hr. unfold RequestLogger. apply safeH_bind; [by apply Hh|]. intros _.
  apply safeH_bind; [apply safeH_get|]. intros w. apply safeH_modify.
Qed.

(** An endpoint that binds an id first. *)
Lemma bind_id_safe h : safe_handler h ->
  safe_handler (fun r =>
    match BindStyledParameter "simple" "id" (URLParam r "id") with
    | Err _ => panic nil_deref
    | Ok _ => h (with_scopes r)
    end).
Proof using Type. intros Hh r Hr. case_match; [by apply Hh|apply safeH_panic]. Qed.

Lemma scoped_safe h : safe_handler h -> safe_handler (fun r => h (with_scopes r)).
Proof using Type. intros Hh r Hr. by apply Hh. Qed.

Lemma served_routes_safe Spec tokens rt :
  rt ∈ served_routes (NewServer tokens) Spec tokens -> safe_handler (rt_handler rt).
Proof using Type.
  destruct SatHandler_safe as (?&?&?&?&?&?). destruct UserHandler_safe as (?&?&?).
  destruct (small_handlers_safe Spec) as (?&?&?&?). pose proof (Login_safe tokens).
  unfold served_routes, public_routes, satellite_routes, user_routes, protected. cbn [map app].
  intros Hin.
  repeat (apply elem_of_cons in Hin as [->|Hin];
    [cbn [rt_handler chain foldr];
     repeat first [apply Middleware_safe|apply RequireHumanRole_safe];
     first [assumption|apply bind_id_safe; assumption|apply scoped_safe; assumption]|]).
  by apply not_elem_of_nil in Hin.
Qed.

Lemma router_safe Spec tokens :
  safe_handler (ServeHTTP (NewRouter (NewServer tokens) Spec tokens (Some RequestLogger))).
Proof using All.
  intros r Hr w. rewrite ServeHTTP_router.
  revert r Hr w. apply RequestLogger_safe. intros r Hr w.
  destruct (dispatch_cases (served_routes (NewServer tokens) Spec tokens) r w)
    as [(rt & ps & Hin & _ & _ & ->)|(w' & -> & _)].
  - by apply (served_routes_safe Spec tokens rt Hin (with_params r ps)).
  - apply safe_ret.
Qed.

(** The requests in flight of a server with these routes. *)
Definition incoming (Spec : string) (tokens : JWTManager) (p : prog (outcome unit * Writer))
    : Prop :=
  exists r, admitted r /\
    p = ServeHTTP (NewRouter (NewServer tokens) Spec tokens (Some RequestLogger)) r fresh_writer.
End Fleet.

Section Concurrency.
Context `{JWTLib} `{BcryptLib} `{UuidLib} `{TimeText} `{ChiLib} `{!ChiOk _} `{BindLib}
  `{PostgresOk}.

(** C1. Whatever requests arrive, whoever sends them, and however their statements
    interleave, the tables stay well formed (unique ids and names, satellites
    in their lifecycle, accounts with a valid role); and as long as no request
    carries the operator header, every satellite the operator manages is still
    there with the same name, region, owner and creation time, and no other
    record has become the operator's. The check and the change of an update or a
    deletion are separate statements, but no interleaving slips between them. *)
Theorem concurrent_requests_safe (op : bool) (Spec : string) (tokens : JWTManager)
    (s : pg_state) (c : Pool (outcome unit * Writer)) :
  db_ok (pg_view s) ->
  rtc (pool_step (incoming op Spec tokens)) (mkPool s []) c ->
  db_ok (pg_view (pool_db c))
  /\ (op = false ->
      operator_records_kept (sat_view (pg_view s)) (sat_view (pg_view (pool_db c)))).
Proof using All.
  intros Hok Hsteps.
  destruct (pool_steps_ok (moves op) (moves op) (incoming op Spec tokens) (fun _ _ Hm => Hm)
    db_ok (moves_db_ok op)) with (c := mkPool (A:=outcome unit * Writer) s []) (c' := c)
    as [Hm _]; try done.
  - intros p T (r & Hr & ->) HT. eapply rg_mono; [by apply router_safe|]. done.
  - by apply Hm.
Qed.
End Concurrency.
