(* ===== verification/Drain.v ===== *)
(** * Drain: how many statements a request sends

    A request that is not let in sends none, and one that is sends at most those
    of its route: two to change or delete a satellite, one or none for the others,
    whatever it is answered. What a server that takes no new requests still sends
    is bounded by that. A statement is a round trip of [Sql.v], which the database
    answers; the connections it needs are not modelled. *)

From S2P Require Import Prelude.
From S2P Require Import GoStd.
From S2P Require Import Json.
From S2P Require Import Sql.
From S2P Require Import Principal.
From S2P Require Import Jwt.
From S2P Require Import Http.
From S2P Require Import Chi.
From S2P Require Import Auth.
From S2P Require Import Gen.
From S2P Require Import Satellite.
From S2P Require Import User.
From S2P Require Import GenServer.
From S2P Require Import Server.
From S2P Require Import ServerProps.
From S2P Require Import Fleet.

#[local] Existing Instance PostgresRepository.
#[local] Existing Instance PostgresUsers.repository.

(** ** Programs that send at most [n] statements *)

Fixpoint within {A} (n : nat) (p : prog A) : Prop :=
  match p with
  | Ret _ => True
  | Query _ k => exists m, n = S m /\ forall r, within m (k r)
  | Ping k => exists m, n = S m /\ forall r, within m (k r)
  end.

Lemma within_mono {A} (p : prog A) n m : within n p -> n <= m -> within m p.
Proof.
  revert n m. induction p as [a|st k IH|k IH]; intros n m; cbn; [done|..];
    (intros (n' & -> & Hk) Hle; exists (pred m); split; [lia|]; intros r; eapply IH; [apply Hk|lia]).
Qed.

Lemma within_bind {A B} (p : prog A) (f : A -> prog B) n m :
  within n p -> (forall a, within m (f a)) -> within (n + m) (p ≫= f).
Proof.
  unfold mbind, prog_mbind. revert n. induction p as [a|st k IH|k IH]; intros n; cbn.
  - intros _ Hf. eapply within_mono; [apply Hf|lia].
  - intros (n' & -> & Hk) Hf. exists (n' + m). split; [done|]. auto.
  - intros (n' & -> & Hk) Hf. exists (n' + m). split; [done|]. auto.
Qed.

Definition withinH {A} (n : nat) (h : HM A) : Prop := forall w, within n (h w).

Lemma withinH_bind {A B} (h : HM A) (f : A -> HM B) n :
  withinH n h -> (forall a, withinH 0 (f a)) -> withinH n (h ≫= f).
Proof.
  intros Hh Hf w. rewrite <- (Nat.add_0_r n). apply within_bind; [by apply Hh|].
  intros [[a|e] w']; cbn; [apply Hf|done].
Qed.

(** Writing first costs nothing. *)
Lemma withinH_write {A} g (h : HM A) n : withinH n h -> withinH n (modify g ;; h).
Proof. intros Hh w. apply Hh. Qed.

Lemma withinH_lift {A} (p : prog A) n : within n p -> withinH n (lift p).
Proof. intros Hp w. rewrite <- (Nat.add_0_r n). by apply within_bind. Qed.

Lemma withinH_modify f n : withinH n (modify f).
Proof. done. Qed.

Lemma withinH_panic {A} e n : withinH n (@panic A e).
Proof. done. Qed.

Lemma withinH_ret {A} (a : A) n : withinH n (mret a).
Proof. done. Qed.

Lemma withinH_get n : withinH n get_writer.
Proof. done. Qed.

(** One statement, and what is made of its answer. *)
Lemma within_query {A} st (k : res (list (list Value)) -> A) n :
  within (S n) (Query st (fun r => Ret (k r))).
Proof. by exists n. Qed.

Lemma within_ping {A} (k : res unit -> A) n : within (S n) (Ping (fun r => Ret (k r))).
Proof. by exists n. Qed.

Section Requests.
Context `{JWTLib} `{!JWTLibOk _} `{BcryptLib} `{UuidLib} `{TimeText} `{ChiLib} `{!ChiOk _} `{BindLib}.

(** The two operations that look before they change. *)
Lemma within_guarded {A B} (p : prog A) (f : A -> prog B) :
  within 1 p -> (forall a, within 1 (f a)) -> within 2 (p ≫= f).
Proof using Type. apply (within_bind p f 1 1). Qed.

Lemma Service_Update_within id region from : within 2 (Service.Update id region from).
Proof using Type.
  apply within_guarded; [apply within_query|]. intros [[s|]|e]; [|done..].
  destruct (_ && _); [done|apply within_query].
Qed.

Lemma Service_Delete_within id from : within 2 (Service.Delete id from).
Proof using Type.
  apply within_guarded; [apply within_query|]. intros [[s|]|e]; [|done..].
  destruct (_ && _); [done|apply within_query].
Qed.

Lemma CreateUser_within entropy name pw role : within 1 (UserService.Create entropy name pw role).
Proof using Type.
  unfold UserService.Create. destruct (_ && _); [done|].
  destruct (GenerateFromPassword _ _ _); [apply within_query|done].
Qed.

(** A handler that sends at most [n] statements. *)
Definition sends (n : nat) (h : Handler) : Prop := forall r, withinH n (h r).

Lemma ToResponseList_within l : withinH 0 (UserMapper.ToResponseList l).
Proof using Type.
  induction l as [|u l IH]; [done|]. apply withinH_bind; [by destruct u|].
  intros u'. by apply withinH_bind.
Qed.

Create HintDb sends.
#[local] Hint Resolve withinH_modify withinH_panic withinH_ret withinH_get within_query within_ping
  Service_Update_within Service_Delete_within CreateUser_within ToResponseList_within : sends.

(** Walk through a handler: its statements come first, then only writing. *)
Ltac sends_walk :=
  repeat first
    [ progress intros
    | solve [eauto with sends]
    | match goal with |- withinH _ (mbind _ (modify _)) => apply withinH_write end
    | apply withinH_bind
    | apply withinH_lift
    | case_match ].

Lemma SatHandler_sends :
  sends 1 SatHandler.Create /\ sends 1 SatHandler.List /\ sends 1 SatHandler.GetByID
  /\ sends 2 SatHandler.Update /\ sends 2 SatHandler.Delete /\ sends 1 SatHandler.Heartbeat.
Proof using Type.
  split_and!; intros r;
    unfold SatHandler.Create, SatHandler.List, SatHandler.GetByID, SatHandler.Update,
      SatHandler.Delete, SatHandler.Heartbeat, SatHandler.writeJSON, SatHandler.writeError;
    sends_walk.
  all: apply within_query.
Qed.

Lemma UserHandler_sends :
  sends 1 UserHandler.Create /\ sends 1 UserHandler.List /\ sends 1 UserHandler.Delete.
Proof using Type.
  split_and!; intros r;
    unfold UserHandler.Create, UserHandler.List, UserHandler.Delete, CreateParamsFromRequest,
      UserHandler.writeJSON, UserHandler.writeError; sends_walk.
  all: try apply within_query. all: destruct a0; cbn; auto with sends.
Qed.

Lemma other_handlers_send Spec tokens :
  sends 1 (Login tokens) /\ sends 1 Health /\ sends 0 Version /\ sends 0 (ServeSpec Spec)
  /\ sends 0 ServeUI.
Proof using Type.
  split_and!; intros r; unfold Login, writeError, Health, Version, ServeSpec, ServeUI, write_json;
    sends_walk.
  all: first [apply within_query|apply within_ping].
Qed.

(** *** Gates *)

(** Whether the gate of a route lets a request in. *)
Definition token_ok (tokens : JWTManager) (r : Request) : bool :=
  match bearer r with
  | Some tok => is_ok (ParseHumanToken tokens (r_now r) tok)
  | None => false
  end.

Definition admin_ok (tokens : JWTManager) (r : Request) : bool :=
  match bearer r with
  | Some tok =>
      match ParseHumanToken tokens (r_now r) tok with
      | Ok p => String.eqb (role p) RoleAdmin
      | Err _ => false
      end
  | None => false
  end.

Lemma Middleware_sends tokens n h r :
  sends n h -> withinH (if token_ok tokens r then n else 0) (Middleware tokens h r).
Proof using Type.
  intros Hh w. rewrite Middleware_bearer. unfold token_ok.
  destruct (bearer r) as [tok|]; [|done].
  destruct (ParseHumanToken _ _ tok); [apply Hh|done].
Qed.

Lemma admin_gate_sends tokens n h r :
  sends n h ->
  withinH (if admin_ok tokens r then n else 0) (Middleware tokens (RequireHumanRole RoleAdmin h) r).
Proof using JWTLibOk0.
  intros Hh w. rewrite Middleware_bearer. unfold admin_ok.
  destruct (bearer r) as [tok|]; [|done].
  destruct (ParseHumanToken _ _ tok) as [p|] eqn:Hp; [|done].
  apply ParseHumanToken_human in Hp as (Hi & _ & Hr). unfold RequireHumanRole; cbn [r_ctx WithContext].
  rewrite PrincipalFromContext_withPrincipal by done. rewrite Hr; cbn [negb orb].
  destruct (String.eqb (role p) RoleAdmin); [apply Hh|done].
Qed.

Lemma RequestLogger_sends n h r : withinH n (h r) -> withinH n (RequestLogger h r).
Proof using Type.
  intros Hh. unfold RequestLogger. apply withinH_bind; [apply Hh|]. intros _.
  by apply withinH_bind.
Qed.

Lemma bind_id_sends n h :
  sends n h ->
  sends n (fun r =>
    match BindStyledParameter "simple" "id" (URLParam r "id") with
    | Err _ => panic nil_deref
    | Ok _ => h (with_scopes r)
    end).
Proof using Type. intros Hh r. by case_match. Qed.

Lemma scoped_sends n h : sends n h -> sends n (fun r => h (with_scopes r)).
Proof using Type. intros Hh r. apply Hh. Qed.

(** *** Routes *)

(** The statements of a route. *)
Definition statements_of (method pattern : string) : nat :=
  if existsb (String.eqb pattern) ["/version"; "/openapi.yaml"; "/docs"] then 0
  else if String.eqb pattern "/satellites/{id}" && existsb (String.eqb method) ["PATCH"; "DELETE"]
  then 2 else 1.

Definition let_in (tokens : JWTManager) (pattern : string) (r : Request) : bool :=
  if HasPrefix pattern "/users" then admin_ok tokens r
  else if HasPrefix pattern "/satellites" then token_ok tokens r
  else true.

Definition route_cost (tokens : JWTManager) (r : Request) (rt : Route) : nat :=
  if let_in tokens (rt_pattern rt) r then statements_of (rt_method rt) (rt_pattern rt) else 0.

Definition takes (r : Request) (rt : Route) : bool :=
  String.eqb (rt_method rt) (r_method r)
  && match pattern_match (rt_pattern rt) (r_path r) with Some _ => true | None => false end.

(** What a request may send: the statements of the routes that take it (there is
    at most one, and none for an unknown path). *)
Definition cost (Spec : string) (tokens : JWTManager) (r : Request) : nat :=
  max_list (map (route_cost tokens r)
    (List.filter (takes r) (served_routes (NewServer tokens) Spec tokens))).

(** The handlers of a group of routes, and the gate in front of them. *)
Definition group_sends (tokens : JWTManager) (gate : Request -> bool) (rts : list Route) : Prop :=
  Forall (fun rt => (forall r, let_in tokens (rt_pattern rt) r = gate r)
    /\ sends (statements_of (rt_method rt) (rt_pattern rt)) (rt_handler rt)) rts.

Ltac count :=
  cbn [rt_method rt_pattern rt_handler];
  match goal with |- context [statements_of ?m ?p] =>
    let n := eval vm_compute in (statements_of m p) in change (statements_of m p) with n end;
  first [assumption|apply bind_id_sends; assumption|apply scoped_sends; assumption].

Lemma public_routes_send Spec tokens :
  group_sends tokens (fun _ => true) (public_routes (NewServer tokens) Spec).
Proof using Type.
  destruct (other_handlers_send Spec tokens) as (?&?&?&?&?).
  repeat (apply Forall_cons_2; [split; [done|count]|]). apply Forall_nil_2.
Qed.

Lemma satellite_routes_send tokens :
  group_sends tokens (token_ok tokens) (satellite_routes (NewServer tokens)).
Proof using Type.
  destruct SatHandler_sends as (?&?&?&?&?&?).
  repeat (apply Forall_cons_2; [split; [done|count]|]). apply Forall_nil_2.
Qed.

Lemma user_routes_send tokens :
  group_sends tokens (admin_ok tokens) (user_routes (NewServer tokens)).
Proof using Type.
  destruct UserHandler_sends as (?&?&?).
  repeat (apply Forall_cons_2; [split; [done|count]|]). apply Forall_nil_2.
Qed.

Lemma served_routes_send Spec tokens rt r :
  rt ∈ served_routes (NewServer tokens) Spec tokens -> withinH (route_cost tokens r rt) (rt_handler rt r).
Proof using JWTLibOk0.
  unfold served_routes, route_cost. intros [Hin|[Hin|Hin]%elem_of_app]%elem_of_app.
  - pose proof (public_routes_send Spec tokens) as Hall. unfold group_sends in Hall.
    rewrite Forall_forall in Hall. destruct (Hall rt Hin) as [-> Hs]. apply Hs.
  - apply elem_of_map in Hin as (rt' & <- & Hin).
    pose proof (satellite_routes_send tokens) as Hall. unfold group_sends in Hall.
    rewrite Forall_forall in Hall. destruct (Hall rt' Hin) as [Hg Hs].
    cbn [protected rt_pattern rt_method rt_handler chain foldr]. rewrite Hg. by apply Middleware_sends.
  - apply elem_of_map in Hin as (rt' & <- & Hin).
    pose proof (user_routes_send tokens) as Hall. unfold group_sends in Hall.
    rewrite Forall_forall in Hall. destruct (Hall rt' Hin) as [Hg Hs].
    cbn [protected rt_pattern rt_method rt_handler chain foldr]. rewrite Hg. by apply admin_gate_sends.
Qed.

Lemma max_list_in n l : n ∈ l -> n <= max_list l.
Proof using Type.
  induction l as [|m l IH]; [by intros ?%not_elem_of_nil|].
  intros [->|Hn]%elem_of_cons; cbn; [lia|]. specialize (IH Hn). lia.
Qed.

Lemma taken_cost Spec tokens rt r :
  rt ∈ served_routes (NewServer tokens) Spec tokens -> takes r rt = true ->
  route_cost tokens r rt <= cost Spec tokens r.
Proof using Type.
  intros Hin Ht. apply max_list_in. apply list_elem_of_In, in_map, List.filter_In.
  split; [by apply list_elem_of_In|done].
Qed.

Lemma router_cost Spec tokens r w :
  within (cost Spec tokens r)
    (ServeHTTP (NewRouter (NewServer tokens) Spec tokens (Some RequestLogger)) r w).
Proof using All.
  rewrite ServeHTTP_router. revert w. apply RequestLogger_sends. intros w.
  destruct (dispatch_cases (served_routes (NewServer tokens) Spec tokens) r w)
    as [(rt & ps & Hin & Hm & Hp & ->)|(w' & -> & _)]; [|done].
  eapply within_mono.
  - exact (served_routes_send Spec tokens rt (with_params r ps) Hin w).
  - apply (taken_cost Spec tokens rt r Hin). unfold takes. by rewrite Hm, String.eqb_refl, Hp.
Qed.

(** ** Pools *)

Context `{PostgresOk}.

Definition finished {A} (p : prog A) : Prop := exists a, p = Ret a.

(** The requests in flight have at most so many statements left to send. *)
Definition left_to_send {A} (ns : list nat) (c : Pool A) : Prop :=
  Forall2 within ns (pool_reqs c).

(** Without new requests every step sends one of the statements left. *)
Lemma left_step {A} (c c' : Pool A) ns :
  pool_step (fun _ => False) c c' -> left_to_send ns c ->
  exists ns', left_to_send ns' c' /\ sum_list ns = S (sum_list ns')
    /\ Forall2 (fun n n' => n' <= n) ns ns'.
Proof using Type.
  intros Hstep Hns. unfold left_to_send in *.
  destruct Hstep as [s ps1 st k ps2 r s' _|s ps1 k ps2 r s' _|s ps p []]; cbn [pool_reqs] in *.
  all: apply Forall2_app_inv_r in Hns as (ns1 & ns2 & Hns1 & Hns2 & ->);
    apply Forall2_cons_inv_r in Hns2 as (n & ns3 & (m & -> & Hk) & Hns3 & ->);
    exists (ns1 ++ m :: ns3); split_and!;
    [by apply Forall2_app; [|constructor]
    |rewrite !sum_list_with_app; cbn; lia
    |apply Forall2_app; [by apply Forall_Forall2_diag, Forall_true|constructor; [lia|]];
     by apply Forall_Forall2_diag, Forall_true].
Qed.

Lemma left_draining {A} (c c' : Pool A) ns n :
  nsteps (pool_step (fun _ => False)) n c c' -> left_to_send ns c -> n <= sum_list ns.
Proof using Type.
  intros Hsteps. revert ns. induction Hsteps as [c|n c1 c2 c3 Hstep _ IH]; intros ns Hns; [lia|].
  destruct (left_step c1 c2 ns) as (ns' & Hns' & -> & _); [done..|].
  specialize (IH ns' Hns'). lia.
Qed.

Lemma finished_stuck {A} (c c' : Pool A) :
  Forall finished (pool_reqs c) -> ~ pool_step (fun _ => False) c c'.
Proof using Type.
  intros Hdone Hstep. destruct Hstep as [s ps1 st k ps2 r s' _|s ps1 k ps2 r s' _|s ps p []];
    cbn [pool_reqs] in Hdone; apply Forall_app in Hdone as [_ [[a Ha] _]%Forall_cons]; done.
Qed.

(** *** A server at work *)

Definition serves (Spec : string) (tokens : JWTManager) (r : Request)
    : prog (outcome unit * Writer) :=
  ServeHTTP (NewRouter (NewServer tokens) Spec tokens (Some RequestLogger)) r fresh_writer.

(** A server that has taken these requests, in this order, and is anywhere in
    their execution. *)
Inductive serving (Spec : string) (tokens : JWTManager)
    : list Request -> Pool (outcome unit * Writer) -> Prop :=
| starts s : serving Spec tokens [] (mkPool s [])
| goes_on rs c c' :
    serving Spec tokens rs c -> pool_step (fun _ => False) c c' -> serving Spec tokens rs c'
| accepts rs s ps r :
    serving Spec tokens rs (mkPool s ps) ->
    serving Spec tokens (rs ++ [r]) (mkPool s (ps ++ [serves Spec tokens r])).

(** What the requests that have not finished may send at most. *)
Definition outstanding (Spec : string) (tokens : JWTManager) (rs : list Request)
    (c : Pool (outcome unit * Writer)) : nat :=
  sum_list (zip_with (fun r p => match p with Ret _ => 0 | _ => cost Spec tokens r end)
              rs (pool_reqs c)).

Lemma within_all {A} (ps : list (prog A)) ns ns' :
  Forall2 (fun n n' => n' <= n) ns ns' -> Forall2 within ns' ps -> Forall2 within ns ps.
Proof using Type.
  intros Hle. revert ps. induction Hle as [|n n' ns ns' Hn _ IH]; intros ps Hps;
    inversion Hps; subst; constructor; [by eapply within_mono|by apply IH].
Qed.

Lemma serving_within Spec tokens rs c :
  serving Spec tokens rs c ->
  left_to_send (map (cost Spec tokens) rs) c.
Proof using All.
  intros Hs. unfold left_to_send.
  induction Hs as [s|rs c c' _ IH Hstep|rs s ps r _ IH]; [constructor| |].
  - destruct (left_step c c' _ Hstep IH) as (ns' & Hns' & _ & Hle). unfold left_to_send in Hns'.
    by eapply within_all.
  - rewrite map_app. apply Forall2_app; [done|]. constructor; [apply router_cost|constructor].
Qed.

(** Finished requests send nothing more. *)
Lemma outstanding_left Spec tokens rs c :
  left_to_send (map (cost Spec tokens) rs) c ->
  exists ns, left_to_send ns c /\ sum_list ns = outstanding Spec tokens rs c.
Proof using Type.
  unfold left_to_send, outstanding. intros Hs. eexists. split; [|reflexivity].
  revert Hs. generalize (pool_reqs c). induction rs as [|r rs IH]; intros ps Hs.
  - inversion Hs. constructor.
  - inversion Hs as [|? p ? ps' Hp Hps]; subst. constructor; [by destruct p|by apply IH].
Qed.

(** C9. Whatever it is answered, a request sends at most the statements of the route
    that takes it: none without an accepted token under /satellites, none without
    an administrator's under /users, none for the version, the documentation and
    unknown paths, two to change or delete a satellite, one otherwise. So a server
    that takes no new requests, wherever it is in the execution of those it has
    taken, makes at most as many round trips to the database as the routes of the
    unfinished ones have statements. *)
Theorem requests_finish (Spec : string) (tokens : JWTManager) :
  (forall r, within (cost Spec tokens r) (serves Spec tokens r))
  /\ forall rs c c' n, serving Spec tokens rs c -> nsteps (pool_step (fun _ => False)) n c c' ->
     n <= outstanding Spec tokens rs c.
Proof using All.
  split; [intros r; apply router_cost|]. intros rs c c' n Hs Hdrain.
  destruct (outstanding_left Spec tokens rs c) as (ns & Hns & <-); [by apply serving_within|].
  by eapply left_draining.
Qed.
End Requests.
