(* ===== verification/Operator.v ===== *)
(** * Operator: the satellite controller ([operator/])

    The custom resource ([api/v1alpha1/satellite_types.go]), the reconciler
    ([internal/controller/satellite_controller.go]) against a Kubernetes API
    server that other clients use at the same time. A read from the client's cache
    is a read at an earlier point of the run. *)

From S2P Require Import Prelude.
From S2P Require Import GoStd.
From S2P Require Import Sql.

(** ** The custom resource *)

(** [metav1] is a library: its metadata and condition types are parameters, with
    what the code reads of them and the error test of [apierrors]. *)
Class K8sLib := {
  TypeMeta : Type;
  ObjectMeta : Type;
  ListMeta : Type;
  Condition : Type;
  om_Namespace : ObjectMeta -> string;
  om_Name : ObjectMeta -> string;
  (** The revision of the store the object was last written at. *)
  om_ResourceVersion : ObjectMeta -> N;
  IsNotFound : error -> bool
}.

(** A reference instance, for the witnesses: an object has labels, a list may say how
    many items it leaves out. *)
Module RefK8s.
#[global] Instance ref_k8s : K8sLib := {|
  TypeMeta := unit;
  ObjectMeta := (string * string) * N * list (string * string);
  ListMeta := option Z;
  Condition := string * string;
  om_Namespace m := m.1.1.1;
  om_Name m := m.1.1.2;
  om_ResourceVersion m := m.1.2;
  IsNotFound e := bool_decide (e = Foreign "not found")
|}.
End RefK8s.

Section Operator.
Context `{K8sLib}.

Record SatelliteSpec := mkSatSpec { spec_Region : string }.

(** A slice that is nil is [None]. *)
Record SatelliteStatus := mkSatStatus {
  Phase : string;
  st_ManagedBy : string;
  LastHeartbeat : option Time;
  Conditions : option (list Condition)
}.

Record CR := mkCR {
  cr_TypeMeta : TypeMeta;
  cr_ObjectMeta : ObjectMeta;
  cr_Spec : SatelliteSpec;
  cr_Status : SatelliteStatus
}.

(** [types.NamespacedName]: namespace and name. *)
Definition key_of (o : CR) : string * string :=
  (om_Namespace (cr_ObjectMeta o), om_Name (cr_ObjectMeta o)).

Definition with_status (o : CR) (st : SatelliteStatus) : CR :=
  mkCR (cr_TypeMeta o) (cr_ObjectMeta o) (cr_Spec o) st.

(** ** The reconciler *)

(** A computation of the controller between the calls of its client. *)
Inductive kprog (A : Type) :=
| KRet (a : A)
| KGet (key : string * string) (k : res CR -> kprog A)
| KStatusUpdate (o : CR) (k : res unit -> kprog A).
Arguments KRet {_} _.
Arguments KGet {_} _ _.
Arguments KStatusUpdate {_} _ _.

(** The status [Reconcile] writes; log lines are not modelled. *)
Definition ready_status (st : SatelliteStatus) : SatelliteStatus :=
  mkSatStatus "Ready" "operator" (LastHeartbeat st) (Conditions st).

(** [Reconcile]; the empty [ctrl.Result] is [tt]. *)
Definition Reconcile (NamespacedName : string * string) : kprog (res unit) :=
  KGet NamespacedName (fun got =>
    match got with
    | Err err => if IsNotFound err then KRet (Ok tt) else KRet (Err err)
    | Ok satellite =>
        if negb (String.eqb (Phase (cr_Status satellite)) "Ready") then
          KStatusUpdate (with_status satellite (ready_status (cr_Status satellite)))
            (fun updated =>
               match updated with
               | Err err => KRet (Err err)
               | Ok _ => KRet (Ok tt)
               end)
        else KRet (Ok tt)
    end).

(** ** The API server *)

(** The stored objects and the revision of the store. *)
Record Cluster := mkCluster {
  objects : gmap (string * string) CR;
  revision : N
}.

(** Objects are stored under their names, at revisions up to the store's. *)
Definition cluster_ok (c : Cluster) : Prop :=
  forall key o, objects c !! key = Some o ->
    key_of o = key /\ (om_ResourceVersion (cr_ObjectMeta o) <= revision c)%N.

(** What other clients may do: whatever they write gets a new revision. *)
Definition others (c c' : Cluster) : Prop :=
  cluster_ok c' /\ (revision c <= revision c')%N /\
  forall key o, objects c' !! key = Some o ->
    objects c !! key = Some o \/ (revision c < om_ResourceVersion (cr_ObjectMeta o))%N.

(** Reading returns the stored object, reports that there is none, or fails. *)
Inductive get_sem (key : string * string) (c : Cluster) : res CR -> Prop :=
| get_ok o : objects c !! key = Some o -> get_sem key c (Ok o)
| get_missing e : objects c !! key = None -> IsNotFound e = true -> get_sem key c (Err e)
| get_failed e : IsNotFound e = false -> get_sem key c (Err e).

(** Updating the status subresource is optimistic: it takes effect only on the
    object the client read (same resource version), changes its status and
    nothing else, and gives it a new version; otherwise it is an error. The
    answer of an update that took effect can be lost. [ws] are the writes. *)
Inductive update_sem (o : CR) (c : Cluster) : res unit -> list (CR * CR) -> Cluster -> Prop :=
| update_ok cur om r :
    objects c !! key_of o = Some cur ->
    om_ResourceVersion (cr_ObjectMeta cur) = om_ResourceVersion (cr_ObjectMeta o) ->
    om_Namespace om = om_Namespace (cr_ObjectMeta cur) -> om_Name om = om_Name (cr_ObjectMeta cur) ->
    om_ResourceVersion om = (revision c + 1)%N ->
    let new := mkCR (cr_TypeMeta cur) om (cr_Spec cur) (cr_Status o) in
    r = Ok tt \/ (exists e, r = Err e) ->
    update_sem o c r [(cur, new)]
      (mkCluster (<[key_of o := new]> (objects c)) (revision c + 1))
| update_failed e : update_sem o c (Err e) [] c.

(** A run of a controller, with [env] the steps of the other clients between its
    calls: its result, its own writes (the object before and after), and the
    cluster at the end. *)
Inductive exec {A} (env : Cluster -> Cluster -> Prop) :
    Cluster -> kprog A -> A -> list (CR * CR) -> Cluster -> Prop :=
| exec_ret c a c' : env c c' -> exec env c (KRet a) a [] c'
| exec_get c key k c1 r a ws c' :
    env c c1 -> get_sem key c1 r -> exec env c1 (k r) a ws c' ->
    exec env c (KGet key k) a ws c'
| exec_update c o k c1 r ws1 c2 a ws c' :
    env c c1 -> update_sem o c1 r ws1 c2 -> exec env c2 (k r) a ws c' ->
    exec env c (KStatusUpdate o k) a (ws1 ++ ws) c'.

(** ** Properties of the reconciler *)

(** A write of the reconciler: the status of the object as it was at that
    instant becomes ready and operator-managed; metadata apart from the version,
    specification, heartbeat and conditions stay. *)
Definition marks_ready (key : string * string) (w : CR * CR) : Prop :=
  let (cur, new) := w in
  key_of cur = key /\ Phase (cr_Status cur) <> "Ready"
  /\ cr_Status new = ready_status (cr_Status cur)
  /\ cr_Spec new = cr_Spec cur /\ cr_TypeMeta new = cr_TypeMeta cur /\ key_of new = key_of cur.

(** Between a read and a write of the same version the object has not changed. *)
Lemma same_version c c1 key o cur :
  cluster_ok c -> others c c1 -> objects c !! key = Some o -> objects c1 !! key = Some cur ->
  om_ResourceVersion (cr_ObjectMeta cur) = om_ResourceVersion (cr_ObjectMeta o) -> cur = o.
Proof using Type.
  intros Hok (_ & _ & Hothers) Ho Hcur Hrv.
  destruct (Hothers key cur Hcur) as [Hsame|Hnew]; [congruence|].
  destruct (Hok key o Ho) as [_ Hle]. lia.
Qed.

(** The update [Reconcile] sends for the object it read. *)
Lemma update_of_read c c1 key o r ws c2 :
  cluster_ok c -> others c c1 -> objects c !! key = Some o ->
  Phase (cr_Status o) <> "Ready" ->
  update_sem (with_status o (ready_status (cr_Status o))) c1 r ws c2 ->
  (exists new, ws = [(o, new)] /\ marks_ready key (o, new)
     /\ objects c2 = <[key := new]> (objects c1))
  \/ (ws = [] /\ c2 = c1 /\ exists e, r = Err e).
Proof using Type.
  intros Hok Henv Ho Hphase Hupd. destruct (Hok key o Ho) as [Hkey _].
  destruct Hupd as [cur om r Hcur Hrv Hns Hnm Hver new Hr|e]; [|right; eauto].
  change (key_of (with_status o _)) with (key_of o) in Hcur. rewrite Hkey in Hcur.
  assert (cur = o) as -> by (by eapply same_version).
  left. eexists. split; [done|]. change (key_of (with_status o _)) with (key_of o).
  rewrite Hkey. split; [|done].
  split_and!; try done. unfold key_of; cbn. by rewrite Hns, Hnm.
Qed.


(** Nothing is left to do for an object. *)
Definition settled (key : string * string) (c : Cluster) : Prop :=
  match objects c !! key with Some o => Phase (cr_Status o) = "Ready" | None => True end.

Lemma alone_settles key c ws c' :
  cluster_ok c -> exec eq c (Reconcile key) (Ok tt) ws c' -> settled key c'.
Proof using Type.
  intros Hok Hexec. unfold settled. unfold Reconcile in Hexec.
  inversion Hexec as [|c0 key0 k c1 got a ws0 c0' -> Hget Hrest|]; subst; clear Hexec.
  destruct Hget as [o Ho|e Hnone He|e He].
  - destruct (String.eqb_spec (Phase (cr_Status o)) "Ready") as [Hr|Hphase]; cbn in Hrest.
    { inversion Hrest; subst. by rewrite Ho. }
    inversion Hrest as [| |c2 o' k' c3 r' ws1 c4 a' ws2 c5 -> Hupd Hret]; subst.
    destruct (Hok key o Ho) as [Hkey _].
    inversion Hupd as [cur om r0 Hcur Hrv Hns Hnm Hver new Hr0|e]; subst; [|by inversion Hret].
    destruct r' as [[]|e]; inversion Hret; subst; cbn.
    change (key_of (with_status o _)) with (key_of o). by rewrite lookup_insert_eq.
  - rewrite He in Hrest. inversion Hrest; subst. by rewrite Hnone.
  - rewrite He in Hrest. inversion Hrest.
Qed.

Lemma settled_noop key c r ws c' :
  settled key c -> exec eq c (Reconcile key) r ws c' -> ws = [] /\ c' = c.
Proof using Type.
  intros Hset Hexec. unfold Reconcile in Hexec.
  inversion Hexec as [|c0 key0 k c1 got a ws0 c0' -> Hget Hrest|]; subst; clear Hexec.
  unfold settled in Hset. destruct Hget as [o Ho|e Hnone He|e He].
  - rewrite Ho in Hset. rewrite Hset in Hrest. cbn in Hrest. by inversion Hrest; subst.
  - rewrite He in Hrest. by inversion Hrest; subst.
  - rewrite He in Hrest. by inversion Hrest; subst.
Qed.

(** C35. With no one else writing, one successful reconciliation settles the object: it
    is gone or ready, and reconciling it again writes nothing. *)
Theorem reconcile_settles (key : string * string) (c c' c'' : Cluster) (r : res unit)
    (ws ws' : list (CR * CR)) :
  cluster_ok c -> exec eq c (Reconcile key) (Ok tt) ws c' ->
  exec eq c' (Reconcile key) r ws' c'' ->
  settled key c' /\ ws' = [] /\ c'' = c'.
Proof using Type.
  intros Hok H1 H2. assert (Hset : settled key c') by (by eapply alone_settles).
  split; [done|]. by eapply settled_noop.
Qed.
End Operator.
