(* ===== verification/Flags.v ===== *)
(** * Flags: the command line ([flag])

    Go's [flag] package, for string and boolean flags: [-name], [--name],
    [-name=value], [-name value]. *)

From S2P Require Import Prelude.
From S2P Require Import GoStd.

(** A flag over the variables [A]: whether it can stand without a value, and what
    a value does ([None] when it is no value of the flag). *)
Record flag (A : Type) := mkFlag { f_bool : bool; f_set : string -> A -> option A }.
Arguments mkFlag {_} _ _.
Arguments f_bool {_} _.
Arguments f_set {_} _.

Definition StringVar {A} (set : string -> A -> A) : flag A := mkFlag false (fun v a => Some (set v a)).

(** [strconv.ParseBool]. *)
Definition ParseBool (s : string) : option bool :=
  if existsb (String.eqb s) ["1"; "t"; "T"; "true"; "TRUE"; "True"] then Some true
  else if existsb (String.eqb s) ["0"; "f"; "F"; "false"; "FALSE"; "False"] then Some false
  else None.

Definition BoolVar {A} (set : bool -> A -> A) : flag A :=
  mkFlag true (fun v a => (fun b => set b a) <$> ParseBool v).

(** A flag of a part of the variables. *)
Definition in_fst {A B} (f : flag A) : flag (A * B) :=
  mkFlag (f_bool f) (fun v ab => (fun a => (a, ab.2)) <$> f_set f v ab.1).
Definition in_snd {A B} (f : flag B) : flag (A * B) :=
  mkFlag (f_bool f) (fun v ab => (fun b => (ab.1, b)) <$> f_set f v ab.2).

(** What one word of the command line is. *)
Inductive word := Positional | Terminator | Malformed | Named (name : string) (value : option string).

(** The name after the dashes, up to the first equals sign. *)
Definition named (s : string) : word :=
  match s with
  | "" => Malformed
  | String c rest =>
      if Ascii.eqb c "-" || Ascii.eqb c "=" then Malformed
      else match SplitN2 rest "=" with
           | Some (name, value) => Named (String c name) (Some value)
           | None => Named s None
           end
  end.

Definition word_of (s : string) : word :=
  match s with
  | String d (String c rest) =>
      if Ascii.eqb d "-" then
        if Ascii.eqb c "-" then
          if String.eqb rest "" then Terminator else named rest
        else named (String c rest)
      else Positional
  | _ => Positional
  end.

(** The result of [Parse]: the variables and the arguments that are left, or the
    program exits, with status 0 for the help text and 2 for an error. *)
Inductive parsed (A : Type) := Parsed (a : A) (args : list string) | HelpAsked | BadUsage.
Arguments Parsed {_} _ _.
Arguments HelpAsked {_}.
Arguments BadUsage {_}.

Section Parse.
Context {A : Type} (flags : list (string * flag A)).

Definition find_flag (name : string) : option (flag A) :=
  snd <$> find (fun f => String.eqb f.1 name) flags.

Fixpoint Parse (args : list string) (a : A) : parsed A :=
  match args with
  | [] => Parsed a []
  | s :: rest =>
      match word_of s with
      | Positional => Parsed a args
      | Terminator => Parsed a rest
      | Malformed => BadUsage
      | Named name value =>
          match find_flag name with
          | None => if String.eqb name "help" || String.eqb name "h" then HelpAsked else BadUsage
          | Some f =>
              if f_bool f then
                match f_set f (default "true" value) a with
                | Some a => Parse rest a
                | None => BadUsage
                end
              else
                match value, rest with
                | Some v, _ =>
                    match f_set f v a with Some a => Parse rest a | None => BadUsage end
                | None, v :: rest =>
                    match f_set f v a with Some a => Parse rest a | None => BadUsage end
                | None, [] => BadUsage
                end
          end
      end
  end.

(** What setting the flags that are named keeps, parsing keeps. *)
Lemma Parse_keeps (P : A -> Prop) args a a' rest :
  P a ->
  (forall s name value f v x y, s ∈ args -> word_of s = Named name value ->
     find_flag name = Some f -> f_set f v x = Some y -> P x -> P y) ->
  Parse args a = Parsed a' rest -> P a'.
Proof.
  remember (length args) as n eqn:Hn. assert (length args <= n) as Hle by lia. clear Hn.
  revert args Hle a. induction n as [|n IH]; intros args Hle a Ha Hset.
  { destruct args; cbn in Hle; [|lia]. by intros [= <- <-]. }
  destruct args as [|s args]; [by intros [= <- <-]|]. cbn [Parse]. cbn [length] in Hle.
  assert (forall args', (forall t, t ∈ args' -> t ∈ args) -> length args' <= n ->
    forall x, P x -> Parse args' x = Parsed a' rest -> P a') as Hrest.
  { intros args' Hsub Hlen x Hx. apply IH; [done|done|].
    intros t name value f v y z Ht. apply Hset. right. by apply Hsub. }
  destruct (word_of s) as [| | |name value] eqn:Hw; [by intros [= <- <-]..|done|].
  destruct (find_flag name) as [f|] eqn:Hf; [|by case_match].
  assert (forall v y, f_set f v a = Some y -> P y) as Hy.
  { intros v y Hv. eapply (Hset s); [by left|done..]. }
  destruct (f_bool f).
  - destruct (f_set f _ a) as [y|] eqn:Hv; [|done]. apply (Hrest args); [done|lia|by eapply Hy].
  - destruct value as [v|].
    + destruct (f_set f v a) as [y|] eqn:Hv; [|done]. apply (Hrest args); [done|lia|by eapply Hy].
    + destruct args as [|v args]; [done|].
      destruct (f_set f v a) as [y|] eqn:Hv; [|done].
      apply (Hrest args); [by intros t Ht; right|cbn in Hle; lia|by eapply Hy].
Qed.
End Parse.
