(* ===== verification/OperatorMain.v ===== *)
(** * OperatorMain: starting the operator ([operator/cmd/main.go])

    The command line, the options made of it, and the steps of the start-up in
    order. controller-runtime is the environment that answers every step. *)

From S2P Require Import Prelude.
From S2P Require Import GoStd.
From S2P Require Import Flags.

(** ** The scheme ([api/v1alpha1/groupversion_info.go], [satellite_types.go]) *)

Record GroupVersion := mkGroupVersion { Group : string; Version : string }.

Definition SchemeGroupVersion : GroupVersion := mkGroupVersion "fleetcontrol.io" "v1alpha1".

(** [runtime.Scheme] and [runtime.SchemeBuilder] are apimachinery's; [Knows s gv k]
    says that a scheme can make objects of kind [k]. *)
Class SchemeLib := {
  Scheme : Type;
  SchemeBuilderT : Type;
  Knows : Scheme -> GroupVersion -> string -> Prop;
  NewScheme : Scheme;
  AddToGroupVersion : GroupVersion -> Scheme -> res Scheme;
  AddKnownTypes : GroupVersion -> list string -> Scheme -> res Scheme;
  NewSchemeBuilder : (Scheme -> res Scheme) -> SchemeBuilderT;
  Register : SchemeBuilderT -> (Scheme -> res Scheme) -> SchemeBuilderT;
  AddToScheme_ : SchemeBuilderT -> Scheme -> res Scheme;
  clientgo_AddToScheme : Scheme -> res Scheme
}.

(** The functions of a builder run in the order they were given; registered kinds
    are known and stay known. *)
Class SchemeLibOk `(SchemeLib) := {
  run_new f s : AddToScheme_ (NewSchemeBuilder f) s = f s;
  run_registered b f s : AddToScheme_ (Register b f) s = (s ← AddToScheme_ b s; f s);
  knows_types gv ks s s' k : AddKnownTypes gv ks s = Ok s' -> k ∈ ks -> Knows s' gv k
}.

Section Operator.
Context `{SchemeLib}.

(** What [init] of [satellite_types.go] registers. *)
Definition known_types : list string := ["Satellite"; "SatelliteList"].

(** The package variable after the [init] functions have run: [AddToScheme] is a
    method value of the variable's address, so it sees what is registered later. *)
Definition SchemeBuilder : SchemeBuilderT :=
  Register (NewSchemeBuilder (AddToGroupVersion SchemeGroupVersion))
    (AddKnownTypes SchemeGroupVersion known_types).

Definition AddToScheme (s : Scheme) : res Scheme := AddToScheme_ SchemeBuilder s.

(** [init] of the main package: [utilruntime.Must] panics on an error. *)
Definition init_scheme : res Scheme := s ← clientgo_AddToScheme NewScheme; AddToScheme s.

(** ** The command line *)

Record Vars := mkVars {
  metricsAddr : string;
  metricsCertPath : string;
  metricsCertName : string;
  metricsCertKey : string;
  webhookCertPath : string;
  webhookCertName : string;
  webhookCertKey : string;
  enableLeaderElection : bool;
  probeAddr : string;
  secureMetrics : bool;
  enableHTTP2 : bool
}.

Definition defaults : Vars :=
  mkVars "0" "" "tls.crt" "tls.key" "" "tls.crt" "tls.key" false ":8081" true false.

Definition main_flags : list (string * flag Vars) :=
  [("metrics-bind-address", StringVar (fun v '(mkVars _ b c d e f g h i j k) => mkVars v b c d e f g h i j k));
   ("health-probe-bind-address", StringVar (fun v '(mkVars a b c d e f g h _ j k) => mkVars a b c d e f g h v j k));
   ("leader-elect", BoolVar (fun v '(mkVars a b c d e f g _ i j k) => mkVars a b c d e f g v i j k));
   ("metrics-secure", BoolVar (fun v '(mkVars a b c d e f g h i _ k) => mkVars a b c d e f g h i v k));
   ("webhook-cert-path", StringVar (fun v '(mkVars a b c d _ f g h i j k) => mkVars a b c d v f g h i j k));
   ("webhook-cert-name", StringVar (fun v '(mkVars a b c d e _ g h i j k) => mkVars a b c d e v g h i j k));
   ("webhook-cert-key", StringVar (fun v '(mkVars a b c d e f _ h i j k) => mkVars a b c d e f v h i j k));
   ("metrics-cert-path", StringVar (fun v '(mkVars a _ c d e f g h i j k) => mkVars a v c d e f g h i j k));
   ("metrics-cert-name", StringVar (fun v '(mkVars a b _ d e f g h i j k) => mkVars a b v d e f g h i j k));
   ("metrics-cert-key", StringVar (fun v '(mkVars a b c _ e f g h i j k) => mkVars a b c v e f g h i j k));
   ("enable-http2", BoolVar (fun v '(mkVars a b c d e f g h i j _) => mkVars a b c d e f g h i j v))].

(** The flags that libraries define ([zap.Options.BindFlags], controller-runtime's
    [kubeconfig]) set variables of their own. *)
Context {L : Type} (lib_flags : list (string * flag L)) (lib_defaults : L).

Definition all_flags : list (string * flag (Vars * L)) :=
  map (fun nf => (nf.1, in_fst nf.2)) main_flags ++ map (fun nf => (nf.1, in_snd nf.2)) lib_flags.

(** ** The options *)

(** [tls.Config]: the field the options set, and the others. *)
Record TLSConfig := mkTLSConfig { NextProtos : list string; tls_others : list (string * string) }.

Definition disableHTTP2 (c : TLSConfig) : TLSConfig := mkTLSConfig ["http/1.1"] (tls_others c).

Definition tlsOpts (v : Vars) : list (TLSConfig -> TLSConfig) :=
  if negb (enableHTTP2 v) then [disableHTTP2] else [].

Record WebhookOptions := mkWebhookOptions {
  wh_TLSOpts : list (TLSConfig -> TLSConfig);
  wh_CertDir : string; wh_CertName : string; wh_KeyName : string
}.

Definition webhookServerOptions (v : Vars) : WebhookOptions :=
  if negb (String.eqb (webhookCertPath v) "") then
    mkWebhookOptions (tlsOpts v) (webhookCertPath v) (webhookCertName v) (webhookCertKey v)
  else mkWebhookOptions (tlsOpts v) "" "" "".

(** The provider is a function of the library, or nil. *)
Inductive FilterProvider := WithAuthenticationAndAuthorization.

Record MetricsOptions := mkMetricsOptions {
  BindAddress : string;
  SecureServing : bool;
  m_TLSOpts : list (TLSConfig -> TLSConfig);
  m_FilterProvider : option FilterProvider;
  m_CertDir : string; m_CertName : string; m_KeyName : string
}.

Definition metricsServerOptions (v : Vars) : MetricsOptions :=
  let filter := if secureMetrics v then Some WithAuthenticationAndAuthorization else None in
  if negb (String.eqb (metricsCertPath v) "") then
    mkMetricsOptions (metricsAddr v) (secureMetrics v) (tlsOpts v) filter
      (metricsCertPath v) (metricsCertName v) (metricsCertKey v)
  else mkMetricsOptions (metricsAddr v) (secureMetrics v) (tlsOpts v) filter "" "" "".

Record ManagerOptions := mkManagerOptions {
  o_Scheme : Scheme;
  o_Metrics : MetricsOptions;
  o_WebhookServer : WebhookOptions;
  HealthProbeBindAddress : string;
  LeaderElection : bool;
  LeaderElectionID : string
}.

Definition managerOptions (s : Scheme) (v : Vars) : ManagerOptions :=
  mkManagerOptions s (metricsServerOptions v) (webhookServerOptions v) (probeAddr v)
    (enableLeaderElection v) "60429f8c.fleetcontrol.io".

(** ** The start-up *)

(** What the program asks of controller-runtime, each answered with an error or
    nil: [GetConfigOrDie] exits by itself. *)
Inductive step :=
| GetConfigOrDie
| NewManager (o : ManagerOptions)
| CompleteController (name kind : string)
| AddHealthzCheck (name : string)
| AddReadyzCheck (name : string)
| Start.

Inductive setup :=
| Exits (code : Z)
| Panicking
| Ask (s : step) (k : res unit -> setup).

(** [if err := ...; err != nil { setupLog.Error(...); os.Exit(1) }]. *)
Definition must (s : step) (k : setup) : setup :=
  Ask s (fun r => match r with Ok _ => k | Err _ => Exits 1 end).

(** [SatelliteReconciler.SetupWithManager]: a controller named satellite for the
    resources of kind [Satellite]. *)
Definition SetupWithManager : step := CompleteController "satellite" "Satellite".

Definition main (args : list string) : setup :=
  match init_scheme with
  | Err _ => Panicking
  | Ok scheme =>
      match Parse all_flags args (defaults, lib_defaults) with
      | HelpAsked => Exits 0
      | BadUsage => Exits 2
      | Parsed (v, _) _ =>
          must GetConfigOrDie
            (must (NewManager (managerOptions scheme v))
              (must SetupWithManager
                (must (AddHealthzCheck "healthz")
                  (must (AddReadyzCheck "readyz")
                    (must Start (Exits 0))))))
      end
  end.

(** A run: the steps asked for, with their answers, and how it ends. *)
Fixpoint run_setup (env : step -> res unit) (p : setup) : list (step * res unit) * option Z :=
  match p with
  | Exits code => ([], Some code)
  | Panicking => ([], None)
  | Ask s k => let (steps, code) := run_setup env (k (env s)) in ((s, env s) :: steps, code)
  end.

(** ** Properties *)

(** A word of the command line that names this flag. *)
Definition names_flag (name : string) (s : string) : Prop :=
  exists value, word_of s = Named name value.

Lemma find_all_flags name f :
  find_flag all_flags name = Some f ->
  (exists g, find_flag main_flags name = Some g /\ f = in_fst g)
  \/ (exists g, f = in_snd g).
Proof using Type.
  unfold find_flag, all_flags. induction main_flags as [|[n g] l IH]; cbn [map app find fst snd].
  - intros Hf. right. induction lib_flags as [|[n g] l IH]; [done|].
    cbn [map find fst snd] in Hf. destruct (String.eqb n name); [|by apply IH].
    injection Hf as <-. by exists g.
  - destruct (String.eqb n name); [|exact IH]. intros [= <-]. left. by exists g.
Qed.

(** A setting that only the flag of one name changes. *)
Definition set_only_by {X} (setting : Vars -> X) (flag_name : string) : Prop :=
  forall name g value x y, find_flag main_flags name = Some g -> name <> flag_name ->
    f_set g value x = Some y -> setting y = setting x.

Ltac only_its_flag :=
  intros name g v x y; unfold find_flag, main_flags; intros Hf Hne Hset;
  repeat (cbn [find fst snd] in Hf;
    match type of Hf with context [String.eqb ?a name] => destruct (String.eqb_spec a name) as [<-|_] end;
    [try done; injection Hf as <-; cbn in Hset; destruct x; cbn in Hset;
     try (destruct (ParseBool v); [|done]; cbn in Hset); by injection Hset as <-|]);
  done.

Lemma http2_only : set_only_by enableHTTP2 "enable-http2".
Proof using Type. only_its_flag. Qed.

Lemma secure_only : set_only_by secureMetrics "metrics-secure".
Proof using Type. only_its_flag. Qed.

Lemma address_only : set_only_by metricsAddr "metrics-bind-address".
Proof using Type. only_its_flag. Qed.

(** A setting whose flag is not on the command line keeps its default. *)
Lemma keeps_default {X} (setting : Vars -> X) name args v l rest :
  set_only_by setting name ->
  Parse all_flags args (defaults, lib_defaults) = Parsed (v, l) rest ->
  (forall s, s ∈ args -> ~ names_flag name s) -> setting v = setting defaults.
Proof using Type.
  intros Honly Hp Hno.
  apply (Parse_keeps all_flags (fun vl => setting vl.1 = setting defaults) args) in Hp; [done|done|].
  intros s n value f w x y Hs Hw Hf Hset Hx.
  apply find_all_flags in Hf as [(g & Hg & ->)|[g ->]]; cbn in Hset.
  - destruct (f_set g w x.1) as [x'|] eqn:Hx'; [|done]. injection Hset as <-. cbn.
    rewrite <- Hx. eapply Honly; [done| |done]. intros ->. apply (Hno s Hs). by exists value.
  - destruct (f_set g w x.2); [|done]. by injection Hset as <-.
Qed.

Context `{!SchemeLibOk _}.

Lemma scheme_knows s :
  init_scheme = Ok s ->
  Knows s SchemeGroupVersion "Satellite" /\ Knows s SchemeGroupVersion "SatelliteList".
Proof using SchemeLibOk0.
  unfold init_scheme, AddToScheme, SchemeBuilder. intros (s0 & _ & Hs)%res_bind_Ok.
  rewrite run_registered, run_new in Hs. apply res_bind_Ok in Hs as (s1 & _ & Hs).
  split; eapply knows_types; try exact Hs; unfold known_types; set_solver.
Qed.

(** The options a command line leaves as they are. *)
Definition unnamed (args : list string) (name : string) : Prop :=
  forall s, s ∈ args -> ~ names_flag name s.

(** What the options of a started manager promise. Metrics are served over HTTPS
    and behind authentication and authorization together or not at all; they are
    so protected unless [--metrics-secure] is given, and not served anywhere unless
    an address is. *)
Definition manager_safe (args : list string) (o : ManagerOptions) : Prop :=
  Knows (o_Scheme o) SchemeGroupVersion "Satellite"
  /\ Knows (o_Scheme o) SchemeGroupVersion "SatelliteList"
  /\ m_FilterProvider (o_Metrics o)
     = (if SecureServing (o_Metrics o) then Some WithAuthenticationAndAuthorization else None)
  /\ (unnamed args "metrics-secure" -> SecureServing (o_Metrics o) = true)
  /\ (unnamed args "metrics-bind-address" -> BindAddress (o_Metrics o) = "0")
  /\ m_TLSOpts (o_Metrics o) = wh_TLSOpts (o_WebhookServer o)
  /\ (unnamed args "enable-http2" ->
      forall c, NextProtos (fold_left (fun c f => f c) (m_TLSOpts (o_Metrics o)) c) = ["http/1.1"]).

(** The steps of a complete start-up. *)
Definition startup_steps (o : ManagerOptions) : list step :=
  [GetConfigOrDie; NewManager o; SetupWithManager; AddHealthzCheck "healthz";
   AddReadyzCheck "readyz"; Start].

Lemma run_must env s k :
  run_setup env (must s k) =
    match env s with
    | Ok _ => let (steps, code) := run_setup env k in ((s, env s) :: steps, code)
    | Err _ => ([(s, env s)], Some 1%Z)
    end.
Proof using Type. cbn. by destruct (env s). Qed.

(** The steps so far were all granted. *)
Definition granted (env : step -> res unit) (l : list step) : Prop :=
  Forall (fun s => env s = Ok tt) l.

(** A chain of steps that must be granted, one after the other. *)
Definition chain_of (l : list step) : setup := foldr must (Exits 0) l.

Lemma run_chain env l :
  let (steps, code) := run_setup env (chain_of l) in
  (granted env l /\ map fst steps = l /\ code = Some 0%Z)
  \/ (exists l1 s l2, l = l1 ++ s :: l2 /\ granted env l1 /\ is_ok (env s) = false
      /\ map fst steps = l1 ++ [s] /\ code = Some 1%Z).
Proof using Type.
  induction l as [|s l IH]; [left; by repeat constructor|].
  unfold chain_of in *. cbn [foldr]. rewrite run_must. destruct (env s) as [[]|e] eqn:Hs.
  - destruct (run_setup env (foldr must (Exits 0) l)) as [steps code].
    destruct IH as [(Hl & Hsteps & Hcode)|(l1 & t & l2 & -> & Hl1 & Ht & Hsteps & Hcode)].
    + left. split_and!; [by constructor|cbn; by rewrite Hsteps|done].
    + right. exists (s :: l1), t, l2. split_and!; [done|by constructor|done|cbn; by rewrite Hsteps|done].
  - right. exists [], s, l. split_and!; [done|constructor|by rewrite Hs|done..].
Qed.

Lemma main_chain args :
  match init_scheme with
  | Err _ => main args = Panicking
  | Ok scheme =>
      match Parse all_flags args (defaults, lib_defaults) with
      | HelpAsked => main args = Exits 0
      | BadUsage => main args = Exits 2
      | Parsed (v, _) _ => main args = chain_of (startup_steps (managerOptions scheme v))
      end
  end.
Proof using Type.
  unfold main. destruct init_scheme; [|done]. by destruct (Parse _ _ _) as [[v l] rest| |].
Qed.

Lemma manager_is_safe scheme args v l rest :
  init_scheme = Ok scheme -> Parse all_flags args (defaults, lib_defaults) = Parsed (v, l) rest ->
  manager_safe args (managerOptions scheme v).
Proof using SchemeLibOk0.
  intros Hs Hp. destruct (scheme_knows scheme Hs) as [Hk1 Hk2].
  unfold manager_safe, managerOptions, metricsServerOptions, webhookServerOptions.
  cbn [o_Scheme o_Metrics o_WebhookServer]. split_and!; [done..| | | | |].
  - by destruct (negb (String.eqb (metricsCertPath v) "")), (secureMetrics v).
  - intros Hno. pose proof (keeps_default _ _ args v l rest secure_only Hp Hno) as Hv.
    by destruct (negb (String.eqb (metricsCertPath v) "")).
  - intros Hno. pose proof (keeps_default _ _ args v l rest address_only Hp Hno) as Hv.
    by destruct (negb (String.eqb (metricsCertPath v) "")).
  - by destruct (negb (String.eqb (metricsCertPath v) "")), (negb (String.eqb (webhookCertPath v) "")).
  - intros Hno c. pose proof (keeps_default _ _ args v l rest http2_only Hp Hno) as Hoff.
    cbn in Hoff. destruct (negb (String.eqb (metricsCertPath v) "")); cbn; unfold tlsOpts; by rewrite Hoff.
Qed.

(** C21. The operator only starts when everything was set up: the steps are asked for
    in one order (the cluster's configuration, the manager, the controller of the
    satellites, the two health checks, the start), each only when all before it
    were granted; the process ends with status 0 only when all were, and with
    status 1 after the first that was not. The manager it starts can make
    satellites; its metrics are not served at all unless the command line gives an
    address, and are served over HTTPS behind authentication and authorization
    unless it names the flag for that, HTTPS and the two always going together; and
    neither its metrics nor its webhook server speaks HTTP/2 unless the command
    line names the flag for it. *)
Theorem operator_startup_checked (args : list string) (env : step -> res unit) :
  let (steps, code) := run_setup env (main args) in
  (steps = [] /\ (code = None \/ code = Some 0%Z \/ code = Some 2%Z))
  \/ exists o, manager_safe args o
     /\ ((granted env (startup_steps o) /\ map fst steps = startup_steps o /\ code = Some 0%Z)
         \/ exists l1 s l2, startup_steps o = l1 ++ s :: l2 /\ granted env l1
            /\ is_ok (env s) = false /\ map fst steps = l1 ++ [s] /\ code = Some 1%Z).
Proof using All.
  pose proof (main_chain args) as Hmain.
  destruct init_scheme as [scheme|e] eqn:Hs; [|rewrite Hmain; left; by auto].
  destruct (Parse _ args _) as [[v l] rest| |] eqn:Hp; rewrite Hmain; [|left; by auto..].
  pose proof (run_chain env (startup_steps (managerOptions scheme v))) as Hrun.
  destruct (run_setup env _) as [steps code]. right.
  exists (managerOptions scheme v). split; [by eapply manager_is_safe|exact Hrun].
Qed.
End Operator.
