(* ===== verification/DeepCopy.v ===== *)
(** * DeepCopy: the generated deep copies of the custom resource

    [operator/api/v1alpha1/zz_generated.deepcopy.go], on a heap: a heartbeat is a
    pointer, the conditions and the items of a list are slices, and the metadata of
    [metav1] holds maps, slices and pointers of its own, so that a plain assignment
    shares them and a deep copy must not. The copies of the [metav1] types are
    operations on the same heap, and parameters. *)

From S2P Require Import Prelude.
From S2P Require Import GoStd.
From S2P Require Import Sql.
From S2P Require Import Operator.

(** ** The heap *)

Abbreviation loc := positive.

(** The [metav1] structs as they are in memory, and what is behind their references. *)
Class MetaTypes := {
  LibCell : Type;
  ObjectMetaV : Type;
  ListMetaV : Type;
  ConditionV : Type
}.

Section DeepCopy.
Context `{K8sLib} `{MetaTypes}.

(** The Go structs, with references where Go has them; nil is [None]. A slice is
    its backing array. *)
Record StatusV := mkStatusV {
  v_Phase : string;
  v_ManagedBy : string;
  v_LastHeartbeat : option loc;
  v_Conditions : option loc
}.

Record SatelliteV := mkSatelliteV {
  v_TypeMeta : TypeMeta;
  v_ObjectMeta : ObjectMetaV;
  v_Spec : SatelliteSpec;
  v_Status : StatusV
}.

Record SatelliteListV := mkSatelliteListV {
  v_ListTypeMeta : TypeMeta;
  v_ListMeta : ListMetaV;
  v_Items : option loc
}.

Inductive Cell :=
| CTime (t : Time)
| CConditions (l : list ConditionV)
| CSatellites (l : list SatelliteV)
| CLib (c : LibCell).

Abbreviation Heap := (gmap loc Cell).

(** A computation on the heap; [None] is a fault. *)
Definition HeapM (A : Type) : Type := Heap -> option (A * Heap).

#[local] Instance HeapM_ret : MRet HeapM := fun _ a h => Some (a, h).
#[local] Instance HeapM_bind : MBind HeapM := fun _ _ f m h =>
  match m h with Some (a, h') => f a h' | None => None end.

(** [new(T)] and [make([]T, n)], already holding what is assigned to it. *)
Definition alloc (c : Cell) : HeapM loc := fun h =>
  let l := fresh (dom h) in Some (l, <[l := c]> h).

Definition as_time (c : Cell) : option Time :=
  match c with CTime t => Some t | _ => None end.

Definition as_conditions (c : Cell) : option (list ConditionV) :=
  match c with CConditions l => Some l | _ => None end.

Definition as_satellites (c : Cell) : option (list SatelliteV) :=
  match c with CSatellites l => Some l | _ => None end.

Definition load {A} (as_cell : Cell -> option A) (l : loc) : HeapM A := fun h =>
  match h !! l ≫= as_cell with Some a => Some (a, h) | None => None end.

(** ** What a value in memory means *)

(** [meaning]: what a value stands for in a heap, if it is well formed there.
    [refs]: the cells it reaches. *)
Record Struct (V A : Type) := mkStruct {
  meaning : Heap -> V -> option A;
  refs : Heap -> V -> list loc
}.
#[global] Arguments mkStruct {V A}.
#[global] Arguments meaning {V A}.
#[global] Arguments refs {V A}.

(** The cells exist, and nothing else matters to the value. *)
Record StructOk {V A} (S : Struct V A) : Prop := mkStructOk {
  meaning_live h v a : meaning S h v = Some a -> Forall (fun l => is_Some (h !! l)) (refs S h v);
  meaning_frame h h' v a : meaning S h v = Some a ->
    (forall l, l ∈ refs S h v -> h' !! l = h !! l) ->
    meaning S h' v = Some a /\ refs S h' v = refs S h v
}.

(** From [h] to [h']: nothing that existed has changed, and these cells are new. *)
Definition apart (h h' : Heap) (ls : list loc) : Prop :=
  h ⊆ h' /\ Forall (fun l => h !! l = None /\ is_Some (h' !! l)) ls.

(** What a deep copy promises: it means the same and reaches only new cells. *)
Definition deep_copies {V A} (S : Struct V A) (copy : V -> HeapM V) : Prop :=
  forall h v a, meaning S h v = Some a ->
  exists v' h', copy v h = Some (v', h') /\ meaning S h' v' = Some a /\ apart h h' (refs S h' v').

(** A value without references. *)
Definition plain {V} : Struct V V := mkStruct (fun _ v => Some v) (fun _ _ => []).

(** A reference to a cell that holds a value of another struct. *)
Definition behind {V A} (as_cell : Cell -> option V) (S : Struct V A) : Struct loc A := mkStruct
  (fun h l => v ← (h !! l ≫= as_cell); meaning S h v)
  (fun h l => l :: match h !! l ≫= as_cell with Some v => refs S h v | None => [] end).

(** A [metav1.Time] behind a pointer. *)
Definition time_ptr : Struct loc Time := behind as_time plain.

(** The [metav1] types, and their generated copies. *)
Class MetaLib := {
  ObjectMeta_struct : Struct ObjectMetaV ObjectMeta;
  ListMeta_struct : Struct ListMetaV ListMeta;
  Condition_struct : Struct ConditionV Condition;
  ObjectMeta_DeepCopyInto : ObjectMetaV -> HeapM ObjectMetaV;
  ListMeta_DeepCopyInto : ListMetaV -> HeapM ListMetaV;
  Condition_DeepCopyInto : ConditionV -> HeapM ConditionV;
  Time_DeepCopy : loc -> HeapM loc
}.

Class MetaLibOk `(MetaLib) : Prop := {
  ObjectMeta_ok : StructOk ObjectMeta_struct;
  ListMeta_ok : StructOk ListMeta_struct;
  Condition_ok : StructOk Condition_struct;
  ObjectMeta_copies : deep_copies ObjectMeta_struct ObjectMeta_DeepCopyInto;
  ListMeta_copies : deep_copies ListMeta_struct ListMeta_DeepCopyInto;
  Condition_copies : deep_copies Condition_struct Condition_DeepCopyInto;
  Time_copies : deep_copies time_ptr Time_DeepCopy
}.
Context `{meta_lib : MetaLib}.

(** ** The copies

    [DeepCopyInto] is the value it leaves in its target. *)

Definition SatelliteSpec_DeepCopyInto (i : SatelliteSpec) : SatelliteSpec := i.

Definition SatelliteSpec_DeepCopy (i : option SatelliteSpec) : option SatelliteSpec :=
  match i with None => None | Some i => Some (SatelliteSpec_DeepCopyInto i) end.

(** The heartbeat: [DeepCopy] of the pointer when it is not nil. *)
Definition copy_time (l : option loc) : HeapM (option loc) :=
  match l with
  | None => mret None
  | Some l => l' ← Time_DeepCopy l; mret (Some l')
  end.

(** The loop over a slice: each element is copied into its place. *)
Fixpoint copy_elements {V} (DeepCopyInto : V -> HeapM V) (l : list V) : HeapM (list V) :=
  match l with
  | [] => mret []
  | i :: l => out ← DeepCopyInto i; outs ← copy_elements DeepCopyInto l; mret (out :: outs)
  end.

(** The test for nil, [make] and the loop. *)
Definition copy_slice {V} (as_slice : Cell -> option (list V)) (slice : list V -> Cell)
    (DeepCopyInto : V -> HeapM V) (l : option loc) : HeapM (option loc) :=
  match l with
  | None => mret None
  | Some l =>
      elements ← load as_slice l;
      outs ← copy_elements DeepCopyInto elements;
      l' ← alloc (slice outs);
      mret (Some l')
  end.

Definition copy_conditions : option loc -> HeapM (option loc) :=
  copy_slice as_conditions CConditions Condition_DeepCopyInto.

Definition SatelliteStatus_DeepCopyInto (i : StatusV) : HeapM StatusV :=
  heartbeat ← copy_time (v_LastHeartbeat i);
  conditions ← copy_conditions (v_Conditions i);
  mret (mkStatusV (v_Phase i) (v_ManagedBy i) heartbeat conditions).

Definition SatelliteStatus_DeepCopy (i : option StatusV) : HeapM (option StatusV) :=
  match i with
  | None => mret None
  | Some i => out ← SatelliteStatus_DeepCopyInto i; mret (Some out)
  end.

Definition Satellite_DeepCopyInto (i : SatelliteV) : HeapM SatelliteV :=
  meta ← ObjectMeta_DeepCopyInto (v_ObjectMeta i);
  status ← SatelliteStatus_DeepCopyInto (v_Status i);
  mret (mkSatelliteV (v_TypeMeta i) meta (v_Spec i) status).

Definition Satellite_DeepCopy (i : option SatelliteV) : HeapM (option SatelliteV) :=
  match i with
  | None => mret None
  | Some i => out ← Satellite_DeepCopyInto i; mret (Some out)
  end.

(** [runtime.Object] is an interface: a nil copy is returned as a nil interface. *)
Definition Satellite_DeepCopyObject (i : option SatelliteV) : HeapM (option SatelliteV) :=
  c ← Satellite_DeepCopy i;
  match c with Some c => mret (Some c) | None => mret None end.

Definition copy_items : option loc -> HeapM (option loc) :=
  copy_slice as_satellites CSatellites Satellite_DeepCopyInto.

Definition SatelliteList_DeepCopyInto (i : SatelliteListV) : HeapM SatelliteListV :=
  meta ← ListMeta_DeepCopyInto (v_ListMeta i);
  items ← copy_items (v_Items i);
  mret (mkSatelliteListV (v_ListTypeMeta i) meta items).

Definition SatelliteList_DeepCopy (i : option SatelliteListV) : HeapM (option SatelliteListV) :=
  match i with
  | None => mret None
  | Some i => out ← SatelliteList_DeepCopyInto i; mret (Some out)
  end.

Definition SatelliteList_DeepCopyObject (i : option SatelliteListV)
    : HeapM (option SatelliteListV) :=
  c ← SatelliteList_DeepCopy i;
  match c with Some c => mret (Some c) | None => mret None end.

(** ** What the structs mean *)

(** A pointer that may be nil. *)
Definition ptr {A} (S : Struct loc A) : Struct (option loc) (option A) := mkStruct
  (fun h o => match o with None => Some None | Some l => Some <$> meaning S h l end)
  (fun h o => match o with None => [] | Some l => refs S h l end).

(** The elements of a slice, one after the other. *)
Definition elements {V A} (S : Struct V A) : Struct (list V) (list A) := mkStruct
  (fun h vs => mapM (meaning S h) vs)
  (fun h vs => mjoin (map (refs S h) vs)).

Definition slice_of {V A} (as_slice : Cell -> option (list V)) (S : Struct V A)
    : Struct (option loc) (option (list A)) :=
  ptr (behind as_slice (elements S)).

(** A struct with two fields that hold references. *)
Definition two_fields {V V1 V2 A A1 A2} (S1 : Struct V1 A1) (S2 : Struct V2 A2)
    (f1 : V -> V1) (f2 : V -> V2) (build : V -> A1 -> A2 -> A) : Struct V A := mkStruct
  (fun h v => a1 ← meaning S1 h (f1 v); a2 ← meaning S2 h (f2 v); Some (build v a1 a2))
  (fun h v => refs S1 h (f1 v) ++ refs S2 h (f2 v)).

Definition status_struct : Struct StatusV SatelliteStatus :=
  two_fields (ptr time_ptr) (slice_of as_conditions Condition_struct)
    v_LastHeartbeat v_Conditions
    (fun v hb cs => mkSatStatus (v_Phase v) (v_ManagedBy v) hb cs).

Definition satellite_struct : Struct SatelliteV CR :=
  two_fields ObjectMeta_struct status_struct v_ObjectMeta v_Status
    (fun v meta st => mkCR (v_TypeMeta v) meta (v_Spec v) st).

(** The list resource; items that are a nil slice are [None]. *)
Record CRList := mkCRList {
  crs_TypeMeta : TypeMeta;
  crs_ListMeta : ListMeta;
  crs_Items : option (list CR)
}.

Definition list_struct : Struct SatelliteListV CRList :=
  two_fields ListMeta_struct (slice_of as_satellites satellite_struct) v_ListMeta v_Items
    (fun v meta items => mkCRList (v_ListTypeMeta v) meta items).

(** ** Lemmas *)

Lemma HeapM_bind_Some {A B} (f : A -> HeapM B) (m : HeapM A) h b h' :
  (m ≫= f) h = Some (b, h') <-> exists a h1, m h = Some (a, h1) /\ f a h1 = Some (b, h').
Proof using Type.
  unfold mbind, HeapM_bind. destruct (m h) as [[a h1]|]; naive_solver.
Qed.

Lemma alloc_spec c h :
  exists l h', alloc c h = Some (l, h') /\ h' !! l = Some c /\ apart h h' [l].
Proof using Type.
  assert (h !! fresh (dom h) = None) as Hf by (apply not_elem_of_dom, is_fresh).
  eexists _, _. split; [reflexivity|]. split; [apply lookup_insert_eq|].
  split; [by apply insert_subseteq|]. constructor; [|constructor].
  split; [done|]. rewrite lookup_insert_eq. by eexists.
Qed.

Lemma apart_refl h : apart h h [].
Proof using Type. split; [done|constructor]. Qed.

(** Two steps, each with its own new cells. *)
Lemma apart_trans h h1 h2 ls1 ls2 :
  apart h h1 ls1 -> apart h1 h2 ls2 -> apart h h2 (ls1 ++ ls2).
Proof using Type.
  intros [Hsub1 Hls1] [Hsub2 Hls2]. split; [by etrans|]. apply Forall_app. split.
  - eapply Forall_impl; [exact Hls1|]. intros l [Hnone [c Hc]]. split; [done|].
    exists c. by eapply lookup_weaken.
  - eapply Forall_impl; [exact Hls2|]. intros l [Hnone Hsome]. split; [|done].
    by eapply lookup_weaken_None.
Qed.

Lemma apart_perm h h' ls ls' : ls ≡ₚ ls' -> apart h h' ls -> apart h h' ls'.
Proof using Type. intros Hp [Hsub Hls]. split; [done|]. by rewrite <- Hp. Qed.

(** What a value means survives allocations. *)
Lemma meaning_grow {V A} (S : Struct V A) h h' v a :
  StructOk S -> meaning S h v = Some a -> h ⊆ h' ->
  meaning S h' v = Some a /\ refs S h' v = refs S h v.
Proof using Type.
  intros Hok Hm Hsub. apply (meaning_frame S Hok _ _ _ _ Hm). intros l Hl.
  pose proof (meaning_live S Hok _ _ _ Hm) as Hlive. rewrite Forall_forall in Hlive.
  destruct (Hlive l Hl) as [c Hc]. rewrite Hc. by eapply lookup_weaken.
Qed.

(** *** The structs are well behaved *)

Lemma plain_ok {V} : StructOk (plain (V:=V)).
Proof using Type. split; cbn; [constructor|done]. Qed.

Lemma ptr_ok {A} (S : Struct loc A) : StructOk S -> StructOk (ptr S).
Proof using Type.
  intros Hok. split.
  - intros h [l|] a Hm; cbn in *; [|constructor]. apply fmap_Some in Hm as (a' & Hm & _).
    by eapply meaning_live.
  - intros h h' [l|] a Hm Hag; cbn in *; [|done]. apply fmap_Some in Hm as (a' & Hm & ->).
    by destruct (meaning_frame S Hok h h' l a' Hm Hag) as [-> ->].
Qed.

Lemma elements_ok {V A} (S : Struct V A) : StructOk S -> StructOk (elements S).
Proof using Type.
  intros Hok. split.
  - intros h vs. induction vs as [|v vs IH]; intros a Hm; cbn in *; [constructor|].
    apply bind_Some in Hm as (a1 & Hm1 & Hm). apply bind_Some in Hm as (as' & Hm2 & _).
    apply Forall_app. split; [by eapply meaning_live|by eapply IH].
  - intros h h' vs. induction vs as [|v vs IH]; intros a Hm Hag; cbn in *; [done|].
    apply bind_Some in Hm as (a1 & Hm1 & Hm). apply bind_Some in Hm as (as' & Hm2 & Hret).
    destruct (meaning_frame S Hok h h' v a1 Hm1) as [-> ->].
    { intros l Hl. apply Hag, elem_of_app. by left. }
    destruct (IH as' Hm2) as [Hm' Hr'].
    { intros l Hl. apply Hag, elem_of_app. by right. }
    cbn in Hm', Hr'. rewrite Hm'. split; [done|]. by f_equal.
Qed.

Lemma behind_ok {V A} (as_cell : Cell -> option V) (S : Struct V A) :
  StructOk S -> StructOk (behind as_cell S).
Proof using Type.
  intros Hok. split.
  - intros h l a Hm; cbn in *. apply bind_Some in Hm as (v & Hc & Hm). rewrite Hc.
    constructor; [destruct (h !! l); [by eexists|done]|]. by eapply meaning_live.
  - intros h h' l a Hm Hag; cbn in *. apply bind_Some in Hm as (v & Hc & Hm). rewrite Hc in Hag.
    assert (h' !! l = h !! l) as -> by (apply Hag; by left). rewrite Hc; cbn.
    destruct (meaning_frame S Hok h h' v a Hm) as [-> ->]; [|done].
    intros l' Hl'. apply Hag. by right.
Qed.

Lemma slice_of_ok {V A} as_slice (S : Struct V A) : StructOk S -> StructOk (slice_of as_slice S).
Proof using Type. intros Hok. by apply ptr_ok, behind_ok, elements_ok. Qed.

Lemma two_fields_ok {V V1 V2 A A1 A2} (S1 : Struct V1 A1) (S2 : Struct V2 A2)
    (f1 : V -> V1) (f2 : V -> V2) (build : V -> A1 -> A2 -> A) :
  StructOk S1 -> StructOk S2 -> StructOk (two_fields S1 S2 f1 f2 build).
Proof using Type.
  intros Hok1 Hok2. split; cbn.
  - intros h v a Hm. apply bind_Some in Hm as (a1 & Hm1 & Hm).
    apply bind_Some in Hm as (a2 & Hm2 & _).
    apply Forall_app. split; by eapply meaning_live.
  - intros h h' v a Hm Hag. apply bind_Some in Hm as (a1 & Hm1 & Hm).
    apply bind_Some in Hm as (a2 & Hm2 & Hret).
    destruct (meaning_frame S1 Hok1 h h' _ a1 Hm1) as [-> ->].
    { intros l Hl. apply Hag, elem_of_app. by left. }
    destruct (meaning_frame S2 Hok2 h h' _ a2 Hm2) as [-> ->].
    { intros l Hl. apply Hag, elem_of_app. by right. }
    done.
Qed.

(** *** The copies keep their promise *)

Lemma two_fields_copies {V V1 V2 A A1 A2} (S1 : Struct V1 A1) (S2 : Struct V2 A2)
    (f1 : V -> V1) (f2 : V -> V2) (build : V -> A1 -> A2 -> A) (put : V -> V1 -> V2 -> V)
    (copy1 : V1 -> HeapM V1) (copy2 : V2 -> HeapM V2) :
  StructOk S1 -> StructOk S2 -> deep_copies S1 copy1 -> deep_copies S2 copy2 ->
  (forall v v1 v2, f1 (put v v1 v2) = v1 /\ f2 (put v v1 v2) = v2
     /\ build (put v v1 v2) = build v) ->
  deep_copies (two_fields S1 S2 f1 f2 build)
    (fun v => v1 ← copy1 (f1 v); v2 ← copy2 (f2 v); mret (put v v1 v2)).
Proof using Type.
  intros Hok1 Hok2 Hcopy1 Hcopy2 Hput h v a Hm; cbn in Hm.
  apply bind_Some in Hm as (a1 & Hm1 & Hm). apply bind_Some in Hm as (a2 & Hm2 & Hret).
  destruct (Hcopy1 h _ a1 Hm1) as (v1 & h1 & Hc1 & Hv1 & Hap1).
  destruct (meaning_grow S2 h h1 _ a2 Hok2 Hm2 (proj1 Hap1)) as [Hm2' _].
  destruct (Hcopy2 h1 _ a2 Hm2') as (v2 & h2 & Hc2 & Hv2 & Hap2).
  destruct (meaning_grow S1 h1 h2 _ a1 Hok1 Hv1 (proj1 Hap2)) as [Hv1' Hr1].
  exists (put v v1 v2), h2. destruct (Hput v v1 v2) as (Hf1 & Hf2 & Hb). split; [|split].
  - apply HeapM_bind_Some. exists v1, h1. split; [done|].
    apply HeapM_bind_Some. by exists v2, h2.
  - cbn. rewrite Hf1, Hf2, Hb, Hv1', Hv2. exact Hret.
  - cbn. rewrite Hf1, Hf2, Hr1. by apply (apart_trans _ h1).
Qed.

Lemma elements_copies {V A} (S : Struct V A) (copy : V -> HeapM V) :
  StructOk S -> deep_copies S copy -> deep_copies (elements S) (copy_elements copy).
Proof using Type.
  intros Hok Hcopy h vs. revert h. induction vs as [|v vs IH]; intros h a Hm; cbn in Hm.
  - injection Hm as <-. exists [], h. split; [done|]. split; [done|apply apart_refl].
  - apply bind_Some in Hm as (a1 & Hm1 & Hm). apply bind_Some in Hm as (as' & Hm2 & Hret).
    destruct (Hcopy h v a1 Hm1) as (v' & h1 & Hc1 & Hv' & Hap1).
    destruct (meaning_grow (elements S) h h1 vs as' (elements_ok S Hok) Hm2 (proj1 Hap1))
      as [Hm2' _].
    destruct (IH h1 as' Hm2') as (vs' & h2 & Hc2 & Hvs' & Hap2).
    destruct (meaning_grow S h1 h2 v' a1 Hok Hv' (proj1 Hap2)) as [Hv2 Hr2].
    exists (v' :: vs'), h2. split; [|split].
    + apply HeapM_bind_Some. exists v', h1. split; [done|].
      apply HeapM_bind_Some. by exists vs', h2.
    + cbn in Hvs' |- *. rewrite Hv2; cbn. rewrite Hvs'. exact Hret.
    + cbn. rewrite Hr2. by apply (apart_trans _ h1).
Qed.

Lemma slice_copies {V A} as_slice slice (S : Struct V A) (copy : V -> HeapM V) :
  (forall vs, as_slice (slice vs) = Some vs) -> StructOk S -> deep_copies S copy ->
  deep_copies (slice_of as_slice S) (copy_slice as_slice slice copy).
Proof using Type.
  intros Hslice Hok Hcopy h [l|] a Hm; cbn in Hm.
  2:{ injection Hm as <-. exists None, h. split; [done|]. split; [done|apply apart_refl]. }
  apply fmap_Some in Hm as (as' & Hm & ->). apply bind_Some in Hm as (vs & Hl & Hm).
  destruct (elements_copies S copy Hok Hcopy h vs as' Hm) as (vs' & h1 & Hc & Hvs & Hap1).
  destruct (alloc_spec (slice vs') h1) as (l' & h2 & Ha & Hl' & Hap2).
  destruct (meaning_grow _ h1 h2 vs' as' (elements_ok S Hok) Hvs (proj1 Hap2)) as [Hvs2 Hr2].
  exists (Some l'), h2. split; [|split].
  - apply HeapM_bind_Some. exists vs, h. split; [unfold load; by rewrite Hl|].
    apply HeapM_bind_Some. exists vs', h1. split; [done|].
    apply HeapM_bind_Some. by exists l', h2.
  - cbn. rewrite Hl'; cbn. rewrite Hslice; cbn. cbn in Hvs2. by rewrite Hvs2.
  - cbn. rewrite Hl'; cbn. rewrite Hslice. cbn in Hr2. rewrite Hr2.
    apply (apart_perm _ _ (refs (elements S) h1 vs' ++ [l'])).
    + symmetry. apply Permutation_cons_append.
    + by apply (apart_trans _ h1).
Qed.

Lemma plain_copies {V} : deep_copies (plain (V:=V)) mret.
Proof using Type. intros h v a [= <-]. exists v, h. split; [done|]. split; [done|apply apart_refl]. Qed.

(** A pointer that may be nil, copied as [copy_time] does. *)
Lemma ptr_copies {A} (S : Struct loc A) (copy : loc -> HeapM loc) :
  deep_copies S copy ->
  deep_copies (ptr S)
    (fun o => match o with None => mret None | Some l => l' ← copy l; mret (Some l') end).
Proof using Type.
  intros Hcopy h [l|] a Hm; cbn in Hm.
  2:{ injection Hm as <-. exists None, h. split; [done|]. split; [done|apply apart_refl]. }
  apply fmap_Some in Hm as (t & Hm & ->).
  destruct (Hcopy h l t Hm) as (l' & h' & Hc & Ht & Hap).
  exists (Some l'), h'. split; [apply HeapM_bind_Some; eauto|]. split; [|done]. cbn. by rewrite Ht.
Qed.

(** The copy of a cell without references. *)
Lemma clone_copies {V} as_cell (cell : V -> Cell) :
  (forall v, as_cell (cell v) = Some v) ->
  deep_copies (behind as_cell plain) (fun l => v ← load as_cell l; alloc (cell v)).
Proof using Type.
  intros Hcell h l v Hm; cbn in Hm. apply bind_Some in Hm as (v' & Hl & [= ->]).
  destruct (alloc_spec (cell v) h) as (l' & h' & Ha & Hl' & Hap).
  exists l', h'. split; [|split].
  - apply HeapM_bind_Some. exists v, h. split; [unfold load; by rewrite Hl|done].
  - cbn. rewrite Hl'; cbn. by rewrite Hcell.
  - cbn. rewrite Hl'; cbn. by rewrite Hcell.
Qed.

Context `{!MetaLibOk meta_lib}.

Lemma status_ok : StructOk status_struct.
Proof using All.
  apply two_fields_ok; [apply ptr_ok, behind_ok, plain_ok|apply slice_of_ok, Condition_ok].
Qed.

Lemma satellite_ok : StructOk satellite_struct.
Proof using All. apply two_fields_ok; [apply ObjectMeta_ok|apply status_ok]. Qed.

Lemma list_ok : StructOk list_struct.
Proof using All. apply two_fields_ok; [apply ListMeta_ok|apply slice_of_ok, satellite_ok]. Qed.

Lemma status_copies : deep_copies status_struct SatelliteStatus_DeepCopyInto.
Proof using All.
  apply (two_fields_copies _ _ _ _ _ (fun i => mkStatusV (v_Phase i) (v_ManagedBy i))).
  - apply ptr_ok, behind_ok, plain_ok.
  - apply slice_of_ok, Condition_ok.
  - apply ptr_copies, Time_copies.
  - apply slice_copies; [done|apply Condition_ok|apply Condition_copies].
  - done.
Qed.

Lemma satellite_copies : deep_copies satellite_struct Satellite_DeepCopyInto.
Proof using All.
  apply (two_fields_copies _ _ _ _ _ (fun i meta => mkSatelliteV (v_TypeMeta i) meta (v_Spec i))).
  - apply ObjectMeta_ok.
  - apply status_ok.
  - apply ObjectMeta_copies.
  - apply status_copies.
  - done.
Qed.

Lemma list_copies : deep_copies list_struct SatelliteList_DeepCopyInto.
Proof using All.
  apply (two_fields_copies _ _ _ _ _ (fun i => mkSatelliteListV (v_ListTypeMeta i))).
  - apply ListMeta_ok.
  - apply slice_of_ok, satellite_ok.
  - apply ListMeta_copies.
  - apply slice_copies; [done|apply satellite_ok|apply satellite_copies].
  - done.
Qed.

(** ** Properties *)

(** A copy that can be changed without the original, and the original without it:
    on any heap where the original is well formed, the copy succeeds, means the
    same and reaches only new cells; what existed is unchanged; whatever is then
    written to cells that existed, the copy means the same, and whatever is written
    to others, the original does. Copying nil gives nil. *)
Definition independent {V A} (S : Struct V A) (DeepCopy : option V -> HeapM (option V)) : Prop :=
  (forall h, DeepCopy None h = Some (None, h))
  /\ forall h v a, meaning S h v = Some a ->
     exists v' h', DeepCopy (Some v) h = Some (Some v', h')
       /\ meaning S h' v' = Some a
       /\ apart h h' (refs S h' v')
       /\ (forall h2, (forall l, h !! l = None -> h2 !! l = h' !! l) -> meaning S h2 v' = Some a)
       /\ (forall h2, (forall l, is_Some (h !! l) -> h2 !! l = h' !! l) -> meaning S h2 v = Some a).

Lemma deep_copies_independent {V A} (S : Struct V A) (copy : V -> HeapM V) DeepCopy :
  StructOk S -> deep_copies S copy ->
  (forall h, DeepCopy None h = Some (None, h)) ->
  (forall v h v' h', copy v h = Some (v', h') -> DeepCopy (Some v) h = Some (Some v', h')) ->
  independent S DeepCopy.
Proof using Type.
  intros Hok Hcopy Hnil Hsome. split; [done|]. intros h v a Hm.
  destruct (Hcopy h v a Hm) as (v' & h' & Hc & Hm' & Hap).
  exists v', h'. split; [by apply Hsome|]. split; [done|]. split; [done|].
  destruct Hap as [Hsub Hnew]. rewrite Forall_forall in Hnew. split; intros h2 Hag.
  - apply (meaning_frame S Hok h' h2 v' a Hm'). intros l Hl. apply Hag. by apply Hnew.
  - apply (meaning_frame S Hok h h2 v a Hm). intros l Hl.
    pose proof (meaning_live S Hok _ _ _ Hm) as Hlive. rewrite Forall_forall in Hlive.
    destruct (Hlive l Hl) as [c Hc']. rewrite Hag by by eexists.
    rewrite Hc'. by eapply lookup_weaken.
Qed.

(** C36. The deep copies of a resource and of a list of resources, metadata, heartbeat
    and conditions included, succeed wherever the original is well formed; the copy
    stands for the same resources, nothing that existed is changed, and the copy
    reaches only memory that did not exist: whatever is written afterwards to memory
    that existed is not seen through the copy, and whatever is written elsewhere is
    not seen through the original. The copy of nil is nil. *)
Theorem list_deep_copy_independent :
  independent list_struct SatelliteList_DeepCopyObject
  /\ independent satellite_struct Satellite_DeepCopyObject.
Proof using All.
  split; (eapply deep_copies_independent;
    [apply list_ok || apply satellite_ok|apply list_copies || apply satellite_copies|done|]);
    intros v h v' h' Hc;
    unfold SatelliteList_DeepCopyObject, SatelliteList_DeepCopy, Satellite_DeepCopyObject,
      Satellite_DeepCopy, mbind, HeapM_bind; by rewrite Hc.
Qed.
End DeepCopy.

(** A reference instance, for the witnesses: the labels of an object are behind a
    reference, and so is the count of the items a list leaves out. *)
Module RefMeta.
Import RefK8s.
#[local] Existing Instance HeapM_ret.
#[local] Existing Instance HeapM_bind.

Inductive RefCell :=
| Labels (l : list (string * string))
| Remaining (n : Z).

#[global] Instance ref_meta : MetaTypes := {|
  LibCell := RefCell;
  ObjectMetaV := (string * string) * N * option loc;
  ListMetaV := option loc;
  ConditionV := string * string
|}.

Definition as_labels (c : Cell) : option (list (string * string)) :=
  match c with CLib (Labels l) => Some l | _ => None end.

Definition as_remaining (c : Cell) : option Z :=
  match c with CLib (Remaining n) => Some n | _ => None end.

Definition meta_struct : Struct ObjectMetaV ObjectMeta :=
  two_fields plain (slice_of as_labels plain) fst snd
    (fun _ key labels => (key, default [] labels)).

#[global] Instance ref_meta_lib : MetaLib := {|
  ObjectMeta_struct := meta_struct;
  ListMeta_struct := ptr (behind as_remaining plain);
  Condition_struct := plain;
  ObjectMeta_DeepCopyInto := fun m =>
    key ← mret m.1;
    labels ← copy_slice as_labels (fun l => CLib (Labels l)) mret m.2;
    mret (key, labels);
  ListMeta_DeepCopyInto := fun o =>
    match o with
    | None => mret None
    | Some l => l' ← (n ← load as_remaining l; alloc (CLib (Remaining n))); mret (Some l')
    end;
  Condition_DeepCopyInto := mret;
  Time_DeepCopy := fun l => t ← load as_time l; alloc (CTime t)
|}.

#[global] Instance ref_meta_ok : MetaLibOk ref_meta_lib.
Proof.
  split.
  - apply two_fields_ok; [apply plain_ok|apply slice_of_ok, plain_ok].
  - apply ptr_ok, behind_ok, plain_ok.
  - apply plain_ok.
  - apply (two_fields_copies _ _ _ _ _ (fun _ => pair));
      [apply plain_ok|apply slice_of_ok, plain_ok|apply plain_copies| |done].
    apply slice_copies; [done|apply plain_ok|apply plain_copies].
  - by apply ptr_copies, clone_copies.
  - apply plain_copies.
  - by apply clone_copies.
Qed.
End RefMeta.
