(* ===== verification/Proc.v ===== *)
(** * Proc: programs of a client process

    fleetctl and the generated HTTP client talk to the file system, the terminal
    and the network. A program is a tree of calls to them; an environment answers
    every call in whatever way it likes. *)

From S2P Require Import Prelude.
From S2P Require Import GoStd.

(** ** HTTP as a client sees it *)

Record HttpRequest := mkHttpRequest {
  q_Method : string;
  q_URL : string;
  q_Header : Header;
  q_Body : option string
}.

(** The body is the bytes it gives before its end, or before an error. *)
Record HttpResponse := mkHttpResponse {
  p_Status : string;
  p_StatusCode : Z;
  p_Header : Header;
  p_Body : string * option error
}.

(** [*http.Client] values: one made here, with its timeout in nanoseconds, or one
    the caller was given. *)
Inductive Doer := HttpClient (timeout : option Z) | GivenClient.

Inductive Stream := Stdout | Stderr.

(** ** Calls *)

(** [OsOpen] stands for opening a file and reading it to its end: the bytes, and
    the error that ended them if it was not the end of the file. [ReadString]
    reads a line of the standard input, with its newline; without one there is an
    error. *)
Inductive call : Type -> Type :=
| OsUserHomeDir : call (res string)
| OsOpen (path : string) : call (res (string * option error))
| OsMkdirAll (path : string) (perm : Z) : call (res unit)
| OsWriteFile (path content : string) (perm : Z) : call (res unit)
| HttpDo (d : Doer) (req : HttpRequest) : call (res HttpResponse)
| Fprint (s : Stream) (text : string) : call (res unit)
| TermIsTerminal : call bool
| TermReadPassword : call (res string)
| ReadString : call (string * option error).

Inductive proc (A : Type) : Type :=
| Return (a : A)
| Call {X : Type} (c : call X) (k : X -> proc A).
Arguments Return {_} _.
Arguments Call {_ _} _ _.

Definition perform {X} (c : call X) : proc X := Call c Return.

Fixpoint proc_bind {A B} (f : A -> proc B) (p : proc A) : proc B :=
  match p with
  | Return a => f a
  | Call c k => Call c (fun x => proc_bind f (k x))
  end.

#[global] Instance proc_mret : MRet proc := fun _ => Return.
#[global] Instance proc_mbind : MBind proc := @proc_bind.

(** [x, err := p; if err != nil { return wrap(err) }; k]. *)
Definition attempt {A B} (wrap : error -> error) (p : proc (res A)) (k : A -> proc (res B))
    : proc (res B) :=
  p ≫= fun r => match r with Err e => Return (Err (wrap e)) | Ok a => k a end.

(** [fmt.Errorf("...: %w", err)]. *)
Definition context (msg : string) (e : error) : error := Wrapped (msg +:+ ": ") e "".

Notation "'let?' x := p 'in' k" := (attempt id p (fun x => k))
  (at level 10, x pattern, p at level 200, k at level 200) : fleet_scope.
Notation "'let?' x := p 'or' msg 'in' k" := (attempt (context msg) p (fun x => k))
  (at level 10, x pattern, p at level 200, k at level 200) : fleet_scope.

(** A computation without calls. *)
Definition pure {A} (r : res A) : proc (res A) := Return r.

(** ** Runs *)

(** What a run leaves behind, for an observer. *)
Inductive event :=
| Sent (d : Doer) (req : HttpRequest) (answer : res HttpResponse)
| Opened (path : string) (answer : res (string * option error))
| Wrote (path content : string) (answer : res unit)
| Printed (s : Stream) (text : string).

Definition event_of {X} (c : call X) : X -> list event :=
  match c with
  | HttpDo d req => fun x => [Sent d req x]
  | OsOpen path => fun x => [Opened path x]
  | OsWriteFile path content _ => fun x => [Wrote path content x]
  | Fprint s text => fun _ => [Printed s text]
  | _ => fun _ => []
  end.

(** How the world answers a call, and what becomes of it. *)
Class Env (W : Type) := answer : forall {X}, call X -> W -> X * W.

Record Run (A W : Type) := mkRun { result : A; events : list event; world : W }.
Arguments mkRun {_ _} _ _ _.
Arguments result {_ _} _.
Arguments events {_ _} _.
Arguments world {_ _} _.

Section Runs.
Context `{Env W}.

Fixpoint exec {A} (p : proc A) (w : W) : Run A W :=
  match p with
  | Return a => mkRun a [] w
  | Call c k =>
      let (x, w') := answer c w in
      let r := exec (k x) w' in
      mkRun (result r) (event_of c x ++ events r) (world r)
  end.

Lemma exec_bind {A B} (p : proc A) (f : A -> proc B) w :
  let r := exec p w in
  let s := exec (f (result r)) (world r) in
  exec (p ≫= f) w = mkRun (result s) (events r ++ events s) (world s).
Proof using Type.
  revert w. induction p as [a|X c k IH]; intros w; cbn.
  - by destruct (exec (f a) w).
  - destruct (answer c w) as [x w']. change (proc_bind f (k x)) with (k x ≫= f).
    rewrite IH. cbn. by rewrite app_assoc.
Qed.

Lemma exec_attempt {A B} wrap (p : proc (res A)) (k : A -> proc (res B)) w :
  let r := exec p w in
  exec (attempt wrap p k) w =
  match result r with
  | Err e => mkRun (Err (wrap e)) (events r) (world r)
  | Ok a => let s := exec (k a) (world r) in
            mkRun (result s) (events r ++ events s) (world s)
  end.
Proof using Type.
  unfold attempt. rewrite exec_bind. cbn. by destruct (result (exec p w)); cbn; rewrite ?app_nil_r.
Qed.
End Runs.

(** ** What holds in every environment *)

(** Whatever the calls are answered, the run ends with [Q]. *)
Fixpoint always {A} (p : proc A) (Q : A -> list event -> Prop) : Prop :=
  match p with
  | Return a => Q a []
  | Call c k => forall x, always (k x) (fun a evs => Q a (event_of c x ++ evs))
  end.

Lemma always_mono {A} (p : proc A) (Q Q' : A -> list event -> Prop) :
  always p Q -> (forall a evs, Q a evs -> Q' a evs) -> always p Q'.
Proof.
  revert Q Q'. induction p as [a|X c k IH]; intros Q Q'; cbn; [auto|].
  intros HQ Himp x. eapply IH; [apply HQ|]. cbn. auto.
Qed.

Lemma always_bind {A B} (p : proc A) (f : A -> proc B) Q :
  always p (fun a evs => always (f a) (fun b evs' => Q b (evs ++ evs'))) ->
  always (p ≫= f) Q.
Proof.
  revert Q. induction p as [a|X c k IH]; intros Q; cbn; [auto|].
  intros HQ x. apply IH. eapply always_mono; [apply HQ|]. cbn. intros a evs Hf.
  eapply always_mono; [exact Hf|]. cbn. intros b evs'. by rewrite app_assoc.
Qed.

Lemma always_attempt {A B} wrap (p : proc (res A)) (k : A -> proc (res B)) Q :
  always p (fun r evs => match r with
                         | Err e => Q (Err (wrap e)) evs
                         | Ok a => always (k a) (fun b evs' => Q b (evs ++ evs'))
                         end) ->
  always (attempt wrap p k) Q.
Proof.
  intros Hp. apply always_bind. eapply always_mono; [exact Hp|].
  intros [a|e] evs HQ; [exact HQ|]. cbn. by rewrite app_nil_r.
Qed.

Lemma always_exec {A} `{Env W} (p : proc A) Q w :
  always p Q -> Q (result (exec p w)) (events (exec p w)).
Proof.
  revert Q w. induction p as [a|X c k IH]; intros Q w; cbn; [auto|].
  intros HQ. destruct (answer c w) as [x w']. cbn.
  apply (IH x (fun a evs => Q a (event_of c x ++ evs)) w'). auto.
Qed.

(** ** The user's files *)

(** The home directory does not change, a file that was written is read back,
    and printing changes no file. *)
Class FileSystem `(Env W) := {
  home : res string;
  home_ok w : answer OsUserHomeDir w = (home, w);
  reads_back path content perm w w' :
    answer (OsWriteFile path content perm) w = (Ok tt, w') ->
    (answer (OsOpen path) w').1 = Ok (content, None);
  print_keeps path stream text w :
    (answer (OsOpen path) (answer (Fprint stream text) w).2).1 = (answer (OsOpen path) w).1
}.

(** What every answer keeps, a run keeps: [Inv] is an invariant of the world under
    the calls whose events are as [P] says. *)
Lemma exec_invariant {A} `{Env W} (P : event -> Prop) (Inv : W -> W -> Prop) (p : proc A) w :
  PreOrder Inv ->
  (forall X (c : call X) w, Forall P (event_of c (answer c w).1) -> Inv w (answer c w).2) ->
  always p (fun _ evs => Forall P evs) -> Inv w (world (exec p w)).
Proof.
  intros Hpre Hcall. revert w. induction p as [a|X c k IH]; intros w Halways; [done|].
  cbn in Halways |- *. specialize (Hcall X c w).
  destruct (answer c w) as [x w'] eqn:Hans; cbn [fst snd] in Hcall. cbn [world].
  specialize (Halways x). etrans.
  - apply Hcall. pose proof (always_exec (k x) _ w' Halways) as Hall.
    cbn in Hall. by apply Forall_app in Hall as [? _].
  - apply IH. eapply always_mono; [exact Halways|]. intros a evs Hall. cbn in Hall.
    by apply Forall_app in Hall as [_ ?].
Qed.
