(* ===== verification/Script.v ===== *)
(** * Script: the development helper that prints a password hash ([api/scripts/hash.go]) *)

From S2P Require Import Prelude.
From S2P Require Import GoStd.
From S2P Require Import Auth.
From S2P Require Import Proc.

Section Script.
Context `{BcryptLib}.

(** The error of bcrypt is ignored: the hash is empty then. The salt is drawn from
    the entropy. *)
Definition hash_main (entropy : string) : proc unit :=
  let hash := match GenerateFromPassword entropy "admin123" DefaultCost with
              | Ok hash => hash
              | Err _ => ""
              end in
  _ ← perform (Fprint Stdout (hash +:+ chr 10)); Return tt.

(** The line it prints is a hash of the development password. *)
Lemma hash_main_prints `{!BcryptLibOk _} entropy :
  always (hash_main entropy) (fun _ evs =>
    exists hash, evs = [Printed Stdout (hash +:+ chr 10)]
      /\ CompareHashAndPassword hash "admin123" = Ok tt).
Proof.
  destruct (bcrypt_generates entropy "admin123") as [hash Hg]; [cbn; lia|].
  intros x. cbn -[GenerateFromPassword String.append]. rewrite Hg.
  exists hash. split; [done|]. by eapply bcrypt_verifies.
Qed.
End Script.
