(* ===== verification/Cobra.v ===== *)
(** * Cobra: trees of commands

    cobra is a parameter: a command is data ([Command]), and [CobraLib] says what
    becomes of a command line: which command runs, with which flags set and which
    arguments, or what is printed instead. [CobraOk] is its documented behaviour,
    [RefCobra] a small parser that has it. *)

From S2P Require Import Prelude.
From S2P Require Import GoStd.
From S2P Require Import Flags.
From S2P Require Import Proc.

(** ** Commands *)

(** The value of a flag, and a flag with its default. *)
Inductive FlagValue := StringValue (v : string) | BoolValue (v : bool).

Record Flag := mkCobraFlag {
  flag_name : string;
  flag_default : FlagValue;
  flag_usage : string;
  flag_required : bool
}.

Definition same_kind (v v' : FlagValue) : bool :=
  match v, v' with
  | StringValue _, StringValue _ | BoolValue _, BoolValue _ => true
  | _, _ => false
  end.

(** The flags a command line sets; the variable of another one keeps its default. *)
Definition Values : Type := gmap string FlagValue.

Definition string_of (f : Flag) (vals : Values) : string :=
  match default (flag_default f) (vals !! flag_name f) with StringValue v => v | BoolValue _ => "" end.
Definition bool_of (f : Flag) (vals : Values) : bool :=
  match default (flag_default f) (vals !! flag_name f) with BoolValue v => v | StringValue _ => false end.

(** [cobra.PositionalArgs]: nil, which accepts anything, or [cobra.ExactArgs(n)]. *)
Inductive PositionalArgs := AnyArgs | ExactArgs (n : nat).

Definition args_ok (a : PositionalArgs) (args : list string) : bool :=
  match a with AnyArgs => true | ExactArgs n => bool_decide (length args = n) end.

(** What a command is called with. *)
Definition Runner : Type := Values -> list string -> proc (res unit).

#[warnings="-register-all"]
Inductive Command := mkCommand {
  Use : string;
  Short : string;
  Long : string;
  SilenceErrors : bool;
  SilenceUsage : bool;
  Args : PositionalArgs;
  RunE : option Runner;
  PersistentFlags : list Flag;
  LocalFlags : list Flag;
  Commands : list Command
}.

(** [&cobra.Command{Use, Short, Args, RunE}]. *)
Definition cobra_command (use short : string) (args : PositionalArgs) (runE : option Runner) : Command :=
  mkCommand use short "" false false args runE [] [] [].

(** The methods that build a command. *)
Definition add_flag (c : Command) (f : Flag) : Command :=
  mkCommand (Use c) (Short c) (Long c) (SilenceErrors c) (SilenceUsage c) (Args c) (RunE c)
    (PersistentFlags c) (LocalFlags c ++ [f]) (Commands c).

Definition add_persistent_flag (c : Command) (f : Flag) : Command :=
  mkCommand (Use c) (Short c) (Long c) (SilenceErrors c) (SilenceUsage c) (Args c) (RunE c)
    (PersistentFlags c ++ [f]) (LocalFlags c) (Commands c).

Definition require (name : string) (f : Flag) : Flag :=
  if String.eqb (flag_name f) name
  then mkCobraFlag (flag_name f) (flag_default f) (flag_usage f) true else f.

Definition MarkFlagRequired (c : Command) (name : string) : Command :=
  mkCommand (Use c) (Short c) (Long c) (SilenceErrors c) (SilenceUsage c) (Args c) (RunE c)
    (PersistentFlags c) (map (require name) (LocalFlags c)) (Commands c).

Definition AddCommand (c : Command) (l : list Command) : Command :=
  mkCommand (Use c) (Short c) (Long c) (SilenceErrors c) (SilenceUsage c) (Args c) (RunE c)
    (PersistentFlags c) (LocalFlags c) (Commands c ++ l).

(** [Name]: the first word of the usage line. *)
Definition Name (c : Command) : string :=
  match SplitN2 (Use c) " " with Some (name, _) => name | None => Use c end.

Definition subcommand (c : Command) (name : string) : option Command :=
  find (fun c' => String.eqb (Name c') name) (Commands c).

(** The command at the end of a path and the flags it takes: its own and the
    persistent ones on the way to it. *)
Fixpoint walk (c : Command) (inherited : list Flag) (path : list string)
    : option (Command * list Flag) :=
  let inherited := inherited ++ PersistentFlags c in
  match path with
  | [] => Some (c, inherited ++ LocalFlags c)
  | name :: path => c' ← subcommand c name; walk c' inherited path
  end.

(** ** The library *)

(** What a command line comes to: a command runs, or something is printed (help,
    completions, a complaint) and [Execute] returns. *)
Inductive Plan :=
| Runs (path : list string) (vals : Values) (args : list string)
| Ends (output : list (Stream * string)) (r : res unit).

Class CobraLib := {
  plan : Command -> list string -> Plan;
  report : Command -> error -> list (Stream * string)
}.

(** What a command that runs has been given. *)
Definition accepted (c : Command) (flags : list Flag) (vals : Values) (args : list string) : Prop :=
  is_Some (RunE c) /\ args_ok (Args c) args = true
  /\ Forall (fun f => (flag_required f = true -> is_Some (vals !! flag_name f))
       /\ forall v, vals !! flag_name f = Some v -> same_kind (flag_default f) v = true) flags.

(** A word that is neither a flag nor one of the library's own commands. *)
Definition plain_word (s : string) : bool :=
  match s with String c _ => negb (has_char c "-_") | "" => false end.
Definition plain_arg (s : string) : bool :=
  match s with String c _ => negb (Ascii.eqb c "-") | "" => true end.

Definition value_text (v : FlagValue) : string :=
  match v with StringValue v => v | BoolValue true => "true" | BoolValue false => "false" end.

Definition setting (nv : string * FlagValue) : string := "--" +:+ nv.1 +:+ "=" +:+ value_text nv.2.

(** A flag that is there and of that kind, with a name that can be written. *)
Definition settable (flags : list Flag) (nv : string * FlagValue) : bool :=
  match find (fun f => String.eqb (flag_name f) nv.1) flags with
  | Some f => same_kind (flag_default f) nv.2
              && match SplitN2 nv.1 "=" with None => plain_word nv.1 | Some _ => false end
  | None => false
  end.

(** What runs is a command of the tree, called as it asks to be; a line that
    names a command without commands of its own, sets flags by name and gives the
    arguments it takes runs that command; and a command that is told to be silent
    reports nothing itself. *)
Class CobraOk `(CobraLib) := {
  runs_command c argv path vals args :
    plan c argv = Runs path vals args ->
    exists c' flags, walk c [] path = Some (c', flags) /\ accepted c' flags vals args;
  plain_line_runs c path settings args c' flags :
    walk c [] path = Some (c', flags) -> Commands c' = [] -> path <> [] ->
    Forall (fun w => plain_word w = true) path -> Forall (fun a => plain_arg a = true) args ->
    NoDup (map fst settings) -> forallb (settable flags) settings = true ->
    accepted c' flags (list_to_map settings) args ->
    plan c (path ++ map setting settings ++ args) = Runs path (list_to_map settings) args;
  silent_ends c argv out e :
    SilenceErrors c = true -> SilenceUsage c = true -> plan c argv = Ends out (Err e) -> out = [];
  silent_reports c e : SilenceErrors c = true -> SilenceUsage c = true -> report c e = []
}.

(** Print, whatever becomes of it. *)
Fixpoint print_all {A} (out : list (Stream * string)) (k : proc A) : proc A :=
  match out with
  | [] => k
  | (s, text) :: out => _ ← perform (Fprint s text); print_all out k
  end.

(** [Execute] on the root command. *)
Definition Command_Execute `{CobraLib} (c : Command) (argv : list string) : proc (res unit) :=
  match plan c argv with
  | Ends out r => print_all out (Return r)
  | Runs path vals args =>
      match walk c [] path with
      | Some (c', _) =>
          match RunE c' with
          | Some run =>
              r ← run vals args;
              match r with
              | Err e => print_all (report c e) (Return (Err e))
              | Ok _ => Return (Ok tt)
              end
          | None => Return (Ok tt)
          end
      | None => Return (Ok tt)
      end
  end.

(** ** A small parser that keeps the contract *)

Module RefCobra.

(** Follow the names of commands as far as they go. *)
Fixpoint descend (c : Command) (inherited : list Flag) (argv : list string)
    : list string * (Command * list Flag) * list string :=
  let inherited := inherited ++ PersistentFlags c in
  match argv with
  | w :: rest =>
      match (if plain_word w then subcommand c w else None) with
      | Some c' => let '(path, cf, rest) := descend c' inherited rest in (w :: path, cf, rest)
      | None => ([], (c, inherited ++ LocalFlags c), argv)
      end
  | [] => ([], (c, inherited ++ LocalFlags c), [])
  end.

Definition value_of (f : Flag) (v : string) : option FlagValue :=
  match flag_default f with
  | StringValue _ => Some (StringValue v)
  | BoolValue _ => BoolValue <$> ParseBool v
  end.

(** Flags as [--name=value]; everything else that does not start with a dash is
    an argument. *)
Definition flag_word (flags : list Flag) (w : string) : option (string * FlagValue) :=
  if HasPrefix w "--" then
    nv ← SplitN2 (TrimPrefix w "--") "=";
    f ← find (fun f => String.eqb (flag_name f) nv.1) flags;
    v ← value_of f nv.2; Some (nv.1, v)
  else None.

Fixpoint parse_line (flags : list Flag) (rest : list string) : option (Values * list string) :=
  match rest with
  | [] => Some (∅, [])
  | w :: rest =>
      if plain_arg w then va ← parse_line flags rest; Some (va.1, w :: va.2)
      else nv ← flag_word flags w; va ← parse_line flags rest; Some (<[nv.1 := nv.2]> va.1, va.2)
  end.

Definition flag_accepts (vals : Values) (f : Flag) : bool :=
  match vals !! flag_name f with
  | Some v => same_kind (flag_default f) v
  | None => negb (flag_required f)
  end.

Definition acceptb (c : Command) (flags : list Flag) (vals : Values) (args : list string) : bool :=
  bool_decide (is_Some (RunE c)) && args_ok (Args c) args && forallb (flag_accepts vals) flags.

Lemma acceptb_iff c flags vals args : acceptb c flags vals args = true <-> accepted c flags vals args.
Proof.
  unfold acceptb, accepted. rewrite !andb_true_iff, bool_decide_eq_true, forallb_forall, Forall_forall.
  setoid_rewrite <- list_elem_of_In.
  assert (forall f, flag_accepts vals f = true <->
    (flag_required f = true -> is_Some (vals !! flag_name f))
    /\ forall v, vals !! flag_name f = Some v -> same_kind (flag_default f) v = true) as Hf.
  { intros f. unfold flag_accepts. destruct (vals !! flag_name f) as [v|]; [naive_solver|].
    split; [intros Hr%negb_true_iff; split; [congruence|done]|].
    intros [Hr _]. destruct (flag_required f); [by destruct (Hr eq_refl)|done]. }
  setoid_rewrite Hf. tauto.
Qed.

Definition bad_usage : Plan := Ends [] (Err (Foreign "bad usage")).

#[global] Instance ref_cobra : CobraLib := {|
  plan c argv :=
    let '(path, (c', flags), rest) := descend c [] argv in
    match parse_line flags rest with
    | Some (vals, args) => if acceptb c' flags vals args then Runs path vals args else bad_usage
    | None => bad_usage
    end;
  report c e := if SilenceErrors c then [] else [(Stderr, "Error: " +:+ Error e +:+ chr 10)]
|}.

Lemma descend_walk argv : forall c inherited,
  let '(path, cf, _) := descend c inherited argv in walk c inherited path = Some cf.
Proof.
  induction argv as [|w rest IH]; intros c inherited; cbn [descend]; [done|].
  destruct (plain_word w); [|done]. destruct (subcommand c w) as [c'|] eqn:Hs; [|done].
  specialize (IH c' (inherited ++ PersistentFlags c)). destruct (descend c' _ rest) as [[path cf] r].
  cbn [walk]. by rewrite Hs.
Qed.

Lemma walk_descend path rest cf : forall c inherited,
  walk c inherited path = Some cf -> Commands cf.1 = [] ->
  Forall (fun w => plain_word w = true) path -> descend c inherited (path ++ rest) = (path, cf, rest).
Proof.
  induction path as [|w path IH]; intros c inherited Hw Hc Hp; cbn [walk app] in *.
  - injection Hw as <-. cbn in Hc. destruct rest as [|w rest]; cbn [descend]; [done|].
    unfold subcommand. rewrite Hc. by destruct (plain_word w).
  - apply Forall_cons in Hp as [Hw1 Hp]. cbn [descend]. rewrite Hw1.
    destruct (subcommand c w) as [c'|]; [|done]. cbn in Hw. by rewrite (IH c').
Qed.

Lemma parse_args flags args :
  Forall (fun a => plain_arg a = true) args -> parse_line flags args = Some (∅, args).
Proof. induction 1 as [|a args Ha _ IH]; [done|]. cbn [parse_line]. by rewrite Ha, IH. Qed.

Lemma SplitN2_plain n v : SplitN2 n "=" = None -> SplitN2 (n +:+ "=" +:+ v) "=" = Some (n, v).
Proof.
  change ("=" +:+ v) with (String "=" v). induction n as [|c s IH]; [done|].
  cbn [SplitN2 String.append]. destruct (Ascii.eqb c "="); [done|].
  destruct (SplitN2 s "=") as [[]|]; [done|]. intros _. by rewrite IH.
Qed.

Lemma flag_word_setting flags nv :
  settable flags nv = true -> flag_word flags (setting nv) = Some nv.
Proof.
  unfold settable, flag_word, setting. destruct (find _ flags) as [f|] eqn:Hf; [|done].
  intros [Hk Hn]%andb_true_iff. rewrite HasPrefix_app, TrimPrefix_app.
  assert (SplitN2 nv.1 "=" = None) as Hno by by destruct (SplitN2 nv.1 "="). clear Hn.
  rewrite (SplitN2_plain nv.1 (value_text nv.2)) by done.
  cbn [mbind option_bind fst snd]. rewrite Hf. cbn [mbind option_bind].
  unfold value_of. destruct nv as [n [v|[]]], (flag_default f); done.
Qed.

Lemma parse_settings flags settings args :
  Forall (fun a => plain_arg a = true) args -> forallb (settable flags) settings = true ->
  parse_line flags (map setting settings ++ args) = Some (list_to_map settings, args).
Proof.
  intros Ha. induction settings as [|nv settings IH]; [intros _; by apply parse_args|].
  intros [Hnv Hs]%andb_true_iff. cbn [map app parse_line]. change (plain_arg (setting nv)) with false.
  cbn iota. rewrite flag_word_setting, IH by done. by destruct nv.
Qed.

#[global] Instance ref_cobra_ok : CobraOk ref_cobra.
Proof.
  split.
  - intros c argv path vals args. cbn. pose proof (descend_walk argv c []) as Hw.
    destruct (descend c [] argv) as [[p [c' flags]] rest].
    destruct (parse_line flags rest) as [[vals' args']|]; [|done].
    destruct (acceptb _ _ _ _) eqn:Ha; [|done]. intros [= -> -> ->].
    exists c', flags. by rewrite acceptb_iff in Ha.
  - intros c path settings args c' flags Hw Hc _ Hp Ha _ Hs Hacc%acceptb_iff. cbn.
    rewrite (walk_descend path _ (c', flags)) by done. by rewrite parse_settings, Hacc.
  - intros c argv out e _ _. cbn. destruct (descend c [] argv) as [[p [c' flags]] rest].
    destruct (parse_line flags rest) as [[vals args]|]; [destruct (acceptb _ _ _ _)|]; unfold bad_usage; congruence.
  - intros c e He _. cbn. by rewrite He.
Qed.
End RefCobra.
