(* ===== verification/Client.v ===== *)
(** * Client: the generated HTTP client ([api/gen/client.gen.go])

    Requests, client methods and parsed responses of every operation of the
    contract. URLs ([net/url]), the rendering of path parameters and the texts of
    decoding errors are parameters. Contexts are not modelled: a cancelled one is
    an error of the request. *)

From S2P Require Import Prelude.
From S2P Require Import GoStd.
From S2P Require Import Json.
From S2P Require Import Sql.
From S2P Require Import Jwt.
From S2P Require Import Auth.
From S2P Require Import Gen.
From S2P Require Import Proc.

(** ** Libraries *)

(** [url.Parse], [URL.Parse] and [String]; [runtime.StyleParamWithLocation] for
    a simple path parameter; the error [json.Unmarshal] reports for a text. *)
Class ClientLib := {
  URL : Type;
  url_Parse : string -> res URL;
  url_ParseRef : URL -> string -> res URL;
  url_String : URL -> string;
  StyleParam : string -> UUID -> res string;
  unmarshal_error : string -> error
}.

(** A plain host: lower-case letters, digits, dots and hyphens; perhaps a port. *)
Definition host_char (c : ascii) : bool :=
  is_lower c || in_range 48 57 (byte c) || has_char c ".-".

Definition host_ok (s : string) : bool := negb (String.eqb s "") && str_forall host_char s.

Definition authority (s : string) : bool :=
  match SplitN2 s ":" with
  | Some (host, port) =>
      host_ok host && negb (String.eqb port "")
      && str_forall (fun c => in_range 48 57 (byte c)) port
  | None => host_ok s
  end.

(** A path of non-empty segments of letters, digits and hyphens, without a
    leading slash. *)
Definition path_char (c : ascii) : bool :=
  is_lower c || is_upper c || in_range 48 57 (byte c) || Ascii.eqb c "-".

Fixpoint plain_from (start : bool) (s : string) : bool :=
  match s with
  | "" => negb start
  | String c s =>
      if Ascii.eqb c "/"%char then negb start && plain_from true s
      else path_char c && plain_from false s
  end.

Definition plain_path (s : string) : bool := plain_from true s.

(** A plain base URL: [http] or [https], a plain host, and perhaps a plain path. *)
Definition plain_url (s : string) : bool :=
  let rest := if HasPrefix s "http://" then Some (TrimPrefix s "http://")
              else if HasPrefix s "https://" then Some (TrimPrefix s "https://") else None in
  match rest with
  | Some rest =>
      match SplitN2 rest "/" with
      | Some (host, path) => authority host && plain_path path
      | None => authority rest
      end
  | None => false
  end.

(** What the libraries do on plain base URLs and paths: a reference is resolved by
    appending it, after the path of the base URL if it has one, and the result is a
    URL again. *)
Class ClientLibOk `(ClientLib) `(UuidLib) := {
  url_resolves s p : plain_url s = true -> plain_path p = true ->
    exists u v w, url_Parse (s +:+ "/") = Ok u /\ url_ParseRef u ("./" +:+ p) = Ok v
      /\ url_String v = s +:+ "/" +:+ p
      /\ url_Parse (s +:+ "/" +:+ p) = Ok w /\ url_String w = s +:+ "/" +:+ p;
  StyleParam_uuid name u : StyleParam name u = Ok (uuid_String u);
  uuid_path u : uuid_String u <> "" /\ str_forall path_char (uuid_String u) = true
}.

(** Reference libraries for the witnesses. *)
Module RefClient.
#[global] Instance ref_client : ClientLib := {|
  URL := string;
  url_Parse s := if HasPrefix s "http" then Ok s else Err (Foreign "unsupported protocol scheme");
  url_ParseRef u r := Ok (u +:+ TrimPrefix r "./");
  url_String u := u;
  StyleParam _ u := Ok (RefLib.text_of u);
  unmarshal_error _ := Foreign "invalid JSON"
|}.

Lemma plain_url_http s t : plain_url s = true -> HasPrefix (s +:+ t) "http" = true.
Proof.
  unfold plain_url. intros Ho. apply HasPrefix_iff.
  destruct (HasPrefix s "http://") eqn:H1; [|destruct (HasPrefix s "https://") eqn:H2; [|done]].
  - apply HasPrefix_iff in H1 as [u ->]. by eexists.
  - apply HasPrefix_iff in H2 as [u ->]. by eexists.
Qed.

Lemma bits_path p : str_forall path_char (RefJWT.bits p) = true.
Proof. by induction p. Qed.

#[global] Instance ref_client_ok : ClientLibOk ref_client RefLib.ref_uuid.
Proof.
  split.
  - intros s p Hs Hp. exists (s +:+ "/"), (s +:+ "/" +:+ p), (s +:+ "/" +:+ p).
    cbn [url_Parse url_ParseRef url_String ref_client]. rewrite !plain_url_http by done.
    rewrite TrimPrefix_app, <- append_assoc. by split_and!.
  - done.
  - intros u. split; [done|]. cbn. apply bits_path.
Qed.
End RefClient.

Section Client.
Context `{ClientLib} `{UuidLib} `{TimeText}.

(** ** The client *)

(** An editor changes a request before it is sent, or fails. *)
Definition RequestEditorFn : Type := HttpRequest -> res HttpRequest.

Record Client := mkClient {
  Server : string;
  HTTPClient : option Doer;
  RequestEditors : list RequestEditorFn
}.

Definition ClientOption : Type := Client -> res Client.

(** [strings.HasSuffix(s, "/")]. *)
Fixpoint ends_with_slash (s : string) : bool :=
  match s with
  | "" => false
  | String c "" => Ascii.eqb c "/"%char
  | String _ s => ends_with_slash s
  end.

Fixpoint apply_options (opts : list ClientOption) (client : Client) : res Client :=
  match opts with
  | [] => Ok client
  | o :: opts => client ← o client; apply_options opts client
  end.

Definition NewClient (server : string) (opts : list ClientOption) : res Client :=
  client ← apply_options opts (mkClient server None []);
  let client :=
    if negb (ends_with_slash (Server client)) then
      mkClient (Server client +:+ "/") (HTTPClient client) (RequestEditors client)
    else client in
  Ok (mkClient (Server client)
        (match HTTPClient client with None => Some (HttpClient None) | d => d end)
        (RequestEditors client)).

Definition WithHTTPClient (doer : Doer) : ClientOption := fun c =>
  Ok (mkClient (Server c) (Some doer) (RequestEditors c)).

Definition WithRequestEditorFn (fn : RequestEditorFn) : ClientOption := fun c =>
  Ok (mkClient (Server c) (HTTPClient c) (RequestEditors c ++ [fn])).

Definition WithBaseURL (baseURL : string) : ClientOption := fun c =>
  newBaseURL ← url_Parse baseURL;
  Ok (mkClient (url_String newBaseURL) (HTTPClient c) (RequestEditors c)).

Definition NewClientWithResponses (server : string) (opts : list ClientOption) : res Client :=
  NewClient server opts.

Fixpoint run_editors (editors : list RequestEditorFn) (req : HttpRequest) : res HttpRequest :=
  match editors with
  | [] => Ok req
  | r :: editors => req ← r req; run_editors editors req
  end.

Definition applyEditors (c : Client) (req : HttpRequest)
    (additionalEditors : list RequestEditorFn) : res HttpRequest :=
  req ← run_editors (RequestEditors c) req;
  run_editors additionalEditors req.

(** What every client method does with the request made for it; calling [Do] on
    a nil doer would panic, which [NewClient] rules out. *)
Definition send (c : Client) (req : res HttpRequest) (reqEditors : list RequestEditorFn)
    : proc (res HttpResponse) :=
  match req ≫= fun req => applyEditors c req reqEditors with
  | Err err => Return (Err err)
  | Ok req => perform (HttpDo (default (HttpClient None) (HTTPClient c)) req)
  end.

(** The part all request constructors share: the operation path is made
    relative, resolved against the server and parsed again by [http.NewRequest]. *)
Definition new_request (server method operationPath : string) (body : option string)
    : res HttpRequest :=
  serverURL ← url_Parse server;
  let operationPath :=
    if HasPrefix operationPath "/" then "." +:+ operationPath else operationPath in
  queryURL ← url_ParseRef serverURL operationPath;
  u ← url_Parse (url_String queryURL);
  Ok (mkHttpRequest method (url_String u) ∅ body).

Definition add_header (req : HttpRequest) (key value : string) : HttpRequest :=
  mkHttpRequest (q_Method req) (q_URL req) (Header_Add (q_Header req) key value) (q_Body req).

(** [r.HTTPResponse.Status] and [StatusCode], or those of no response. *)
Definition status_text_of (r : option HttpResponse) : string :=
  match r with Some rsp => p_Status rsp | None => "" end.

Definition status_code_of (r : option HttpResponse) : Z :=
  match r with Some rsp => p_StatusCode rsp | None => 0 end.

(** [io.ReadAll]. *)
Definition read_all (rsp : HttpResponse) : res string :=
  match p_Body rsp with (body, None) => Ok body | (_, Some err) => Err err end.

Definition json_answer (rsp : HttpResponse) (code : Z) : bool :=
  Contains (Header_Get (p_Header rsp) "Content-Type") "json" && (p_StatusCode rsp =? code)%Z.

(** [json.Unmarshal] into a new value. *)
Definition unmarshal {A} (dec : json -> option A) (body : string) : res A :=
  match Unmarshal body ≫= dec with
  | Some dest => Ok dest
  | None => Err (unmarshal_error body)
  end.

(** ** Requests *)

Definition NewPostAuthLoginRequestWithBody (server : string) (contentType : string)
    (body : option string) : res HttpRequest :=
  req ← new_request server "POST" "/auth/login" body;
  Ok (add_header req "Content-Type" contentType).

Definition NewPostAuthLoginRequest (server : string) (body : LoginRequest) : res HttpRequest :=
  NewPostAuthLoginRequestWithBody server "application/json" (Some (encode (LoginRequest_json body))).

Definition NewGetHealthRequest (server : string) : res HttpRequest :=
  new_request server "GET" "/health" None.

Definition NewGetSatellitesRequest (server : string) : res HttpRequest :=
  new_request server "GET" "/satellites" None.

Definition NewPostSatellitesRequestWithBody (server : string) (contentType : string)
    (body : option string) : res HttpRequest :=
  req ← new_request server "POST" "/satellites" body;
  Ok (add_header req "Content-Type" contentType).

Definition NewPostSatellitesRequest (server : string) (body : CreateSatelliteRequest) : res HttpRequest :=
  NewPostSatellitesRequestWithBody server "application/json" (Some (encode (CreateSatelliteRequest_json body))).

Definition NewDeleteSatellitesIdRequest (server : string) (id : UUID) : res HttpRequest :=
  pathParam0 ← StyleParam "id" id;
  new_request server "DELETE" ("/satellites/" +:+ pathParam0) None.

Definition NewGetSatellitesIdRequest (server : string) (id : UUID) : res HttpRequest :=
  pathParam0 ← StyleParam "id" id;
  new_request server "GET" ("/satellites/" +:+ pathParam0) None.

Definition NewPatchSatellitesIdRequestWithBody (server : string) (id : UUID) (contentType : string)
    (body : option string) : res HttpRequest :=
  pathParam0 ← StyleParam "id" id;
  req ← new_request server "PATCH" ("/satellites/" +:+ pathParam0) body;
  Ok (add_header req "Content-Type" contentType).

Definition NewPatchSatellitesIdRequest (server : string) (id : UUID) (body : UpdateSatelliteRequest) : res HttpRequest :=
  NewPatchSatellitesIdRequestWithBody server id "application/json" (Some (encode (UpdateSatelliteRequest_json body))).

Definition NewPostSatellitesIdHeartbeatRequest (server : string) (id : UUID) : res HttpRequest :=
  pathParam0 ← StyleParam "id" id;
  new_request server "POST" ("/satellites/" +:+ pathParam0 +:+ "/heartbeat") None.

Definition NewGetUsersRequest (server : string) : res HttpRequest :=
  new_request server "GET" "/users" None.

Definition NewPostUsersRequestWithBody (server : string) (contentType : string)
    (body : option string) : res HttpRequest :=
  req ← new_request server "POST" "/users" body;
  Ok (add_header req "Content-Type" contentType).

Definition NewPostUsersRequest (server : string) (body : CreateUserRequest) : res HttpRequest :=
  NewPostUsersRequestWithBody server "application/json" (Some (encode (CreateUserRequest_json body))).

Definition NewDeleteUsersIdRequest (server : string) (id : UUID) : res HttpRequest :=
  pathParam0 ← StyleParam "id" id;
  new_request server "DELETE" ("/users/" +:+ pathParam0) None.

Definition NewGetVersionRequest (server : string) : res HttpRequest :=
  new_request server "GET" "/version" None.

(** ** Client methods *)

Definition PostAuthLoginWithBody (c : Client) (contentType : string) (body : option string)
    (reqEditors : list RequestEditorFn) : proc (res HttpResponse) :=
  send c (NewPostAuthLoginRequestWithBody (Server c) contentType body) reqEditors.

Definition PostAuthLogin (c : Client) (body : LoginRequest) (reqEditors : list RequestEditorFn)
    : proc (res HttpResponse) :=
  send c (NewPostAuthLoginRequest (Server c) body) reqEditors.

Definition GetHealth (c : Client) (reqEditors : list RequestEditorFn)
    : proc (res HttpResponse) :=
  send c (NewGetHealthRequest (Server c)) reqEditors.

Definition GetSatellites (c : Client) (reqEditors : list RequestEditorFn)
    : proc (res HttpResponse) :=
  send c (NewGetSatellitesRequest (Server c)) reqEditors.

Definition PostSatellitesWithBody (c : Client) (contentType : string) (body : option string)
    (reqEditors : list RequestEditorFn) : proc (res HttpResponse) :=
  send c (NewPostSatellitesRequestWithBody (Server c) contentType body) reqEditors.

Definition PostSatellites (c : Client) (body : CreateSatelliteRequest) (reqEditors : list RequestEditorFn)
    : proc (res HttpResponse) :=
  send c (NewPostSatellitesRequest (Server c) body) reqEditors.

Definition DeleteSatellitesId (c : Client) (id : UUID) (reqEditors : list RequestEditorFn)
    : proc (res HttpResponse) :=
  send c (NewDeleteSatellitesIdRequest (Server c) id) reqEditors.

Definition GetSatellitesId (c : Client) (id : UUID) (reqEditors : list RequestEditorFn)
    : proc (res HttpResponse) :=
  send c (NewGetSatellitesIdRequest (Server c) id) reqEditors.

Definition PatchSatellitesIdWithBody (c : Client) (id : UUID) (contentType : string) (body : option string)
    (reqEditors : list RequestEditorFn) : proc (res HttpResponse) :=
  send c (NewPatchSatellitesIdRequestWithBody (Server c) id contentType body) reqEditors.

Definition PatchSatellitesId (c : Client) (id : UUID) (body : UpdateSatelliteRequest) (reqEditors : list RequestEditorFn)
    : proc (res HttpResponse) :=
  send c (NewPatchSatellitesIdRequest (Server c) id body) reqEditors.

Definition PostSatellitesIdHeartbeat (c : Client) (id : UUID) (reqEditors : list RequestEditorFn)
    : proc (res HttpResponse) :=
  send c (NewPostSatellitesIdHeartbeatRequest (Server c) id) reqEditors.

Definition GetUsers (c : Client) (reqEditors : list RequestEditorFn)
    : proc (res HttpResponse) :=
  send c (NewGetUsersRequest (Server c)) reqEditors.

Definition PostUsersWithBody (c : Client) (contentType : string) (body : option string)
    (reqEditors : list RequestEditorFn) : proc (res HttpResponse) :=
  send c (NewPostUsersRequestWithBody (Server c) contentType body) reqEditors.

Definition PostUsers (c : Client) (body : CreateUserRequest) (reqEditors : list RequestEditorFn)
    : proc (res HttpResponse) :=
  send c (NewPostUsersRequest (Server c) body) reqEditors.

Definition DeleteUsersId (c : Client) (id : UUID) (reqEditors : list RequestEditorFn)
    : proc (res HttpResponse) :=
  send c (NewDeleteUsersIdRequest (Server c) id) reqEditors.

Definition GetVersion (c : Client) (reqEditors : list RequestEditorFn)
    : proc (res HttpResponse) :=
  send c (NewGetVersionRequest (Server c)) reqEditors.

(** ** The interface of the client *)

(** [ClientInterface]: what the client with parsed responses asks of a client. *)
Class ClientInterface (C : Type) := {
  ci_PostAuthLoginWithBody : C -> string -> option string -> list RequestEditorFn
    -> proc (res HttpResponse);
  ci_PostAuthLogin : C -> LoginRequest -> list RequestEditorFn -> proc (res HttpResponse);
  ci_GetHealth : C -> list RequestEditorFn -> proc (res HttpResponse);
  ci_GetSatellites : C -> list RequestEditorFn -> proc (res HttpResponse);
  ci_PostSatellitesWithBody : C -> string -> option string -> list RequestEditorFn
    -> proc (res HttpResponse);
  ci_PostSatellites : C -> CreateSatelliteRequest -> list RequestEditorFn
    -> proc (res HttpResponse);
  ci_DeleteSatellitesId : C -> UUID -> list RequestEditorFn -> proc (res HttpResponse);
  ci_GetSatellitesId : C -> UUID -> list RequestEditorFn -> proc (res HttpResponse);
  ci_PatchSatellitesIdWithBody : C -> UUID -> string -> option string
    -> list RequestEditorFn -> proc (res HttpResponse);
  ci_PatchSatellitesId : C -> UUID -> UpdateSatelliteRequest -> list RequestEditorFn
    -> proc (res HttpResponse);
  ci_PostSatellitesIdHeartbeat : C -> UUID -> list RequestEditorFn -> proc (res HttpResponse);
  ci_GetUsers : C -> list RequestEditorFn -> proc (res HttpResponse);
  ci_PostUsersWithBody : C -> string -> option string -> list RequestEditorFn
    -> proc (res HttpResponse);
  ci_PostUsers : C -> CreateUserRequest -> list RequestEditorFn -> proc (res HttpResponse);
  ci_DeleteUsersId : C -> UUID -> list RequestEditorFn -> proc (res HttpResponse);
  ci_GetVersion : C -> list RequestEditorFn -> proc (res HttpResponse)
}.

#[global] Instance Client_ClientInterface : ClientInterface Client := {|
  ci_PostAuthLoginWithBody := PostAuthLoginWithBody;
  ci_PostAuthLogin := PostAuthLogin;
  ci_GetHealth := GetHealth;
  ci_GetSatellites := GetSatellites;
  ci_PostSatellitesWithBody := PostSatellitesWithBody;
  ci_PostSatellites := PostSatellites;
  ci_DeleteSatellitesId := DeleteSatellitesId;
  ci_GetSatellitesId := GetSatellitesId;
  ci_PatchSatellitesIdWithBody := PatchSatellitesIdWithBody;
  ci_PatchSatellitesId := PatchSatellitesId;
  ci_PostSatellitesIdHeartbeat := PostSatellitesIdHeartbeat;
  ci_GetUsers := GetUsers;
  ci_PostUsersWithBody := PostUsersWithBody;
  ci_PostUsers := PostUsers;
  ci_DeleteUsersId := DeleteUsersId;
  ci_GetVersion := GetVersion
|}.

(** ** Responses *)

Record PostAuthLoginResponse := mkPostAuthLoginResponse {
  PostAuthLogin_Body : string;
  PostAuthLogin_HTTPResponse : option HttpResponse;
  PostAuthLogin_JSON200 : option LoginResponse;
  PostAuthLogin_JSON401 : option ErrorResponse
}.

Definition PostAuthLoginResponse_Status (r : PostAuthLoginResponse) : string :=
  status_text_of (PostAuthLogin_HTTPResponse r).

Definition PostAuthLoginResponse_StatusCode (r : PostAuthLoginResponse) : Z :=
  status_code_of (PostAuthLogin_HTTPResponse r).

Record GetHealthResponse := mkGetHealthResponse {
  GetHealth_Body : string;
  GetHealth_HTTPResponse : option HttpResponse;
  GetHealth_JSON200 : option HealthResponse;
  GetHealth_JSON503 : option HealthResponse
}.

Definition GetHealthResponse_Status (r : GetHealthResponse) : string :=
  status_text_of (GetHealth_HTTPResponse r).

Definition GetHealthResponse_StatusCode (r : GetHealthResponse) : Z :=
  status_code_of (GetHealth_HTTPResponse r).

Record GetSatellitesResponse := mkGetSatellitesResponse {
  GetSatellites_Body : string;
  GetSatellites_HTTPResponse : option HttpResponse;
  GetSatellites_JSON200 : option (option (list gen_Satellite));
  GetSatellites_JSON401 : option ErrorResponse
}.

Definition GetSatellitesResponse_Status (r : GetSatellitesResponse) : string :=
  status_text_of (GetSatellites_HTTPResponse r).

Definition GetSatellitesResponse_StatusCode (r : GetSatellitesResponse) : Z :=
  status_code_of (GetSatellites_HTTPResponse r).

Record PostSatellitesResponse := mkPostSatellitesResponse {
  PostSatellites_Body : string;
  PostSatellites_HTTPResponse : option HttpResponse;
  PostSatellites_JSON201 : option gen_Satellite;
  PostSatellites_JSON401 : option ErrorResponse
}.

Definition PostSatellitesResponse_Status (r : PostSatellitesResponse) : string :=
  status_text_of (PostSatellites_HTTPResponse r).

Definition PostSatellitesResponse_StatusCode (r : PostSatellitesResponse) : Z :=
  status_code_of (PostSatellites_HTTPResponse r).

Record DeleteSatellitesIdResponse := mkDeleteSatellitesIdResponse {
  DeleteSatellitesId_Body : string;
  DeleteSatellitesId_HTTPResponse : option HttpResponse;
  DeleteSatellitesId_JSON403 : option ErrorResponse;
  DeleteSatellitesId_JSON404 : option ErrorResponse
}.

Definition DeleteSatellitesIdResponse_Status (r : DeleteSatellitesIdResponse) : string :=
  status_text_of (DeleteSatellitesId_HTTPResponse r).

Definition DeleteSatellitesIdResponse_StatusCode (r : DeleteSatellitesIdResponse) : Z :=
  status_code_of (DeleteSatellitesId_HTTPResponse r).

Record GetSatellitesIdResponse := mkGetSatellitesIdResponse {
  GetSatellitesId_Body : string;
  GetSatellitesId_HTTPResponse : option HttpResponse;
  GetSatellitesId_JSON200 : option gen_Satellite;
  GetSatellitesId_JSON401 : option ErrorResponse;
  GetSatellitesId_JSON404 : option ErrorResponse
}.

Definition GetSatellitesIdResponse_Status (r : GetSatellitesIdResponse) : string :=
  status_text_of (GetSatellitesId_HTTPResponse r).

Definition GetSatellitesIdResponse_StatusCode (r : GetSatellitesIdResponse) : Z :=
  status_code_of (GetSatellitesId_HTTPResponse r).

Record PatchSatellitesIdResponse := mkPatchSatellitesIdResponse {
  PatchSatellitesId_Body : string;
  PatchSatellitesId_HTTPResponse : option HttpResponse;
  PatchSatellitesId_JSON200 : option gen_Satellite;
  PatchSatellitesId_JSON403 : option ErrorResponse;
  PatchSatellitesId_JSON404 : option ErrorResponse
}.

Definition PatchSatellitesIdResponse_Status (r : PatchSatellitesIdResponse) : string :=
  status_text_of (PatchSatellitesId_HTTPResponse r).

Definition PatchSatellitesIdResponse_StatusCode (r : PatchSatellitesIdResponse) : Z :=
  status_code_of (PatchSatellitesId_HTTPResponse r).

Record PostSatellitesIdHeartbeatResponse := mkPostSatellitesIdHeartbeatResponse {
  PostSatellitesIdHeartbeat_Body : string;
  PostSatellitesIdHeartbeat_HTTPResponse : option HttpResponse;
  PostSatellitesIdHeartbeat_JSON200 : option gen_Satellite;
  PostSatellitesIdHeartbeat_JSON404 : option ErrorResponse
}.

Definition PostSatellitesIdHeartbeatResponse_Status (r : PostSatellitesIdHeartbeatResponse) : string :=
  status_text_of (PostSatellitesIdHeartbeat_HTTPResponse r).

Definition PostSatellitesIdHeartbeatResponse_StatusCode (r : PostSatellitesIdHeartbeatResponse) : Z :=
  status_code_of (PostSatellitesIdHeartbeat_HTTPResponse r).

Record GetUsersResponse := mkGetUsersResponse {
  GetUsers_Body : string;
  GetUsers_HTTPResponse : option HttpResponse;
  GetUsers_JSON200 : option (option (list gen_User));
  GetUsers_JSON403 : option ErrorResponse
}.

Definition GetUsersResponse_Status (r : GetUsersResponse) : string :=
  status_text_of (GetUsers_HTTPResponse r).

Definition GetUsersResponse_StatusCode (r : GetUsersResponse) : Z :=
  status_code_of (GetUsers_HTTPResponse r).

Record PostUsersResponse := mkPostUsersResponse {
  PostUsers_Body : string;
  PostUsers_HTTPResponse : option HttpResponse;
  PostUsers_JSON201 : option gen_User;
  PostUsers_JSON403 : option ErrorResponse
}.

Definition PostUsersResponse_Status (r : PostUsersResponse) : string :=
  status_text_of (PostUsers_HTTPResponse r).

Definition PostUsersResponse_StatusCode (r : PostUsersResponse) : Z :=
  status_code_of (PostUsers_HTTPResponse r).

Record DeleteUsersIdResponse := mkDeleteUsersIdResponse {
  DeleteUsersId_Body : string;
  DeleteUsersId_HTTPResponse : option HttpResponse;
  DeleteUsersId_JSON403 : option ErrorResponse;
  DeleteUsersId_JSON404 : option ErrorResponse
}.

Definition DeleteUsersIdResponse_Status (r : DeleteUsersIdResponse) : string :=
  status_text_of (DeleteUsersId_HTTPResponse r).

Definition DeleteUsersIdResponse_StatusCode (r : DeleteUsersIdResponse) : Z :=
  status_code_of (DeleteUsersId_HTTPResponse r).

Record GetVersionResponse := mkGetVersionResponse {
  GetVersion_Body : string;
  GetVersion_HTTPResponse : option HttpResponse;
  GetVersion_JSON200 : option VersionResponse
}.

Definition GetVersionResponse_Status (r : GetVersionResponse) : string :=
  status_text_of (GetVersion_HTTPResponse r).

Definition GetVersionResponse_StatusCode (r : GetVersionResponse) : Z :=
  status_code_of (GetVersion_HTTPResponse r).

(** ** Parsing *)

Definition ParsePostAuthLoginResponse (rsp : HttpResponse) : res PostAuthLoginResponse :=
  bodyBytes ← read_all rsp;
  let response := mkPostAuthLoginResponse bodyBytes (Some rsp) None None in
  if json_answer rsp 200 then
    dest ← unmarshal decode_LoginResponse bodyBytes;
    Ok (mkPostAuthLoginResponse bodyBytes (Some rsp) (Some dest) None)
  else if json_answer rsp 401 then
    dest ← unmarshal decode_ErrorResponse bodyBytes;
    Ok (mkPostAuthLoginResponse bodyBytes (Some rsp) None (Some dest))
  else Ok response.

Definition ParseGetHealthResponse (rsp : HttpResponse) : res GetHealthResponse :=
  bodyBytes ← read_all rsp;
  let response := mkGetHealthResponse bodyBytes (Some rsp) None None in
  if json_answer rsp 200 then
    dest ← unmarshal decode_HealthResponse bodyBytes;
    Ok (mkGetHealthResponse bodyBytes (Some rsp) (Some dest) None)
  else if json_answer rsp 503 then
    dest ← unmarshal decode_HealthResponse bodyBytes;
    Ok (mkGetHealthResponse bodyBytes (Some rsp) None (Some dest))
  else Ok response.

Definition ParseGetSatellitesResponse (rsp : HttpResponse) : res GetSatellitesResponse :=
  bodyBytes ← read_all rsp;
  let response := mkGetSatellitesResponse bodyBytes (Some rsp) None None in
  if json_answer rsp 200 then
    dest ← unmarshal (decode_slice decode_Satellite) bodyBytes;
    Ok (mkGetSatellitesResponse bodyBytes (Some rsp) (Some dest) None)
  else if json_answer rsp 401 then
    dest ← unmarshal decode_ErrorResponse bodyBytes;
    Ok (mkGetSatellitesResponse bodyBytes (Some rsp) None (Some dest))
  else Ok response.

Definition ParsePostSatellitesResponse (rsp : HttpResponse) : res PostSatellitesResponse :=
  bodyBytes ← read_all rsp;
  let response := mkPostSatellitesResponse bodyBytes (Some rsp) None None in
  if json_answer rsp 201 then
    dest ← unmarshal decode_Satellite bodyBytes;
    Ok (mkPostSatellitesResponse bodyBytes (Some rsp) (Some dest) None)
  else if json_answer rsp 401 then
    dest ← unmarshal decode_ErrorResponse bodyBytes;
    Ok (mkPostSatellitesResponse bodyBytes (Some rsp) None (Some dest))
  else Ok response.

Definition ParseDeleteSatellitesIdResponse (rsp : HttpResponse) : res DeleteSatellitesIdResponse :=
  bodyBytes ← read_all rsp;
  let response := mkDeleteSatellitesIdResponse bodyBytes (Some rsp) None None in
  if json_answer rsp 403 then
    dest ← unmarshal decode_ErrorResponse bodyBytes;
    Ok (mkDeleteSatellitesIdResponse bodyBytes (Some rsp) (Some dest) None)
  else if json_answer rsp 404 then
    dest ← unmarshal decode_ErrorResponse bodyBytes;
    Ok (mkDeleteSatellitesIdResponse bodyBytes (Some rsp) None (Some dest))
  else Ok response.

Definition ParseGetSatellitesIdResponse (rsp : HttpResponse) : res GetSatellitesIdResponse :=
  bodyBytes ← read_all rsp;
  let response := mkGetSatellitesIdResponse bodyBytes (Some rsp) None None None in
  if json_answer rsp 200 then
    dest ← unmarshal decode_Satellite bodyBytes;
    Ok (mkGetSatellitesIdResponse bodyBytes (Some rsp) (Some dest) None None)
  else if json_answer rsp 401 then
    dest ← unmarshal decode_ErrorResponse bodyBytes;
    Ok (mkGetSatellitesIdResponse bodyBytes (Some rsp) None (Some dest) None)
  else if json_answer rsp 404 then
    dest ← unmarshal decode_ErrorResponse bodyBytes;
    Ok (mkGetSatellitesIdResponse bodyBytes (Some rsp) None None (Some dest))
  else Ok response.

Definition ParsePatchSatellitesIdResponse (rsp : HttpResponse) : res PatchSatellitesIdResponse :=
  bodyBytes ← read_all rsp;
  let response := mkPatchSatellitesIdResponse bodyBytes (Some rsp) None None None in
  if json_answer rsp 200 then
    dest ← unmarshal decode_Satellite bodyBytes;
    Ok (mkPatchSatellitesIdResponse bodyBytes (Some rsp) (Some dest) None None)
  else if json_answer rsp 403 then
    dest ← unmarshal decode_ErrorResponse bodyBytes;
    Ok (mkPatchSatellitesIdResponse bodyBytes (Some rsp) None (Some dest) None)
  else if json_answer rsp 404 then
    dest ← unmarshal decode_ErrorResponse bodyBytes;
    Ok (mkPatchSatellitesIdResponse bodyBytes (Some rsp) None None (Some dest))
  else Ok response.

Definition ParsePostSatellitesIdHeartbeatResponse (rsp : HttpResponse) : res PostSatellitesIdHeartbeatResponse :=
  bodyBytes ← read_all rsp;
  let response := mkPostSatellitesIdHeartbeatResponse bodyBytes (Some rsp) None None in
  if json_answer rsp 200 then
    dest ← unmarshal decode_Satellite bodyBytes;
    Ok (mkPostSatellitesIdHeartbeatResponse bodyBytes (Some rsp) (Some dest) None)
  else if json_answer rsp 404 then
    dest ← unmarshal decode_ErrorResponse bodyBytes;
    Ok (mkPostSatellitesIdHeartbeatResponse bodyBytes (Some rsp) None (Some dest))
  else Ok response.

Definition ParseGetUsersResponse (rsp : HttpResponse) : res GetUsersResponse :=
  bodyBytes ← read_all rsp;
  let response := mkGetUsersResponse bodyBytes (Some rsp) None None in
  if json_answer rsp 200 then
    dest ← unmarshal (decode_slice decode_User) bodyBytes;
    Ok (mkGetUsersResponse bodyBytes (Some rsp) (Some dest) None)
  else if json_answer rsp 403 then
    dest ← unmarshal decode_ErrorResponse bodyBytes;
    Ok (mkGetUsersResponse bodyBytes (Some rsp) None (Some dest))
  else Ok response.

Definition ParsePostUsersResponse (rsp : HttpResponse) : res PostUsersResponse :=
  bodyBytes ← read_all rsp;
  let response := mkPostUsersResponse bodyBytes (Some rsp) None None in
  if json_answer rsp 201 then
    dest ← unmarshal decode_User bodyBytes;
    Ok (mkPostUsersResponse bodyBytes (Some rsp) (Some dest) None)
  else if json_answer rsp 403 then
    dest ← unmarshal decode_ErrorResponse bodyBytes;
    Ok (mkPostUsersResponse bodyBytes (Some rsp) None (Some dest))
  else Ok response.

Definition ParseDeleteUsersIdResponse (rsp : HttpResponse) : res DeleteUsersIdResponse :=
  bodyBytes ← read_all rsp;
  let response := mkDeleteUsersIdResponse bodyBytes (Some rsp) None None in
  if json_answer rsp 403 then
    dest ← unmarshal decode_ErrorResponse bodyBytes;
    Ok (mkDeleteUsersIdResponse bodyBytes (Some rsp) (Some dest) None)
  else if json_answer rsp 404 then
    dest ← unmarshal decode_ErrorResponse bodyBytes;
    Ok (mkDeleteUsersIdResponse bodyBytes (Some rsp) None (Some dest))
  else Ok response.

Definition ParseGetVersionResponse (rsp : HttpResponse) : res GetVersionResponse :=
  bodyBytes ← read_all rsp;
  let response := mkGetVersionResponse bodyBytes (Some rsp) None in
  if json_answer rsp 200 then
    dest ← unmarshal decode_VersionResponse bodyBytes;
    Ok (mkGetVersionResponse bodyBytes (Some rsp) (Some dest))
  else Ok response.

(** ** Methods with parsed responses *)

Section Responses.
Context {C : Type} `{ClientInterface C}.

Definition PostAuthLoginWithBodyWithResponse (c : C) (contentType : string)
    (body : option string) (reqEditors : list RequestEditorFn) : proc (res PostAuthLoginResponse) :=
  let? rsp := ci_PostAuthLoginWithBody c contentType body reqEditors in
  Return (ParsePostAuthLoginResponse rsp).

Definition PostAuthLoginWithResponse (c : C) (body : LoginRequest)
    (reqEditors : list RequestEditorFn) : proc (res PostAuthLoginResponse) :=
  let? rsp := ci_PostAuthLogin c body reqEditors in
  Return (ParsePostAuthLoginResponse rsp).

Definition GetHealthWithResponse (c : C) (reqEditors : list RequestEditorFn)
    : proc (res GetHealthResponse) :=
  let? rsp := ci_GetHealth c reqEditors in
  Return (ParseGetHealthResponse rsp).

Definition GetSatellitesWithResponse (c : C) (reqEditors : list RequestEditorFn)
    : proc (res GetSatellitesResponse) :=
  let? rsp := ci_GetSatellites c reqEditors in
  Return (ParseGetSatellitesResponse rsp).

Definition PostSatellitesWithBodyWithResponse (c : C) (contentType : string)
    (body : option string) (reqEditors : list RequestEditorFn) : proc (res PostSatellitesResponse) :=
  let? rsp := ci_PostSatellitesWithBody c contentType body reqEditors in
  Return (ParsePostSatellitesResponse rsp).

Definition PostSatellitesWithResponse (c : C) (body : CreateSatelliteRequest)
    (reqEditors : list RequestEditorFn) : proc (res PostSatellitesResponse) :=
  let? rsp := ci_PostSatellites c body reqEditors in
  Return (ParsePostSatellitesResponse rsp).

Definition DeleteSatellitesIdWithResponse (c : C) (id : UUID) (reqEditors : list RequestEditorFn)
    : proc (res DeleteSatellitesIdResponse) :=
  let? rsp := ci_DeleteSatellitesId c id reqEditors in
  Return (ParseDeleteSatellitesIdResponse rsp).

Definition GetSatellitesIdWithResponse (c : C) (id : UUID) (reqEditors : list RequestEditorFn)
    : proc (res GetSatellitesIdResponse) :=
  let? rsp := ci_GetSatellitesId c id reqEditors in
  Return (ParseGetSatellitesIdResponse rsp).

Definition PatchSatellitesIdWithBodyWithResponse (c : C) (id : UUID) (contentType : string)
    (body : option string) (reqEditors : list RequestEditorFn) : proc (res PatchSatellitesIdResponse) :=
  let? rsp := ci_PatchSatellitesIdWithBody c id contentType body reqEditors in
  Return (ParsePatchSatellitesIdResponse rsp).

Definition PatchSatellitesIdWithResponse (c : C) (id : UUID) (body : UpdateSatelliteRequest)
    (reqEditors : list RequestEditorFn) : proc (res PatchSatellitesIdResponse) :=
  let? rsp := ci_PatchSatellitesId c id body reqEditors in
  Return (ParsePatchSatellitesIdResponse rsp).

Definition PostSatellitesIdHeartbeatWithResponse (c : C) (id : UUID) (reqEditors : list RequestEditorFn)
    : proc (res PostSatellitesIdHeartbeatResponse) :=
  let? rsp := ci_PostSatellitesIdHeartbeat c id reqEditors in
  Return (ParsePostSatellitesIdHeartbeatResponse rsp).

Definition GetUsersWithResponse (c : C) (reqEditors : list RequestEditorFn)
    : proc (res GetUsersResponse) :=
  let? rsp := ci_GetUsers c reqEditors in
  Return (ParseGetUsersResponse rsp).

Definition PostUsersWithBodyWithResponse (c : C) (contentType : string)
    (body : option string) (reqEditors : list RequestEditorFn) : proc (res PostUsersResponse) :=
  let? rsp := ci_PostUsersWithBody c contentType body reqEditors in
  Return (ParsePostUsersResponse rsp).

Definition PostUsersWithResponse (c : C) (body : CreateUserRequest)
    (reqEditors : list RequestEditorFn) : proc (res PostUsersResponse) :=
  let? rsp := ci_PostUsers c body reqEditors in
  Return (ParsePostUsersResponse rsp).

Definition DeleteUsersIdWithResponse (c : C) (id : UUID) (reqEditors : list RequestEditorFn)
    : proc (res DeleteUsersIdResponse) :=
  let? rsp := ci_DeleteUsersId c id reqEditors in
  Return (ParseDeleteUsersIdResponse rsp).

Definition GetVersionWithResponse (c : C) (reqEditors : list RequestEditorFn)
    : proc (res GetVersionResponse) :=
  let? rsp := ci_GetVersion c reqEditors in
  Return (ParseGetVersionResponse rsp).

(** [ClientWithResponsesInterface]: the same operations with parsed responses. *)
Class ClientWithResponsesInterface (C : Type) := {
  cwr_PostAuthLoginWithBodyWithResponse : C -> string -> option string
    -> list RequestEditorFn -> proc (res PostAuthLoginResponse);
  cwr_PostAuthLoginWithResponse : C -> LoginRequest -> list RequestEditorFn
    -> proc (res PostAuthLoginResponse);
  cwr_GetHealthWithResponse : C -> list RequestEditorFn -> proc (res GetHealthResponse);
  cwr_GetSatellitesWithResponse : C -> list RequestEditorFn -> proc (res GetSatellitesResponse);
  cwr_PostSatellitesWithBodyWithResponse : C -> string -> option string
    -> list RequestEditorFn -> proc (res PostSatellitesResponse);
  cwr_PostSatellitesWithResponse : C -> CreateSatelliteRequest -> list RequestEditorFn
    -> proc (res PostSatellitesResponse);
  cwr_DeleteSatellitesIdWithResponse : C -> UUID -> list RequestEditorFn
    -> proc (res DeleteSatellitesIdResponse);
  cwr_GetSatellitesIdWithResponse : C -> UUID -> list RequestEditorFn
    -> proc (res GetSatellitesIdResponse);
  cwr_PatchSatellitesIdWithBodyWithResponse : C -> UUID -> string -> option string
    -> list RequestEditorFn -> proc (res PatchSatellitesIdResponse);
  cwr_PatchSatellitesIdWithResponse : C -> UUID -> UpdateSatelliteRequest
    -> list RequestEditorFn -> proc (res PatchSatellitesIdResponse);
  cwr_PostSatellitesIdHeartbeatWithResponse : C -> UUID -> list RequestEditorFn
    -> proc (res PostSatellitesIdHeartbeatResponse);
  cwr_GetUsersWithResponse : C -> list RequestEditorFn -> proc (res GetUsersResponse);
  cwr_PostUsersWithBodyWithResponse : C -> string -> option string
    -> list RequestEditorFn -> proc (res PostUsersResponse);
  cwr_PostUsersWithResponse : C -> CreateUserRequest -> list RequestEditorFn
    -> proc (res PostUsersResponse);
  cwr_DeleteUsersIdWithResponse : C -> UUID -> list RequestEditorFn
    -> proc (res DeleteUsersIdResponse);
  cwr_GetVersionWithResponse : C -> list RequestEditorFn -> proc (res GetVersionResponse)
}.

#[global] Instance ClientWithResponses_interface : ClientWithResponsesInterface C := {|
  cwr_PostAuthLoginWithBodyWithResponse := PostAuthLoginWithBodyWithResponse;
  cwr_PostAuthLoginWithResponse := PostAuthLoginWithResponse;
  cwr_GetHealthWithResponse := GetHealthWithResponse;
  cwr_GetSatellitesWithResponse := GetSatellitesWithResponse;
  cwr_PostSatellitesWithBodyWithResponse := PostSatellitesWithBodyWithResponse;
  cwr_PostSatellitesWithResponse := PostSatellitesWithResponse;
  cwr_DeleteSatellitesIdWithResponse := DeleteSatellitesIdWithResponse;
  cwr_GetSatellitesIdWithResponse := GetSatellitesIdWithResponse;
  cwr_PatchSatellitesIdWithBodyWithResponse := PatchSatellitesIdWithBodyWithResponse;
  cwr_PatchSatellitesIdWithResponse := PatchSatellitesIdWithResponse;
  cwr_PostSatellitesIdHeartbeatWithResponse := PostSatellitesIdHeartbeatWithResponse;
  cwr_GetUsersWithResponse := GetUsersWithResponse;
  cwr_PostUsersWithBodyWithResponse := PostUsersWithBodyWithResponse;
  cwr_PostUsersWithResponse := PostUsersWithResponse;
  cwr_DeleteUsersIdWithResponse := DeleteUsersIdWithResponse;
  cwr_GetVersionWithResponse := GetVersionWithResponse
|}.
End Responses.
End Client.
