(* ===== verification/CliConfig.v ===== *)
(** * CliConfig: the configuration of fleetctl ([fleetctl/internal/runtime/runtime.go])

    Where the configuration file is, how it is read and written, and the API
    client made from it. *)

From S2P Require Import Prelude.
From S2P Require Import GoStd.
From S2P Require Import Utf8.
From S2P Require Import Json.
From S2P Require Import Strconv.
From S2P Require Import Sql.
From S2P Require Import Jwt.
From S2P Require Import Auth.
From S2P Require Import Gen.
From S2P Require Import Proc.
From S2P Require Import Client.

(** ** path/filepath (on Unix) *)

Fixpoint split_slash (s : string) : list string :=
  match s with
  | "" => [""]
  | String c s' =>
      if Ascii.eqb c "/"%char then "" :: split_slash s'
      else match split_slash s' with
           | seg :: segs => String c seg :: segs
           | [] => [String c ""]
           end
  end.

(** [filepath.Clean]: the elements kept so far, the last one first. *)
Definition clean_element (rooted : bool) (out : list string) (elem : string) : list string :=
  if String.eqb elem "" || String.eqb elem "." then out
  else if String.eqb elem ".." then
    match out with
    | last :: out' => if String.eqb last ".." then elem :: out else out'
    | [] => if rooted then [] else [elem]
    end
  else elem :: out.

Definition Clean (path : string) : string :=
  let rooted := HasPrefix path "/" in
  let out := rev (fold_left (clean_element rooted) (split_slash path) []) in
  let body := sep_concat "/" out in
  if rooted then "/" +:+ body else if String.eqb body "" then "." else body.

(** [filepath.Join]: from the first element that is not empty. *)
Definition Join (elems : list string) : string :=
  match drop_while (fun e => String.eqb e "") elems with
  | [] => ""
  | elems => Clean (sep_concat "/" elems)
  end.

(** The path up to and including its last slash. *)
Fixpoint upto_slash (s : string) : string :=
  match s with
  | "" => ""
  | String c s' =>
      let t := upto_slash s' in
      if Ascii.eqb c "/"%char || negb (String.eqb t "") then String c t else ""
  end.

(** [filepath.Dir]. *)
Definition Dir (path : string) : string := Clean (upto_slash path).

Example clean_ex : Clean "/a/./b//../c/" = "/a/c" /\ Clean "../x/.." = ".." /\ Dir "/a/b.yaml" = "/a"
  /\ Dir "b.yaml" = "." /\ Join ["/home/u"; ".fleetctl"; "config.yaml"] = "/home/u/.fleetctl/config.yaml".
Proof. repeat split. Qed.

(** ** bufio.Scanner

    Lines without their newline and carriage return. A line of 65536 bytes or
    more does not fit the scanner's buffer: the scan stops there with an error. *)

Definition MaxScanTokenSize : Z := 65536.

(** The raw lines of a text: the last one has no newline, and is no line when it
    is empty. *)
Fixpoint raw_lines (s : string) : list string :=
  match s with
  | "" => []
  | String c s' =>
      if Ascii.eqb c newline then "" :: raw_lines s'
      else match raw_lines s' with
           | l :: ls => String c l :: ls
           | [] => [String c ""]
           end
  end.

(** [dropCR]. *)
Fixpoint dropCR (s : string) : string :=
  match s with
  | "" => ""
  | String c "" => if N.eqb (byte c) 13 then "" else s
  | String c s' => String c (dropCR s')
  end.

(** The lines the scanner gives, and whether it stopped at one that is too long. *)
Fixpoint scan_lines (raw : list string) : list string * bool :=
  match raw with
  | [] => ([], false)
  | l :: raw =>
      if (MaxScanTokenSize <=? Z.of_nat (String.length l))%Z then ([], true)
      else let (ls, toolong) := scan_lines raw in (dropCR l :: ls, toolong)
  end.

Definition ErrTooLong : error := Foreign "bufio.Scanner: token too long".

(** Scanning a file to the end: its lines and [scanner.Err()]. *)
Definition Scan (file : string * option error) : list string * option error :=
  let (ls, toolong) := scan_lines (raw_lines file.1) in
  (ls, if toolong then Some ErrTooLong else file.2).

(** ** The configuration *)

Definition DefaultServer : string := "http://localhost:8080".
Definition DefaultHTTPTimeout : Z := (15 * Second)%Z.

Record Config := mkConfig { cfg_Server : string; cfg_Token : string }.

Record Options := mkOptions { ConfigPath : string; opt_Server : string; opt_HTTPClient : option Doer }.

(** [os.IsNotExist] knows the errors of the system. *)
Class OsLib := { IsNotExist : error -> bool }.

Definition DefaultConfigPath : proc (res string) :=
  let? home := perform OsUserHomeDir in
  Return (Ok (Join [home; ".fleetctl"; "config.yaml"])).

Definition path (o : Options) : proc (res string) :=
  if negb (String.eqb (ConfigPath o) "") then Return (Ok (ConfigPath o)) else DefaultConfigPath.

Definition override_server (o : Options) (cfg : Config) : Config :=
  if negb (String.eqb (opt_Server o) "") then mkConfig (opt_Server o) (cfg_Token cfg) else cfg.

(** The value of a line: unquoted if it is a quoted string. *)
Definition config_value (text : string) : string :=
  let value := TrimSpace text in
  match Unquote value with Some unquoted => unquoted | None => value end.

(** What one line of the file does. *)
Definition config_line (cfg : Config) (line : string) : Config :=
  match SplitN2 line ":" with
  | None => cfg
  | Some (k, v) =>
      let key := TrimSpace k in
      if String.eqb key "server" then mkConfig (config_value v) (cfg_Token cfg)
      else if String.eqb key "token" then mkConfig (cfg_Server cfg) (config_value v)
      else cfg
  end.

Section Config.
Context `{OsLib} `{UnicodeTables} `{ClientLib}.

(** What [Load] makes of the file, or of the error of opening it. *)
Definition config_of (o : Options) (f : res (string * option error)) : res Config :=
  let cfg := mkConfig DefaultServer "" in
  match f with
  | Err err => if IsNotExist err then Ok (override_server o cfg) else Err err
  | Ok f =>
      let (lines, err) := Scan f in
      let cfg := fold_left config_line lines cfg in
      match err with
      | Some err => Err err
      | None => Ok (override_server o cfg)
      end
  end.

Definition Load (o : Options) : proc (res Config) :=
  let? p := path o in
  f ← perform (OsOpen p);
  Return (config_of o f).

(** The text of the file. *)
Definition config_text (cfg : Config) : string :=
  "server: " +:+ Quote (cfg_Server cfg) +:+ chr 10
  +:+ "token: " +:+ Quote (cfg_Token cfg) +:+ chr 10.

(** The directory is created with mode 0700, the file with mode 0600. *)
Definition Save (o : Options) (cfg : Config) : proc (res unit) :=
  let? p := path o in
  let? _ := perform (OsMkdirAll (Dir p) 448) in
  perform (OsWriteFile p (config_text cfg) 384).

(** Sets the [Authorization] header. *)
Definition bearer_editor (token : string) : RequestEditorFn := fun req =>
  Ok (mkHttpRequest (q_Method req) (q_URL req)
        (Header_Set (q_Header req) "Authorization" ("Bearer " +:+ token)) (q_Body req)).

Definition NewAPIClient (o : Options) (cfg : Config) : res Client :=
  let httpClient := match opt_HTTPClient o with
                    | None => HttpClient (Some DefaultHTTPTimeout)
                    | Some c => c
                    end in
  NewClientWithResponses (TrimRight (cfg_Server cfg) "/") [WithHTTPClient httpClient].

Definition Options_Client (o : Options) (requireAuth : bool)
    : proc (res (Client * list RequestEditorFn)) :=
  let? cfg := Load o or "load config" in
  if requireAuth && String.eqb (cfg_Token cfg) "" then
    Return (Err (Foreign "not logged in; run fleetctl login"))
  else
    match NewAPIClient o cfg with
    | Err err => Return (Err (context "create API client" err))
    | Ok client =>
        if String.eqb (cfg_Token cfg) "" then Return (Ok (client, []))
        else Return (Ok (client, [bearer_editor (cfg_Token cfg)]))
    end.
End Config.

(** ** Lemmas *)

(** *** Quoted text is one line *)

Lemma hex_char_no_newline n : (n < 16)%N -> has_char newline (hex_char n) = false.
Proof. revert n. by apply below_16. Qed.

Lemma hex_digits_no_newline k r : has_char newline (hex_digits k r) = false.
Proof.
  induction k as [|k IH]; cbn [hex_digits]; [done|].
  rewrite has_char_append, IH, hex_char_no_newline by (by apply N.mod_lt). done.
Qed.

Lemma control_escape_no_newline r e : control_escape r = Some e -> has_char newline e = false.
Proof. unfold control_escape. intros He. repeat case_match; by simplify_eq. Qed.

Lemma wide_no_newline c s : str_forall (fun d => 128 <=? byte d)%N s = true ->
  (byte c < 128)%N -> has_char c s = false.
Proof.
  intros Hs Hc. induction s as [|d s IH]; cbn in *; [done|].
  apply andb_true_iff in Hs as [Hd%N.leb_le Hs]. rewrite IH, orb_false_r by done.
  apply Ascii.eqb_neq. intros <-. lia.
Qed.

Lemma decoded_wide s r w :
  decoded s r w -> (128 <= r)%N -> str_forall (fun d => 128 <=? byte d)%N (str_take w s) = true.
Proof.
  intros Hd Hr. destruct Hd; cbn; [lia|..];
    rewrite !(proj2 (N.leb_le _ _)) by (repeat case_match; lia); done.
Qed.

Lemma str_take_all s : str_take (String.length s) s = s.
Proof. induction s as [|c s IH]; cbn; [done|]. by rewrite IH. Qed.

Section Quoted.
Context `{UnicodeTables} `{!UnicodeTablesOk _}.

Lemma quote_rune_no_newline rw : rune_of rw -> has_char newline (quote_rune rw) = false.
Proof using All.
  intros [c Hc|r w k Hd -> Hw].
  - unfold quote_rune. cbn -[hex_digits newline byte]. by rewrite hex_digits_no_newline.
  - unfold quote_rune. destruct (_ && _).
    { destruct w; [done|]. rewrite has_char_append, hex_digits_no_newline. done. }
    destruct (N.eqb_spec r (byte dquote)) as [->|]; [done|].
    destruct (N.eqb_spec r (byte backslash)) as [->|]; [done|]. cbn [orb].
    destruct (IsPrint r) eqn:Hp.
    { destruct (N.lt_ge_cases r 128) as [Hr|Hr].
      - rewrite EncodeRune_ascii by done. rewrite IsPrint_ascii in Hp by done.
        unfold chr. cbn [has_char]. rewrite orb_false_r. apply Ascii.eqb_neq. intros Heq.
        apply (f_equal byte) in Heq. unfold byte in Heq at 2.
        rewrite N_ascii_embedding in Heq by lia. subst r. done.
      - rewrite <- Hw. apply wide_no_newline; [|done].
        pose proof (decoded_wide _ _ _ Hd Hr) as Hwide. by rewrite str_take_all in Hwide. }
    destruct (control_escape r) as [e|] eqn:He; [by eapply control_escape_no_newline|].
    repeat case_match; by rewrite has_char_append, hex_digits_no_newline.
Qed.

Lemma Quote_no_newline s : has_char newline (Quote s) = false.
Proof using All.
  unfold Quote. cbn -[newline dquote]. rewrite has_char_append.
  change (Ascii.eqb newline dquote) with false. cbn -[newline dquote].
  change (Ascii.eqb newline dquote) with false. rewrite orb_false_r. cbn [orb].
  pose proof (string_runes_rune_of s) as Hl. induction Hl as [|rw l Hrw Hl IH]; [done|].
  cbn [map str_concat]. by rewrite has_char_append, quote_rune_no_newline, IH.
Qed.
End Quoted.

(** *** Lines *)

Lemma raw_lines_line l s :
  has_char newline l = false -> raw_lines (l +:+ String newline s) = l :: raw_lines s.
Proof.
  induction l as [|c l IH]; cbn -[newline]; [done|].
  intros [Hc Hl]%orb_false_iff. rewrite Ascii.eqb_sym, Hc. by rewrite IH.
Qed.

Lemma dropCR_keep s c : N.eqb (byte c) 13 = false -> dropCR (s +:+ String c "") = s +:+ String c "".
Proof.
  intros Hc. induction s as [|d s IH]; cbn -[N.eqb byte]; [by rewrite Hc|].
  rewrite IH. by destruct s.
Qed.

Lemma SplitN2_first a b c : has_char c a = false -> SplitN2 (a +:+ String c b) c = Some (a, b).
Proof.
  induction a as [|d a IH]; cbn; [by rewrite Ascii.eqb_refl|].
  intros [Hd Ha]%orb_false_iff. rewrite Ascii.eqb_sym, Hd. by rewrite IH.
Qed.

Section RoundTrip.
Context `{OsLib} `{UnicodeTables} `{!UnicodeTablesOk _}.

Lemma config_value_Quote s : config_value (" " +:+ Quote s) = s.
Proof using UnicodeTablesOk0.
  unfold config_value.
  assert (TrimSpace (" " +:+ Quote s) = Quote s) as ->; [by apply TrimSpace_between|].
  by rewrite Unquote_Quote.
Qed.

(** What a line of the file gives back. *)
Lemma config_line_server s cfg :
  config_line cfg ("server: " +:+ Quote s) = mkConfig s (cfg_Token cfg).
Proof using UnicodeTablesOk0.
  unfold config_line. change ("server: " +:+ Quote s) with ("server" +:+ String ":" (" " +:+ Quote s)).
  rewrite SplitN2_first by done.
  change (TrimSpace "server") with "server". by rewrite config_value_Quote.
Qed.

Lemma config_line_token s cfg :
  config_line cfg ("token: " +:+ Quote s) = mkConfig (cfg_Server cfg) s.
Proof using UnicodeTablesOk0.
  unfold config_line. change ("token: " +:+ Quote s) with ("token" +:+ String ":" (" " +:+ Quote s)).
  rewrite SplitN2_first by done.
  change (TrimSpace "token") with "token". by rewrite config_value_Quote.
Qed.

Definition server_line (cfg : Config) : string := "server: " +:+ Quote (cfg_Server cfg).
Definition token_line (cfg : Config) : string := "token: " +:+ Quote (cfg_Token cfg).

Lemma config_lines cfg : raw_lines (config_text cfg) = [server_line cfg; token_line cfg].
Proof using UnicodeTablesOk0.
  unfold config_text. change (chr 10) with (String newline "").
  change (String newline "" +:+ "token: " +:+ Quote (cfg_Token cfg) +:+ String newline "")
    with (String newline ("token: " +:+ Quote (cfg_Token cfg) +:+ String newline "")).
  rewrite append_assoc, raw_lines_line.
  - rewrite append_assoc, raw_lines_line; [done|].
    by rewrite has_char_append, Quote_no_newline.
  - by rewrite has_char_append, Quote_no_newline.
Qed.

Lemma quoted_dropCR p s : dropCR (p +:+ Quote s) = p +:+ Quote s.
Proof using Type.
  unfold Quote. change (String dquote ?x) with (String dquote "" +:+ x).
  set (b := str_concat _). rewrite !append_assoc. by apply dropCR_keep.
Qed.

(** Both lines fit the scanner's buffer. *)
Definition fits (cfg : Config) : bool :=
  (Z.of_nat (String.length (server_line cfg)) <? MaxScanTokenSize)%Z
  && (Z.of_nat (String.length (token_line cfg)) <? MaxScanTokenSize)%Z.

Lemma Scan_config cfg :
  if fits cfg then
    (Scan (config_text cfg, None)).2 = None
    /\ forall c, fold_left config_line (Scan (config_text cfg, None)).1 c = cfg
  else (Scan (config_text cfg, None)).2 = Some ErrTooLong.
Proof using UnicodeTablesOk0.
  unfold Scan, fits. cbn [fst snd]. rewrite config_lines. cbn [scan_lines].
  rewrite !Z.leb_antisym. destruct (Z.ltb _ _); [|done]. cbn [negb andb].
  destruct (Z.ltb _ _); [|done]. cbn [negb].
  unfold server_line, token_line. rewrite !quoted_dropCR. split; [done|].
  intros c. cbn [fold_left fst].
  rewrite config_line_server, config_line_token. by destruct cfg.
Qed.
End RoundTrip.

(** ** Properties *)

Section Files.
Context `{OsLib} `{UnicodeTables} `{!UnicodeTablesOk _} `{FileSystem W}.

(** The path does not depend on the state of the world. *)
Lemma path_exec o :
  exists p, forall w : W, exec (path o) w = mkRun p [] w.
Proof using All.
  unfold path. destruct (negb _); [by eexists|]. unfold DefaultConfigPath.
  exists (match home with Ok h => Ok (Join [h; ".fleetctl"; "config.yaml"]) | Err e => Err e end).
  intros w'. rewrite exec_attempt. cbn. rewrite home_ok. cbn. by destruct home.
Qed.

(** A successful save ends with writing the file. *)
Lemma save_exec o cfg (w : W) :
  result (exec (Save o cfg) w) = Ok tt ->
  exists p w1 w2, (forall w, exec (path o) w = mkRun (Ok p) [] w)
    /\ answer (OsWriteFile p (config_text cfg) 384) w1 = (Ok tt, w2)
    /\ world (exec (Save o cfg) w) = w2.
Proof using All.
  destruct (path_exec o) as [p Hp]. unfold Save. generalize (config_text cfg) as text.
  intros text. rewrite exec_attempt, Hp. cbn.
  destruct p as [p|e]; cbn; [|done].
  destruct (answer (OsMkdirAll (Dir p) 448) w) as [[[]|e] w1]; cbn; [|done].
  destruct (answer (OsWriteFile p text 384) w1) as [r w2] eqn:Hw; cbn.
  intros ->. by exists p, w1, w2.
Qed.

(** Loading gives what the file says. *)
Lemma load_exec o p (w : W) :
  (forall w : W, exec (path o) w = mkRun (Ok p) [] w) ->
  result (exec (Load o) w) = config_of o (answer (OsOpen p) w).1.
Proof using All.
  intros Hp. unfold Load. rewrite exec_attempt, Hp. cbn -[config_of].
  by destruct (answer (OsOpen p) w).
Qed.

Lemma config_of_text o cfg :
  config_of o (Ok (config_text cfg, None))
  = if fits cfg then Ok (override_server o cfg) else Err ErrTooLong.
Proof using UnicodeTablesOk0.
  unfold config_of. pose proof (Scan_config cfg) as Hscan.
  destruct (Scan (config_text cfg, None)) as [lines err]; cbn [fst snd] in Hscan.
  destruct (fits cfg); [destruct Hscan as [-> Hlines]; by rewrite Hlines|].
  by rewrite Hscan.
Qed.

(** C38. Saving a configuration and loading it gives it back, whatever bytes the
    server and the token are made of, with the server of the command line before
    the saved one; the exception is a line of 64 KiB or more, which cannot be
    loaded any more: from then on every command fails. *)
Theorem config_round_trip (o : Options) (cfg : Config) (w : W) :
  result (exec (Save o cfg) w) = Ok tt ->
  result (exec (Load o) (world (exec (Save o cfg) w)))
  = if fits cfg then Ok (override_server o cfg) else Err ErrTooLong.
Proof using All.
  intros Hsave. destruct (save_exec o cfg w Hsave) as (p & w1 & w2 & Hp & Hw & ->).
  apply reads_back in Hw. by rewrite (load_exec o p), Hw, config_of_text.
Qed.
End Files.
