(* ===== verification/Cli.v ===== *)
(** * Cli: the commands of fleetctl ([fleetctl/cmd], [internal/output], [internal/secret])

    The functions behind the commands; the values of flags and the arguments are
    their arguments. The tree of commands is in [Root.v]. *)

From S2P Require Import Prelude.
From S2P Require Import GoStd.
From S2P Require Import Json.
From S2P Require Import Strconv.
From S2P Require Import Sql.
From S2P Require Import Auth.
From S2P Require Import Gen.
From S2P Require Import Proc.
From S2P Require Import Client.
From S2P Require Import CliConfig.

(** ** Output ([internal/output/output.go]) *)

(** [http.StatusText]. *)
Definition status_texts : list (Z * string) :=
  [(100, "Continue"); (101, "Switching Protocols"); (102, "Processing"); (103, "Early Hints");
   (200, "OK"); (201, "Created"); (202, "Accepted"); (203, "Non-Authoritative Information");
   (204, "No Content"); (205, "Reset Content"); (206, "Partial Content"); (207, "Multi-Status");
   (208, "Already Reported"); (226, "IM Used");
   (300, "Multiple Choices"); (301, "Moved Permanently"); (302, "Found"); (303, "See Other");
   (304, "Not Modified"); (305, "Use Proxy"); (307, "Temporary Redirect");
   (308, "Permanent Redirect");
   (400, "Bad Request"); (401, "Unauthorized"); (402, "Payment Required"); (403, "Forbidden");
   (404, "Not Found"); (405, "Method Not Allowed"); (406, "Not Acceptable");
   (407, "Proxy Authentication Required"); (408, "Request Timeout"); (409, "Conflict");
   (410, "Gone"); (411, "Length Required"); (412, "Precondition Failed");
   (413, "Request Entity Too Large"); (414, "Request URI Too Long");
   (415, "Unsupported Media Type"); (416, "Requested Range Not Satisfiable");
   (417, "Expectation Failed"); (418, "I'm a teapot"); (421, "Misdirected Request");
   (422, "Unprocessable Entity"); (423, "Locked"); (424, "Failed Dependency"); (425, "Too Early");
   (426, "Upgrade Required"); (428, "Precondition Required"); (429, "Too Many Requests");
   (431, "Request Header Fields Too Large"); (451, "Unavailable For Legal Reasons");
   (500, "Internal Server Error"); (501, "Not Implemented"); (502, "Bad Gateway");
   (503, "Service Unavailable"); (504, "Gateway Timeout"); (505, "HTTP Version Not Supported");
   (506, "Variant Also Negotiates"); (507, "Insufficient Storage"); (508, "Loop Detected");
   (510, "Not Extended"); (511, "Network Authentication Required")]%Z.

Definition StatusText (code : Z) : string :=
  match find (fun ct => (ct.1 =? code)%Z) status_texts with Some ct => ct.2 | None => "" end.

Record APIError := mkAPIError { StatusCode : Z; Code : string; Message : string }.

Definition APIError_Error (e : APIError) : string :=
  if negb (String.eqb (Code e) "") then
    "API error " +:+ Code e +:+ " (HTTP " +:+ pretty (StatusCode e) +:+ "): " +:+ Message e
  else "API request failed (HTTP " +:+ pretty (StatusCode e) +:+ "): " +:+ Message e.

Definition api_error (e : APIError) : error := Foreign (APIError_Error e).

(** The envelope of an error answer: strings, not pointers. *)
Definition envelope_fields : list (string * setter (string * string)) :=
  [("error", decode_struct
      [("code", set_string (fun s e => (s, snd e)));
       ("message", set_string (fun s e => (fst e, s)))])].

Definition error_envelope (body : string) : option (string * string) :=
  j ← Unmarshal body; decode_struct envelope_fields j ("", "").

(** [StatusError]: [None] is nil. *)
Definition StatusError (status : Z) (body : string) (expected : list Z) : option APIError :=
  if existsb (fun want => (status =? want)%Z) expected then None
  else
    let plain :=
      let message := StatusText status in
      let message := if String.eqb message "" then "unexpected response" else message in
      Some (mkAPIError status "" message) in
    match error_envelope body with
    | Some (code, message) =>
        if negb (String.eqb message "") then Some (mkAPIError status code message) else plain
    | None => plain
    end.

(** *** Indented JSON ([SetIndent] with two spaces) *)

Fixpoint indent_line (depth : nat) : string :=
  match depth with O => chr 10 | S depth => indent_line depth +:+ "  " end.

Fixpoint indented (depth : nat) (j : json) : string :=
  let inner := indent_line (S depth) in
  match j with
  | JArr (_ :: _ as l) =>
      "[" +:+ inner +:+ sep_concat ("," +:+ inner) (map (indented (S depth)) l)
      +:+ indent_line depth +:+ "]"
  | JObj (_ :: _ as l) =>
      "{" +:+ inner
      +:+ sep_concat ("," +:+ inner)
            (map (fun kv => encode_string kv.1 +:+ ": " +:+ indented (S depth) kv.2) l)
      +:+ indent_line depth +:+ "}"
  | j => encode j
  end.

(** The value a pointer is encoded as. *)
Definition pointer_json {A} (f : A -> json) (o : option A) : json :=
  match o with Some a => f a | None => JNull end.

(** A nil slice is encoded as null. *)
Definition slice_json {A} (f : A -> json) (o : option (list A)) : json :=
  match o with Some l => JArr (map f l) | None => JNull end.

(** [output.JSON] on the standard output. *)
Definition print_JSON (value : json) : proc (res unit) :=
  perform (Fprint Stdout (indented 0 value +:+ chr 10)).

(** ** Passwords ([internal/secret/password.go]) *)

(** The two functions on the terminal can be nil. *)
Record PasswordReader := mkPasswordReader {
  isTerminal : option (proc bool);
  readTerminal : option (proc (res string))
}.

Definition NewPasswordReader : PasswordReader :=
  mkPasswordReader (Some (perform TermIsTerminal)) (Some (perform TermReadPassword)).

Definition validate (password : string) : res string :=
  if String.eqb password "" then Err (Foreign "password must not be empty") else Ok password.

Definition no_terminal : error :=
  Foreign "password input is not a terminal; use --password-stdin".

(** [in] is a file descriptor or not ([is_fd]). *)
Definition Read (r : PasswordReader) (is_fd fromStdin : bool) : proc (res string) :=
  if fromStdin then
    line ← perform ReadString;
    let (password, err) := (line : string * option error) in
    match err with
    | Some err =>
        if negb (errors_Is err EOF) then Return (Err (context "read password from stdin" err))
        else Return (validate (TrimRight password (chr 13 +:+ chr 10)))
    | None => Return (validate (TrimRight password (chr 13 +:+ chr 10)))
    end
  else
    terminal ← match is_fd, isTerminal r with
               | true, Some isTerminal => isTerminal
               | _, _ => Return false
               end;
    if negb terminal then Return (Err no_terminal)
    else match readTerminal r with
    | None => Return (Err (Foreign "terminal password reader is unavailable"))
    | Some readTerminal =>
        let? _ := perform (Fprint Stderr "Password: ") or "write password prompt" in
        password ← readTerminal;
        newline ← perform (Fprint Stderr (chr 10));
        match newline, password with
        | Err writeErr, Ok _ => Return (Err (context "finish password prompt" writeErr))
        | _, Err err => Return (Err (context "read password" err))
        | _, Ok password => Return (validate password)
        end
    end.

(** ** Commands *)

Section Commands.
Context `{OsLib} `{UnicodeTables} `{ClientLib} `{UuidLib} `{TimeText}.

(** [if err := output.StatusError(...); err != nil { return err }]. *)
Definition expect {A} (err : option APIError) (k : proc (res A)) : proc (res A) :=
  match err with Some err => Return (Err (api_error err)) | None => k end.

(** [fmt.Fprintln(cmd.OutOrStdout(), text); return nil]. *)
Definition say (text : string) : proc (res unit) :=
  _ ← perform (Fprint Stdout (text +:+ chr 10)); Return (Ok tt).

(** *** [cmd/root.go] *)

Definition newLoginCommand (opts : Options) (passwords : PasswordReader) (is_fd : bool)
    (username : string) (passwordStdin : bool) : proc (res unit) :=
  let? password := Read passwords is_fd passwordStdin in
  let? (client, _) := Options_Client opts false in
  let? resp := PostAuthLoginWithResponse client (mkLoginRequest password username) []
    or "login request" in
  expect (StatusError (PostAuthLoginResponse_StatusCode resp) (PostAuthLogin_Body resp) [200%Z])
    (match PostAuthLogin_JSON200 resp ≫= lr_Token with
     | None => Return (Err (Foreign "login response did not contain a token"))
     | Some token =>
         let? cfg := Load opts in
         let? _ := Save opts (mkConfig (cfg_Server cfg) token) or "save config" in
         say "Login successful"
     end).

Definition newHealthCommand (opts : Options) : proc (res unit) :=
  let? (client, editors) := Options_Client opts false in
  let? resp := GetHealthWithResponse client editors or "health request" in
  expect (StatusError (GetHealthResponse_StatusCode resp) (GetHealth_Body resp) [200%Z])
    (print_JSON (pointer_json HealthResponse_json (GetHealth_JSON200 resp))).

End Commands.

(** *** [cmd/satellite/satellite.go] *)

Module SatelliteCmd.
Section Commands.
Context `{OsLib} `{UnicodeTables} `{ClientLib} `{UuidLib} `{TimeText}.

Definition newCreateCommand (opts : Options) (name region : string) : proc (res unit) :=
  let? (client, editors) := Options_Client opts true in
  let? resp := PostSatellitesWithResponse client (mkCreateSatelliteRequest name region) editors
    or "create satellite" in
  expect (StatusError (PostSatellitesResponse_StatusCode resp) (PostSatellites_Body resp) [201%Z])
    (print_JSON (pointer_json gen_Satellite_json (PostSatellites_JSON201 resp))).

Definition newGetCommand (opts : Options) (arg : string) : proc (res unit) :=
  let? id := pure (uuid_Parse arg) or "invalid satellite ID" in
  let? (client, editors) := Options_Client opts true in
  let? resp := GetSatellitesIdWithResponse client id editors or "get satellite" in
  expect (StatusError (GetSatellitesIdResponse_StatusCode resp) (GetSatellitesId_Body resp) [200%Z])
    (print_JSON (pointer_json gen_Satellite_json (GetSatellitesId_JSON200 resp))).

Definition newListCommand (opts : Options) : proc (res unit) :=
  let? (client, editors) := Options_Client opts true in
  let? resp := GetSatellitesWithResponse client editors or "list satellites" in
  expect (StatusError (GetSatellitesResponse_StatusCode resp) (GetSatellites_Body resp) [200%Z])
    (print_JSON (pointer_json (slice_json gen_Satellite_json) (GetSatellites_JSON200 resp))).

Definition operator_managed (s : option gen_Satellite) : bool :=
  match s ≫= gs_ManagedBy with Some m => String.eqb m Gen.Operator | None => false end.

Definition newDeleteCommand (opts : Options) (arg : string) : proc (res unit) :=
  let? id := pure (uuid_Parse arg) or "invalid satellite ID" in
  let? (client, editors) := Options_Client opts true in
  let? getResp := GetSatellitesIdWithResponse client id editors or "check satellite ownership" in
  expect (StatusError (GetSatellitesIdResponse_StatusCode getResp) (GetSatellitesId_Body getResp)
            [200%Z])
    (if operator_managed (GetSatellitesId_JSON200 getResp) then
       Return (Err (Foreign "satellite is managed by the Operator; update its CR in Git instead"))
     else
       let? resp := DeleteSatellitesIdWithResponse client id editors or "delete satellite" in
       expect (StatusError (DeleteSatellitesIdResponse_StatusCode resp)
                 (DeleteSatellitesId_Body resp) [204%Z])
         (say "Satellite deleted")).
End Commands.
End SatelliteCmd.

(** *** [cmd/user/user.go] *)

Module UserCmd.
Section Commands.
Context `{OsLib} `{UnicodeTables} `{ClientLib} `{UuidLib} `{TimeText}.

Definition newCreateCommand (opts : Options) (passwords : PasswordReader) (is_fd : bool)
    (username role : string) (passwordStdin : bool) : proc (res unit) :=
  if negb (String.eqb role "admin") && negb (String.eqb role "viewer") then
    Return (Err (Foreign "role must be admin or viewer"))
  else
    let? (client, editors) := Options_Client opts true in
    let? password := Read passwords is_fd passwordStdin in
    let? resp := PostUsersWithResponse client (mkCreateUserRequest password (Some role) username)
      editors or "create user" in
    expect (StatusError (PostUsersResponse_StatusCode resp) (PostUsers_Body resp) [201%Z])
      (print_JSON (pointer_json gen_User_json (PostUsers_JSON201 resp))).

Definition newListCommand (opts : Options) : proc (res unit) :=
  let? (client, editors) := Options_Client opts true in
  let? resp := GetUsersWithResponse client editors or "list users" in
  expect (StatusError (GetUsersResponse_StatusCode resp) (GetUsers_Body resp) [200%Z])
    (print_JSON (pointer_json (slice_json gen_User_json) (GetUsers_JSON200 resp))).
End Commands.
End UserCmd.
