(* ===== verification/CliProps.v ===== *)
(** * CliProps: what fleetctl sends, and when *)

From S2P Require Import Prelude.
From S2P Require Import GoStd.
From S2P Require Import Json.
From S2P Require Import Strconv.
From S2P Require Import Sql.
From S2P Require Import Jwt.
From S2P Require Import Auth.
From S2P Require Import Gen.
From S2P Require Import Proc.
From S2P Require Import Client.
From S2P Require Import CliConfig.
From S2P Require Import Cli.

(** ** The commands *)

Inductive command :=
| Login (username : string) (passwordStdin : bool)
| HealthCheck
| SatelliteCreate (name region : string)
| SatelliteGet (id : string)
| SatelliteList
| SatelliteDelete (id : string)
| UserCreate (username role : string) (passwordStdin : bool)
| UserList.

Section Commands.
Context `{OsLib} `{UnicodeTables} `{ClientLib} `{UuidLib} `{TimeText}.

(** A command run with the terminal's password reader. *)
Definition run_command (opts : Options) (is_fd : bool) (c : command) : proc (res unit) :=
  match c with
  | Login username stdin => newLoginCommand opts NewPasswordReader is_fd username stdin
  | HealthCheck => newHealthCommand opts
  | SatelliteCreate name region => SatelliteCmd.newCreateCommand opts name region
  | SatelliteGet id => SatelliteCmd.newGetCommand opts id
  | SatelliteList => SatelliteCmd.newListCommand opts
  | SatelliteDelete id => SatelliteCmd.newDeleteCommand opts id
  | UserCreate username role stdin =>
      UserCmd.newCreateCommand opts NewPasswordReader is_fd username role stdin
  | UserList => UserCmd.newListCommand opts
  end.

(** The commands that refuse to run without a token, and the one that does not
    send it. *)
Definition needs_login (c : command) : bool :=
  match c with Login _ _ | HealthCheck => false | _ => true end.
Definition sends_token (c : command) : bool :=
  match c with Login _ _ => false | _ => true end.

(** ** What a run shows *)

(** The configuration the run read first. *)
Fixpoint loaded (o : Options) (evs : list event) : option Config :=
  match evs with
  | [] => None
  | Opened _ f :: _ => match config_of o f with Ok cfg => Some cfg | Err _ => None end
  | _ :: evs => loaded o evs
  end.

Definition is_sent (e : event) : bool := match e with Sent _ _ _ => true | _ => false end.

Definition sent (evs : list event) : list event := List.filter is_sent evs.

Lemma sent_app evs evs' : sent (evs ++ evs') = sent evs ++ sent evs'.
Proof using Type. apply List.filter_app. Qed.

(** The HTTP client of a run: the one given, or one with a timeout. *)
Definition doer_of (o : Options) : Doer :=
  match opt_HTTPClient o with Some d => d | None => HttpClient (Some DefaultHTTPTimeout) end.

Definition api_base (cfg : Config) : string := TrimRight (cfg_Server cfg) "/".

(** A request as a configuration allows it: through the HTTP client of the run, with
    the configured token or, when the command sends none, without any, never in the
    operator's name, and under the configured server, whatever path it has, when
    that is an http or https URL in plain characters ([plain_url]: host, optional
    port, optional path; [net/url] is a library, and its law speaks of those). *)
Definition obeys (o : Options) (token : bool) (cfg : Config) (d : Doer) (req : HttpRequest) : Prop :=
  d = doer_of o
  /\ q_Header req !! "Authorization"
     = (if token && negb (String.eqb (cfg_Token cfg) "")
        then Some ["Bearer " +:+ cfg_Token cfg] else None)
  /\ Header_Get (q_Header req) "X-FleetControl-Operator" = ""
  /\ (plain_url (api_base cfg) = true -> HasPrefix (q_URL req) (api_base cfg +:+ "/") = true).

Definition event_obeys (o : Options) (token : bool) (cfg : Config) (e : event) : Prop :=
  match e with Sent d req _ => obeys o token cfg d req | _ => True end.

(** ** Requests of the generated client *)

(** A request made by one of the constructors for a server. *)
Definition made_for (server : string) (req : HttpRequest) : Prop :=
  (exists method path body,
     new_request server method ("/" +:+ path) body
     = Ok (mkHttpRequest (q_Method req) (q_URL req) ∅ (q_Body req))
     /\ plain_path path = true)
  /\ (q_Header req = ∅ \/ exists ct, q_Header req = Header_Add ∅ "Content-Type" ct).

Context `{!ClientLibOk _ _}.

Lemma new_request_plain s method path body :
  plain_url s = true -> plain_path path = true ->
  new_request (s +:+ "/") method ("/" +:+ path) body
  = Ok (mkHttpRequest method (s +:+ "/" +:+ path) ∅ body).
Proof using ClientLibOk0.
  intros Ho Hp. unfold new_request.
  destruct (url_resolves s path Ho Hp) as (u & v & w & Hu & Hv & Hvs & Hw & Hws).
  rewrite Hu. cbn [mbind res_bind]. rewrite (HasPrefix_app "/" path).
  change ("." +:+ "/" +:+ path) with ("./" +:+ path). rewrite Hv. cbn [mbind res_bind].
  rewrite Hvs, Hw. cbn [mbind res_bind]. by rewrite Hws.
Qed.

Lemma plain_from_segment start u rest :
  str_forall path_char u = true -> u <> "" -> plain_from start (u +:+ rest) = plain_from false rest.
Proof using Type.
  intros Hu Hne. destruct u as [|c u]; [done|]. clear Hne. revert start c Hu.
  induction u as [|d u IH]; intros start c [Hc Hu]%andb_true_iff; cbn [String.append plain_from].
  - destruct (Ascii.eqb_spec c "/"%char) as [->|]; [done|]. by rewrite Hc.
  - destruct (Ascii.eqb_spec c "/"%char) as [->|]; [done|]. rewrite Hc.
    exact (IH false d Hu).
Qed.

Lemma plain_id_path id prefix rest :
  (forall u, plain_from true (prefix +:+ u) = plain_from true u) -> plain_from false rest = true ->
  plain_path (prefix +:+ uuid_String id +:+ rest) = true.
Proof using ClientLibOk0.
  intros Hp Hr. destruct (uuid_path id) as [Hne Hu]. unfold plain_path.
  by rewrite Hp, plain_from_segment.
Qed.

Lemma new_request_made server method path body req :
  plain_path path = true -> new_request server method ("/" +:+ path) body = Ok req ->
  made_for server req.
Proof using Type.
  intros Hp Hreq.
  assert (req = mkHttpRequest (q_Method req) (q_URL req) ∅ (q_Body req)) as Heq.
  { unfold new_request, mbind, res_bind in Hreq. split_matches. }
  split; [|left; by rewrite Heq]. exists method, path, body. by rewrite <- Heq.
Qed.
Lemma add_header_made server req ct :
  made_for server req -> q_Header req = ∅ -> made_for server (add_header req "Content-Type" ct).
Proof using Type.
  intros [Hreq _] Hh. split; [done|]. right. exists ct. unfold add_header. cbn. by rewrite Hh.
Qed.

Lemma new_request_header server method path body req :
  new_request server method path body = Ok req -> q_Header req = ∅.
Proof using Type. unfold new_request, mbind, res_bind. intros Hreq. split_matches. Qed.

(** Every constructor the commands use makes a request for its server. *)
Ltac made :=
  repeat match goal with
  | H : (_ ≫= _) = Ok _ |- _ => apply res_bind_Ok in H as (? & ? & H)
  | H : Ok _ = Ok _ |- _ => injection H as <-
  | H : StyleParam _ _ = Ok _ |- _ => rewrite StyleParam_uuid in H; injection H as <-
  end.

Lemma body_request_made server method path body ct req :
  plain_path path = true ->
  (r ← new_request server method ("/" +:+ path) body; Ok (add_header r "Content-Type" ct)) = Ok req ->
  made_for server req.
Proof using Type.
  intros Hp (r & Hr & [= <-])%res_bind_Ok.
  apply add_header_made; [by eapply new_request_made|by eapply new_request_header].
Qed.

Lemma id_request_made server method prefix id req :
  (forall u, plain_from true (prefix +:+ u) = plain_from true u) ->
  (p ← StyleParam "id" id; new_request server method ("/" +:+ prefix +:+ p) None) = Ok req ->
  made_for server req.
Proof using ClientLibOk0.
  intros Hp (p & Hs & Hreq)%res_bind_Ok. rewrite StyleParam_uuid in Hs. injection Hs as <-.
  eapply new_request_made; [|exact Hreq].
  rewrite <- (append_nil_r (uuid_String id)). by apply plain_id_path.
Qed.

(** *** The client of a configuration *)

Lemma ends_TrimRight s : ends_with_slash (TrimRight s "/") = false.
Proof using Type.
  induction s as [|c s IH]; [done|]. cbn [TrimRight].
  destruct (String.eqb_spec (TrimRight s "/") "") as [Ht|Hne]; cbn [andb].
  - rewrite Ht. cbn [has_char]. rewrite orb_false_r. by destruct (Ascii.eqb c "/") eqn:Hc.
  - destruct (TrimRight s "/") as [|d t]; [done|exact IH].
Qed.

Definition client_of (o : Options) (cfg : Config) : Client :=
  mkClient (api_base cfg +:+ "/") (Some (doer_of o)) [].

Lemma NewAPIClient_eq o cfg : NewAPIClient o cfg = Ok (client_of o cfg).
Proof using Type.
  unfold NewAPIClient, NewClientWithResponses, NewClient, client_of. cbn.
  unfold api_base. rewrite ends_TrimRight. done.
Qed.

Definition editors_of (cfg : Config) : list RequestEditorFn :=
  if String.eqb (cfg_Token cfg) "" then [] else [bearer_editor (cfg_Token cfg)].

Lemma made_obeys o cfg req req' token :
  made_for (api_base cfg +:+ "/") req ->
  run_editors (if token : bool then editors_of cfg else []) req = Ok req' ->
  obeys o token cfg (doer_of o) req'.
Proof using ClientLibOk0.
  intros [(method & path & body & Hreq & Hpath) Hh] Hed.
  assert (plain_url (api_base cfg) = true -> HasPrefix (q_URL req) (api_base cfg +:+ "/") = true) as Hurl.
  { intros Ho. rewrite new_request_plain in Hreq by done. injection Hreq as _ <- _.
    apply HasPrefix_iff. exists path. by rewrite <- append_assoc. }
  assert (q_Header req !! "Authorization" = None
    /\ Header_Get (q_Header req) "X-FleetControl-Operator" = "") as [Ha Hop].
  { by destruct Hh as [->|[ct ->]]. }
  unfold editors_of in Hed.
  destruct token, (String.eqb_spec (cfg_Token cfg) "") as [Ht|Ht]; cbn in Hed; injection Hed as <-;
    unfold obeys; cbn [andb negb q_Header q_URL];
    try (rewrite (proj2 (String.eqb_eq _ _) Ht)); try (rewrite (proj2 (String.eqb_neq _ _) Ht));
    split_and!; try done.
  - unfold Header_Set. change (CanonicalMIMEHeaderKey "Authorization") with "Authorization".
    by rewrite lookup_insert_eq.
  - by rewrite Header_Get_Set_ne.
Qed.
(** *** Pieces of a run *)

(** Neither a request nor a look at the configuration. *)
Definition quiet (e : event) : bool :=
  match e with Sent _ _ _ | Opened _ _ => false | _ => true end.

Lemma loaded_quiet o evs evs' :
  Forall (fun e => quiet e = true) evs -> loaded o (evs ++ evs') = loaded o evs'.
Proof using Type. induction 1 as [|e evs He Hevs IH]; [done|]. by destruct e. Qed.

Lemma sent_quiet evs : Forall (fun e => quiet e = true) evs -> sent evs = [].
Proof using Type. induction 1 as [|e evs He Hevs IH]; [done|]. by destruct e. Qed.

Definition client_result (o : Options) (auth : bool) (evs : list event)
    (r : res (Client * list RequestEditorFn)) : Prop :=
  match r with
  | Ok (client, editors) =>
      exists p f cfg, evs = [Opened p f] /\ config_of o f = Ok cfg
        /\ client = client_of o cfg /\ editors = editors_of cfg
        /\ (auth = true -> cfg_Token cfg <> "")
  | Err _ => evs = [] \/ exists p f, evs = [Opened p f]
  end.

Lemma path_always o : always (path o) (fun _ evs => evs = []).
Proof using Type.
  unfold path. destruct (negb _); [done|]. apply always_attempt. intros [h|e]; done.
Qed.

Lemma Options_Client_always o auth :
  always (Options_Client o auth) (fun r evs => client_result o auth evs r).
Proof using Type.
  unfold Options_Client, Load. apply always_attempt, always_attempt.
  eapply always_mono; [apply path_always|]. intros [p|e] evs ->; [|by left].
  apply always_bind. intros f. cbn [always app event_of].
  destruct (config_of o f) as [cfg|e] eqn:Hcfg; [|right; by exists p, f].
  destruct (auth && String.eqb (cfg_Token cfg) "") eqn:Hauth; [right; by exists p, f|].
  rewrite NewAPIClient_eq.
  assert (auth = true -> cfg_Token cfg <> "") as Htok.
  { intros ->. cbn in Hauth. by apply String.eqb_neq in Hauth. }
  destruct (String.eqb (cfg_Token cfg) "") eqn:Heq;
    (exists p, f, cfg; unfold editors_of; by rewrite Heq).
Qed.

Lemma Read_always is_fd stdin :
  always (Read NewPasswordReader is_fd stdin)
    (fun r evs => Forall (fun e => quiet e = true) evs
       /\ match r with Ok p => p <> "" | Err _ => True end).
Proof using Type.
  assert (forall p, match validate p with Ok p => p <> "" | Err _ => True end) as Hval.
  { intros p. unfold validate. by destruct (String.eqb_spec p ""). }
  unfold Read. destruct stdin.
  - intros [password [e|]]; cbn -[errors_Is validate TrimRight negb];
      [|split; [constructor|apply Hval]].
    destruct (negb (errors_Is e EOF)); (split; [constructor|done || apply Hval]).
  - destruct is_fd; cbn [NewPasswordReader isTerminal readTerminal];
      [|split; [constructor|done]].
    intros []; cbn [negb always event_of app]; [|split; [constructor|done]].
    intros [[]|e]; cbn [always event_of app]; [|split; [by repeat constructor|done]].
    intros p []; destruct p as [p|e']; cbn [always event_of app];
      (split; [by repeat constructor|done || apply Hval]).
Qed.

(** One request of a command, with the configuration it obeys. *)
Lemma send_obeys o cfg req token :
  (forall r, req = Ok r -> made_for (api_base cfg +:+ "/") r) ->
  always (send (client_of o cfg) req (if token : bool then editors_of cfg else []))
    (fun _ evs => Forall (event_obeys o token cfg) evs).
Proof using ClientLibOk0.
  intros Hmade. unfold send. destruct req as [req|e]; [|constructor].
  cbn [mbind res_bind]. unfold applyEditors, client_of; cbn [RequestEditors run_editors mbind res_bind].
  destruct (run_editors _ req) as [req'|e] eqn:Hed; [|constructor].
  intros ans. cbn. constructor; [|constructor]. exact (made_obeys _ _ _ _ _ (Hmade _ eq_refl) Hed).
Qed.

Lemma forall_attempt {A B} (P : event -> Prop) wrap (p : proc (res A)) (k : A -> proc (res B)) :
  always p (fun _ evs => Forall P evs) -> (forall a, always (k a) (fun _ evs => Forall P evs)) ->
  always (attempt wrap p k) (fun _ evs => Forall P evs).
Proof using Type.
  intros Hp Hk. apply always_attempt. eapply always_mono; [exact Hp|]. intros [a|e] evs Hevs; [|done].
  eapply always_mono; [apply Hk|]. intros b evs'. by apply Forall_app_2.
Qed.

Lemma forall_return {A} (P : event -> Prop) (a : A) :
  always (Return a) (fun _ evs => Forall P evs).
Proof using Type. constructor. Qed.

Lemma forall_say (o : Options) token cfg text :
  always (say text) (fun _ evs => Forall (event_obeys o token cfg) evs).
Proof using Type. intros []; by repeat constructor. Qed.

Lemma forall_print o token cfg (j : json) :
  always (print_JSON j) (fun _ evs => Forall (event_obeys o token cfg) evs).
Proof using Type. intros x; by repeat constructor. Qed.

Lemma forall_expect {A} (P : event -> Prop) e (k : proc (res A)) :
  always k (fun _ evs => Forall P evs) -> always (expect e k) (fun _ evs => Forall P evs).
Proof using Type. destruct e; [by constructor|done]. Qed.

Lemma forall_Load o token cfg :
  always (Load o) (fun _ evs => Forall (event_obeys o token cfg) evs).
Proof using Type.
  unfold Load. apply forall_attempt.
  - eapply always_mono; [apply path_always|]. by intros r evs ->.
  - intros p f. by repeat constructor.
Qed.

Lemma forall_Save o token cfg cfg' :
  always (Save o cfg') (fun _ evs => Forall (event_obeys o token cfg) evs).
Proof using Type.
  unfold Save. apply forall_attempt; [|intros p; apply forall_attempt].
  - eapply always_mono; [apply path_always|]. by intros r evs ->.
  - intros f. constructor.
  - intros u f. by repeat constructor.
Qed.

(** What is claimed of a whole run. *)
Definition run_obeys (o : Options) (auth token : bool) (evs : list event) : Prop :=
  match loaded o evs with
  | Some cfg => Forall (event_obeys o token cfg) evs
      /\ (auth = true -> sent evs <> [] -> cfg_Token cfg <> "")
  | None => sent evs = []
  end.

Lemma with_client o auth token (k : Client -> list RequestEditorFn -> proc (res unit)) :
  (forall cfg, always (k (client_of o cfg) (editors_of cfg))
                 (fun _ evs => Forall (event_obeys o token cfg) evs)) ->
  always (let? (client, editors) := Options_Client o auth in k client editors)
    (fun _ evs => run_obeys o auth token evs).
Proof using Type.
  intros Hk. apply always_attempt. eapply always_mono; [apply Options_Client_always|].
  intros [[client editors]|e] evs; cbn [client_result].
  - intros (p & f & cfg & -> & Hcfg & -> & -> & Hauth).
    eapply always_mono; [apply Hk|]. intros b evs' Hevs. unfold run_obeys. cbn. rewrite Hcfg.
    split; [by constructor|by intros ? _; apply Hauth].
  - intros [->|(p & f & ->)]; unfold run_obeys; cbn; [done|].
    destruct (config_of o f); [|done]. split; [by repeat constructor|done].
Qed.

Lemma run_obeys_quiet o auth token evs evs' :
  Forall (fun e => quiet e = true) evs -> run_obeys o auth token evs' ->
  run_obeys o auth token (evs ++ evs').
Proof using Type.
  intros Hq. unfold run_obeys. rewrite loaded_quiet, sent_app, (sent_quiet evs) by done. cbn [app].
  destruct (loaded o evs') as [cfg|]; [|done]. intros [Hall Htok]. split; [|done].
  apply Forall_app_2; [|done]. eapply Forall_impl; [exact Hq|]. by intros [].
Qed.
(** A call of the generated client, and what is done with the answer. *)
Lemma call_obeys {A B} o cfg token eds req (parse : HttpResponse -> res A) msg
    (k : A -> proc (res B)) :
  eds = (if token : bool then editors_of cfg else []) ->
  (forall r, req = Ok r -> made_for (api_base cfg +:+ "/") r) ->
  (forall a, always (k a) (fun _ evs => Forall (event_obeys o token cfg) evs)) ->
  always (let? a := (let? rsp := send (client_of o cfg) req eds in Return (parse rsp)) or msg in k a)
    (fun _ evs => Forall (event_obeys o token cfg) evs).
Proof using ClientLibOk0.
  intros -> Hmade Hk. apply forall_attempt; [|done].
  apply forall_attempt; [by apply send_obeys|]. intros rsp. constructor.
Qed.

(** The requests the commands make are for the client's server. *)
Ltac request_made :=
  let r := fresh "r" in let Hr := fresh "Hr" in intros r Hr;
  first
    [ eapply (body_request_made _ _ "auth/login"); [reflexivity|exact Hr]
    | eapply (body_request_made _ _ "satellites"); [reflexivity|exact Hr]
    | eapply (body_request_made _ _ "users"); [reflexivity|exact Hr]
    | eapply (id_request_made _ _ "satellites/"); [reflexivity|exact Hr]
    | eapply (new_request_made _ _ "health"); [reflexivity|exact Hr]
    | eapply (new_request_made _ _ "satellites"); [reflexivity|exact Hr]
    | eapply (new_request_made _ _ "users"); [reflexivity|exact Hr] ].

Ltac command_obeys :=
  repeat first
    [ apply forall_print | apply forall_say | apply forall_return | apply forall_expect
    | apply forall_Load | apply forall_Save
    | apply call_obeys; [reflexivity|request_made|intros ?]
    | apply forall_attempt; [|intros ?]
    | match goal with |- always (match ?x with _ => _ end) _ => destruct x end ].

Lemma parse_id_obeys o auth token arg msg (k : UUID -> proc (res unit)) :
  (forall id, always (k id) (fun _ evs => run_obeys o auth token evs)) ->
  always (let? id := pure (uuid_Parse arg) or msg in k id) (fun _ evs => run_obeys o auth token evs).
Proof using Type.
  intros Hk. apply always_attempt. cbn. destruct (uuid_Parse arg) as [id|e]; [|done].
  eapply always_mono; [apply Hk|]. done.
Qed.

Lemma password_obeys o auth token is_fd stdin (k : string -> proc (res unit)) :
  (forall p, always (k p) (fun _ evs => run_obeys o auth token evs)) ->
  always (let? p := Read NewPasswordReader is_fd stdin in k p)
    (fun _ evs => run_obeys o auth token evs).
Proof using Type.
  intros Hk. apply always_attempt. eapply always_mono; [apply Read_always|].
  intros [p|e] evs [Hq _]; [|by rewrite <- (app_nil_r evs); apply run_obeys_quiet].
  eapply always_mono; [apply Hk|]. intros r evs' Hr. by apply run_obeys_quiet.
Qed.

Lemma forall_password o token cfg is_fd stdin (k : string -> proc (res unit)) :
  (forall p, always (k p) (fun _ evs => Forall (event_obeys o token cfg) evs)) ->
  always (let? p := Read NewPasswordReader is_fd stdin in k p)
    (fun _ evs => Forall (event_obeys o token cfg) evs).
Proof using Type.
  intros Hk. apply forall_attempt; [|done]. eapply always_mono; [apply Read_always|].
  intros r evs [Hq _]. eapply Forall_impl; [exact Hq|]. by intros [].
Qed.

Lemma commands_obey (o : Options) (is_fd : bool) (c : command) :
  always (run_command o is_fd c) (fun _ evs => run_obeys o (needs_login c) (sends_token c) evs).
Proof using ClientLibOk0.
  destruct c as [username stdin| |name region|id| |id|username role stdin|];
    cbn [run_command needs_login sends_token].
  - apply password_obeys. intros p. apply (with_client o false false). intros cfg. command_obeys.
  - apply (with_client o false true). intros cfg. command_obeys.
  - apply (with_client o true true). intros cfg. command_obeys.
  - apply parse_id_obeys. intros u. apply (with_client o true true). intros cfg. command_obeys.
  - apply (with_client o true true). intros cfg. command_obeys.
  - apply parse_id_obeys. intros u. apply (with_client o true true). intros cfg. command_obeys.
  - unfold UserCmd.newCreateCommand. destruct (_ && _); [done|].
    apply (with_client o true true). intros cfg. apply forall_password. intros p. command_obeys.
  - apply (with_client o true true). intros cfg. command_obeys.
Qed.

(** So no command claims to be the operator. *)
Lemma commands_not_operator `{Env W} (o : Options) (is_fd : bool) (c : command) (w : W) :
  Forall (fun e => match e with
                   | Sent _ q _ => Header_Get (q_Header q) "X-FleetControl-Operator" = ""
                   | _ => True
                   end) (sent (events (exec (run_command o is_fd c) w))).
Proof using ClientLibOk0.
  pose proof (always_exec _ (fun _ evs => _ evs) w (commands_obey o is_fd c)) as Hob.
  unfold run_obeys in Hob. destruct (loaded o _) as [cfg|]; [|by rewrite Hob].
  destruct Hob as [Hob _]. rewrite Forall_forall in Hob |- *. intros e He.
  assert (e ∈ events (exec (run_command o is_fd c) w)) as Hin.
  { apply list_elem_of_In in He. unfold sent in He. apply List.filter_In in He as [He _].
    by apply list_elem_of_In. }
  specialize (Hob e Hin). destruct e; [|done..]. by destruct Hob as (_ & _ & ? & _).
Qed.

(** C18. In every environment, every request a command sends goes through the HTTP
    client of its options, or one with a timeout, carries exactly the token of the
    configuration the run read first (none when there is none, and none when
    logging in), and never claims to be the operator; when the server of that
    configuration is an http or https URL with a plain host, port and path, the
    request goes under it, its path included; the commands that need a
    login send nothing without a token, and no command sends anything when the
    configuration cannot be read. *)
Theorem requests_obey_configuration `{Env W} (o : Options) (is_fd : bool) (c : command) (w : W) :
  run_obeys o (needs_login c) (sends_token c) (events (exec (run_command o is_fd c) w)).
Proof using ClientLibOk0. apply (always_exec _ (fun _ evs => _ evs)), commands_obey. Qed.

(** *** What a call was answered *)

Definition is_err {A} (r : res A) : Prop := exists e, r = Err e.

(** A call sends at most its request, edited, and parses the answer. *)
Lemma call_always {A} o cfg token req (parse : HttpResponse -> res A) :
  always (let? rsp := send (client_of o cfg) req (if token : bool then editors_of cfg else [])
          in Return (parse rsp))
    (fun r evs => (evs = [] /\ is_err r)
       \/ exists q q' a, req = Ok q /\ evs = [Sent (doer_of o) q' a]
            /\ q_Method q' = q_Method q /\ q_URL q' = q_URL q /\ q_Body q' = q_Body q
            /\ r = a ≫= parse).
Proof using Type.
  apply always_attempt. unfold send. destruct req as [q|e]; cbn [mbind res_bind];
    [|left; split; [done|by eexists]].
  unfold applyEditors, client_of; cbn [RequestEditors run_editors mbind res_bind].
  assert (exists q', run_editors (if token then editors_of cfg else []) q = Ok q'
    /\ q_Method q' = q_Method q /\ q_URL q' = q_URL q /\ q_Body q' = q_Body q) as (q' & -> & Hq').
  { unfold editors_of. destruct token, (String.eqb (cfg_Token cfg) ""); by eexists. }
  intros [rsp|e]; cbn; right; eexists q, q', _; split_and!; try done; by destruct Hq' as (? & ? & ?).
Qed.

Lemma StatusError_None status body want :
  StatusError status body [want] = None -> status = want.
Proof using Type.
  unfold StatusError. cbn. destruct (Z.eqb_spec status want); [done|]. cbn.
  intros Hs. by repeat case_match.
Qed.

(** A command that sends one request with the token and shows what it is answered:
    what it has done when it succeeds. *)
Definition shown {R} (o : Options) (request : string -> res HttpRequest)
    (parse : HttpResponse -> res R) (want : Z) (show : R -> json) (r : res unit)
    (evs : list event) : Prop :=
  r = Ok tt -> exists p f cfg q q' rsp resp,
    evs = [Opened p f; Sent (doer_of o) q' (Ok rsp);
           Printed Stdout (indented 0 (show resp) +:+ chr 10)]
    /\ config_of o f = Ok cfg /\ request (api_base cfg +:+ "/") = Ok q
    /\ q_Method q' = q_Method q /\ q_URL q' = q_URL q /\ q_Body q' = q_Body q
    /\ p_StatusCode rsp = want /\ parse rsp = Ok resp.

Lemma shown_always {R} o request (parse : HttpResponse -> res R) want show msg
    (status : R -> Z) (body : R -> string) :
  (forall rsp resp, parse rsp = Ok resp -> status resp = p_StatusCode rsp) ->
  always
    (let? (client, editors) := Options_Client o true in
     let? resp := (let? rsp := send client (request (Server client)) editors in Return (parse rsp))
       or msg in
     expect (StatusError (status resp) (body resp) [want]) (print_JSON (show resp)))
    (shown o request parse want show).
Proof using Type.
  intros Hstatus. apply always_attempt. eapply always_mono; [apply Options_Client_always|].
  intros [[client editors]|e] evs Hc; [|by intros Hr]. destruct Hc as (p & f & cfg & -> & Hcfg & -> & -> & _).
  apply always_attempt. eapply always_mono; [apply (call_always o cfg true)|].
  intros [resp|e] evs; [|by intros _ Hr].
  intros [[_ [e He]]|(q & q' & a & Hq & -> & Hm & Hu & Hb & Hr)]; [done|].
  symmetry in Hr. apply res_bind_Ok in Hr as (rsp & -> & Hp).
  destruct (StatusError _ _ _) eqn:Hse; cbn [expect]; [by intros Hr|].
  apply StatusError_None in Hse. rewrite (Hstatus _ _ Hp) in Hse.
  intros x _. by exists p, f, cfg, q, q', rsp, resp.
Qed.

Lemma new_request_url server m1 m2 path b1 b2 r1 r2 :
  new_request server m1 path b1 = Ok r1 -> new_request server m2 path b2 = Ok r2 ->
  q_URL r1 = q_URL r2 /\ q_Method r1 = m1.
Proof using Type.
  unfold new_request. intros (u & Hu & (v & Hv & (w & Hw & [= <-])%res_bind_Ok)%res_bind_Ok)%res_bind_Ok.
  rewrite Hu. cbn [mbind res_bind]. rewrite Hv. cbn [mbind res_bind]. rewrite Hw. cbn [mbind res_bind].
  by intros [= <-].
Qed.

(** How a deletion can go: nothing was sent; the satellite was asked for at [url]
    and the command failed; or the satellite was asked for, it was there and not
    known to be the operator's, and then it was deleted. *)
Definition delete_run (url : string) (r : res unit) (evs : list event) : Prop :=
  (sent evs = [] /\ is_err r)
  \/ (exists d get a, sent evs = [Sent d get a] /\ q_Method get = "GET" /\ q_URL get = url /\ is_err r)
  \/ (exists d get del rsp a resp,
         sent evs = [Sent d get (Ok rsp); Sent d del a]
         /\ q_Method get = "GET" /\ q_URL get = url /\ q_Method del = "DELETE" /\ q_URL del = url
         /\ p_StatusCode rsp = 200%Z /\ ParseGetSatellitesIdResponse rsp = Ok resp
         /\ SatelliteCmd.operator_managed (GetSatellitesId_JSON200 resp) = false
         /\ (is_err r \/ exists rsp', a = Ok rsp' /\ p_StatusCode rsp' = 204%Z)).

(** The address is the satellite's, at the configured server. *)
Definition delete_stated (o : Options) (arg : string) (r : res unit) (evs : list event) : Prop :=
  exists url, delete_run url r evs
    /\ forall id cfg q, uuid_Parse arg = Ok id -> loaded o evs = Some cfg ->
         NewGetSatellitesIdRequest (api_base cfg +:+ "/") id = Ok q -> url = q_URL q.

Lemma ParseGet_status rsp resp :
  ParseGetSatellitesIdResponse rsp = Ok resp ->
  GetSatellitesIdResponse_StatusCode resp = p_StatusCode rsp.
Proof using Type.
  unfold ParseGetSatellitesIdResponse, mbind, res_bind. intros Hp. split_matches.
Qed.

Lemma ParseDelete_status rsp resp :
  ParseDeleteSatellitesIdResponse rsp = Ok resp ->
  DeleteSatellitesIdResponse_StatusCode resp = p_StatusCode rsp.
Proof using Type.
  unfold ParseDeleteSatellitesIdResponse, mbind, res_bind. intros Hp. split_matches.
Qed.
Lemma sent_client o auth evs r : client_result o auth evs r -> sent evs = [].
Proof using Type.
  destruct r as [[client editors]|e]; cbn; [by intros (p & f & cfg & -> & _)|].
  by intros [->|(p & f & ->)].
Qed.

(** The requests of one satellite go to one URL. *)
Lemma get_delete_url server id get del :
  NewGetSatellitesIdRequest server id = Ok get -> NewDeleteSatellitesIdRequest server id = Ok del ->
  q_URL del = q_URL get /\ q_Method get = "GET" /\ q_Method del = "DELETE".
Proof using Type.
  intros (p & Hp & Hget)%res_bind_Ok. unfold NewDeleteSatellitesIdRequest. rewrite Hp. cbn [mbind res_bind].
  intros Hdel.
  destruct (new_request_url _ _ _ _ _ _ _ _ Hdel Hget) as [Hu Hm].
  destruct (new_request_url _ _ _ _ _ _ _ _ Hget Hdel) as [_ Hm']. done.
Qed.

Lemma new_request_GET server id get :
  NewGetSatellitesIdRequest server id = Ok get -> q_Method get = "GET".
Proof using Type.
  intros (p & Hp & Hget)%res_bind_Ok. by destruct (new_request_url _ _ _ _ _ _ _ _ Hget Hget).
Qed.

(** The last step of a deletion, once the satellite may be deleted. *)
Lemma delete_step o cfg id d get rsp resp :
  (exists q, NewGetSatellitesIdRequest (api_base cfg +:+ "/") id = Ok q
     /\ q_URL get = q_URL q /\ q_Method get = q_Method q) ->
  p_StatusCode rsp = 200%Z -> ParseGetSatellitesIdResponse rsp = Ok resp ->
  SatelliteCmd.operator_managed (GetSatellitesId_JSON200 resp) = false -> d = doer_of o ->
  always
    (let? r := DeleteSatellitesIdWithResponse (client_of o cfg) id (editors_of cfg) or "delete satellite"
     in expect (StatusError (DeleteSatellitesIdResponse_StatusCode r) (DeleteSatellitesId_Body r) [204%Z])
          (say "Satellite deleted"))
    (fun r evs => delete_run (q_URL get) r (Sent d get (Ok rsp) :: evs)).
Proof using Type.
  intros (q & Hq & Hurl & Hmeth) Hst Hparse Hman ->. apply always_attempt.
  assert (q_Method get = "GET") as Hget.
  { rewrite Hmeth. by eapply new_request_GET. }
  eapply always_mono; [apply (call_always o cfg true)|]. intros [r|e] evs.
  - intros [[_ [e He]]|(dq & dq' & a & Hdq & -> & Hm & Hu & _ & Hr)]; [done|].
    destruct (get_delete_url _ _ _ _ Hq Hdq) as (Hsame & _ & Hd).
    assert (exists rsp', a = Ok rsp' /\ ParseDeleteSatellitesIdResponse rsp' = Ok r) as (rsp' & -> & Hp).
    { symmetry in Hr. by apply res_bind_Ok in Hr as (rsp' & -> & ?); exists rsp'. }
    assert (forall r', (is_err r' \/ p_StatusCode rsp' = 204%Z) -> forall tail, sent tail = [] ->
      delete_run (q_URL get) r'
        (Sent (doer_of o) get (Ok rsp) :: Sent (doer_of o) dq' (Ok rsp') :: tail)) as Hrun.
    { intros r' Hr' tail Htail. right; right. exists (doer_of o), get, dq', rsp, (Ok rsp'), resp.
      split_and!; try congruence.
      - cbn. unfold sent in Htail. by rewrite Htail.
      - destruct Hr' as [?|?]; [by left|right; by exists rsp']. }
    destruct (StatusError _ _ _) eqn:Hse; cbn [expect always app].
    { apply Hrun; [left; by eexists|done]. }
    apply StatusError_None in Hse. rewrite (ParseDelete_status _ _ Hp) in Hse.
    intros ans. cbn. apply Hrun; [by right|done].
  - intros [[-> _]|(dq & dq' & a & Hdq & -> & Hm & Hu & _ & Hr)].
    + right; left. exists (doer_of o), get, (Ok rsp). split_and!; [done..|by eexists].
    + destruct (get_delete_url _ _ _ _ Hq Hdq) as (Hsame & _ & Hd).
      right; right. exists (doer_of o), get, dq', rsp, a, resp. split_and!; try congruence; [done|].
      left. by eexists.
Qed.

(** A deletion after events that are no requests. *)
Lemma delete_run_after url r evs evs' :
  sent evs = [] -> delete_run url r evs' -> delete_run url r (evs ++ evs').
Proof using Type. unfold delete_run. by rewrite !sent_app; intros ->. Qed.

(** The two requests, once the client is made. *)
Lemma delete_requests o cfg id :
  always
    (let? getResp := GetSatellitesIdWithResponse (client_of o cfg) id (editors_of cfg)
       or "check satellite ownership" in
     expect (StatusError (GetSatellitesIdResponse_StatusCode getResp) (GetSatellitesId_Body getResp)
               [200%Z])
       (if SatelliteCmd.operator_managed (GetSatellitesId_JSON200 getResp) then
          Return (Err (Foreign "satellite is managed by the Operator; update its CR in Git instead"))
        else
          let? resp := DeleteSatellitesIdWithResponse (client_of o cfg) id (editors_of cfg)
            or "delete satellite" in
          expect (StatusError (DeleteSatellitesIdResponse_StatusCode resp)
                    (DeleteSatellitesId_Body resp) [204%Z])
            (say "Satellite deleted")))
    (fun r evs => exists url, delete_run url r evs
       /\ forall q, NewGetSatellitesIdRequest (api_base cfg +:+ "/") id = Ok q -> url = q_URL q).
Proof using Type.
  apply always_attempt. eapply always_mono; [apply (call_always o cfg true)|]. intros [resp|e] evs.
  - intros [[_ [e He]]|(q & q' & a & Hq & -> & Hm & Hu & _ & Hr)]; [done|].
    change (NewGetSatellitesIdRequest (api_base cfg +:+ "/") id = Ok q) in Hq.
    symmetry in Hr. apply res_bind_Ok in Hr as (rsp & -> & Hp).
    assert (q_Method q' = "GET") as Hget by (rewrite Hm; by eapply new_request_GET).
    assert (forall q0, NewGetSatellitesIdRequest (api_base cfg +:+ "/") id = Ok q0 ->
      q_URL q' = q_URL q0) as Haim by (intros q0 Hq0; congruence).
    assert (forall r, is_err r -> exists url, delete_run url r [Sent (doer_of o) q' (Ok rsp)]
      /\ forall q0, NewGetSatellitesIdRequest (api_base cfg +:+ "/") id = Ok q0 -> url = q_URL q0)
      as Hfail.
    { intros r Hr. exists (q_URL q'). split; [|done]. right; left. by exists (doer_of o), q', (Ok rsp). }
    destruct (StatusError _ _ _) eqn:Hse; cbn [expect]; [apply Hfail; by eexists|].
    apply StatusError_None in Hse. rewrite (ParseGet_status _ _ Hp) in Hse.
    destruct (SatelliteCmd.operator_managed _) eqn:Hman; [apply Hfail; by eexists|].
    eapply always_mono; [apply (delete_step o cfg id (doer_of o) q' rsp resp); try done; by exists q|].
    intros r evs Hrun. by exists (q_URL q').
  - intros [[-> _]|(q & q' & a & Hq & -> & Hm & Hu & _ & Hr)].
    + destruct (NewGetSatellitesIdRequest (api_base cfg +:+ "/") id) as [q|e'] eqn:Hq.
      * exists (q_URL q). split; [left; split; [done|by eexists]|]. by intros ? [= <-].
      * exists "". split; [left; split; [done|by eexists]|done].
    + change (NewGetSatellitesIdRequest (api_base cfg +:+ "/") id = Ok q) in Hq.
      exists (q_URL q'). split; [|intros q0 Hq0; congruence].
      right; left. exists (doer_of o), q', a. split_and!; [done| |done|by eexists].
      rewrite Hm. by eapply new_request_GET.
Qed.

Lemma delete_always o arg :
  always (SatelliteCmd.newDeleteCommand o arg) (delete_stated o arg).
Proof using Type.
  unfold SatelliteCmd.newDeleteCommand.
  assert (forall r evs, sent evs = [] -> is_err r -> loaded o evs = None ->
    delete_stated o arg r evs) as Hnothing.
  { intros r evs Hs Hr Hl. exists "". split; [by left|]. intros id cfg q _. by rewrite Hl. }
  apply always_attempt. cbn [pure always]. destruct (uuid_Parse arg) as [id|e] eqn:Hid; cbn [app];
    [|apply Hnothing; by try eexists].
  apply always_attempt. eapply always_mono; [apply Options_Client_always|]. intros r evs Hc.
  pose proof (sent_client _ _ _ _ Hc) as Hsent.
  destruct r as [[client editors]|e].
  - destruct Hc as (p & f & cfg & -> & Hcfg & -> & -> & _).
    eapply always_mono; [apply delete_requests|]. intros r evs (url & Hrun & Haim).
    exists url. split; [by apply delete_run_after|]. intros id' cfg' q Hid'. cbn. rewrite Hcfg.
    intros [= <-]. replace id' with id by congruence. apply Haim.
  - cbn in Hc. destruct Hc as [->|(p & f & ->)]; [apply Hnothing; by try eexists|].
    destruct (config_of o f) as [cfg|e'] eqn:Hcfg;
      [|apply Hnothing; [done|by eexists|cbn; by rewrite Hcfg]].
    destruct (NewGetSatellitesIdRequest (api_base cfg +:+ "/") id) as [q|e''] eqn:Hq;
      [exists (q_URL q)|exists ""]; (split; [left; split; [done|by eexists]|]);
      intros id' cfg' q' Hid'; cbn; rewrite Hcfg; intros [= <-];
      replace id' with id by congruence; congruence.
Qed.


(** *** Logging in *)

(** The request and the answer of a successful login, and the token it gave. *)
Definition logged_in (username : string) (evs : list event) (token : string) : Prop :=
  exists d req rsp resp password,
    sent evs = [Sent d req (Ok rsp)] /\ q_Method req = "POST" /\ password <> ""
    /\ q_Body req = Some (encode (LoginRequest_json (mkLoginRequest password username)))
    /\ p_StatusCode rsp = 200%Z /\ ParsePostAuthLoginResponse rsp = Ok resp
    /\ PostAuthLogin_JSON200 resp ≫= lr_Token = Some token.

Lemma ParseLogin_status rsp resp :
  ParsePostAuthLoginResponse rsp = Ok resp ->
  PostAuthLoginResponse_StatusCode resp = p_StatusCode rsp.
Proof using Type.
  unfold ParsePostAuthLoginResponse, mbind, res_bind. intros Hp. split_matches.
Qed.

Lemma login_request server body req :
  NewPostAuthLoginRequest server body = Ok req ->
  q_Method req = "POST" /\ q_Body req = Some (encode (LoginRequest_json body)).
Proof using Type.
  unfold NewPostAuthLoginRequest, NewPostAuthLoginRequestWithBody, new_request.
  intros (r & (u & Hu & (v & Hv & (w & Hw & [= <-])%res_bind_Ok)%res_bind_Ok)%res_bind_Ok
    & [= <-])%res_bind_Ok. done.
Qed.

Section Login.
Context `{!UnicodeTablesOk _} `{FileSystem W}.

Lemma sent_Save o cfg : always (Save o cfg) (fun _ evs => sent evs = []).
Proof using Type.
  unfold Save. apply always_attempt. eapply always_mono; [apply path_always|].
  intros [p|e] evs ->; [|done]. apply always_attempt. intros [[]|e]; [by intros x|done].
Qed.

Lemma sent_Load o : always (Load o) (fun _ evs => sent evs = []).
Proof using Type.
  unfold Load. apply always_attempt. eapply always_mono; [apply path_always|].
  intros [p|e] evs ->; [|done]. by intros f.
Qed.

(** The last steps of a login: the token is put into the configuration. *)
Lemma save_token o token (w : W) :
  let p := (let? cfg := Load o in
            let? _ := Save o (mkConfig (cfg_Server cfg) token) or "save config" in
            say "Login successful") in
  result (exec p w) = Ok tt ->
  sent (events (exec p w)) = []
  /\ exists server, let cfg := mkConfig server token in
     result (exec (Load o) (world (exec p w)))
     = if fits cfg then Ok (override_server o cfg) else Err ErrTooLong.
Proof using All.
  cbn zeta. rewrite exec_attempt.
  pose proof (always_exec (Load o) _ w (sent_Load o)) as Hl.
  destruct (exec (Load o) w) as [[cfg|e] evs1 w1]; cbn [result events world] in Hl |- *; [|done].
  rewrite exec_attempt. set (cfg' := mkConfig (cfg_Server cfg) token).
  pose proof (always_exec (Save o cfg') _ w1 (sent_Save o cfg')) as Hs.
  destruct (exec (Save o cfg') w1) as [[[]|e] evs2 w2] eqn:Hsave; cbn [result events world] in Hs |- *;
    [|done].
  intros _. destruct (save_exec o cfg' w1) as (p & w0 & w2' & Hp & Hw & Hw2); [by rewrite Hsave|].
  rewrite Hsave in Hw2. cbn [world] in Hw2. subst w2'.
  pose proof (print_keeps p Stdout ("Login successful" +:+ chr 10) w2) as Hkeep.
  unfold say. cbn -[Load config_of fits override_server String.append].
  destruct (answer (Fprint Stdout _) w2) as [x w3]; cbn [fst snd] in Hkeep.
  cbn -[Load config_of fits override_server String.append].
  split; [rewrite !sent_app, Hl, Hs; done|]. exists (cfg_Server cfg). fold cfg'.
  apply reads_back in Hw. rewrite (load_exec o p w3 Hp), Hkeep, Hw. apply config_of_text.
Qed.

(** C37. A login that succeeds has sent one request, with the user's name and a
    password that is not empty, got a token for it, and saved the token: from
    then on loading the configuration gives that token (or fails, when a line of
    the file is 64 KiB or longer). *)
Theorem login_takes_effect (o : Options) (is_fd : bool) (username : string) (stdin : bool) (w : W) :
  let run := exec (newLoginCommand o NewPasswordReader is_fd username stdin) w in
  result run = Ok tt ->
  exists server token, let cfg := mkConfig server token in
    logged_in username (events run) token
    /\ result (exec (Load o) (world run))
       = if fits cfg then Ok (override_server o cfg) else Err ErrTooLong.
Proof using All.
  cbn zeta. unfold newLoginCommand. rewrite exec_attempt.
  pose proof (always_exec _ _ w (Read_always is_fd stdin)) as [Hq Hpass].
  destruct (exec (Read _ _ _) w) as [[password|e] evs1 w1]; cbn [result events world] in Hq, Hpass |- *;
    [|done].
  rewrite exec_attempt.
  pose proof (always_exec _ _ w1 (Options_Client_always o false)) as Hc.
  destruct (exec (Options_Client o false) w1) as [[[client editors]|e] evs2 w2];
    cbn [result events world] in Hc |- *; [|done].
  apply sent_client in Hc as Hs2. destruct Hc as (p & f & cfg & _ & _ & -> & _ & _).
  rewrite exec_attempt.
  pose proof (always_exec _ _ w2 (call_always o cfg false
    (NewPostAuthLoginRequest (api_base cfg +:+ "/") (mkLoginRequest password username))
    ParsePostAuthLoginResponse)) as Hcall.
  match goal with |- context [exec ?p w2] => change (exec p w2) with
    (exec (let? rsp := send (client_of o cfg) (NewPostAuthLoginRequest (api_base cfg +:+ "/")
       (mkLoginRequest password username)) [] in Return (ParsePostAuthLoginResponse rsp)) w2) end.
  destruct (exec _ w2) as [[resp|e] evs3 w3]; cbn [result events world] in Hcall |- *; [|done].
  destruct Hcall as [[_ [e He]]|(q & q' & a & Hreq & -> & Hm & _ & Hb & Hr)]; [done|].
  symmetry in Hr. apply res_bind_Ok in Hr as (rsp & -> & Hparse).
  destruct (login_request _ _ _ Hreq) as [Hqm Hqb].
  destruct (StatusError _ _ _) eqn:Hse; cbn [expect]; [done|].
  apply StatusError_None in Hse. rewrite (ParseLogin_status _ _ Hparse) in Hse.
  destruct (_ ≫= lr_Token) as [token|] eqn:Htok; [|done].
  intros Hok. destruct (save_token o token w3 Hok) as [Hs4 [server Hload]].
  exists server, token. split; [|exact Hload].
  exists (doer_of o), q', rsp, resp, password.
  rewrite !sent_app, (sent_quiet evs1), Hs2, Hs4 by done.
  split_and!; try done; congruence.
Qed.
End Login.
End Commands.
