(* ===== verification/Root.v ===== *)
(** * Root: the command line of fleetctl ([fleetctl/cmd])

    The tree of cobra commands and [main]: which command of [Cli.v] runs for which
    command line, with which options. *)

From S2P Require Import Prelude.
From S2P Require Import GoStd.
From S2P Require Import Strconv.
From S2P Require Import Auth.
From S2P Require Import Gen.
From S2P Require Import Flags.
From S2P Require Import Proc.
From S2P Require Import Cobra.
From S2P Require Import Client.
From S2P Require Import CliConfig.
From S2P Require Import Cli.
From S2P Require Import CliProps.

(** ** The tree *)

Definition string_flag (name default usage : string) : Flag :=
  mkCobraFlag name (StringValue default) usage false.
Definition bool_flag (name : string) (default : bool) (usage : string) : Flag :=
  mkCobraFlag name (BoolValue default) usage false.

Definition config_flag : Flag := string_flag "config" "" "config file (default ~/.fleetctl/config.yaml)".
Definition server_flag : Flag := string_flag "server" "" "FleetControl API URL (overrides config)".
Definition username_flag : Flag := string_flag "username" "" "username".
Definition password_stdin_flag : Flag :=
  bool_flag "password-stdin" false "read password from standard input".
Definition name_flag : Flag := string_flag "name" "" "satellite name".
Definition region_flag : Flag := string_flag "region" "" "satellite region".
Definition role_flag : Flag := string_flag "role" "viewer" "role (admin or viewer)".

(** [opts], which the persistent flags of the root command fill. *)
Definition opts_of (vals : Values) : Options :=
  mkOptions (string_of config_flag vals) (string_of server_flag vals) None.

(** The standard input is a file. *)
Definition stdin_is_fd : bool := true.

(** [args[0]] of a command that takes exactly one argument. *)
Definition first_arg (f : string -> proc (res unit)) (args : list string) : proc (res unit) :=
  match args with
  | arg :: _ => f arg
  | [] => Return (Err (Foreign "index out of range [0] with length 0"))
  end.

Section Tree.
Context `{OsLib} `{UnicodeTables} `{ClientLib} `{UuidLib} `{TimeText}.

Definition loginCommand (passwords : PasswordReader) : Command :=
  let cmd := cobra_command "login" "Authenticate and save the development token" AnyArgs
    (Some (fun vals _ => newLoginCommand (opts_of vals) passwords stdin_is_fd
       (string_of username_flag vals) (bool_of password_stdin_flag vals))) in
  let cmd := add_flag cmd username_flag in
  let cmd := add_flag cmd password_stdin_flag in
  MarkFlagRequired cmd "username".

Definition healthCommand : Command :=
  cobra_command "health" "Check Control Plane health" AnyArgs
    (Some (fun vals _ => newHealthCommand (opts_of vals))).

Definition satelliteCreateCommand : Command :=
  let cmd := cobra_command "create" "Create a manually managed satellite" AnyArgs
    (Some (fun vals _ => SatelliteCmd.newCreateCommand (opts_of vals)
       (string_of name_flag vals) (string_of region_flag vals))) in
  let cmd := add_flag cmd name_flag in
  let cmd := add_flag cmd region_flag in
  MarkFlagRequired (MarkFlagRequired cmd "name") "region".

Definition satelliteGetCommand : Command :=
  cobra_command "get <id>" "Get a satellite" (ExactArgs 1)
    (Some (fun vals => first_arg (SatelliteCmd.newGetCommand (opts_of vals)))).

Definition satelliteListCommand : Command :=
  cobra_command "list" "List satellites" AnyArgs
    (Some (fun vals _ => SatelliteCmd.newListCommand (opts_of vals))).

Definition satelliteDeleteCommand : Command :=
  cobra_command "delete <id>" "Delete a manually managed satellite" (ExactArgs 1)
    (Some (fun vals => first_arg (SatelliteCmd.newDeleteCommand (opts_of vals)))).

Definition satelliteCommand : Command :=
  let cmd := cobra_command "satellite" "Manage satellites (dev/debug only)" AnyArgs None in
  AddCommand cmd
    [satelliteCreateCommand; satelliteGetCommand; satelliteListCommand; satelliteDeleteCommand].

Definition userCreateCommand (passwords : PasswordReader) : Command :=
  let cmd := cobra_command "create" "Create a user (admin only)" AnyArgs
    (Some (fun vals _ => UserCmd.newCreateCommand (opts_of vals) passwords stdin_is_fd
       (string_of username_flag vals) (string_of role_flag vals)
       (bool_of password_stdin_flag vals))) in
  let cmd := add_flag cmd username_flag in
  let cmd := add_flag cmd password_stdin_flag in
  let cmd := add_flag cmd role_flag in
  MarkFlagRequired cmd "username".

Definition userListCommand : Command :=
  cobra_command "list" "List users (admin only)" AnyArgs
    (Some (fun vals _ => UserCmd.newListCommand (opts_of vals))).

Definition userCommand (passwords : PasswordReader) : Command :=
  let cmd := cobra_command "user" "Manage users (dev/debug only)" AnyArgs None in
  AddCommand cmd [userCreateCommand passwords; userListCommand].

Definition newRootCommand (passwords : PasswordReader) : Command :=
  let rootCmd := mkCommand "fleetctl" "fleetctl is a dev/debug CLI for FleetControl"
    ("fleetctl is a development and debugging tool for FleetControl." +:+ chr 10 +:+ chr 10
     +:+ "It is NOT the official way to manage production fleet state — GitOps" +:+ chr 10
     +:+ "via ArgoCD and Kubernetes CRDs is the source of truth. fleetctl exists" +:+ chr 10
     +:+ "for local development, testing, and debugging only.")
    true true AnyArgs None [] [] [] in
  let rootCmd := add_persistent_flag rootCmd config_flag in
  let rootCmd := add_persistent_flag rootCmd server_flag in
  AddCommand rootCmd
    [loginCommand passwords; healthCommand; satelliteCommand; userCommand passwords].

Definition NewRootCommand : Command := newRootCommand NewPasswordReader.

Context `{CobraLib}.

(** [Execute] with these arguments: the exit status. *)
Definition Execute (argv : list string) : proc Z :=
  r ← Command_Execute NewRootCommand argv;
  match r with
  | Err err => _ ← perform (Fprint Stderr (Error err +:+ chr 10)); Return 1%Z
  | Ok _ => Return 0%Z
  end.

(** ** Command lines and commands *)

(** The command a path of the tree names, with what it is called with. *)
Definition command_of (path : list string) (vals : Values) (args : list string) : option command :=
  match path with
  | ["login"] => Some (Login (string_of username_flag vals) (bool_of password_stdin_flag vals))
  | ["health"] => Some HealthCheck
  | ["satellite"; "create"] =>
      Some (SatelliteCreate (string_of name_flag vals) (string_of region_flag vals))
  | ["satellite"; "get"] => SatelliteGet <$> head args
  | ["satellite"; "list"] => Some SatelliteList
  | ["satellite"; "delete"] => SatelliteDelete <$> head args
  | ["user"; "create"] =>
      Some (UserCreate (string_of username_flag vals) (string_of role_flag vals)
              (bool_of password_stdin_flag vals))
  | ["user"; "list"] => Some UserList
  | _ => None
  end.

(** A command line for a command: the path, the flags, the arguments. *)
Definition command_path (c : command) : list string :=
  match c with
  | Login _ _ => ["login"]
  | HealthCheck => ["health"]
  | SatelliteCreate _ _ => ["satellite"; "create"]
  | SatelliteGet _ => ["satellite"; "get"]
  | SatelliteList => ["satellite"; "list"]
  | SatelliteDelete _ => ["satellite"; "delete"]
  | UserCreate _ _ _ => ["user"; "create"]
  | UserList => ["user"; "list"]
  end.

Definition command_flags (c : command) : list (string * FlagValue) :=
  match c with
  | Login username stdin => [("username", StringValue username); ("password-stdin", BoolValue stdin)]
  | SatelliteCreate name region => [("name", StringValue name); ("region", StringValue region)]
  | UserCreate username role stdin =>
      [("username", StringValue username); ("role", StringValue role);
       ("password-stdin", BoolValue stdin)]
  | _ => []
  end.

Definition command_args (c : command) : list string :=
  match c with SatelliteGet id | SatelliteDelete id => [id] | _ => [] end.

Definition line_flags (config server : string) (c : command) : list (string * FlagValue) :=
  ("config", StringValue config) :: ("server", StringValue server) :: command_flags c.

Definition line (config server : string) (c : command) : list string :=
  command_path c ++ map setting (line_flags config server c) ++ command_args c.

(** ** What runs *)

Lemma subcommand_cons c c1 l name :
  Commands c = c1 :: l ->
  subcommand c name = if String.eqb (Name c1) name then Some c1
                      else find (fun c' => String.eqb (Name c') name) l.
Proof. unfold subcommand. by intros ->. Qed.

(** What may run and what it does, for a command at the end of a path. *)
Definition runs_as (path : list string) (c' : Command) (flags : list Flag) : Prop :=
  forall vals args, accepted c' flags vals args ->
  exists run c, RunE c' = Some run /\ command_of path vals args = Some c
    /\ run vals args = run_command (opts_of vals) stdin_is_fd c.

Lemma group_runs_nothing path c' flags : RunE c' = None -> runs_as path c' flags.
Proof. intros Hc vals args [Hrun _]. rewrite Hc in Hrun. by destruct Hrun. Qed.

Lemma leaf_runs path flags c run (cf : Values -> command) :
  RunE c = Some run -> (forall vals args, command_of path vals args = Some (cf vals)) ->
  (forall vals args, run vals args = run_command (opts_of vals) stdin_is_fd (cf vals)) ->
  runs_as path c flags.
Proof. intros Hr Hc Hrun vals args _. exists run, (cf vals). by rewrite Hc. Qed.

Lemma leaf_with_arg_runs path flags c f (cf : string -> command) :
  RunE c = Some (fun vals => first_arg (f vals)) -> Args c = ExactArgs 1 ->
  (forall vals args, command_of path vals args = cf <$> head args) ->
  (forall vals arg, f vals arg = run_command (opts_of vals) stdin_is_fd (cf arg)) ->
  runs_as path c flags.
Proof.
  intros Hr Ha Hc Hrun vals args (_ & Hargs & _). rewrite Ha in Hargs. cbn in Hargs.
  apply bool_decide_eq_true in Hargs. destruct args as [|arg [|]]; [discriminate| |discriminate].
  exists (fun vals => first_arg (f vals)), (cf arg). rewrite Hc. split_and!; [done..|apply Hrun].
Qed.

Lemma walk_leaf c inherited path r :
  Commands c = [] -> walk c inherited path = Some r ->
  path = [] /\ r = (c, (inherited ++ PersistentFlags c) ++ LocalFlags c).
Proof.
  intros Hc. destruct path as [|w path]; cbn [walk]; [by intros [= <-]|].
  unfold subcommand. by rewrite Hc.
Qed.

(** One step along a path: which of the commands it is. *)
Ltac which :=
  match goal with
  | H : context [if String.eqb ?n ?w then _ else _] |- _ =>
      destruct (String.eqb_spec n w) as [<-|_]
  end.

Lemma tree_runs path c' flags :
  walk NewRootCommand [] path = Some (c', flags) -> runs_as path c' flags.
Proof.
  destruct path as [|w path]; [intros [= <- _]; by apply group_runs_nothing|].
  cbn [walk]. rewrite (subcommand_cons NewRootCommand (loginCommand NewPasswordReader) _ _ eq_refl).
  cbn [find]. intros Hw.
  which; [|which; [|which; [|which; [|done]]]]; cbn [mbind option_bind] in Hw.
  - apply walk_leaf in Hw as [-> [= -> _]]; [|done].
    by eapply (leaf_runs _ _ _ _ (fun vals => Login _ _)).
  - apply walk_leaf in Hw as [-> [= -> _]]; [|done]. by eapply (leaf_runs _ _ _ _ (fun vals => HealthCheck)).
  - destruct path as [|w' path]; [injection Hw as <- _; by apply group_runs_nothing|].
    cbn [walk] in Hw. rewrite (subcommand_cons satelliteCommand satelliteCreateCommand _ _ eq_refl) in Hw.
    cbn [find] in Hw.
    which; [|which; [|which; [|which; [|done]]]]; cbn [mbind option_bind] in Hw;
      (apply walk_leaf in Hw as [-> [= -> _]]; [|done]).
    + by eapply (leaf_runs _ _ _ _ (fun vals => SatelliteCreate _ _)).
    + by eapply (leaf_with_arg_runs _ _ _ _ SatelliteGet).
    + by eapply (leaf_runs _ _ _ _ (fun vals => SatelliteList)).
    + by eapply (leaf_with_arg_runs _ _ _ _ SatelliteDelete).
  - destruct path as [|w' path]; [injection Hw as <- _; by apply group_runs_nothing|].
    cbn [walk] in Hw.
    rewrite (subcommand_cons (userCommand _) (userCreateCommand NewPasswordReader) _ _ eq_refl) in Hw.
    cbn [find] in Hw.
    which; [|which; [|done]]; cbn [mbind option_bind] in Hw;
      (apply walk_leaf in Hw as [-> [= -> _]]; [|done]).
    + by eapply (leaf_runs _ _ _ _ (fun vals => UserCreate _ _ _)).
    + by eapply (leaf_runs _ _ _ _ (fun vals => UserList)).
Qed.

(** *** Runs of a command line *)

Definition printed (out : list (Stream * string)) : list event :=
  map (fun st => Printed st.1 st.2) out.

(** The exit status and what is printed for the result of a command. *)
Definition exit_status (r : res unit) : Z := match r with Ok _ => 0 | Err _ => 1 end.
Definition complaint (r : res unit) : list event :=
  match r with Ok _ => [] | Err e => [Printed Stderr (Error e +:+ chr 10)] end.

Context `{!CobraOk _}.

Section Run.
Context `{Env W}.

(** A run that did this and ended like that. *)
Definition ran (run : Run Z W) (evs : list event) (r : res unit) : Prop :=
  result run = exit_status r /\ events run = evs ++ complaint r.

Lemma exec_print_all {A} out (k : proc A) (w : W) :
  exists w', result (exec (print_all out k) w) = result (exec k w')
    /\ events (exec (print_all out k) w) = printed out ++ events (exec k w').
Proof using Type.
  revert w. induction out as [|[s text] out IH]; intros w; [by exists w|].
  cbn [print_all]. rewrite exec_bind. cbn. destruct (answer (Fprint s text) w) as [x w1]. cbn.
  destruct (IH w1) as (w' & Hr & He). exists w'. by rewrite He.
Qed.

Lemma ran_end (p : proc (res unit)) (w : W) evs r :
  result (exec p w) = r -> events (exec p w) = evs ->
  ran (exec (r ← p; match r with
                    | Err err => _ ← perform (Fprint Stderr (Error err +:+ chr 10)); Return 1%Z
                    | Ok _ => Return 0%Z
                    end) w) evs r.
Proof using Type.
  intros <- <-. unfold ran. rewrite exec_bind. cbn zeta. cbn [result events].
  destruct (result (exec p w)) as [[]|e]; cbn; [done|].
  by destruct (answer (Fprint Stderr _) _).
Qed.

(** Nothing but a command of the tree ever runs, and it runs as the command line
    says. *)
Lemma Execute_exec (argv : list string) (w : W) :
  match plan NewRootCommand argv with
  | Runs path vals args =>
      exists c, command_of path vals args = Some c
        /\ let run := exec (run_command (opts_of vals) stdin_is_fd c) w in
           ran (exec (Execute argv) w) (events run) (result run)
  | Ends out r => ran (exec (Execute argv) w) (printed out) r
  end.
Proof using CobraOk0.
  unfold Execute, Command_Execute. destruct (plan _ _) as [path vals args|out r] eqn:Hp.
  - destruct (runs_command _ _ _ _ _ Hp) as (c' & flags & Hw & Hacc).
    destruct (tree_runs _ _ _ Hw vals args Hacc) as (run & c & Hr & Hc & Hrun).
    exists c. split; [done|]. rewrite Hw, Hr, <- Hrun. cbn zeta. apply ran_end; rewrite exec_bind; cbn.
    all: destruct (result (exec (run vals args) w)) as [[]|e];
      [|rewrite (silent_reports NewRootCommand) by done]; cbn; by rewrite ?app_nil_r.
  - destruct (exec_print_all out (Return r) w) as (w' & Hr & He).
    apply ran_end; [exact Hr|]. rewrite He. cbn. apply app_nil_r.
Qed.

(** *** The command line of a command *)

Lemma line_plan config server c :
  Forall (fun a => plain_arg a = true) (command_args c) ->
  exists vals, plan NewRootCommand (line config server c) = Runs (command_path c) vals (command_args c)
    /\ opts_of vals = mkOptions config server None
    /\ command_of (command_path c) vals (command_args c) = Some c.
Proof using CobraOk0.
  intros Ha. exists (list_to_map (line_flags config server c)). split; [|by destruct c].
  destruct (walk NewRootCommand [] (command_path c)) as [[c' flags]|] eqn:Hw; [|by destruct c].
  assert (Commands c' = [] /\ command_path c <> []
    /\ Forall (fun w => plain_word w = true) (command_path c)
    /\ NoDup (map fst (line_flags config server c))
    /\ forallb (settable flags) (line_flags config server c) = true
    /\ RefCobra.acceptb c' flags (list_to_map (line_flags config server c)) (command_args c) = true)
    as (Hc & Hne & Hp & Hn & Hs & Hacc%RefCobra.acceptb_iff).
  { destruct c; cbn in Hw; injection Hw as <- <-;
      split_and!; try done; try (by repeat constructor); by apply (bool_decide_unpack _). }
  by apply (plain_line_runs _ _ _ _ c' flags).
Qed.

Lemma line_ran config server c (w : W) :
  Forall (fun a => plain_arg a = true) (command_args c) ->
  let run := exec (run_command (mkOptions config server None) stdin_is_fd c) w in
  ran (exec (Execute (line config server c)) w) (events run) (result run).
Proof using CobraOk0.
  intros Ha. destruct (line_plan config server c Ha) as (vals & Hp & <- & Hc).
  pose proof (Execute_exec (line config server c) w) as Hex. rewrite Hp in Hex.
  destruct Hex as (c' & Hc' & Hran). assert (c' = c) as -> by congruence. exact Hran.
Qed.

(** A line that exits with 0 has run a command that succeeded. *)
Lemma line_succeeds config server c (w : W) :
  Forall (fun a => plain_arg a = true) (command_args c) ->
  result (exec (Execute (line config server c)) w) = 0%Z ->
  let run := exec (run_command (mkOptions config server None) stdin_is_fd c) w in
  result run = Ok tt /\ events (exec (Execute (line config server c)) w) = events run.
Proof using CobraOk0.
  intros Ha Hr. destruct (line_ran config server c w Ha) as [Hres Hevs]. cbn zeta.
  rewrite Hr in Hres. rewrite Hevs.
  destruct (result (exec (run_command _ _ c) w)) as [[]|e]; [|done]. by rewrite app_nil_r.
Qed.

(** C20. The command line written for a command, with whatever configuration file,
    server and values, runs exactly that command: the same requests, files and
    texts, an exit status of 0 when it succeeds, and of 1 with the error on the
    standard error when it fails. *)
Theorem command_line_runs_command (config server : string) (c : command) (w : W) :
  Forall (fun a => plain_arg a = true) (command_args c) ->
  let run := exec (run_command (mkOptions config server None) stdin_is_fd c) w in
  ran (exec (Execute (line config server c)) w) (events run) (result run).
Proof using CobraOk0. intros Ha. by apply line_ran. Qed.
End Run.
End Tree.
