(* ===== verification/Wire.v ===== *)
(** * Wire: what the client and the server understand of each other

    The bodies the generated client writes are decoded by the handlers to the
    values they were made from, and the bodies the handlers write are decoded by
    the client: the two sides of the contract agree, down to the bytes. *)

From S2P Require Import Prelude.
From S2P Require Import GoStd.
From S2P Require Import Utf8.
From S2P Require Import Json.
From S2P Require Import JsonText.
From S2P Require Import Strconv.
From S2P Require Import Sql.
From S2P Require Import Principal.
From S2P Require Import Jwt.
From S2P Require Import Http.
From S2P Require Import Auth.
From S2P Require Import Gen.
From S2P Require Import Proc.
From S2P Require Import Client.
From S2P Require Import CliConfig.
From S2P Require Import Cli.

(** ** Flat objects *)

(** A value that is no array and no object, with text that survives. *)
Definition leaf (j : json) : bool :=
  match j with
  | JStr s => ValidString s
  | JNum lit => number_ok lit
  | JArr _ | JObj _ => false
  | _ => true
  end.

Definition flat (l : list (string * json)) : bool :=
  forallb (fun kv => ValidString kv.1 && leaf kv.2) l.

Lemma leaf_facts j : leaf j = true -> json_ok j = true /\ clean j = j /\ nesting j = 0%N.
Proof.
  destruct j; try done; cbn; intros Hj. by rewrite clean_string_valid.
Qed.

Lemma nesting_fold {A} (f : A -> N) l n :
  (forall a, a ∈ l -> (f a <= n)%N) -> (fold_right N.max 0 (map f l) <= n)%N.
Proof.
  intros Hl. induction l as [|a l IH]; cbn; [lia|].
  pose proof (Hl a (list_elem_of_here _ _)).
  assert (forall b, b ∈ l -> (f b <= n)%N) as Hl' by (intros b Hb; apply Hl; by right).
  specialize (IH Hl'). lia.
Qed.

Lemma forallb_In {A} (f : A -> bool) l a : forallb f l = true -> a ∈ l -> f a = true.
Proof. rewrite forallb_forall. intros Hl Ha. apply Hl. by apply list_elem_of_In. Qed.

Lemma map_fixed {A} (f : A -> A) l : (forall a, a ∈ l -> f a = a) -> map f l = l.
Proof.
  intros Hl. induction l as [|a l IH]; [done|]. cbn. rewrite Hl by apply list_elem_of_here.
  f_equal. apply IH. intros b Hb. apply Hl. by right.
Qed.

Lemma forallb_intro {A} (f : A -> bool) l : (forall a, a ∈ l -> f a = true) -> forallb f l = true.
Proof. intros Hl. apply forallb_forall. intros a Ha. apply Hl. by apply list_elem_of_In. Qed.

(** What is read back from a flat object, and from an array of them. *)
Lemma flat_facts l :
  flat l = true -> json_ok (JObj l) = true /\ clean (JObj l) = JObj l /\ (nesting (JObj l) <= 1)%N.
Proof.
  intros Hl.
  assert (forall kv, kv ∈ l -> ValidString kv.1 = true /\ json_ok kv.2 = true
    /\ clean kv.2 = kv.2 /\ nesting kv.2 = 0%N) as Hall.
  { intros kv Hkv. apply (forallb_In _ _ _ Hl), andb_true_iff in Hkv as [Hk Hv].
    apply leaf_facts in Hv. tauto. }
  split_and!; cbn [json_ok clean nesting].
  - apply forallb_intro. intros kv Hkv. by apply Hall.
  - f_equal. apply map_fixed. intros [k v] Hkv. destruct (Hall _ Hkv) as (Hk & _ & Hc & _).
    cbn [fst snd] in Hk, Hc |- *. by rewrite clean_string_valid, Hc.
  - pose proof (nesting_fold (fun kv : string * json => nesting kv.2) l 0) as Hn.
    enough (fold_right N.max 0 (map (fun kv : string * json => nesting kv.2) l) <= 0)%N; [lia|].
    apply Hn. intros kv Hkv. destruct (Hall _ Hkv) as (_ & _ & _ & ->). lia.
Qed.

Lemma flat_writable l : flat l = true -> json_writable (JObj l) = true /\ clean (JObj l) = JObj l.
Proof.
  intros (Hok & Hc & Hn)%flat_facts. split; [|done]. apply writable_iff.
  split; [done|]. unfold maxNestingDepth. lia.
Qed.

Lemma flat_array_writable ls :
  Forall (fun l => flat l = true) ls ->
  json_writable (JArr (map JObj ls)) = true /\ clean (JArr (map JObj ls)) = JArr (map JObj ls).
Proof.
  intros Hls. rewrite Forall_forall in Hls.
  assert (forall j, j ∈ map JObj ls -> json_ok j = true /\ clean j = j /\ (nesting j <= 1)%N) as Hall.
  { intros j (l & <- & Hl)%elem_of_map. by apply flat_facts, Hls. }
  split; [apply writable_iff; split|].
  - cbn. apply forallb_intro. intros j Hj. by apply Hall.
  - cbn -[N.max]. assert (fold_right N.max 0 (map nesting (map JObj ls)) <= 1)%N.
    { apply nesting_fold. intros j Hj. by apply Hall. }
    unfold maxNestingDepth. lia.
  - cbn. f_equal. apply map_fixed. intros j Hj. by apply Hall.
Qed.

(** The bytes of a flat object are read back as they were written. *)
Lemma flat_Unmarshal l : flat l = true -> Unmarshal (encode (JObj l)) = Some (JObj l).
Proof. intros [Hw Hc]%flat_writable. rewrite Unmarshal_encode by done. by rewrite Hc. Qed.

Lemma flat_Decode l : flat l = true -> Decode (encode (JObj l)) = Some (JObj l).
Proof.
  intros [Hw Hc]%flat_writable. pose proof (Decode_encode (JObj l) "" Hw eq_refl) as Hd.
  rewrite append_nil_r in Hd. by rewrite Hd, Hc.
Qed.

(** ** Fields *)

Lemma set_opt_member {A B} (fields : list (string * setter A)) k (f : B -> json) dec
    (upd : option B -> A -> A) (o : option B) ms a :
  find_field fields k = Some (set_ptr dec upd) ->
  (forall v, o = Some v -> f v <> JNull /\ dec (f v) = Some v) ->
  (o = None -> upd None a = a) ->
  set_members fields (opt_member k f o ++ ms) a = set_members fields ms (upd o a).
Proof.
  intros Hfield Hdec Hnone. destruct o as [v|]; cbn [opt_member app].
  - cbn [set_members]. rewrite Hfield. destruct (Hdec v eq_refl) as [Hn Hv].
    unfold set_ptr. by destruct (f v); [done|..]; rewrite Hv.
  - by rewrite Hnone.
Qed.

(** A member that is null for nil. *)
Lemma set_null_member {A B} (fields : list (string * setter A)) k (f : B -> json) dec
    (upd : option B -> A -> A) (o : option B) ms a :
  find_field fields k = Some (set_ptr dec upd) ->
  (forall v, o = Some v -> f v <> JNull /\ dec (f v) = Some v) ->
  set_members fields ([(k, match o with Some v => f v | None => JNull end)] ++ ms) a
  = set_members fields ms (upd o a).
Proof.
  intros Hfield Hdec. cbn [app set_members]. rewrite Hfield. destruct o as [v|]; [|done].
  destruct (Hdec v eq_refl) as [Hn Hv]. unfold set_ptr. by destruct (f v); [done|..]; rewrite Hv.
Qed.

Lemma flat_app l l' : flat (l ++ l') = flat l && flat l'.
Proof. apply forallb_app. Qed.

Lemma flat_opt {A} k (f : A -> json) o :
  ValidString k = true -> (forall a, o = Some a -> leaf (f a) = true) ->
  flat (opt_member k f o) = true.
Proof. intros Hk Ho. destruct o as [a|]; [|done]. unfold flat; cbn [opt_member forallb fst snd]. by rewrite Hk, Ho. Qed.

Definition valid_opt (o : option string) : Prop := forall s, o = Some s -> ValidString s = true.
Definition time_opt (o : option Time) : Prop := forall t, o = Some t -> rfc3339_time t.
Definition id_opt (o : option UUID) : Prop := forall u, o = Some u -> (u < 2 ^ 128)%N.

(** What survives the wire: text in UTF-8, dates RFC 3339 can write. *)
Definition sat_wire_ok (s : gen_Satellite) : Prop :=
  time_opt (gs_CreatedAt s) /\ id_opt (gs_Id s) /\ time_opt (gs_LastSeenAt s)
  /\ valid_opt (gs_ManagedBy s) /\ valid_opt (gs_Name s) /\ valid_opt (gs_Region s)
  /\ valid_opt (gs_Status s).

Definition user_wire_ok (u : gen_User) : Prop :=
  time_opt (gu_CreatedAt u) /\ id_opt (gu_Id u) /\ valid_opt (gu_Role u)
  /\ valid_opt (gu_Username u).

Section Wire.
Context `{UuidLib} `{!UuidLibOk _} `{TimeText} `{!TimeTextOk _}.

Lemma dec_time_json t : rfc3339_time t -> dec_time (time_json t) = Some t.
Proof using TimeTextOk0. intros Ht. unfold dec_time, time_json. by rewrite time_parse_text. Qed.

Lemma dec_uuid_json u : (u < 2 ^ 128)%N -> dec_uuid (uuid_json u) = Some u.
Proof using UuidLibOk0. intros Hu. unfold dec_uuid, uuid_json. by rewrite uuid_Parse_String. Qed.

(** The members of a satellite. *)
Definition sat_members (s : gen_Satellite) : list (string * json) :=
  opt_member "created_at" time_json (gs_CreatedAt s)
  ++ opt_member "id" uuid_json (gs_Id s)
  ++ [("last_seen_at", match gs_LastSeenAt s with Some t => time_json t | None => JNull end)]
  ++ opt_member "managed_by" JStr (gs_ManagedBy s)
  ++ opt_member "name" JStr (gs_Name s)
  ++ opt_member "region" JStr (gs_Region s)
  ++ opt_member "status" JStr (gs_Status s).

Definition user_members (u : gen_User) : list (string * json) :=
  opt_member "created_at" time_json (gu_CreatedAt u)
  ++ opt_member "id" uuid_json (gu_Id u)
  ++ opt_member "role" JStr (gu_Role u)
  ++ opt_member "username" JStr (gu_Username u).

Lemma leaf_time t : leaf (time_json t) = true.
Proof using TimeTextOk0. apply time_text_valid. Qed.

Lemma leaf_uuid u : leaf (uuid_json u) = true.
Proof using UuidLibOk0. apply uuid_String_text. Qed.

Lemma sat_flat s : sat_wire_ok s -> flat (sat_members s) = true.
Proof using All.
  intros (_ & _ & _ & Hm & Hn & Hr & Hs). unfold sat_members. rewrite !flat_app.
  rewrite !flat_opt by (done || (intros; by apply leaf_time || apply leaf_uuid || auto)).
  unfold flat; cbn. destruct (gs_LastSeenAt s) as [t|]; [|done]. by rewrite leaf_time.
Qed.

Lemma user_flat u : user_wire_ok u -> flat (user_members u) = true.
Proof using All.
  intros (_ & _ & Hr & Hn). unfold user_members. rewrite !flat_app.
  by rewrite !flat_opt by (done || (intros; by apply leaf_time || apply leaf_uuid || auto)).
Qed.

(** Decode the next optional member. *)
Ltac next_member fact :=
  erewrite set_opt_member;
  [|reflexivity|intros ? Hv; (split; [done|]); first [reflexivity|apply fact; eauto]|done];
  cbn [gs_CreatedAt gs_Id gs_LastSeenAt gs_ManagedBy gs_Name gs_Region gs_Status
       gu_CreatedAt gu_Id gu_Role gu_Username].

Lemma decode_Satellite_json s : sat_wire_ok s -> decode_Satellite (gen_Satellite_json s) = Some s.
Proof using All.
  intros (Hc & Hi & Hl & _). unfold decode_Satellite, gen_Satellite_json, decode_struct.
  next_member dec_time_json. next_member dec_uuid_json.
  erewrite set_null_member; [|reflexivity|intros t Ht; split; [done|by apply dec_time_json, Hl]].
  next_member I. next_member I. next_member I.
  rewrite <- (app_nil_r (opt_member "status" JStr (gs_Status s))).
  next_member I. by destruct s.
Qed.

Lemma decode_User_json u : user_wire_ok u -> decode_User (gen_User_json u) = Some u.
Proof using All.
  intros (Hc & Hi & _). unfold decode_User, gen_User_json, decode_struct.
  next_member dec_time_json. next_member dec_uuid_json. next_member I.
  rewrite <- (app_nil_r (opt_member "username" JStr (gu_Username u))).
  next_member I. by destruct u.
Qed.
(** ** Requests *)

Lemma decode_create_request name region :
  ValidString name = true -> ValidString region = true ->
  decode_CreateSatelliteRequest
    (encode (CreateSatelliteRequest_json (mkCreateSatelliteRequest name region)))
  = Some (mkCreateSatelliteRequest name region).
Proof using Type.
  intros Hn Hr. unfold decode_CreateSatelliteRequest, CreateSatelliteRequest_json.
  rewrite flat_Decode; [done|]. unfold flat. cbn [forallb fst snd leaf csr_Name csr_Region].
  by rewrite Hn, Hr.
Qed.

(** The bodies the client sends are what the handlers decode. *)
Theorem request_bodies_understood :
  (forall r, ValidString (csr_Name r) = true -> ValidString (csr_Region r) = true ->
     decode_CreateSatelliteRequest (encode (CreateSatelliteRequest_json r)) = Some r)
  /\ (forall r, ValidString (usr_Region r) = true ->
     decode_UpdateSatelliteRequest (encode (UpdateSatelliteRequest_json r)) = Some r)
  /\ (forall r, ValidString (cur_Password r) = true -> valid_opt (cur_Role r) ->
     ValidString (cur_Username r) = true ->
     decode_CreateUserRequest (encode (CreateUserRequest_json r)) = Some r)
  /\ (forall r, ValidString (lr_Password r) = true -> ValidString (lr_Username r) = true ->
     decode_login (encode (LoginRequest_json r)) = Some (mkLogin (lr_Username r) (lr_Password r))).
Proof using Type.
  split_and!.
  - intros [n r]. apply decode_create_request.
  - intros [r] Hr. cbn [usr_Region] in *. unfold decode_UpdateSatelliteRequest, UpdateSatelliteRequest_json.
    rewrite flat_Decode; [done|]. unfold flat.
    cbn [forallb fst snd leaf csr_Name csr_Region usr_Region lr_Password lr_Username]. by rewrite Hr.
  - intros [p r u] Hp Hr Hu. cbn [cur_Password cur_Role cur_Username] in *.
    unfold decode_CreateUserRequest, CreateUserRequest_json. rewrite flat_Decode; [by destruct r|].
    unfold flat. cbn [forallb fst snd leaf cur_Password cur_Role cur_Username].
    rewrite forallb_app. cbn [forallb fst snd leaf]. rewrite Hp, Hu.
    destruct r as [r|]; cbn [opt_member forallb fst snd leaf]; [by rewrite (Hr r)|done].
  - intros [p u] Hp Hu. cbn [lr_Password lr_Username] in *. unfold decode_login, LoginRequest_json.
    rewrite flat_Decode; [done|]. unfold flat.
    cbn [forallb fst snd leaf csr_Name csr_Region usr_Region lr_Password lr_Username]. by rewrite Hp, Hu.
Qed.

(** ** Answers *)

Context `{ClientLib}.

(** The response a client receives for what a handler wrote. *)
Definition response_of (w : Writer) : HttpResponse :=
  mkHttpResponse (pretty (status_of w) +:+ " " +:+ StatusText (status_of w)) (status_of w)
    (match w_sent w with Some (_, h) => h | None => w_header w end) (w_body w, None).

Definition json_body (code : Z) (j : json) : HttpResponse :=
  response_of (json_response code j fresh_writer).

Lemma json_body_facts code j :
  read_all (json_body code j) = Ok (Encode j)
  /\ forall c, json_answer (json_body code j) c = (code =? c)%Z.
Proof using Type. split; [done|]. intros c. reflexivity. Qed.

Lemma unmarshal_flat {A} (dec : json -> option A) l a :
  flat l = true -> dec (JObj l) = Some a -> unmarshal dec (Encode (JObj l)) = Ok a.
Proof using Type.
  intros [Hw Hc]%flat_writable Hdec. unfold unmarshal. rewrite Unmarshal_Encode by done.
  rewrite Hc. cbn. by rewrite Hdec.
Qed.

Lemma unmarshal_array {A} (dec : json -> option A) (f : A -> list (string * json)) l :
  Forall (fun a => flat (f a) = true /\ dec (JObj (f a)) = Some a) l ->
  unmarshal (decode_slice dec) (Encode (JArr (map (fun a => JObj (f a)) l))) = Ok (Some l).
Proof using Type.
  intros Hl. rewrite Forall_forall in Hl. unfold unmarshal.
  rewrite <- (map_map f JObj). destruct (flat_array_writable (map f l)) as [Hw Hc].
  { apply Forall_forall. intros m (a & <- & Ha)%elem_of_map. by apply Hl. }
  rewrite Unmarshal_Encode by done. rewrite Hc. cbn. rewrite map_map.
  assert (mapM dec (map (fun a => JObj (f a)) l) = Some l) as ->; [|done].
  apply mapM_Some. clear Hw Hc. induction l as [|a l IH]; cbn; constructor.
  - apply Hl, list_elem_of_here.
  - apply IH. intros b Hb. apply Hl. by right.
Qed.

Lemma unmarshal_Satellite s :
  sat_wire_ok s -> unmarshal decode_Satellite (Encode (gen_Satellite_json s)) = Ok s.
Proof using All.
  intros Hs. apply (unmarshal_flat _ (sat_members s)); [by apply sat_flat|].
  by apply decode_Satellite_json.
Qed.

Lemma ParseGet_satellite s :
  sat_wire_ok s ->
  GetSatellitesId_JSON200 <$> ParseGetSatellitesIdResponse (json_body 200 (gen_Satellite_json s))
  = Ok (Some s).
Proof using All.
  intros Hs. unfold ParseGetSatellitesIdResponse.
  rewrite (proj1 (json_body_facts _ _)). cbn [mbind res_bind].
  rewrite (proj2 (json_body_facts _ _)). cbn [Z.eqb Pos.eqb].
  by rewrite unmarshal_Satellite.
Qed.

Lemma ParsePost_satellite s :
  sat_wire_ok s ->
  PostSatellites_JSON201 <$> ParsePostSatellitesResponse (json_body 201 (gen_Satellite_json s))
  = Ok (Some s).
Proof using All.
  intros Hs. unfold ParsePostSatellitesResponse.
  rewrite (proj1 (json_body_facts _ _)). cbn [mbind res_bind].
  rewrite (proj2 (json_body_facts _ _)). cbn [Z.eqb Pos.eqb].
  by rewrite unmarshal_Satellite.
Qed.

Lemma unmarshal_User u :
  user_wire_ok u -> unmarshal decode_User (Encode (gen_User_json u)) = Ok u.
Proof using All.
  intros Hu. apply (unmarshal_flat _ (user_members u)); [by apply user_flat|].
  by apply decode_User_json.
Qed.

Lemma unmarshal_Satellites l :
  Forall sat_wire_ok l ->
  unmarshal (decode_slice decode_Satellite) (Encode (JArr (map gen_Satellite_json l))) = Ok (Some l).
Proof using All.
  intros Hl. apply (unmarshal_array _ sat_members). eapply Forall_impl; [exact Hl|].
  intros s Hs. split; [by apply sat_flat|by apply decode_Satellite_json].
Qed.

Lemma unmarshal_Users l :
  Forall user_wire_ok l ->
  unmarshal (decode_slice decode_User) (Encode (JArr (map gen_User_json l))) = Ok (Some l).
Proof using All.
  intros Hl. apply (unmarshal_array _ user_members). eapply Forall_impl; [exact Hl|].
  intros u Hu. split; [by apply user_flat|by apply decode_User_json].
Qed.

(** C39. What the handlers answer on success is what the client hands to its caller:
    the satellite, the account, the list or the token that was encoded. *)
Theorem answers_understood :
  (forall s, sat_wire_ok s ->
     GetSatellitesId_JSON200 <$> ParseGetSatellitesIdResponse (json_body 200 (gen_Satellite_json s))
       = Ok (Some s)
     /\ PostSatellites_JSON201 <$> ParsePostSatellitesResponse (json_body 201 (gen_Satellite_json s))
       = Ok (Some s)
     /\ PatchSatellitesId_JSON200
          <$> ParsePatchSatellitesIdResponse (json_body 200 (gen_Satellite_json s)) = Ok (Some s)
     /\ PostSatellitesIdHeartbeat_JSON200
          <$> ParsePostSatellitesIdHeartbeatResponse (json_body 200 (gen_Satellite_json s))
        = Ok (Some s))
  /\ (forall l, Forall sat_wire_ok l ->
     GetSatellites_JSON200
       <$> ParseGetSatellitesResponse (json_body 200 (JArr (map gen_Satellite_json l)))
     = Ok (Some (Some l)))
  /\ (forall u, user_wire_ok u ->
     PostUsers_JSON201 <$> ParsePostUsersResponse (json_body 201 (gen_User_json u)) = Ok (Some u))
  /\ (forall l, Forall user_wire_ok l ->
     GetUsers_JSON200 <$> ParseGetUsersResponse (json_body 200 (JArr (map gen_User_json l)))
     = Ok (Some (Some l)))
  /\ (forall token, ValidString token = true ->
     PostAuthLogin_JSON200
       <$> ParsePostAuthLoginResponse (json_body 200 (login_json token (Z.quot HumanTokenTTL Second)))
     = Ok (Some (mkLoginResponse (Some 3600%Z) (Some token)))).
Proof using All.
  split_and!.
  - intros s Hs. split; [by apply ParseGet_satellite|].
    split; [by apply ParsePost_satellite|]. unfold ParsePatchSatellitesIdResponse,
      ParsePostSatellitesIdHeartbeatResponse.
    rewrite !(proj1 (json_body_facts _ _)). cbn [mbind res_bind].
    rewrite !(proj2 (json_body_facts _ _)). cbn [Z.eqb Pos.eqb].
    rewrite !unmarshal_Satellite by done. by split_and!.
  - intros l Hl. unfold ParseGetSatellitesResponse.
    rewrite (proj1 (json_body_facts _ _)). cbn [mbind res_bind].
    rewrite (proj2 (json_body_facts _ _)). cbn [Z.eqb Pos.eqb].
    by rewrite unmarshal_Satellites.
  - intros u Hu. unfold ParsePostUsersResponse.
    rewrite (proj1 (json_body_facts _ _)). cbn [mbind res_bind].
    rewrite (proj2 (json_body_facts _ _)). cbn [Z.eqb Pos.eqb].
    by rewrite unmarshal_User.
  - intros l Hl. unfold ParseGetUsersResponse.
    rewrite (proj1 (json_body_facts _ _)). cbn [mbind res_bind].
    rewrite (proj2 (json_body_facts _ _)). cbn [Z.eqb Pos.eqb].
    by rewrite unmarshal_Users.
  - intros token Ht. unfold ParsePostAuthLoginResponse.
    rewrite (proj1 (json_body_facts _ _)). cbn [mbind res_bind].
    rewrite (proj2 (json_body_facts _ _)). cbn [Z.eqb Pos.eqb].
    unfold login_json.
    rewrite (unmarshal_flat decode_LoginResponse _ (mkLoginResponse (Some 3600%Z) (Some token)));
      [done| |].
    + unfold flat. cbn [forallb fst snd leaf]. rewrite Ht. by vm_compute.
    + change (pretty (Z.quot HumanTokenTTL Second)) with "3600". reflexivity.
Qed.
(** ** Errors *)

Lemma error_json_back code message :
  ValidString code = true -> ValidString message = true ->
  Unmarshal (Encode (error_json code message)) = Some (error_json code message).
Proof using Type.
  intros Hc Hm. rewrite Unmarshal_Encode by done. unfold error_json.
  cbn [clean map fst snd]. by rewrite !clean_string_valid.
Qed.

(** An answer of the middleware: JSON text, but not announced as JSON. *)
Definition denied_body (text : string) (code : Z) : HttpResponse :=
  response_of (http_Error text code fresh_writer).

(** C40. The error a handler answers is the error the user is shown: code, status and
    message. This holds for the answers of the middleware too; but because those
    are announced as plain text, the generated client does not decode them, and
    its typed 401 and 403 results stay nil. *)
Theorem server_errors_shown :
  (forall status code message expected,
     existsb (fun want => (status =? want)%Z) expected = false ->
     ValidString code = true -> ValidString message = true -> message <> "" ->
     StatusError status (w_body (json_response status (error_json code message) fresh_writer))
       expected = Some (mkAPIError status code message))
  /\ StatusError 401 (w_body (http_Error unauthorized_missing 401 fresh_writer)) [200%Z]
     = Some (mkAPIError 401 "UNAUTHORIZED" "missing or invalid token")
  /\ StatusError 403 (w_body (http_Error forbidden_role 403 fresh_writer)) [200%Z]
     = Some (mkAPIError 403 "FORBIDDEN" "insufficient role")
  /\ GetSatellites_JSON401 <$> ParseGetSatellitesResponse (denied_body unauthorized_missing 401)
     = Ok None
  /\ GetUsers_JSON403 <$> ParseGetUsersResponse (denied_body forbidden_role 403) = Ok None.
Proof using Type.
  split_and!; [|vm_compute; reflexivity..|reflexivity|reflexivity].
  intros status code message expected Hexp Hc Hm Hne. unfold StatusError. rewrite Hexp.
  assert (error_envelope (w_body (json_response status (error_json code message) fresh_writer))
    = Some (code, message)) as ->.
  { unfold error_envelope. change (w_body _) with (Encode (error_json code message)).
    by rewrite error_json_back. }
  by destruct (String.eqb_spec message "").
Qed.
End Wire.
