(* ===== verification/EndToEnd.v ===== *)
(** * EndToEnd: fleetctl against the server

    The generated client and the server speak the same contract: the calls of the
    client are for exactly the operations the server routes, with the id of the
    call in the path. *)

From S2P Require Import Prelude.
From S2P Require Import GoStd.
From S2P Require Import Json.
From S2P Require Import Strconv.
From S2P Require Import Sql.
From S2P Require Import Principal.
From S2P Require Import Jwt.
From S2P Require Import Http.
From S2P Require Import Chi.
From S2P Require Import Auth.
From S2P Require Import Gen.
From S2P Require Import Table.
From S2P Require Import Satellite.
From S2P Require Import SatelliteSpec.
From S2P Require Import User.
From S2P Require Import UserSpec.
From S2P Require Import GenServer.
From S2P Require Import Server.
From S2P Require Import ServerProps.
From S2P Require Import Fleet.
From S2P Require Import Proc.
From S2P Require Import Client.
From S2P Require Import CliConfig.
From S2P Require Import Cli.
From S2P Require Import CliProps.
From S2P Require Import Wire.

#[local] Existing Instance PostgresRepository.
#[local] Existing Instance PostgresUsers.repository.

(** ** Paths *)

Lemma segments_char u s :
  str_forall path_char u = true -> segments s <> [] ->
  segments (u +:+ s) = match segments s with seg :: segs => (u +:+ seg) :: segs | [] => [] end.
Proof.
  intros Hu Hs. induction u as [|c u IH]; cbn [String.append segments].
  - by destruct (segments s).
  - cbn in Hu. apply andb_true_iff in Hu as [Hc Hu].
    destruct (Ascii.eqb_spec c "/"%char) as [->|_]; [done|]. rewrite IH by done.
    by destruct (segments s).
Qed.

Lemma segments_word u : str_forall path_char u = true -> segments u = [u].
Proof.
  intros Hu. pose proof (segments_char u "" Hu) as Hs. rewrite append_nil_r in Hs.
  cbn in Hs. rewrite append_nil_r in Hs. by apply Hs.
Qed.

Section Contract.
Context `{ClientLib} `{UuidLib} `{TimeText} `{!ClientLibOk _ _}.

(** The paths of one satellite or account. *)
Lemma match_satellite id :
  pattern_match "/satellites/{id}" ("/satellites/" +:+ uuid_String id) = Some [("id", uuid_String id)].
Proof using ClientLibOk0.
  destruct (uuid_path id) as [_ Hu]. unfold pattern_match.
  change (segments ("/satellites/" +:+ uuid_String id))
    with ("" :: "satellites" :: segments (uuid_String id)).
  by rewrite (segments_word _ Hu).
Qed.

Lemma match_user id :
  pattern_match "/users/{id}" ("/users/" +:+ uuid_String id) = Some [("id", uuid_String id)].
Proof using ClientLibOk0.
  destruct (uuid_path id) as [_ Hu]. unfold pattern_match.
  change (segments ("/users/" +:+ uuid_String id))
    with ("" :: "users" :: segments (uuid_String id)).
  by rewrite (segments_word _ Hu).
Qed.

Lemma match_heartbeat id :
  pattern_match "/satellites/{id}/heartbeat" ("/satellites/" +:+ uuid_String id +:+ "/heartbeat")
  = Some [("id", uuid_String id)].
Proof using ClientLibOk0.
  destruct (uuid_path id) as [_ Hu]. unfold pattern_match.
  change (segments ("/satellites/" +:+ uuid_String id +:+ "/heartbeat"))
    with ("" :: "satellites" :: segments (uuid_String id +:+ "/heartbeat")).
  assert (segments "/heartbeat" <> []) as Hne by discriminate.
  rewrite (segments_char _ _ Hu Hne).
  change (segments "/heartbeat") with [""; "heartbeat"]. cbn match. by rewrite append_nil_r.
Qed.

(** The calls of the generated client: the request each one makes for a server,
    the route it is meant for and its path parameters. *)
Definition client_calls (server : string) (id : UUID) (login : LoginRequest)
    (create : CreateSatelliteRequest) (update : UpdateSatelliteRequest) (user : CreateUserRequest)
    : list (res HttpRequest * (Signature * list (string * string))) :=
  let with_id := [("id", uuid_String id)] in
  [(NewPostAuthLoginRequest server login, (("POST", "/auth/login"), []));
   (NewGetHealthRequest server, (("GET", "/health"), []));
   (NewGetSatellitesRequest server, (("GET", "/satellites"), []));
   (NewPostSatellitesRequest server create, (("POST", "/satellites"), []));
   (NewDeleteSatellitesIdRequest server id, (("DELETE", "/satellites/{id}"), with_id));
   (NewGetSatellitesIdRequest server id, (("GET", "/satellites/{id}"), with_id));
   (NewPatchSatellitesIdRequest server id update, (("PATCH", "/satellites/{id}"), with_id));
   (NewPostSatellitesIdHeartbeatRequest server id, (("POST", "/satellites/{id}/heartbeat"), with_id));
   (NewGetUsersRequest server, (("GET", "/users"), []));
   (NewPostUsersRequest server user, (("POST", "/users"), []));
   (NewDeleteUsersIdRequest server id, (("DELETE", "/users/{id}"), with_id));
   (NewGetVersionRequest server, (("GET", "/version"), []))].

(** The request is for that route at that server, with those parameters, and a
    body is announced as JSON. *)
Definition aims_at (base : string) (c : res HttpRequest * (Signature * list (string * string))) : Prop :=
  exists req path, c.1 = Ok req /\ q_Method req = c.2.1.1 /\ q_URL req = base +:+ path
    /\ pattern_match c.2.1.2 path = Some c.2.2
    /\ (is_Some (q_Body req) -> Header_Get (q_Header req) "Content-Type" = "application/json").

Lemma aims_plain base method pat path ps :
  plain_url base = true -> plain_path path = true -> pattern_match pat ("/" +:+ path) = Some ps ->
  aims_at base (new_request (base +:+ "/") method ("/" +:+ path) None, ((method, pat), ps)).
Proof using ClientLibOk0.
  intros Ho Hp Hm. eexists _, ("/" +:+ path). split_and!; [by apply new_request_plain|done..|].
  by intros [? ?].
Qed.

Lemma aims_body base method pat path body ps :
  plain_url base = true -> plain_path path = true -> pattern_match pat ("/" +:+ path) = Some ps ->
  aims_at base (req ← new_request (base +:+ "/") method ("/" +:+ path) (Some body);
                Ok (add_header req "Content-Type" "application/json"), ((method, pat), ps)).
Proof using ClientLibOk0.
  intros Ho Hp Hm. eexists _, ("/" +:+ path). cbn [fst]. rewrite new_request_plain by done.
  split_and!; done.
Qed.

(** The paths with an id are plain. *)
Lemma plain_id id prefix :
  (forall u, plain_from true (prefix +:+ u) = plain_from true u) ->
  plain_path (prefix +:+ uuid_String id) = true.
Proof using ClientLibOk0.
  intros Hp. rewrite <- (append_nil_r (uuid_String id)). by apply plain_id_path.
Qed.

Context `{JWTLib} `{BcryptLib} `{ChiLib} `{!ChiOk _} `{BindLib} `{Repository} `{UserRepository}.

(** C19. Client and server are generated from the same contract and agree on it: the
    client's calls are for exactly the routes the generated server has, and, when
    the server's URL is plain ([plain_url]), every request a call makes is for its
    route, under that URL, with the id in its path. *)
Theorem client_speaks_contract (server : ServerInterface) (base : string) (id : UUID)
    (login : LoginRequest) (create : CreateSatelliteRequest) (update : UpdateSatelliteRequest)
    (user : CreateUserRequest) :
  let calls := client_calls (base +:+ "/") id login create update user in
  map (fun c => c.2.1) calls = map signature (mv_routes (mux_view (Handler_ server)))
  /\ (plain_url base = true -> Forall (aims_at base) calls).
Proof using ClientLibOk0 ChiOk0.
  cbn zeta. split; [by rewrite Handler_routes|]. intros Ho. unfold client_calls,
    NewDeleteSatellitesIdRequest, NewGetSatellitesIdRequest, NewPatchSatellitesIdRequest,
    NewPatchSatellitesIdRequestWithBody, NewPostSatellitesIdHeartbeatRequest,
    NewDeleteUsersIdRequest.
  rewrite StyleParam_uuid. cbn [mbind res_bind].
  pose proof (plain_id id "satellites/" (fun _ => eq_refl)) as Hsat.
  pose proof (plain_id id "users/" (fun _ => eq_refl)) as Huser.
  pose proof (plain_id_path id "satellites/" "/heartbeat" (fun _ => eq_refl) eq_refl) as Hbeat.
  pose proof (match_satellite id). pose proof (match_user id). pose proof (match_heartbeat id).
  repeat apply Forall_cons_2; [..|apply Forall_nil_2].
  - by apply (aims_body base "POST" "/auth/login" "auth/login").
  - by apply (aims_plain base "GET" "/health" "health").
  - by apply (aims_plain base "GET" "/satellites" "satellites").
  - by apply (aims_body base "POST" "/satellites" "satellites").
  - by apply (aims_plain base "DELETE" "/satellites/{id}" ("satellites/" +:+ uuid_String id)).
  - by apply (aims_plain base "GET" "/satellites/{id}" ("satellites/" +:+ uuid_String id)).
  - by apply (aims_body base "PATCH" "/satellites/{id}" ("satellites/" +:+ uuid_String id)).
  - by apply (aims_plain base "POST" "/satellites/{id}/heartbeat"
      ("satellites/" +:+ uuid_String id +:+ "/heartbeat")).
  - by apply (aims_plain base "GET" "/users" "users").
  - by apply (aims_body base "POST" "/users" "users").
  - by apply (aims_plain base "DELETE" "/users/{id}" ("users/" +:+ uuid_String id)).
  - by apply (aims_plain base "GET" "/version" "version").
Qed.
End Contract.
