(* ===== verification/Deploy.v ===== *)
(** * Deploy: fleetctl and the server together

    A deployment is a world in which the server of [Server.v] runs behind one
    address, with its database and the requests it is serving. What fleetctl does
    in that world is related to what becomes of the database: other people's
    requests run in between, and any request or answer can be lost on the way. *)

From S2P Require Import Prelude.
From S2P Require Import GoStd.
From S2P Require Import Json.
From S2P Require Import Sql.
From S2P Require Import Jwt.
From S2P Require Import Http.
From S2P Require Import Chi.
From S2P Require Import Auth.
From S2P Require Import Gen.
From S2P Require Import Table.
From S2P Require Import Satellite.
From S2P Require Import SatelliteSpec.
From S2P Require Import SatelliteProps.
From S2P Require Import User.
From S2P Require Import UserSpec.
From S2P Require Import GenServer.
From S2P Require Import Server.
From S2P Require Import ServerProps.
From S2P Require Import Strconv.
From S2P Require Import Fleet.
From S2P Require Import Proc.
From S2P Require Import Client.
From S2P Require Import CliConfig.
From S2P Require Import Cli.
From S2P Require Import CliProps.
From S2P Require Import Cobra.
From S2P Require Import Root.
From S2P Require Import Wire.
From S2P Require Import EndToEnd.

#[local] Existing Instance PostgresRepository.
#[local] Existing Instance PostgresUsers.repository.

(** ** The network *)

(** Header fields the transport adds or drops on the way. *)
Definition transport_fields : list string :=
  ["User-Agent"; "Accept-Encoding"; "Content-Length"; "Transfer-Encoding"; "Connection"; "Host"].

Definition carried (h h' : Header) : Prop := forall k, k ∉ transport_fields -> h' !! k = h !! k.

Lemma carried_Get h h' k :
  carried h h' -> CanonicalMIMEHeaderKey k ∉ transport_fields -> Header_Get h' k = Header_Get h k.
Proof. intros Hc Hk. unfold Header_Get. by rewrite Hc. Qed.

(** Header fields the server and the transport add to an answer or drop. *)
Definition answer_fields : list string :=
  ["Date"; "Content-Length"; "Transfer-Encoding"; "Connection"; "Content-Encoding"; "Trailer"].

(** What arrives of an answer: all of it, or the connection breaks in the body. *)
Definition delivered (w : Writer) (rsp : HttpResponse) : Prop :=
  p_Status rsp = p_Status (response_of w) /\ p_StatusCode rsp = p_StatusCode (response_of w)
  /\ (forall k, k ∉ answer_fields -> p_Header rsp !! k = p_Header (response_of w) !! k)
  /\ (p_Body rsp = p_Body (response_of w) \/ exists e, (p_Body rsp).2 = Some e).

Section Deploy.
Context `{JWTLib} `{BcryptLib} `{UuidLib} `{TimeText} `{ChiLib} `{BindLib} `{Postgres}.

(** A server, by its address, its documentation and its tokens, and the requests
    other people may send it. If the address has a path, what is in front of the
    server takes it off. *)
Record Site := mkSite {
  base : string;
  Spec : string;
  tokens : JWTManager;
  others : prog (outcome unit * Writer) -> Prop
}.

(** The request the server makes of a client's request for a path of its own. *)
Definition received (q : HttpRequest) (h : Header) (path : string) (now : Time) (elapsed : Z)
    (entropy : string) : Request :=
  mkRequest (q_Method q) path h (default "" (q_Body q)) [] [] now elapsed entropy.

Definition serve (site : Site) (r : Request) : prog (outcome unit * Writer) :=
  ServeHTTP (NewRouter (NewServer (tokens site)) (Spec site) (tokens site) (Some RequestLogger)) r
    fresh_writer.

Definition Server : Type := Pool (outcome unit * Writer).

(** Other people's requests at work. *)
Definition meanwhile (site : Site) : Server -> Server -> Prop := rtc (pool_step (others site)).

(** A request and its answer: it goes elsewhere, or is lost, or is served among
    the others; then the answer is the one it was given, or is lost. *)
Inductive exchange (site : Site) (q : HttpRequest) : Server -> res HttpResponse -> Server -> Prop :=
| goes_elsewhere c a c' :
    HasPrefix (q_URL q) (base site +:+ "/") = false -> meanwhile site c c' ->
    exchange site q c a c'
| gets_lost c e c' : meanwhile site c c' -> exchange site q c (Err e) c'
| is_served c s ps h path now elapsed entropy c' a :
    q_URL q = base site +:+ path -> carried (q_Header q) h ->
    meanwhile site c (mkPool s ps) ->
    meanwhile site (mkPool s (ps ++ [serve site (received q h path now elapsed entropy)])) c' ->
    match a with
    | Err _ => True
    | Ok rsp => exists w, pool_reqs c' !! length ps = Some (Ret (Done tt, w)) /\ delivered w rsp
    end ->
    exchange site q c a c'.

(** A world with that server in it: only HTTP reaches the server, and it runs all
    the time. *)
Class Deployment (site : Site) `(E : Env W) := {
  server_in : W -> Server;
  http_ok d q w : exchange site q (server_in w) (answer (HttpDo d q) w).1
                    (server_in (answer (HttpDo d q) w).2);
  other_calls_ok X (c : call X) w :
    (forall x, sent (event_of c x) = []) ->
    meanwhile site (server_in w) (server_in (answer c w).2)
}.

(** ** Runs in a deployment *)

(** What a run, seen by the requests it sent, did to the server. *)
Inductive history (site : Site) : list event -> Server -> Server -> Prop :=
| nothing_sent c c' : meanwhile site c c' -> history site [] c c'
| one_sent d q a evs c c1 c2 c3 :
    meanwhile site c c1 -> exchange site q c1 a c2 -> history site evs c2 c3 ->
    history site (Sent d q a :: evs) c c3.

Lemma history_later site evs c c1 c2 :
  meanwhile site c c1 -> history site evs c1 c2 -> history site evs c c2.
Proof using Type.
  intros Hc Hh. destruct Hh as [c1 c2 Hm|d q a evs c1 c2 c3 c4 Hm Hx Hh].
  - constructor. by etrans.
  - econstructor; [by etrans|done..].
Qed.

Lemma exec_history {A} site `{E : Env W} `{D : !Deployment site E} (p : proc A) (w : W) :
  history site (sent (events (exec p w))) (server_in w) (server_in (world (exec p w))).
Proof using Type.
  revert w. induction p as [a|X c k IH]; intros w; cbn; [constructor; apply rtc_refl|].
  destruct (answer c w) as [x w'] eqn:Hans. cbn [events world]. rewrite sent_app.
  assert ((forall x, sent (event_of c x) = []) ->
    history site (sent (event_of c x) ++ sent (events (exec (k x) w'))) (server_in w)
      (server_in (world (exec (k x) w')))) as Hquiet.
  { intros Hc. rewrite Hc. pose proof (other_calls_ok X c w Hc) as Hm. rewrite Hans in Hm.
    by eapply history_later; [|apply IH]. }
  destruct c as [| | | |d q| | | |]; try (apply Hquiet; done).
  cbn. pose proof (http_ok d q w) as Hx. rewrite Hans in Hx.
  econstructor; [apply rtc_refl|exact Hx|apply IH].
Qed.
End Deploy.

(** ** No command endangers the fleet *)

Section Safe.
Context `{JWTLib} `{BcryptLib} `{UuidLib} `{TimeText} `{ChiLib} `{!ChiOk _} `{BindLib}
  `{PostgresOk} `{OsLib} `{UnicodeTables} `{ClientLib} `{!ClientLibOk _ _} `{CobraLib} `{!CobraOk _}.

Definition from_people (site : Site) : prog (outcome unit * Writer) -> Prop :=
  incoming false (Spec site) (tokens site).

Lemma meanwhile_from_people site :
  (forall p, others site p -> from_people site p) ->
  forall c c', meanwhile site c c' -> rtc (pool_step (from_people site)) c c'.
Proof using Type.
  intros Hothers c c' Hm. eapply rtc_subrel; [|exact Hm]. intros x y Hxy.
  destruct Hxy; by constructor; auto.
Qed.

(** Requests like the ones people send keep the server among the states they can
    bring it to. *)
Lemma exchange_from_people site q c a c' :
  (forall p, others site p -> from_people site p) ->
  Header_Get (q_Header q) "X-FleetControl-Operator" = "" -> exchange site q c a c' ->
  rtc (pool_step (from_people site)) c c'.
Proof using Type.
  intros Hothers Hop.
  pose proof (meanwhile_from_people site Hothers) as Hsub.
  intros [c1 a1 c2 _ Hm|c1 e c2 Hm|c1 s ps h path now elapsed entropy c2 a1 _ Hh Hm Hm' _]; [auto..|].
  etrans; [by apply Hsub|]. eapply rtc_l; [|by apply Hsub]. constructor.
  exists (received q h path now elapsed entropy). split; [|done]. intros _.
  unfold SatHandler.fromOperator, received; cbn [r_header].
  rewrite (carried_Get _ _ _ Hh); [by rewrite Hop|].
  apply (bool_decide_unpack _). vm_compute. done.
Qed.

Lemma history_from_people site evs c c' :
  (forall p, others site p -> from_people site p) ->
  Forall (fun e => match e with
                   | Sent _ q _ => Header_Get (q_Header q) "X-FleetControl-Operator" = ""
                   | _ => True
                   end) evs ->
  history site evs c c' -> rtc (pool_step (from_people site)) c c'.
Proof using Type.
  intros Hothers Hevs Hh.
  pose proof (meanwhile_from_people site Hothers) as Hsub.
  induction Hh as [c c' Hm|d q a evs c c1 c2 c3 Hm Hx _ IH]; [auto|].
  apply Forall_cons in Hevs as [Hq Hevs]. etrans; [by apply Hsub|].
  etrans; [by eapply exchange_from_people|]. by apply IH.
Qed.

(** No request of a command line claims to be the operator's. *)
Lemma Execute_not_operator `{Env W} (argv : list string) (w : W) :
  Forall (fun e => match e with
                   | Sent _ q _ => Header_Get (q_Header q) "X-FleetControl-Operator" = ""
                   | _ => True
                   end) (sent (events (exec (Execute argv) w))).
Proof using ClientLibOk0 CobraOk0.
  assert (forall r, sent (complaint r) = []) as Hcomplaint by by intros [].
  pose proof (Execute_exec argv w) as Hex. destruct (plan _ _) as [path vals args|out r].
  - destruct Hex as (c & _ & _ & ->). rewrite sent_app, Hcomplaint, app_nil_r.
    apply commands_not_operator.
  - destruct Hex as [_ ->]. rewrite sent_app, Hcomplaint, app_nil_r.
    induction out as [|[st text] out IH]; [constructor|exact IH].
Qed.

(** C2. Whatever command line is given to fleetctl, by whoever holds whatever
    token, on whatever machine, while other people use the server too, and however
    the network fails: the database stays well formed, and every satellite the
    operator manages is still there afterwards, its name, region, owner and
    creation time unchanged, and no other record has become the operator's. *)
Theorem fleetctl_keeps_operator_records (site : Site) `{E : Env W} `{D : !Deployment site E}
    (argv : list string) (w : W) (s : pg_state) :
  (forall p, others site p -> from_people site p) -> db_ok (pg_view s) ->
  rtc (pool_step (from_people site)) (mkPool s []) (server_in w) ->
  let w' := world (exec (Execute argv) w) in
  db_ok (pg_view (pool_db (server_in w')))
  /\ operator_records_kept (sat_view (pg_view (pool_db (server_in w))))
       (sat_view (pg_view (pool_db (server_in w')))).
Proof using All.
  intros Hothers Hok Hstart. cbn zeta.
  assert (rtc (pool_step (from_people site)) (server_in w)
    (server_in (world (exec (Execute argv) w)))) as Hrun.
  { eapply history_from_people; [done|apply Execute_not_operator|apply (exec_history site)]. }
  assert (forall p T, from_people site p -> db_ok T ->
    rg (moves false) (moves false) p (fun _ _ => True) T) as Hadm.
  { intros p T (r & Hr & ->) HT. eapply rg_mono; [by apply router_safe|]. done. }
  pose proof (pool_steps_ok (moves false) (moves false) (from_people site) (fun _ _ Hm => Hm)
    db_ok (moves_db_ok false) Hadm) as Hpool.
  destruct (Hpool _ _ Hstart) as [Hm1 Hok1]; [by split|].
  destruct (Hpool _ _ Hrun Hok1) as [Hm2 [Hok2 _]].
  split; [done|]. apply Hm2; [|done]. by destruct Hok1.
Qed.
End Safe.
