(* ===== verification/Alone.v ===== *)
(** * Alone: what one command has done when nobody interferes

    When nobody else uses the server, the success of a command says what became
    of the records: fleetctl's checks, the wire, the router, the handlers and the
    database, one after the other. *)

From S2P Require Import Prelude.
From S2P Require Import GoStd.
From S2P Require Import Json.
From S2P Require Import Sql.
From S2P Require Import Jwt.
From S2P Require Import Http.
From S2P Require Import Chi.
From S2P Require Import Auth.
From S2P Require Import Gen.
From S2P Require Import Table.
From S2P Require Import Satellite.
From S2P Require Import SatelliteSpec.
From S2P Require Import SatelliteProps.
From S2P Require Import User.
From S2P Require Import UserSpec.
From S2P Require Import GenServer.
From S2P Require Import Server.
From S2P Require Import ServerProps.
From S2P Require Import Strconv.
From S2P Require Import Drain.
From S2P Require Import Proc.
From S2P Require Import Client.
From S2P Require Import CliConfig.
From S2P Require Import Cli.
From S2P Require Import CliProps.
From S2P Require Import Wire.
From S2P Require Import EndToEnd.
From S2P Require Import Deploy.

#[local] Existing Instance PostgresRepository.
#[local] Existing Instance PostgresUsers.repository.

Section Alone.
Context `{JWTLib} `{BcryptLib} `{UuidLib} `{!UuidLibOk _} `{TimeText} `{ChiLib} `{!ChiOk _}
  `{BindLib} `{PostgresOk} `{OsLib} `{UnicodeTables} `{ClientLib} `{!ClientLibOk _ _}.

(** ** The server *)

(** A request that runs while all others have finished runs alone. *)
Lemma alone_wp {A} s (ps : list (prog A)) p Q c' :
  Forall finished ps -> wp p Q (pg_view s) ->
  rtc (pool_step (fun _ => False)) (mkPool s (ps ++ [p])) c' ->
  exists p', pool_reqs c' = ps ++ [p'] /\ wp p' Q (pg_view (pool_db c')).
Proof using All.
  intros Hps Hp Hsteps.
  remember (mkPool s (ps ++ [p])) as c eqn:Hc. revert s p Hc Hp.
  induction Hsteps as [c|c c1 c2 Hstep _ IH]; intros s p -> Hp; [by exists p|].
  enough (exists s1 p1, c1 = mkPool s1 (ps ++ [p1]) /\ wp p1 Q (pg_view s1)) as (s1 & p1 & -> & Hp1)
    by exact (IH s1 p1 eq_refl Hp1).
  assert (forall ps1 q ps2, ps1 ++ q :: ps2 = ps ++ [p] -> ~ finished q ->
    ps1 = ps /\ q = p /\ ps2 = []) as Hlast.
  { intros ps1 q ps2 Heq Hq. destruct ps2 as [|p2 ps2 _] using rev_ind.
    - apply app_inj_2 in Heq as [-> [= ->]]; done.
    - rewrite app_comm_cons, app_assoc in Heq. apply app_inj_2 in Heq as [<- _]; [|done].
      exfalso. apply Hq. apply Forall_app in Hps as [_ [? _]%Forall_cons]. done. }
  inversion Hstep as [s0 ps1 st k ps2 r s' Hq Heq|s0 ps1 k ps2 r s' Hq Heq|]; subst; [| |done].
  - destruct (Hlast ps1 (Query st k) ps2) as (-> & <- & ->); [done|by intros [? ?]|].
    exists s', (k r). split; [done|]. apply Hp. by apply pg_query_sem.
  - destruct (Hlast ps1 (Ping k) ps2) as (-> & <- & ->); [done|by intros [? ?]|].
    exists s', (k r). split; [done|]. pose proof (pg_ping_view s) as Hv. rewrite Hq in Hv.
    cbn in Hv. rewrite Hv. apply Hp.
Qed.

(** An answer is the middleware's refusal, or one of the handler's. *)
Definition answered (Q : outcome unit -> Writer -> Tables -> Prop) (T : Tables)
    (ow : outcome unit * Writer) (T' : Tables) : Prop :=
  ow.1 = Done tt -> exists w, response_of ow.2 = response_of w
    /\ (status_of w = StatusUnauthorized /\ T' = T \/ Q (Done tt) w T').

Lemma protected_wp site r i rt ps h Q T :
  served_routes (NewServer (tokens site)) (Spec site) (tokens site) !! i = Some rt ->
  rt_method rt = r_method r -> pattern_match (rt_pattern rt) (r_path r) = Some ps ->
  Forall (fun p => p.2 <> "") ps -> rt_handler rt = Middleware (tokens site) h ->
  (forall ctx, wpH (h (WithContext (with_params r ps) ctx)) Q fresh_writer T) ->
  wp (serve site r) (answered Q T) T.
Proof using All.
  intros Hi Hm Hp Hps Hrt Hh. unfold serve. rewrite ServeHTTP_router; cbn [chain foldr option_list].
  unfold RequestLogger, mbind at 1, HM_mbind, HM_bind. apply wp_bind.
  rewrite (dispatch_to _ i rt r fresh_writer ps) by done. rewrite Hrt, Middleware_bearer.
  assert (forall msg, answered Q T (Done tt, w_Log (mkLog "http_request" (r_method r) (r_path r)
    (written_status (http_Error msg StatusUnauthorized fresh_writer)) (r_elapsed r))
    (http_Error msg StatusUnauthorized fresh_writer)) T) as Hdenied.
  { intros msg _. exists (http_Error msg StatusUnauthorized fresh_writer). split; [done|]. by left. }
  destruct (bearer _) as [tok|]; [|apply Hdenied].
  destruct (ParseHumanToken _ _ tok) as [p|e]; [|apply Hdenied].
  eapply wp_mono; [apply Hh|]. intros [[[]|msg] w] T' HQ; cbn in HQ |- *; [|done].
  intros _. exists w. split; [done|]. by right.
Qed.

(** *** One satellite *)

Definition satellite_path (id : UUID) : string := "/satellites/" +:+ uuid_String id.

(** A 200 shows the stored record. *)
Definition found (id : UUID) (T : Tables) (o : outcome unit) (w : Writer) (T' : Tables) : Prop :=
  o = Done tt -> T' = T
  /\ (status_of w = 200%Z -> exists s, sat_view T !! id = Some s /\ shows StatusOK s fresh_writer w).

Definition removed (id : UUID) (T : Tables) (o : outcome unit) (w : Writer) (T' : Tables) : Prop :=
  o = Done tt -> status_of w = 204%Z ->
  sat_view T' = delete id (sat_view T) /\ t_users T' = t_users T
  /\ forall s, sat_view T !! id = Some s -> ManagedBy s <> Operator.

Lemma get_found r id T :
  sat_inv T -> uuid_Parse (URLParam r "id") = Ok id ->
  wpH (SatHandler.GetByID r) (found id T) fresh_writer T.
Proof using Type.
  intros Hinv Hid. unfold SatHandler.GetByID. rewrite Hid. apply wpH_lift_bind.
  eapply wp_mono; [by apply (GetByID_spec (H:=PostgresRepository))|].
  intros [[s|]|e] T' [-> Hout]; cbn in Hout.
  - intros _. split; [done|]. intros _. exists s. split; [|done]. by destruct Hout as [<- _].
  - by intros _.
  - by intros _.
Qed.

Lemma delete_removed r id T :
  sat_inv T -> SatHandler.fromOperator r = false -> uuid_Parse (URLParam r "id") = Ok id ->
  wpH (SatHandler.Delete r) (removed id T) fresh_writer T.
Proof using Type.
  intros Hinv Hop Hid. unfold SatHandler.Delete. rewrite Hid, Hop. apply wpH_lift_bind.
  eapply wp_mono; [by apply (Service_Delete_spec (H:=PostgresRepository))|].
  intros res T' [[_ Husers] Hg]. destruct res as [[]|e].
  2: { destruct (errors_Is e ErrManagedByOperator); by intros _ Hs. }
  intros _ _. destruct Hg as [(msg & Habs & _)|Hg]; [done|]. change (repo_view T) with (sat_view T) in Hg.
  destruct (sat_view T !! id) as [s|] eqn:Hs.
  - rewrite andb_true_r in Hg. destruct (String.eqb_spec (ManagedBy s) "operator") as [Hm|Hm];
      [by destruct Hg|]. split; [exact Hg|]. split; [done|]. by intros s' [= <-].
  - destruct Hg as [_ Hv]. split; [|done].
    change (repo_view T') with (sat_view T') in Hv. rewrite Hv. symmetry. by apply delete_id.
Qed.

(** What the wrapper does for one satellite. *)
Definition with_id (h : Handler) : Handler := fun r =>
  match BindStyledParameter "simple" "id" (URLParam r "id") with
  | Err _ => panic nil_deref
  | Ok _ => h (with_scopes r)
  end.

(** The id in the path is bound, or the request ends in a panic. *)
Lemma bound_wp (h : Handler) id r ctx Q T :
  (id < 2 ^ 128)%N ->
  (forall r', r_header r' = r_header r -> uuid_Parse (URLParam r' "id") = Ok id ->
     wpH (h r') Q fresh_writer T) ->
  (forall msg w, Q (Panicked msg) w T) ->
  wpH (with_id h (WithContext (with_params r [("id", uuid_String id)]) ctx)) Q fresh_writer T.
Proof using UuidLibOk0.
  intros Hid Hh Hpanic. unfold with_id. case_match; [|apply Hpanic]. apply Hh; [done|].
  by apply uuid_Parse_String.
Qed.

Lemma serve_get site r id T :
  sat_inv T -> (id < 2 ^ 128)%N -> r_method r = "GET" -> r_path r = satellite_path id ->
  wp (serve site r) (answered (found id T) T) T.
Proof using All.
  intros Hinv Hid Hm Hp.
  eapply (protected_wp site r 7 _ [("id", uuid_String id)] (with_id SatHandler.GetByID));
    [reflexivity|by rewrite Hm|rewrite Hp; apply match_satellite| |reflexivity|].
  - constructor; [|done]. exact (proj1 (uuid_path id)).
  - intros ctx. apply (bound_wp SatHandler.GetByID id r ctx); [done| |done].
    intros r' _ Hr'. by apply get_found.
Qed.

Lemma serve_delete site r id T :
  sat_inv T -> (id < 2 ^ 128)%N -> r_method r = "DELETE" -> r_path r = satellite_path id ->
  SatHandler.fromOperator r = false ->
  wp (serve site r) (answered (removed id T) T) T.
Proof using All.
  intros Hinv Hid Hm Hp Hop.
  eapply (protected_wp site r 9 _ [("id", uuid_String id)] (with_id SatHandler.Delete));
    [reflexivity|by rewrite Hm|rewrite Hp; apply match_satellite| |reflexivity|].
  - constructor; [|done]. exact (proj1 (uuid_path id)).
  - intros ctx. apply (bound_wp SatHandler.Delete id r ctx); [done| |done].
    intros r' Hh Hr'. apply delete_removed; [done| |done].
    unfold SatHandler.fromOperator in *. by rewrite Hh.
Qed.

(** ** The network *)

(** Nobody else uses the server. *)
Definition quiet_site (site : Site) : Prop := forall p, ~ others site p.

(** A server at rest: every request it took has finished. *)
Definition at_rest (c : Server) : Prop := Forall finished (pool_reqs c).

Definition view (c : Server) : Tables := pg_view (pool_db c).

Lemma quiet_meanwhile site c c' :
  quiet_site site -> meanwhile site c c' -> rtc (pool_step (fun _ => False)) c c'.
Proof using Type.
  intros Hq Hm. eapply rtc_subrel; [|exact Hm]. intros x y Hxy.
  destruct Hxy as [| |s ps p Hp]; [by constructor..|]. by destruct (Hq p).
Qed.

Lemma rest_meanwhile site c c' : quiet_site site -> at_rest c -> meanwhile site c c' -> c' = c.
Proof using Type.
  intros Hq Hr Hm%quiet_meanwhile; [|done].
  destruct Hm as [c|c c1 c2 Hstep _]; [done|]. by destruct (finished_stuck c c1).
Qed.

(** An answered request for a path of the server was served, alone. *)
Lemma exchange_alone site q c rsp c' path Q :
  quiet_site site -> at_rest c -> q_URL q = base site +:+ path -> HasPrefix path "/" = true ->
  exchange site q c (Ok rsp) c' ->
  (forall h now elapsed entropy, carried (q_Header q) h ->
     wp (serve site (received q h path now elapsed entropy)) (answered Q (view c)) (view c)) ->
  at_rest c' /\ exists w, delivered w rsp
    /\ (status_of w = StatusUnauthorized /\ view c' = view c \/ Q (Done tt) w (view c')).
Proof using All.
  intros Hq Hr Hurl Hpath Hx Hwp. remember (Ok rsp) as a eqn:Ha.
  destruct Hx as [c a c' Hno _|c e c' _|c s ps h path' now elapsed entropy c' a Hurl' Hh Hm Hm' Hans];
    [|done|].
  - apply HasPrefix_iff in Hpath as [rest ->].
    by rewrite Hurl, append_assoc, HasPrefix_app in Hno.
  - rewrite Ha in Hans. destruct Hans as (w & Hw & Hdel).
    rewrite Hurl' in Hurl. apply (inj (String.append (base site))) in Hurl as ->.
    apply (rest_meanwhile site c) in Hm; [|done..]. subst c. unfold view in *.
    cbn [pool_db pool_reqs] in *. apply quiet_meanwhile in Hm'; [|done].
    destruct (alone_wp s ps _ _ c' Hr (Hwp h now elapsed entropy Hh) Hm') as (p' & Hreqs & Hp').
    rewrite Hreqs, list_lookup_middle in Hw by done. injection Hw as ->.
    split; [unfold at_rest; rewrite Hreqs; apply Forall_app_2; [done|]; by repeat econstructor|].
    destruct (Hp' eq_refl) as (w0 & Hrsp & Hans). exists w0. split; [|exact Hans].
    unfold delivered in *. cbn [fst snd] in Hrsp. by rewrite <- Hrsp.
Qed.

Lemma delivered_status w rsp : delivered w rsp -> p_StatusCode rsp = status_of w.
Proof using Type. by intros (_ & -> & _). Qed.

(** The exchange of a reading that went through. *)
Lemma exchange_get site id get rsp c c1 :
  quiet_site site -> at_rest c -> sat_inv (view c) -> (id < 2 ^ 128)%N ->
  q_Method get = "GET" -> q_URL get = base site +:+ satellite_path id ->
  p_StatusCode rsp = 200%Z -> exchange site get c (Ok rsp) c1 ->
  at_rest c1 /\ view c1 = view c
  /\ exists s w, sat_view (view c) !! id = Some s /\ shows StatusOK s fresh_writer w
     /\ delivered w rsp.
Proof using All.
  intros Hquiet Hrest Hinv Hsmall Hget Hgurl Hst Hx.
  destruct (exchange_alone site get c rsp c1 (satellite_path id) (found id (view c))
    Hquiet Hrest Hgurl eq_refl Hx) as (Hrest1 & w & Hdel & Hans).
  { intros h now elapsed entropy Hh. by apply serve_get. }
  pose proof (delivered_status _ _ Hdel) as Hs.
  destruct Hans as [[Hs' _]|Hfound]; [by rewrite Hst, Hs' in Hs|].
  destruct (Hfound eq_refl) as [Hview Hshow]. destruct Hshow as (s & Hsat & Hshow); [congruence|].
  split; [done|]. split; [done|]. by exists s, w.
Qed.

(** The two exchanges of a deletion that went through. *)
Lemma exchanges_delete site id get del rsp rsp' c c1 c2 :
  quiet_site site -> at_rest c -> sat_inv (view c) -> (id < 2 ^ 128)%N ->
  q_Method get = "GET" -> q_URL get = base site +:+ satellite_path id ->
  q_Method del = "DELETE" -> q_URL del = base site +:+ satellite_path id ->
  Header_Get (q_Header del) "X-FleetControl-Operator" = "" ->
  p_StatusCode rsp = 200%Z -> p_StatusCode rsp' = 204%Z ->
  exchange site get c (Ok rsp) c1 -> exchange site del c1 (Ok rsp') c2 ->
  at_rest c2 /\ exists s, sat_view (view c) !! id = Some s /\ ManagedBy s <> Operator
    /\ sat_view (view c2) = delete id (sat_view (view c)) /\ t_users (view c2) = t_users (view c).
Proof using All.
  intros Hquiet Hrest Hinv Hsmall Hget Hgurl Hdel Hdurl Hop Hst Hst' Hx Hx'.
  destruct (exchange_get site id get rsp c c1) as (Hrest1 & Hview & s & wr & Hsat & _); try done.
  destruct (exchange_alone site del c1 rsp' c2 (satellite_path id) (removed id (view c1))
    Hquiet Hrest1 Hdurl eq_refl Hx') as (Hrest2 & wr' & Hd' & Hans').
  { intros h now elapsed entropy Hh. apply serve_delete; try done; [by rewrite Hview|].
    unfold SatHandler.fromOperator, received; cbn [r_header].
    rewrite (carried_Get _ _ _ Hh); [by rewrite Hop|].
    apply (bool_decide_unpack _). vm_compute. done. }
  apply delivered_status in Hd' as Hs'. split; [done|]. exists s. split; [done|].
  destruct Hans' as [[Hu _]|Hremoved]; [by rewrite Hst', Hu in Hs'|].
  destruct (Hremoved eq_refl) as (Hv & Hu & Hperm); [congruence|].
  rewrite Hview in Hv, Hu, Hperm. split; [by apply Hperm|done].
Qed.

(** One answered request, and two in a row. *)
Lemma history_one site d q a c c' :
  quiet_site site -> at_rest c -> history site [Sent d q a] c c' ->
  exists c1, exchange site q c a c1 /\ meanwhile site c1 c'.
Proof using All.
  intros Hquiet Hrest Hh. inversion Hh as [|? ? ? ? ? c0 c1 ? Hm Hx Hh']; subst.
  inversion Hh' as [? ? Hm'|]; subst.
  apply (rest_meanwhile site c) in Hm; [|done..]. subst c0. by exists c1.
Qed.

Lemma history_two site d1 q1 a1 d2 q2 a2 c c' :
  quiet_site site -> at_rest c -> history site [Sent d1 q1 a1; Sent d2 q2 a2] c c' ->
  exists c1 c2 c3, exchange site q1 c a1 c1 /\ meanwhile site c1 c2 /\ exchange site q2 c2 a2 c3
    /\ meanwhile site c3 c'.
Proof using All.
  intros Hquiet Hrest Hh. inversion Hh as [|? ? ? ? ? c0 c1 ? Hm Hx Hh']; subst.
  inversion Hh' as [|? ? ? ? ? c2 c3 ? Hm' Hx' Hh'']; subst. inversion Hh'' as [? ? Hm''|]; subst.
  apply (rest_meanwhile site c) in Hm; [|done..]. subst c0. by exists c1, c2, c3.
Qed.

(** The address of a satellite at a configured server. *)
Lemma satellite_request s id :
  plain_url s = true -> exists q, NewGetSatellitesIdRequest (s +:+ "/") id = Ok q
    /\ q_URL q = s +:+ satellite_path id /\ q_Method q = "GET".
Proof using ClientLibOk0.
  intros Ho. unfold NewGetSatellitesIdRequest. rewrite StyleParam_uuid. cbn [mbind res_bind].
  change ("/satellites/" +:+ uuid_String id) with ("/" +:+ "satellites/" +:+ uuid_String id).
  rewrite new_request_plain; [by eexists|done|]. by apply (plain_id id "satellites/").
Qed.

(** ** The commands *)

(** C7. When [fleetctl satellite delete] reports success against a server nobody else
    is using, whose URL is plain ([plain_url]), the satellite existed, it was not
    the operator's, and now it is gone; every other satellite and every account is
    as it was. *)
Theorem delete_takes_effect (site : Site) `{E : Env W} `{D : !Deployment site E} (o : Options)
    (arg : string) (id : UUID) (w : W) :
  quiet_site site -> at_rest (server_in w) -> sat_inv (view (server_in w)) ->
  plain_url (base site) = true -> uuid_Parse arg = Ok id -> (id < 2 ^ 128)%N ->
  let run := exec (SatelliteCmd.newDeleteCommand o arg) w in
  (forall cfg, loaded o (events run) = Some cfg -> api_base cfg = base site) ->
  result run = Ok tt ->
  exists s, sat_view (view (server_in w)) !! id = Some s /\ ManagedBy s <> Operator
    /\ sat_view (view (server_in (world run))) = delete id (sat_view (view (server_in w)))
    /\ t_users (view (server_in (world run))) = t_users (view (server_in w)).
Proof using All.
  intros Hquiet Hrest Hinv Hplain Hid Hsmall run Hcfg Hok.
  pose proof (exec_history site (SatelliteCmd.newDeleteCommand o arg) w) as Hhist.
  destruct (always_exec _ (delete_stated o arg) w (delete_always o arg)) as (url & Hrun & Hurl).
  pose proof (always_exec _ (fun _ evs => _ evs) w (commands_obey o false (SatelliteDelete arg)))
    as Hobey. cbn [run_command] in Hobey. fold run in Hhist, Hrun, Hurl, Hobey.
  destruct Hrun as [[_ [e He]]|[(d & get & a & _ & _ & _ & [e He])|
    (d & get & del & rsp & a & resp & Hsent & Hget & Hgurl & Hdel & Hdurl & Hst & _ & _ & Hend)]];
    [congruence..|].
  destruct Hend as [[e He]|(rsp' & -> & Hst')]; [congruence|]. unfold run_obeys in Hobey.
  destruct (loaded o (events run)) as [cfg|]; [|by rewrite Hsent in Hobey].
  destruct (satellite_request (base site) id Hplain) as (q & Hq & Hqurl & _).
  rewrite (Hurl id cfg q), Hqurl in Hgurl, Hdurl; try done; [|by rewrite (Hcfg cfg)..].
  assert (Header_Get (q_Header del) "X-FleetControl-Operator" = "") as Hop.
  { destruct Hobey as [Hall _]. rewrite Forall_forall in Hall.
    assert (Sent d del (Ok rsp') ∈ events run) as Hin.
    { apply list_elem_of_In. assert (In (Sent d del (Ok rsp')) (sent (events run))) as Hs.
      { rewrite Hsent. cbn. auto. }
      by apply List.filter_In in Hs as [? _]. }
    by destruct (Hall _ Hin) as (_ & _ & ? & _). }
  rewrite Hsent in Hhist.
  destruct (history_two _ _ _ _ _ _ _ _ _ Hquiet Hrest Hhist) as (c1 & c2 & c3 & Hx & Hm & Hx' & Hm').
  destruct (exchange_get site id get rsp _ c1 Hquiet Hrest) as (Hrest1 & _); try done.
  apply (rest_meanwhile site c1) in Hm; [|done..]. subst c2.
  destruct (exchanges_delete site id get del rsp rsp' _ c1 c3 Hquiet Hrest) as [Hrest3 Hres];
    try done.
  apply (rest_meanwhile site c3) in Hm'; [|done..]. by rewrite Hm'.
Qed.

(** *** Reading *)

(** What a reading that succeeds has sent and printed. *)
Definition get_shown (o : Options) (id : UUID) : res unit -> list event -> Prop :=
  shown o (fun server => NewGetSatellitesIdRequest server id) ParseGetSatellitesIdResponse 200
    (fun resp => pointer_json gen_Satellite_json (GetSatellitesId_JSON200 resp)).

Lemma get_always o arg id :
  uuid_Parse arg = Ok id -> always (SatelliteCmd.newGetCommand o arg) (get_shown o id).
Proof using Type.
  intros Hid. unfold SatelliteCmd.newGetCommand. apply always_attempt. cbn [pure always].
  rewrite Hid. exact (shown_always o (fun server => NewGetSatellitesIdRequest server id) _ 200 _ _ _ _
    ParseGet_status).
Qed.

(** Two answers that say the same to the client: the same body, and the same
    verdict on whether it is JSON for a status. *)
Definition reads_as (rsp rsp' : HttpResponse) : Prop :=
  read_all rsp = read_all rsp' /\ forall code, json_answer rsp code = json_answer rsp' code.

Lemma delivered_whole w rsp :
  delivered w rsp -> (exists e, read_all rsp = Err e) \/ reads_as rsp (response_of w).
Proof using Type.
  unfold delivered, reads_as, read_all, json_answer. generalize (response_of w). intros rsp'.
  intros (_ & Hs & Hh & [Hb|[e He]]); [right|left].
  - split; [by rewrite Hb|]. intros code. unfold Header_Get. rewrite Hs, Hh; [done|].
    apply (bool_decide_unpack _). vm_compute. done.
  - exists e. destruct (p_Body rsp) as [b err]. cbn in He. by subst err.
Qed.

Lemma reads_as_satellite rsp rsp' :
  reads_as rsp rsp' ->
  GetSatellitesId_JSON200 <$> ParseGetSatellitesIdResponse rsp
  = GetSatellitesId_JSON200 <$> ParseGetSatellitesIdResponse rsp'.
Proof using Type.
  intros [Hb Hj]. unfold ParseGetSatellitesIdResponse, mbind, res_bind. rewrite Hb, !Hj.
  by repeat case_match.
Qed.

(** A satellite that was delivered whole is parsed into what was stored. *)
Lemma delivered_satellite s w rsp resp `{!TimeTextOk _} :
  sat_wire_ok (ToResponse (Some s)) -> shows StatusOK s fresh_writer w -> delivered w rsp ->
  ParseGetSatellitesIdResponse rsp = Ok resp ->
  GetSatellitesId_JSON200 resp = Some (ToResponse (Some s)).
Proof using UuidLibOk0.
  intros Hwire Hshow Hdel Hparse. apply delivered_whole in Hdel as [[e He]|Hrsp].
  - unfold ParseGetSatellitesIdResponse in Hparse. by rewrite He in Hparse.
  - apply reads_as_satellite in Hrsp. rewrite Hshow, Hparse in Hrsp.
    rewrite (ParseGet_satellite _ Hwire : _ <$> _ (response_of _) = _) in Hrsp. by injection Hrsp.
Qed.

End Alone.
