(* ===== verification/AloneCreate.v ===== *)
(** * AloneCreate: a satellite is created

    From the command line to the database, when nobody else uses the server: the
    flags, the request, the wire, the router, the handler, the statement, and the
    record that is printed. *)

From S2P Require Import Prelude.
From S2P Require Import GoStd.
From S2P Require Import Json.
From S2P Require Import Sql.
From S2P Require Import Jwt.
From S2P Require Import Http.
From S2P Require Import Chi.
From S2P Require Import Auth.
From S2P Require Import Gen.
From S2P Require Import Table.
From S2P Require Import Satellite.
From S2P Require Import SatelliteSpec.
From S2P Require Import SatelliteProps.
From S2P Require Import User.
From S2P Require Import UserSpec.
From S2P Require Import GenServer.
From S2P Require Import Server.
From S2P Require Import ServerProps.
From S2P Require Import Strconv.
From S2P Require Import Drain.
From S2P Require Import Proc.
From S2P Require Import Client.
From S2P Require Import CliConfig.
From S2P Require Import Cli.
From S2P Require Import CliProps.
From S2P Require Import Cobra.
From S2P Require Import Root.
From S2P Require Import Wire.
From S2P Require Import Deploy.
From S2P Require Import Alone.

#[local] Existing Instance PostgresRepository.
#[local] Existing Instance PostgresUsers.repository.

Section Create.
Context `{JWTLib} `{BcryptLib} `{UuidLib} `{!UuidLibOk _} `{TimeText} `{ChiLib} `{!ChiOk _}
  `{BindLib} `{PostgresOk} `{OsLib} `{UnicodeTables} `{ClientLib} `{!ClientLibOk _ _}
  `{CobraLib} `{!CobraOk _}.

(** ** The server *)

(** The record a creation stores. *)
Definition fresh_satellite (id : UUID) (name region : string) (now : Time) : Satellite :=
  mkSatellite id name region "Pending" "manual" None now.

(** A satellite was added, under an id and a name nobody had. *)
Definition added (id : UUID) (s : Satellite) (T T' : Tables) : Prop :=
  sat_view T !! id = None
  /\ (forall i t, sat_view T !! i = Some t -> Satellite.Name t <> Satellite.Name s)
  /\ sat_view T' = <[id := s]> (sat_view T) /\ t_users T' = t_users T.

Definition created (req : CreateSatelliteRequest) (T : Tables) (o : outcome unit) (w : Writer)
    (T' : Tables) : Prop :=
  o = Done tt -> status_of w = 201%Z -> exists id now,
    let s := fresh_satellite id (csr_Name req) (csr_Region req) now in
    shows StatusCreated s fresh_writer w /\ added id s T T'.

Lemma create_created r req T :
  sat_inv T -> decode_CreateSatelliteRequest (r_body r) = Some req ->
  wpH (SatHandler.Create r) (created req T) fresh_writer T.
Proof using Type.
  intros Hinv Hreq. unfold SatHandler.Create. rewrite Hreq. apply wpH_lift_bind.
  eapply wp_mono; [by apply (Service_Create_spec (H:=PostgresRepository))|].
  intros [a|e] T' [[_ Husers] Hout]; cbn in Hout; [|by intros _ Hs].
  destruct Hout as (id & now & -> & Hnone & Hview & Hnames). intros _ _. exists id, now.
  split; [done|]. by split_and!.
Qed.

Lemma serve_create site r req T :
  sat_inv T -> r_method r = "POST" -> r_path r = "/satellites" ->
  decode_CreateSatelliteRequest (r_body r) = Some req ->
  wp (serve site r) (answered (created req T) T) T.
Proof using All.
  intros Hinv Hm Hp Hreq.
  eapply (protected_wp site r 5 _ [] (fun r => SatHandler.Create (with_scopes r)));
    [reflexivity|by rewrite Hm|by rewrite Hp|done|reflexivity|].
  intros ctx. by apply create_created.
Qed.

(** ** The wire *)

Lemma create_request_wire s name region q :
  plain_url s = true -> ValidString name = true -> ValidString region = true ->
  NewPostSatellitesRequest (s +:+ "/") (mkCreateSatelliteRequest name region) = Ok q ->
  q_Method q = "POST" /\ q_URL q = s +:+ "/satellites"
  /\ decode_CreateSatelliteRequest (default "" (q_Body q)) = Some (mkCreateSatelliteRequest name region).
Proof using ClientLibOk0.
  intros Ho Hn Hr. unfold NewPostSatellitesRequest, NewPostSatellitesRequestWithBody.
  change "/satellites" with ("/" +:+ "satellites"). rewrite new_request_plain by done.
  intros [= <-]. split; [done|]. split; [done|]. by apply decode_create_request.
Qed.

Lemma ParsePost_status rsp resp :
  ParsePostSatellitesResponse rsp = Ok resp ->
  PostSatellitesResponse_StatusCode resp = p_StatusCode rsp.
Proof using Type.
  unfold ParsePostSatellitesResponse, mbind, res_bind. intros Hp. split_matches.
Qed.

Definition create_shown (o : Options) (name region : string) : res unit -> list event -> Prop :=
  shown o (fun server => NewPostSatellitesRequest server (mkCreateSatelliteRequest name region))
    ParsePostSatellitesResponse 201
    (fun resp => pointer_json gen_Satellite_json (PostSatellites_JSON201 resp)).

Lemma create_always o name region :
  always (SatelliteCmd.newCreateCommand o name region) (create_shown o name region).
Proof using Type.
  exact (shown_always o (fun server => NewPostSatellitesRequest server
    (mkCreateSatelliteRequest name region)) _ 201 _ _ _ _ ParsePost_status).
Qed.

Lemma reads_as_created rsp rsp' :
  reads_as rsp rsp' ->
  PostSatellites_JSON201 <$> ParsePostSatellitesResponse rsp
  = PostSatellites_JSON201 <$> ParsePostSatellitesResponse rsp'.
Proof using Type.
  intros [Hb Hj]. unfold ParsePostSatellitesResponse, mbind, res_bind. rewrite Hb, !Hj.
  by repeat case_match.
Qed.

Lemma delivered_created s w rsp resp `{!TimeTextOk _} :
  sat_wire_ok (ToResponse (Some s)) -> shows StatusCreated s fresh_writer w -> delivered w rsp ->
  ParsePostSatellitesResponse rsp = Ok resp ->
  PostSatellites_JSON201 resp = Some (ToResponse (Some s)).
Proof using UuidLibOk0.
  intros Hwire Hshow Hdel Hparse. apply delivered_whole in Hdel as [[e He]|Hrsp].
  - unfold ParsePostSatellitesResponse in Hparse. by rewrite He in Hparse.
  - apply reads_as_created in Hrsp. rewrite Hshow, Hparse in Hrsp.
    rewrite (ParsePost_satellite _ Hwire : _ <$> _ (response_of _) = _) in Hrsp. by injection Hrsp.
Qed.

(** ** The command *)

Lemma config_of_server o f cfg :
  opt_Server o <> "" -> config_of o f = Ok cfg -> cfg_Server cfg = opt_Server o.
Proof using Type.
  intros Hne%String.eqb_neq. unfold config_of, override_server. rewrite Hne. cbn [negb].
  destruct f as [f|e].
  - destruct (Scan f) as [lines [err|]]; [done|]. by intros [= <-].
  - destruct (IsNotExist e); [|done]. by intros [= <-].
Qed.

(** C8. When [fleetctl satellite create --server=... --name=... --region=...] exits
    with status 0 against a server nobody else is using, whose URL is plain
    ([plain_url]), and the name and region are UTF-8, one satellite has been
    added to the fleet, with that name, which nobody had, and that region, pending
    and managed by hand; everything else is as it was; and what was printed is the
    new record, provided RFC 3339 can write its dates. *)
Theorem create_takes_effect (site : Site) `{E : Env W} `{D : !Deployment site E} `{!TimeTextOk _}
    (config server name region : string) (w : W) :
  quiet_site site -> at_rest (server_in w) -> sat_inv (view (server_in w)) ->
  plain_url (base site) = true -> server <> "" -> TrimRight server "/" = base site ->
  ValidString name = true -> ValidString region = true ->
  let run := exec (Execute (line config server (SatelliteCreate name region))) w in
  result run = 0%Z ->
  exists id now, let s := fresh_satellite id name region now in
    added id s (view (server_in w)) (view (server_in (world run)))
    /\ (sat_wire_ok (ToResponse (Some s)) ->
        Printed Stdout (indented 0 (gen_Satellite_json (ToResponse (Some s))) +:+ chr 10)
          ∈ events run).
Proof using All.
  intros Hquiet Hrest Hinv Hplain Hserver Hbase Hname Hregion run Hok.
  pose proof (exec_history site (Execute (line config server (SatelliteCreate name region))) w) as Hhist.
  destruct (line_succeeds config server (SatelliteCreate name region) w) as [Hrun Hevs]; [by constructor|done|].
  set (o := mkOptions config server None) in *. fold run in Hhist, Hevs.
  destruct (always_exec _ (create_shown o name region) w (create_always o name region) Hrun)
    as (p & f & cfg & q & q' & rsp & resp & Hev & Hc & Hq & Hm & Hu & Hb & Hst & Hparse).
  cbn [run_command] in Hevs. rewrite Hev in Hevs. rewrite Hevs in Hhist |- *.
  cbn [sent List.filter is_sent] in Hhist.
  apply (config_of_server o) in Hc; [|done]. unfold api_base in Hq. rewrite Hc in Hq.
  cbn [opt_Server o] in Hq. rewrite Hbase in Hq.
  destruct (create_request_wire _ _ _ _ Hplain Hname Hregion Hq) as (Hqm & Hqu & Hdec).
  destruct (history_one _ _ _ _ _ _ Hquiet Hrest Hhist) as (c1 & Hx & Hm1).
  destruct (exchange_alone site q' _ rsp c1 "/satellites"
    (created (mkCreateSatelliteRequest name region) (view (server_in w)))
    Hquiet Hrest ltac:(congruence) eq_refl Hx) as (Hrest1 & wr & Hdel & Hans).
  { intros h now elapsed entropy _. apply serve_create; [done|unfold received; cbn [r_method]; congruence|done|].
    unfold received; cbn [r_body]. by rewrite Hb. }
  pose proof (delivered_status _ _ Hdel) as Hs.
  destruct Hans as [[Hs' _]|Hcreated]; [by rewrite Hst, Hs' in Hs|].
  destruct (Hcreated eq_refl) as (id & now & Hshow & Hadded); [congruence|].
  apply (rest_meanwhile site c1) in Hm1; [|done..]. exists id, now. cbn zeta. rewrite Hm1.
  split; [exact Hadded|]. intros Hwire.
  rewrite (delivered_created _ wr rsp resp) by done. right. right. left.
Qed.
End Create.
