(* ===== verification/Witnesses.v ===== *)
(** * Witnesses: the theorems at work on a small fleet

    Two satellites, one of them the operator's, and one administrator, in the
    reference database and with the reference libraries: every theorem with
    hypotheses is applied where they hold. *)

From S2P Require Import Prelude.
From S2P Require Import GoStd.
From S2P Require Import Json.
From S2P Require Import Sql.
From S2P Require Import Principal.
From S2P Require Import Jwt.
From S2P Require Import Http.
From S2P Require Import Chi.
From S2P Require Import Auth.
From S2P Require Import Gen.
From S2P Require Import Table.
From S2P Require Import Satellite.
From S2P Require Import SatelliteSpec.
From S2P Require Import SatelliteProps.
From S2P Require Import User.
From S2P Require Import UserSpec.
From S2P Require Import UserProps.
From S2P Require Import GenServer.
From S2P Require Import Server.
From S2P Require Import ServerProps.
From S2P Require Import Fleet.
From S2P Require Import Operator.
From S2P Require Import DeepCopy.
Import RefJWT JwtExamples RefLib RefTime RefChi.

#[local] Existing Instance PostgresRepository.
#[local] Existing Instance PostgresUsers.repository.

(** ** The fleet *)

Module Demo.

Definition edge : Satellite := mkSatellite 7 "edge-1" "eu" "Ready" "operator" (Some 5%Z) 1%Z.
Definition lab : Satellite := mkSatellite 8 "lab-1" "us" "Pending" "manual" None 2%Z.
Definition root : User := mkUser 9 "root" "$2a$10$hunter2" "admin" 1%Z.

Definition tables : Tables := mkTables (map row_of_sat [edge; lab]) (map row_of_user [root]).

Lemma sats_ok : sat_inv tables.
Proof. exists [edge; lab]. split; [done|]. split; (apply (bool_decide_unpack _); vm_compute; done). Qed.

Lemma users_ok : user_inv tables.
Proof. exists [root]. split; [done|]. split; (apply (bool_decide_unpack _); vm_compute; done). Qed.

(** A request for [/satellites/{id}], as the handlers see it. *)
Definition request (method id body : string) (h : Header) : Request :=
  mkRequest method ("/satellites/" +:+ id) h (dq body) [] [("id", id)] 0 0 "salt".

Definition id_of (u : UUID) : string := uuid_String u.

Lemma edge_found : sat_view tables !! 7%N = Some edge.
Proof. vm_compute. reflexivity. Qed.

Lemma lab_found : sat_view tables !! 8%N = Some lab.
Proof. vm_compute. reflexivity. Qed.

Lemma unknown_missing : sat_view tables !! 3%N = None.
Proof. vm_compute. reflexivity. Qed.
End Demo.

Lemma create_handler_spec_witness :
  wpH (SatHandler.Create (Demo.request "POST" "" "{'name':'x','region':'eu'}" ∅))
    (fun o w' T' => o = Done tt /\ sat_inv T' /\ (status_of w' = 201%Z \/ status_of w' = 500%Z))
    fresh_writer Demo.tables.
Proof.
  eapply wpH_mono; [exact (create_handler_spec _ fresh_writer Demo.tables Demo.sats_ok)|].
  intros o w' T' (-> & [Hinv _] & Hpost). split; [done|]. split; [exact Hinv|].
  destruct Hpost as [[[msg ->] _]|(id & now & -> & _)]; vm_compute; auto.
Defined.



Lemma update_handler_spec_witness :
  wpH (SatHandler.Update (Demo.request "PATCH" (Demo.id_of 7) "{'region':'us'}" ∅))
    (fun o w' T' => o = Done tt /\ sat_view T' !! 7%N = Some Demo.edge
       /\ (status_of w' = 403%Z \/ status_of w' = 500%Z))
    fresh_writer Demo.tables.
Proof.
  eapply wpH_mono; [exact (update_handler_spec _ fresh_writer Demo.tables Demo.sats_ok)|].
  intros o w' T' (-> & _ & Hpost). split; [done|].
  set (r := Demo.request "PATCH" (Demo.id_of 7) "{'region':'us'}" ∅) in Hpost.
  assert (uuid_Parse (URLParam r "id") = Ok 7%N) as Hid by (vm_compute; reflexivity).
  assert (decode_UpdateSatelliteRequest (r_body r) = Some (mkUpdateSatelliteRequest "us"))
    as Hbody by (vm_compute; reflexivity).
  rewrite Hid, Hbody in Hpost. unfold update_answer in Hpost.
  change (@repo_view _ PostgresRepository_spec) with sat_view in Hpost.
  rewrite Demo.edge_found in Hpost. cbn in Hpost.
  change (SatHandler.fromOperator r) with false in Hpost. cbn in Hpost.
  destruct Hpost as [[[msg ->] Hv]|[-> Hv]].
  - split; [|by right]. rewrite <- Demo.edge_found.
    destruct Hv as [Hv|(w'' & _ & Hv)]; exact (f_equal (lookup 7%N) Hv).
  - split; [|by left]. rewrite <- Demo.edge_found. exact (f_equal (lookup 7%N) Hv).
Defined.

Lemma delete_handler_spec_witness :
  wpH (SatHandler.Delete (Demo.request "DELETE" (Demo.id_of 7) "" ∅))
    (fun o w' T' => o = Done tt /\ sat_view T' !! 7%N = Some Demo.edge
       /\ (status_of w' = 403%Z \/ status_of w' = 500%Z))
    fresh_writer Demo.tables.
Proof.
  eapply wpH_mono; [exact (delete_handler_spec _ fresh_writer Demo.tables Demo.sats_ok)|].
  intros o w' T' (-> & _ & Hpost). split; [done|].
  set (r := Demo.request "DELETE" (Demo.id_of 7) "" ∅) in Hpost.
  assert (uuid_Parse (URLParam r "id") = Ok 7%N) as Hid by (vm_compute; reflexivity).
  rewrite Hid in Hpost.
  change (@repo_view _ PostgresRepository_spec) with sat_view in Hpost.
  cbn zeta in Hpost. rewrite Demo.edge_found in Hpost.
  change (SatHandler.fromOperator r) with false in Hpost. cbn in Hpost.
  destruct Hpost as [[[msg ->] [Hv|[[?|?] _]]]|[(-> & _ & Hv)|(_ & [?|?] & _)]]; try done.
  - split; [|by right]. rewrite <- Demo.edge_found. exact (f_equal (lookup 7%N) Hv).
  - split; [|by left]. rewrite <- Demo.edge_found. exact (f_equal (lookup 7%N) Hv).
Defined.

Lemma heartbeat_handler_spec_witness :
  wpH (SatHandler.Heartbeat (Demo.request "POST" (Demo.id_of 8) "" ∅))
    (fun o w' T' => o = Done tt /\ sat_inv T'
       /\ (status_of w' = 200%Z \/ status_of w' = 500%Z))
    fresh_writer Demo.tables.
Proof.
  eapply wpH_mono; [exact (heartbeat_handler_spec _ fresh_writer Demo.tables Demo.sats_ok)|].
  intros o w' T' (-> & [Hinv _] & Hpost). split; [done|]. split; [exact Hinv|].
  set (r := Demo.request "POST" (Demo.id_of 8) "" ∅) in Hpost.
  assert (uuid_Parse (URLParam r "id") = Ok 8%N) as Hid by (vm_compute; reflexivity).
  rewrite Hid in Hpost.
  change (@repo_view _ PostgresRepository_spec) with sat_view in Hpost.
  rewrite Demo.lab_found in Hpost.
  destruct Hpost as [[[msg ->] _]|(now & -> & _)]; [by right|by left].
Defined.

(** ** Services *)

Lemma demo_lifecycle : fleet_ok (sat_view Demo.tables).
Proof.
  intros id s Hs. rewrite (sat_view_table _ [Demo.edge; Demo.lab]) in Hs.
  - apply map_of_lookup in Hs as [Hs _]; [|apply (bool_decide_unpack _); vm_compute; done].
    by apply elem_of_cons in Hs as [->|[->|?%not_elem_of_nil]%elem_of_cons].
  - split; [done|]. split; (apply (bool_decide_unpack _); vm_compute; done).
Qed.

Lemma demo_roles : roles_ok (user_view Demo.tables).
Proof.
  intros id u Hu. rewrite (user_view_table _ [Demo.root]) in Hu.
  - apply map_of_lookup in Hu as [Hu _]; [|apply (bool_decide_unpack _); vm_compute; done].
    by apply elem_of_cons in Hu as [->|?%not_elem_of_nil].
  - split; [done|]. split; (apply (bool_decide_unpack _); vm_compute; done).
Qed.

Lemma service_keeps_lifecycle_witness :
  wp (Service.Heartbeat 8%N) (fun _ T' => sat_inv T' /\ fleet_ok (sat_view T')) Demo.tables.
Proof.
  exact (service_keeps_lifecycle _ _ Demo.tables (op_Heartbeat 8%N) Demo.sats_ok demo_lifecycle).
Defined.

Lemma postgres_refines_contract_witness :
  sat_inv Demo.tables /\
  wp (Postgres_Delete 8%N) (fun r T' => sat_stepped Demo.tables T' /\
     outcome_of (delete_eff 8%N) (sat_view Demo.tables) r (sat_view T')) Demo.tables.
Proof.
  split; [exact Demo.sats_ok|].
  apply (postgres_refines_contract Demo.tables Demo.sats_ok).
Defined.

Lemma user_service_keeps_roles_witness :
  wp (UserService.Create "salt" "amy" "secret" "viewer")
    (fun _ T' => user_inv T' /\ roles_ok (user_view T')) Demo.tables.
Proof.
  exact (user_service_keeps_roles _ _ Demo.tables (op_user_Create "salt" "amy" "secret" "viewer")
    Demo.users_ok demo_roles).
Defined.

(** ** Accounts *)

Import RefBind.

Definition create_user_request : Request :=
  Demo.request "POST" "" "{'username':'amy','password':'secret','role':'owner'}" ∅.

Lemma create_user_handler_spec_witness :
  wpH (UserHandler.Create create_user_request)
    (fun o w' T' => o = Done tt /\ T' = Demo.tables /\ status_of w' = 400%Z)
    fresh_writer Demo.tables.
Proof.
  eapply wpH_mono; [exact (create_user_handler_spec create_user_request fresh_writer Demo.tables
    Demo.users_ok)|].
  intros o w' T' (-> & _ & Hpost). split; [done|].
  assert (decode_CreateUserRequest (r_body create_user_request)
    = Some (mkCreateUserRequest "secret" (Some "owner") "amy")) as Hbody
    by (vm_compute; reflexivity).
  rewrite Hbody in Hpost. cbn in Hpost. destruct Hpost as [-> ->]. split; reflexivity.
Defined.

Lemma list_users_handler_spec_witness :
  wpH (UserHandler.List create_user_request)
    (fun o w' T' => o = Done tt /\ T' = Demo.tables
       /\ (status_of w' = 200%Z \/ status_of w' = 500%Z))
    fresh_writer Demo.tables.
Proof.
  eapply wpH_mono; [exact (list_users_handler_spec create_user_request fresh_writer Demo.tables
    Demo.users_ok)|].
  intros o w' T' (-> & -> & Hpost). split; [done|]. split; [done|].
  destruct Hpost as [[msg ->]|(l & _ & _ & ->)]; [by right|by left].
Defined.

Lemma delete_user_handler_spec_witness :
  wpH (UserHandler.Delete (Demo.request "DELETE" (Demo.id_of 9) "" ∅))
    (fun o w' T' => o = Done tt /\ user_inv T'
       /\ (status_of w' = 204%Z \/ status_of w' = 500%Z))
    fresh_writer Demo.tables.
Proof.
  eapply wpH_mono; [exact (delete_user_handler_spec _ fresh_writer Demo.tables Demo.users_ok)|].
  intros o w' T' (-> & [Hinv _] & Hpost). split; [done|]. split; [exact Hinv|].
  set (r := Demo.request "DELETE" (Demo.id_of 9) "" ∅) in Hpost.
  assert (uuid_Parse (URLParam r "id") = Ok 9%N) as Hid by (vm_compute; reflexivity).
  rewrite Hid in Hpost. destruct Hpost as [[-> _]|[[msg ->] _]]; [by left|by right].
Defined.

Definition login_request : Request :=
  mkRequest "POST" "/auth/login" ∅ (dq "{'username':'amy','password':'secret'}") [] []
    issue_time 0 "".

Definition after_create : res (option User) * Mem.Mem :=
  run (H:=Mem.mem) (UserService.Create "salt" "amy" "secret" "viewer") Mem.empty.

Lemma created_account_can_log_in_witness :
  exists id tok,
    (run (H:=Mem.mem) (Login manager login_request fresh_writer) after_create.2).1
      = (Done tt, json_response StatusOK (login_json tok 3600) fresh_writer)
    /\ ParseHumanToken manager issue_time tok
       = Ok (mkPrincipal ActorHuman (uuid_String id) "viewer" uuid_Nil).
Proof.
  destruct (created_account_can_log_in (H:=Mem.mem) manager "salt" "amy" "secret" "viewer" login_request
    fresh_writer Mem.empty after_create.2
    (Some (mkUser 1 "amy" "$2a$10$secret" "viewer" 1000000000)))
    as (id & tok & _ & Hlogin & Hparse).
  - exists []. split; [done|]. split; apply NoDup_nil_2.
  - vm_compute. reflexivity.
  - vm_compute. reflexivity.
  - vm_compute. reflexivity.
  - vm_compute. reflexivity.
  - vm_compute. reflexivity.
  - vm_compute. discriminate.
  - vm_compute. reflexivity.
  - exists id, tok. split; [exact Hlogin|exact Hparse].
Defined.

(** ** Routes *)

Definition server : ServerInterface := NewServer manager.

Definition anonymous (path : string) : Request := mkRequest "GET" path ∅ "" [] [] issue_time 0 "".

Lemma no_bearer path tok p :
  bearer (anonymous path) = Some tok -> ParseHumanToken manager issue_time tok <> Ok p.
Proof. discriminate. Qed.

Lemma api_needs_token_witness :
  denied server "spec" manager [401; 404; 405]%Z (anonymous "/satellites") fresh_writer.
Proof.
  apply (api_needs_token server "spec" manager (anonymous "/satellites") fresh_writer "satellites" []);
    [reflexivity|left; reflexivity|apply no_bearer|reflexivity].
Defined.

Definition viewer_token : string :=
  match GenerateHumanToken manager issue_time "user-2" "viewer" with Ok t => t | Err _ => "" end.

Definition with_bearer (method path token : string) : Request :=
  mkRequest method path {[ "Authorization" := ["Bearer " +:+ token] ]} "" [] [] issue_time 0 "".

Lemma users_need_admin_witness :
  denied server "spec" manager [401; 403; 404; 405]%Z
    (with_bearer "GET" "/users" viewer_token) fresh_writer.
Proof.
  apply (users_need_admin server "spec" manager _ fresh_writer []);
    [reflexivity| |reflexivity].
  intros tok p Hb Hp Hrole.
  assert (tok = viewer_token) as -> by (vm_compute in Hb; injection Hb as <-; vm_compute; reflexivity).
  vm_compute in Hp. injection Hp as <-. vm_compute in Hrole. discriminate.
Defined.

Lemma router_serves_table_witness :
  ServeHTTP (NewRouter server "spec" manager (Some RequestLogger)) (anonymous "/version") fresh_writer
  = RequestLogger (fun r => Version (with_params r [])) (anonymous "/version") fresh_writer.
Proof.
  exact (router_serves_table server "spec" manager (anonymous "/version") fresh_writer
    (mkRoute "GET" "/version" (Wrapper.GetVersion (router_wrapper server))) []
    (list_elem_of_lookup_2 (served_routes server "spec" manager) 2 _ eq_refl) eq_refl eq_refl (Forall_nil_2 _)).
Defined.

Lemma router_serves_contract_witness :
  map signature (mv_routes (mux_view (NewRouter server "spec" manager (Some RequestLogger))))
  ≡ₚ map signature (mv_routes (mux_view (Handler_ server)))
     ++ [("GET", "/openapi.yaml"); ("GET", "/docs")].
Proof. exact (router_serves_contract server "spec" manager). Defined.

Lemma unbindable_id_panics_witness :
  ServeHTTP (NewRouter server "spec" manager (Some RequestLogger))
    (with_bearer "GET" "/satellites/not-a-uuid" token) fresh_writer
  = Ret (Panicked nil_deref, fresh_writer).
Proof.
  apply (unbindable_id_panics server "spec" manager
    (with_bearer "GET" "/satellites/not-a-uuid" token) fresh_writer token "not-a-uuid" admin
    (Foreign "invalid UUID length")).
  - reflexivity.
  - discriminate.
  - by left.
  - vm_compute. reflexivity.
  - vm_compute. reflexivity.
  - vm_compute. reflexivity.
Defined.

Lemma startup_checked_witness :
  exists handler,
    (run (H:=Mem.mem) (main (fun k => if String.eqb k "JWT_SECRET" then cfg_Secret config else "")
            (Ok tt) (fun _ => Ok tt) "spec") Mem.empty).1 = Listening ":8080" handler.
Proof.
  pose proof (startup_checked (H5:=Mem.mem)
    (fun k => if String.eqb k "JWT_SECRET" then cfg_Secret config else "")
    (Ok tt) (fun _ => Ok tt) "spec" Mem.empty) as [_ Hs].
  destruct (run (H:=Mem.mem) _ Mem.empty).1 as [err|msg err|addr handler] eqn:Hrun; cbn zeta in Hs.
  - discriminate.
  - exfalso. apply (f_equal (fun x => match x with Fatal _ _ => true | _ => false end)) in Hrun.
    vm_compute in Hrun. discriminate.
  - destruct Hs as (_ & _ & _ & _ & -> & _). exists handler. reflexivity.
Defined.

Definition demo_state : pg_state (Postgres:=Mem.mem) := Mem.mkMem Demo.tables 10 100 true.

Lemma concurrent_requests_safe_witness :
  exists c, rtc (pool_step (incoming false "spec" manager)) (mkPool demo_state []) c
    /\ length (pool_reqs c) = 1
    /\ db_ok (pg_view (pool_db c))
    /\ operator_records_kept (sat_view Demo.tables) (sat_view (pg_view (pool_db c))).
Proof.
  exists (mkPool demo_state
            [ServeHTTP (NewRouter (NewServer manager) "spec" manager (Some RequestLogger))
               (anonymous "/health") fresh_writer]).
  match goal with |- ?R /\ _ => assert R as Hsteps end.
  { eapply rtc_once, (step_accept _ demo_state []).
    exists (anonymous "/health"). split; [intros _|]; done. }
  split; [exact Hsteps|]. split; [done|].
  assert (db_ok (pg_view demo_state)) as Hok
    by exact (conj Demo.sats_ok (conj Demo.users_ok (conj demo_lifecycle demo_roles))).
  destruct (concurrent_requests_safe false "spec" manager demo_state _ Hok Hsteps) as [H1 H2].
  split; [exact H1|]. apply H2. reflexivity.
Defined.

(** ** The operator's cluster *)

Module DemoCluster.
Import RefK8s.

Definition key : string * string := ("fleet", "edge").

Definition meta (version : N) : ObjectMeta := (key, version, [("team", "edge")]).

Definition resource (phase managed : string) (version : N) : CR :=
  mkCR (tt : TypeMeta) (meta version) (mkSatSpec "eu")
    (mkSatStatus phase managed (Some 7%Z) None).

Definition before : Cluster := mkCluster {[ key := resource "Pending" "" 1 ]} 1.
Definition after : Cluster := mkCluster {[ key := resource "Ready" "operator" 2 ]} 2.
Definition write : CR * CR := (resource "Pending" "" 1, resource "Ready" "operator" 2).

Lemma before_ok : cluster_ok before.
Proof.
  intros k o Hk. cbn in Hk. apply lookup_singleton_Some in Hk as [<- <-]. split; [done|]. cbn. lia.
Qed.

Lemma after_ok : cluster_ok after.
Proof.
  intros k o Hk. cbn in Hk. apply lookup_singleton_Some in Hk as [<- <-]. split; [done|]. cbn. lia.
Qed.

Lemma others_refl c : cluster_ok c -> others c c.
Proof. intros Hok. split; [done|]. split; [reflexivity|]. auto. Qed.

(** A reconciliation that marks the resource, whatever stutters in between. *)
Lemma marks (env : Cluster -> Cluster -> Prop) :
  env before before -> env after after ->
  exec env before (Reconcile key) (Ok tt) ([write] ++ []) after.
Proof.
  intros Hb Ha. unfold Reconcile. eapply exec_get; [exact Hb|by apply (get_ok key before (resource "Pending" "" 1))|].
  cbn. eapply (exec_update env before _ _ before (Ok tt) [write] after); [exact Hb| |].
  - exact (update_ok (with_status (resource "Pending" "" 1) (cr_Status (resource "Ready" "operator" 2)))
      before (resource "Pending" "" 1) (meta 2) (Ok tt)
      eq_refl eq_refl eq_refl eq_refl eq_refl (or_introl eq_refl)).
  - by apply exec_ret.
Qed.

Lemma idles : exec eq after (Reconcile key) (Ok tt) [] after.
Proof.
  unfold Reconcile.
  eapply exec_get; [reflexivity|by apply (get_ok key after (resource "Ready" "operator" 2))|].
  by apply exec_ret.
Qed.
End DemoCluster.


Lemma reconcile_settles_witness : settled DemoCluster.key DemoCluster.after.
Proof.
  exact (proj1 (reconcile_settles DemoCluster.key DemoCluster.before DemoCluster.after
    DemoCluster.after (Ok tt) [DemoCluster.write] [] DemoCluster.before_ok
    (DemoCluster.marks eq eq_refl eq_refl) DemoCluster.idles)).
Defined.

(** One resource with labels, a heartbeat and a condition, one without, in a list that
    leaves some out. *)
Module DemoHeap.
Import RefK8s RefMeta.

Definition heap : gmap positive Cell :=
  {[ 1%positive := CTime 7%Z;
     2%positive := CSatellites
       [mkSatelliteV (tt : TypeMeta) ((DemoCluster.key, 1%N, Some 3%positive) : ObjectMetaV)
          (mkSatSpec "eu") (mkStatusV "Ready" "" (Some 1%positive) (Some 4%positive));
        mkSatelliteV (tt : TypeMeta) ((DemoCluster.key, 2%N, None) : ObjectMetaV)
          (mkSatSpec "us") (mkStatusV "" "" None None)];
     3%positive := CLib (Labels [("team", "edge")]);
     4%positive := CConditions [("Available", "True") : ConditionV];
     5%positive := CLib (Remaining 3) ]}.

Definition resources : SatelliteListV :=
  mkSatelliteListV (tt : TypeMeta) (Some 5%positive : ListMetaV) (Some 2%positive).

(** The labels of the first resource are emptied. *)
Definition relabel (h : gmap positive Cell) : gmap positive Cell :=
  <[ 3%positive := CLib (Labels []) ]> h.
End DemoHeap.

(** After a copy, emptying the labels of the original is not seen through the copy. *)
Lemma list_deep_copy_independent_witness :
  exists l v' h', meaning list_struct DemoHeap.heap DemoHeap.resources = Some l
    /\ SatelliteList_DeepCopyObject (Some DemoHeap.resources) DemoHeap.heap = Some (Some v', h')
    /\ meaning list_struct (DemoHeap.relabel h') v' = Some l.
Proof.
  destruct (meaning list_struct DemoHeap.heap DemoHeap.resources) as [l|] eqn:Hl; [|discriminate Hl].
  destruct (proj2 (proj1 list_deep_copy_independent) DemoHeap.heap DemoHeap.resources l Hl)
    as (v' & h' & Hcopy & _ & _ & Hown & _).
  exists l, v', h'. split; [reflexivity|]. split; [exact Hcopy|]. apply Hown.
  intros i Hi. apply lookup_insert_ne. intros <-. vm_compute in Hi. discriminate Hi.
Defined.
