(* ===== verification/CliWitnesses.v ===== *)
(** * CliWitnesses: the client's theorems at work on a small machine

    A home directory kept as a map from paths to contents, a terminal, and a
    server that answers every request with a token. *)

From S2P Require Import Prelude.
From S2P Require Import GoStd.
From S2P Require Import Json.
From S2P Require Import Strconv.
From S2P Require Import Sql.
From S2P Require Import Jwt.
From S2P Require Import Http.
From S2P Require Import Chi.
From S2P Require Import Auth.
From S2P Require Import Gen.
From S2P Require Import Table.
From S2P Require Import Satellite.
From S2P Require Import User.
From S2P Require Import GenServer.
From S2P Require Import Server.
From S2P Require Import Proc.
From S2P Require Import Client.
From S2P Require Import CliConfig.
From S2P Require Import Cli.
From S2P Require Import CliProps.
From S2P Require Import Wire.
From S2P Require Import EndToEnd.
From S2P Require Import Witnesses.
Import RefUnicode RefJWT JwtExamples RefLib RefTime RefClient RefChi.

#[local] Existing Instance PostgresRepository.
#[local] Existing Instance PostgresUsers.repository.

(** ** The machine *)

Module Machine.

Definition missing : error := Foreign "file does not exist".

#[global] Instance os : OsLib := {| IsNotExist := fun e => String.eqb (Error e) (Error missing) |}.

Abbreviation Files := (gmap string string).

#[global] Instance env : Env Files := fun X c =>
  match c in call X return Files -> X * Files with
  | OsUserHomeDir => fun w => (Ok "/home/dev", w)
  | OsOpen p => fun w =>
      (match w !! p with Some text => Ok (text, None) | None => Err missing end, w)
  | OsMkdirAll _ _ => fun w => (Ok tt, w)
  | OsWriteFile p text _ => fun w => (Ok tt, <[p := text]> w)
  | HttpDo _ _ => fun w => (Ok (json_body 200 (login_json "abc.def" 3600)), w)
  | Fprint _ _ => fun w => (Ok tt, w)
  | TermIsTerminal => fun w => (true, w)
  | TermReadPassword => fun w => (Ok "hunter2", w)
  | ReadString => fun w => (("hunter2" +:+ chr 10, None), w)
  end.

#[global] Instance files : FileSystem env.
Proof.
  refine {| home := Ok "/home/dev" |}.
  - done.
  - intros p text perm w w' [= <-].
    change (match <[p := text]> w !! p with Some t => Ok (t, None) | None => Err missing end
            = (Ok (text, None) : res (string * option error))).
    by rewrite lookup_insert_eq.
  - done.
Defined.

Definition options : Options := mkOptions "" "" None.
Definition saved : Config := mkConfig "http://fleet.example" "t0ken".
End Machine.

Lemma config_round_trip_witness :
  result (exec (Load Machine.options)
    (world (exec (Save Machine.options Machine.saved) (∅ : Machine.Files)))) = Ok Machine.saved.
Proof.
  rewrite (config_round_trip Machine.options Machine.saved ∅); vm_compute; reflexivity.
Defined.

Lemma login_takes_effect_witness :
  exists server token,
    logged_in "ann" (events (exec (newLoginCommand Machine.options NewPasswordReader true "ann" false)
      (∅ : Machine.Files))) token
    /\ result (exec (Load Machine.options)
         (world (exec (newLoginCommand Machine.options NewPasswordReader true "ann" false) ∅)))
       = Ok (mkConfig server token).
Proof.
  destruct (login_takes_effect Machine.options true "ann" false (∅ : Machine.Files))
    as (server & token & Hlog & Hload); [vm_compute; reflexivity|].
  exists server, token. split; [exact Hlog|]. rewrite Hload.
  assert (fits (mkConfig server token) = true) as ->; [|done].
  destruct (fits _) eqn:Hfits; [done|].
  assert (exists c, result (exec (Load Machine.options) (world (exec
    (newLoginCommand Machine.options NewPasswordReader true "ann" false) (∅ : Machine.Files)))) = Ok c)
    as [c Hc]; [vm_compute; by eexists|]. by rewrite Hload in Hc.
Defined.

Lemma requests_obey_configuration_witness :
  run_obeys Machine.options true true
    (events (exec (run_command Machine.options true (SatelliteGet (Demo.id_of 7)))
      (<["/home/dev/.fleetctl/config.yaml" := config_text Machine.saved]> ∅ : Machine.Files)))
  /\ length (sent (events (exec (run_command Machine.options true (SatelliteGet (Demo.id_of 7)))
      (<["/home/dev/.fleetctl/config.yaml" := config_text Machine.saved]> ∅ : Machine.Files)))) = 1%nat.
Proof.
  split; [|vm_compute; reflexivity].
  exact (requests_obey_configuration Machine.options true (SatelliteGet (Demo.id_of 7)) _).
Defined.

Lemma client_speaks_contract_witness :
  Forall (aims_at "http://fleet.example")
    (client_calls "http://fleet.example/" 7 (mkLoginRequest "p" "u")
      (mkCreateSatelliteRequest "n" "r") (mkUpdateSatelliteRequest "r")
      (mkCreateUserRequest "p" (Some "viewer") "u")).
Proof.
  apply (client_speaks_contract server "http://fleet.example" 7 (mkLoginRequest "p" "u")
    (mkCreateSatelliteRequest "n" "r") (mkUpdateSatelliteRequest "r")
    (mkCreateUserRequest "p" (Some "viewer") "u")). reflexivity.
Defined.

(** The satellite [Demo.edge] as it is sent. *)
Definition edge_answer : gen_Satellite :=
  mkGenSatellite (Some 1%Z) (Some 7%N) (Some 5%Z) (Some "operator") (Some "edge-1") (Some "eu")
    (Some "Ready").

Lemma answers_understood_witness :
  GetSatellitesId_JSON200 <$> ParseGetSatellitesIdResponse (json_body 200 (gen_Satellite_json edge_answer))
  = Ok (Some edge_answer).
Proof.
  apply answers_understood. split_and!; intros ? [= <-]; try reflexivity;
    unfold rfc3339_time; vm_compute; by split.
Defined.
