(* ===== verification/DeployWitnesses.v ===== *)
(** * DeployWitnesses: a small deployment

    The machine of [CliWitnesses] with the fleet of [Witnesses] behind an address:
    every request is served at once, and the answer comes back. *)

From S2P Require Import Prelude.
From S2P Require Import GoStd.
From S2P Require Import Json.
From S2P Require Import Strconv.
From S2P Require Import Sql.
From S2P Require Import Jwt.
From S2P Require Import Http.
From S2P Require Import Chi.
From S2P Require Import Auth.
From S2P Require Import Gen.
From S2P Require Import Table.
From S2P Require Import Satellite.
From S2P Require Import SatelliteSpec.
From S2P Require Import SatelliteProps.
From S2P Require Import User.
From S2P Require Import UserSpec.
From S2P Require Import GenServer.
From S2P Require Import Server.
From S2P Require Import Fleet.
From S2P Require Import Drain.
From S2P Require Import Flags.
From S2P Require Import OperatorMain.
From S2P Require Import Proc.
From S2P Require Import Client.
From S2P Require Import CliConfig.
From S2P Require Import Cli.
From S2P Require Import CliProps.
From S2P Require Import Cobra.
From S2P Require Import Root.
From S2P Require Import Wire.
From S2P Require Import EndToEnd.
From S2P Require Import Deploy.
From S2P Require Import Alone.
From S2P Require Import AloneCreate.
From S2P Require Import Witnesses.
From S2P Require Import CliWitnesses.
Import RefUnicode JwtExamples RefLib RefTime RefClient RefChi.

#[local] Existing Instance PostgresRepository.
#[local] Existing Instance PostgresUsers.repository.
#[local] Existing Instance Mem.mem.

(** ** Draining *)

(** A server that has answered a version request and taken a health check, which
    still has its ping to send. *)
Definition version_and_health (s : pg_state) : Pool (outcome unit * Writer) :=
  mkPool s [serves "spec" manager (anonymous "/version"); serves "spec" manager (anonymous "/health")].

Lemma one_ping_left s :
  exists c, nsteps (pool_step (fun _ => False)) 1 (version_and_health s) c.
Proof.
  unfold version_and_health.
  assert (match serves "spec" manager (anonymous "/health") with Ping _ => true | _ => false end = true)
    as Hp by (vm_compute; reflexivity).
  destruct (serves "spec" manager (anonymous "/health")) as [| |k]; [done..|].
  destruct (pg_ping s) as [r s'] eqn:Hs. eexists. eapply nsteps_once. by eapply (step_ping _ s [_] k []).
Qed.

Lemma requests_finish_witness :
  within (cost "spec" manager (anonymous "/health")) (serves "spec" manager (anonymous "/health"))
  /\ (1 <= outstanding "spec" manager [anonymous "/version"; anonymous "/health"]
           (version_and_health demo_state))%nat.
Proof.
  split; [exact (proj1 (requests_finish "spec" manager) (anonymous "/health"))|].
  destruct (one_ping_left demo_state) as [c Hc].
  exact (proj2 (requests_finish "spec" manager) [anonymous "/version"; anonymous "/health"]
    (version_and_health demo_state) c 1
    (accepts _ _ [_] _ [_] _ (accepts _ _ [] _ [] _ (starts _ _ demo_state))) Hc).
Defined.

(** A token library with one token: the theorems here ask nothing of it, and short
    tokens keep the runs short. *)
Module PlainJWT.
#[global] Instance plain_jwt : JWTLib := {|
  NewNumericDate t := t;
  SignedString _ _ _ := Ok "t0ken";
  ParseWithClaims tok _ _ _ :=
    if String.eqb tok "t0ken" then
      Ok (mkClaims "human" "viewer" (mkRegistered "" "user-2" [] None None None ""), true)
    else Err (Foreign "token is malformed");
  token_claims _ _ := None
|}.
End PlainJWT.
Import PlainJWT.

(** A step at a time, the last request of a pool runs to its end. *)
Lemma pool_runs {A} (adm : prog A -> Prop) s ps p :
  rtc (pool_step adm) (mkPool s (ps ++ [p])) (mkPool (run p s).2 (ps ++ [Ret (run p s).1])).
Proof.
  revert s. induction p as [a|st k IH|k IH]; intros s; cbn; [done| |].
  - destruct (Mem.exec st s) as [r s'] eqn:Hq. eapply rtc_l; [|apply IH]. by constructor.
  - destruct (Mem.ping s) as [r s'] eqn:Hq. eapply rtc_l; [|apply IH]. by constructor.
Qed.

(** ** The deployment *)

Module Lan.

Definition site : Site := mkSite "http://fleet.example" "spec" manager (fun _ => False).

Definition World : Type := (gmap string string * Server)%type.

(** Serve a request, if it is for the server. *)
Definition serve_now (q : HttpRequest) (c : Server) : res HttpResponse * Server :=
  if HasPrefix (q_URL q) (base site +:+ "/") then
    let r := received q (q_Header q) (TrimPrefix (q_URL q) (base site)) issue_time 0 "salt" in
    let (ow, s) := run (serve site r) (pool_db c) in
    (match ow with
     | (Done _, w) => Ok (response_of w)
     | (Panicked _, _) => Err (Sentinel EOF)
     end, mkPool s (pool_reqs c ++ [Ret ow]))
  else (Err (Foreign "no route to host"), c).

#[global] Instance env : Env World := fun X c =>
  match c in call X return World -> X * World with
  | HttpDo _ q => fun w => let (a, c) := serve_now q w.2 in (a, (w.1, c))
  | c => fun w => let (x, f) := Machine.env _ c w.1 in (x, (f, w.2))
  end.

Lemma base_slash u : HasPrefix u (base site +:+ "/") = true -> u = base site +:+ TrimPrefix u (base site).
Proof. intros [v ->]%HasPrefix_iff. by rewrite <- append_assoc, TrimPrefix_app. Qed.

#[global] Instance deployment : Deployment site env.
Proof.
  refine {| server_in := snd |}.
  - intros d q [f [s ps]]. cbn [answer env fst snd]. unfold serve_now.
    destruct (HasPrefix (q_URL q) (base site +:+ "/")) eqn:Hp; [|by apply goes_elsewhere].
    set (r := received q (q_Header q) (TrimPrefix (q_URL q) (base site)) issue_time 0 "salt").
    cbn [pool_db pool_reqs].
    pose proof (pool_runs (others site) s ps (serve site r)) as Hruns.
    destruct (run (serve site r) s) as [[o w] s']. cbn [fst snd] in Hruns.
    eapply (is_served site q _ s ps (q_Header q) (TrimPrefix (q_URL q) (base site)) issue_time 0 "salt");
      [by apply base_slash|done|apply rtc_refl|exact Hruns|].
    destruct o as [[]|msg]; [|done]. exists w. cbn [pool_reqs].
    split; [by apply list_lookup_middle|]. unfold delivered. auto.
  - intros X c [f s] Hc. destruct c; cbn; try apply rtc_refl.
    exfalso. cbn in Hc. by specialize (Hc (Err (Sentinel EOF))).
Defined.

Definition server_at_start : Server := mkPool demo_state [].

Definition logged_in_files : gmap string string :=
  <["/home/dev/.fleetctl/config.yaml" :=
     config_text (mkConfig "http://fleet.example/" "t0ken")]> ∅.

Definition start : World := (logged_in_files, server_at_start).

Lemma quiet : quiet_site site.
Proof. intros p []. Qed.

Lemma rest : at_rest (server_in start).
Proof. apply Forall_nil_2. Qed.
End Lan.

Lemma demo_ok : db_ok Demo.tables.
Proof. exact (conj Demo.sats_ok (conj Demo.users_ok (conj demo_lifecycle demo_roles))). Qed.

(** The operator's satellite, asked for deletion. *)
Lemma fleetctl_keeps_operator_records_witness :
  let w' := world (exec (Execute ["satellite"; "delete"; Demo.id_of 7]) Lan.start) in
  operator_records_kept (sat_view Demo.tables) (sat_view (pg_view (pool_db w'.2))).
Proof.
  exact (proj2 (fleetctl_keeps_operator_records Lan.site ["satellite"; "delete"; Demo.id_of 7]
    Lan.start demo_state (fun p Hp => False_ind _ Hp) demo_ok (rtc_refl _ _))).
Defined.

(** The operator's satellite is shown, on a command line. *)
Lemma command_line_runs_command_witness :
  let run := exec (run_command (mkOptions "" "http://fleet.example" None) stdin_is_fd
                     (SatelliteGet (Demo.id_of 7))) Lan.start in
  ran (exec (Execute (line "" "http://fleet.example" (SatelliteGet (Demo.id_of 7)))) Lan.start)
    (events run) (result run).
Proof.
  apply (command_line_runs_command "" "http://fleet.example" (SatelliteGet (Demo.id_of 7)) Lan.start).
  constructor; [reflexivity|constructor].
Defined.

Lemma lan_config (run : Run (res unit) Lan.World) cfg :
  loaded Machine.options (events run)
    = Some (mkConfig "http://fleet.example/" "t0ken") ->
  loaded Machine.options (events run) = Some cfg -> api_base cfg = base Lan.site.
Proof. intros ->. by intros [= <-]. Qed.

(** The laboratory's satellite is deleted. *)
Lemma delete_takes_effect_witness :
  let run := exec (SatelliteCmd.newDeleteCommand Machine.options (Demo.id_of 8)) Lan.start in
  sat_view (view (world run).2) = delete 8%N (sat_view Demo.tables).
Proof.
  cbn zeta.
  destruct (delete_takes_effect Lan.site Machine.options (Demo.id_of 8) 8%N Lan.start
    Lan.quiet Lan.rest Demo.sats_ok eq_refl) as (s & _ & _ & Hv & _).
  - vm_compute. reflexivity.
  - reflexivity.
  - intros cfg. apply lan_config. vm_compute. reflexivity.
  - vm_compute. reflexivity.
  - exact Hv.
Defined.


(** A satellite is created from the command line. *)
Lemma create_takes_effect_witness :
  let run := exec (Execute (line "" "http://fleet.example/" (SatelliteCreate "orbit" "north"))) Lan.start in
  exists id now, added id (fresh_satellite id "orbit" "north" now) Demo.tables (view (world run).2).
Proof.
  cbn zeta.
  destruct (create_takes_effect Lan.site "" "http://fleet.example/" "orbit" "north" Lan.start
    Lan.quiet Lan.rest Demo.sats_ok eq_refl) as (id & now & Hadded & _).
  - discriminate.
  - reflexivity.
  - reflexivity.
  - reflexivity.
  - vm_compute. reflexivity.
  - exists id, now. exact Hadded.
Defined.

(** ** The operator's start-up *)

(** A scheme as a list of kinds. *)
Module RefScheme.
#[global] Instance ref_scheme : SchemeLib := {|
  Scheme := list (GroupVersion * string);
  SchemeBuilderT := list (list (GroupVersion * string) -> res (list (GroupVersion * string)));
  Knows s gv k := (gv, k) ∈ s;
  NewScheme := [];
  AddToGroupVersion gv s := Ok ((gv, "WatchEvent") :: s);
  AddKnownTypes gv ks s := Ok (map (pair gv) ks ++ s);
  NewSchemeBuilder f := [f];
  Register b f := b ++ [f];
  AddToScheme_ b s := fold_left (fun r f => s ← r; f s) b (Ok s);
  clientgo_AddToScheme s := Ok ((mkGroupVersion "" "v1", "Pod") :: s)
|}.

#[global] Instance ref_scheme_ok : SchemeLibOk ref_scheme.
Proof.
  split.
  - done.
  - intros b f s. cbn. by rewrite fold_left_app.
  - intros gv ks s s' k [= <-] Hk. cbn. apply elem_of_app. left.
    apply list_elem_of_fmap. by exists k.
Qed.
End RefScheme.

Lemma operator_startup_checked_witness :
  let (steps, code) := run_setup (fun _ => Ok tt)
    (main (H:=RefScheme.ref_scheme) (L:=unit) [] tt ["--metrics-bind-address=:8443"; "-leader-elect"]) in
  exists o, manager_safe ["--metrics-bind-address=:8443"; "-leader-elect"] o
    /\ map fst steps = startup_steps o /\ code = Some 0%Z.
Proof.
  pose proof (operator_startup_checked (H:=RefScheme.ref_scheme) (L:=unit) [] tt
    ["--metrics-bind-address=:8443"; "-leader-elect"] (fun _ => Ok tt)) as Hstart.
  destruct (run_setup _ _) as [steps code] eqn:Hrun.
  destruct Hstart as [[-> _]|(o & Hsafe & [(_ & Hsteps & Hcode)|(l1 & s & l2 & _ & _ & Hs & _)])].
  - vm_compute in Hrun. discriminate.
  - by exists o.
  - discriminate.
Defined.
